(* ===== verification/_CoqProject ===== *)
-Q . S2P
Prelude.v
CppStd.v
PackBcd.v
StringUtils.v
Checksum.v
CommonHeader.v
MessageIdentifier.v
MessageFields.v
MessageI010.v
MessageI081.v
MessageI083.v
CppMap.v
OrderBook.v
TaifexSdk.v
SdkStream.v
EndianUtils.v
RetransmissionProtocol.v
RetransmissionCodec.v
RetransmissionClient.v
ClientFraming.v
ClientLink.v
Logger.v
FileStream.v
LogFilePacketSimulator.v
PcapReplay.v
MulticastReceiver.v
NetworkManager.v
DedupWindow.v
DualFeed.v
NetworkLifecycle.v
NetworkEvents.v
Recovery.v
PacketThreads.v
ClientThreads.v
ReceiverThreads.v
LoggerThreads.v
RepoTests.v
