(* ===== verification/Prelude.v ===== *)
(** * TAIFEX market-data SDK: a verification library

    This library models the C++ SDK of this repository, which receives the
    market-data messages of the Taiwan Futures Exchange, checks and decodes
    them, keeps order books, and recovers lost messages from a retransmission
    server.  C++ functions are Rocq functions with the source's names; the
    theorems state what each part promises.  All paths below are under src/.

    ** The program and its model

    Bytes, integers, exceptions
    - Prelude.v (this file): the exception classes of error_codes.h ([exn],
      [is_a]), results of calls ([result]: a value, an exception, or undefined
      behaviour), methods of a stateful object ([method], state passing in
      which a mutation made before an exception stays), unsigned widths, bytes,
      pointers into readable memory ([pointer], [read1], [readn]: a read
      outside the memory is [Undefined]), tactics and shared lemmas.
    - CppStd.v: the standard-library conversions the code uses ([stoul],
      [stoull], [stoll], [to_string], [isdigit]).
    - CppMap.v: [std::map] as an ordered association list, for any strict
      total order given as a class, with its view as a finite map.

    The message path
    - PackBcd.v (pack_bcd.cpp), StringUtils.v (string_utils.cpp), Checksum.v
      (checksum.cpp): the leaf utilities.
    - CommonHeader.v (common_header.cpp): the 19-byte header and its getters.
    - MessageIdentifier.v (message_identifier.cpp): the message table.
    - MessageFields.v (messages/message_parser_utils.cpp, message_i001.cpp,
      message_i002.cpp): the decoding of one field, which every body parser
      repeats, and the empty bodies.
    - MessageI010.v, MessageI081.v, MessageI083.v (messages/message_i0xx.cpp):
      the three body parsers; the output struct is threaded through, so a
      refused body leaves it partly filled as in the source.
    - OrderBook.v (order_book/order_book.cpp): the book of one product.
    - TaifexSdk.v (sdk/taifex_sdk.cpp): the SDK object: product cache, books
      and channel sequence numbers, [process_message] and the handlers.

    - SdkStream.v: a stream of packets handed to the SDK object, and the
      algebra of accepted frames (order and repetition do not matter).

    The retransmission client
    - EndianUtils.v (networking/endian_utils.h): byte-order conversion; the
      byte order of the host is a class parameter.
    - RetransmissionProtocol.v (networking/retransmission_protocol.cpp): the
      message structs with their [serialize] and [deserialize] methods.
    - RetransmissionCodec.v: the wire format those methods implement, as one
      generic codec behind the interface [WireMessage]/[WireLaws].
    - RetransmissionClient.v (networking/retransmission_client.cpp): the TCP
      client; the operating system is the class [Env], callbacks and sent bytes
      are recorded in a trace.  ClientFraming.v: how it cuts the TCP stream
      into messages.  ClientLink.v: its connection and session.

    Replay
    - Logger.v (logger.cpp): levels, log statements and the line they print.
    - FileStream.v: the part of [std::ifstream] the simulator uses, over a file
      system given as a class.
    - LogFilePacketSimulator.v (utils/log_file_packet_simulator.cpp): the reader
      of capture files.
    - PcapReplay.v (examples/pcap_replay_example.cpp): the program that replays
      a capture into an SDK object.

    The network side
    - MulticastReceiver.v (networking/multicast_receiver.cpp): subscriptions,
      sockets and threads; the operating system is the class [McastEnv].
    - NetworkManager.v (networking/network_manager.cpp): configuration, start
      and stop, the callbacks of the receivers and of the client, duplicate
      suppression, and the failover to the backup server.  It owns the modelled
      receivers and client and calls the modelled SDK object, so a pass of a
      component's thread runs through all of them, and a data request of the
      application runs the disconnect callback inside the client's send, where
      it may replace the client.
    - DedupWindow.v: the deduplication log as a window on the keys seen.
      DualFeed.v: duplicate suppression over the two feeds.
    - NetworkLifecycle.v: the manager's invariant, start and stop.
      NetworkEvents.v: all interleavings of calls and thread passes, failover.
      Recovery.v: the way of a retransmitted packet to the SDK.

    Threads, step by step
    - PacketThreads.v: packet handlers ([process_incoming_packet]) of several
      threads, cut into their accesses to the running flag, the deduplication
      log and the SDK object.
    - ClientThreads.v: the client's receive loop against [stop] of the client
      and of the manager.
    - ReceiverThreads.v: the loops of a receiver's threads against its [stop].
    - LoggerThreads.v: log statements and changes of the level by several
      threads, which share the two streams and [log_mutex].
    In each the steps interleave in every order, and a lemma ties a run of
    them without interleaving to the whole call ([handler_atomic],
    [pass_steps] and [stop_steps], [loop_steps] and [halt_steps]); for the
    logger the whole calls are the specification.

    Conformance
    - RepoTests.v (main_*_test.cpp, tests/): the repository's tests as
      executable scenarios, evaluated on the model.

    ** What the theorems show

    - Codecs: PACK BCD, the header, and the retransmission messages round
      trip in both directions and accept nothing else, and no two messages of a
      type share an encoding; single-byte corruption
      is detected by both checksums; getters and parsers are total on readable
      memory, return the value their bytes denote, inside the documented
      range, and fail only as documented.
    - Order book: the container invariant holds in every reachable state;
      [apply_update] refines an update of two finite maps, level by level,
      whatever the sequence number and with the prices as parsed; a
      snapshot equals a reset followed by the corresponding updates; the top
      levels are the best ones.
    - SDK: [process_message] is memory safe, throws only [ParsingError], and
      changes the state only for well-formed frames; corrupted frames leave no
      trace; sequence tracking reports exactly the gap-free streams; an
      invariant ties cache, books and channels together over all call
      sequences; the handlers build the book the feed describes.
    - Retransmission client: reassembly of the TCP stream is independent of
      its chunks and delivers every message once, in order; requests are
      numbered and encoded as specified; the link state is consistent, also
      when the thread cannot be created; once the
      server can be reached, the client is logged in after a bounded number of
      passes.
    - Replay: the simulator returns the messages of a capture in order and
      nothing else, and throws only for a header size no vector can have; the
      replay of any file terminates.
    - Multicast receiver: every socket opened is held by one subscription or
      closed; [stop] closes all sockets and ends all threads.
    - Network manager: duplicate suppression implements a specification on the
      set of all keys ever seen, from which follow exactly-once delivery for
      feeds that are close together and, for feeds any distance apart, that the
      first packet of every key is handed on, late ones too, and the SDK
      state of a single feed; retransmitted packets always reach the SDK, and
      fill gaps; the invariant of the whole object graph holds over all
      interleavings of whole calls and passes, the only undefined behaviour
      being the overflow in the check code of a login, so that the manager can
      be destroyed in each of its states; [stop], as a whole, releases
      everything; a failover from a request of the application works, or throws
      when the new thread cannot be created, and one on the client's thread
      never works.
    - Threads: however the handlers of the feeds and of the retransmitted
      packets interleave, every header that arrived is handed on and the log
      stays within its limit and one entry per thread; a receiver's [stop] never
      takes a socket or a subscription from a thread that still uses it, lets
      each thread deliver one packet more at most, and completes; the client's
      [stop] ends its thread within seven of the thread's steps, which hand on
      at most the message whose turn had begun and report one loss of the
      connection at most; the
      logger behaves as if its calls were made whole, in the order in which
      they take the mutex, so lines are never mixed, and without deadlock.
    - Conformance: of 47 tests the model passes all but three, on either byte
      order; these three and the tests of duplicate suppression and of the
      SDK's dispatch assert what the code does not do, and a theorem for each
      says what it does.
    - Where the code departs from its comments, its documentation or its
      purpose, a theorem states what it does instead (stale updates are
      applied, prices are not scaled, a client whose thread could not be created
      counts as running, combination products never get a book, sequence numbers are
      truncated to 32 bits, oversized responses cannot be read back, a session
      can be reported after the connection is lost, a corrupted first copy
      hides the intact one, failover on the client's thread throws, two
      threads can forward both copies of a packet, a socket opened while the
      client is stopped stays open, a disconnection noticed while the manager
      is stopped terminates the program, a file without a full global header is
      opened, a reconnected client reads on behind the bytes of the old
      connection, a response of a certain size is taken for market data).

    ** Modelling choices and bounds

    - Integers are [Z] with explicit truncation where the code casts or wraps;
      signed overflow is [Undefined].  Sizes ([size_t]) are [nat]: no sum of
      sizes in the code comes near 2^64.
    - Loops over input are structural.  Three loops carry fuel: sending (fuel
      the message length, since a pass sends a byte or ends), the client's
      receive loop (fuel the buffer length, since a pass removes three bytes or
      ends) and the replay loop (fuel what is left of the file, since a pass
      reads a record header or ends); running out of fuel would be [Undefined],
      and the theorems show it does not happen.  The loops of the threads run
      until they are told to stop; they are modelled pass by pass.
    - Log statements are dropped from the other components, except that the
      getters called inside them are kept, since they may throw.
    - Maps keyed by strings or numbers whose order the code never observes are
      stdpp's [gmap].
    - The operating system is a parameter: the answer to the n-th question.
      A socket, a connection, a subscription, a send, a receive and the
      creation of a thread may each fail.  What is assumed: a system call
      returns, [recv] in particular, which holds if the receive timeout is set
      ([setsockopt] fails silently in the source, and its failure is not
      modelled); what [recv] delivers are bytes ([EnvBytes], [NetBytes]); memory is unlimited, so [std::bad_alloc] does
      not occur; closing a socket succeeds.  What a single theorem assumes
      beyond that (a server that answers, a password whose check code can be
      computed) is among its hypotheses and in its comment.
    - A callback that the client invokes from a request of the application runs
      at its place inside the request.  In a pass of the client's own thread the
      callbacks run in order after the pass; [callback_leaves_client] shows that
      this makes no difference for a callback that returns, and one that does
      not return ends the program.
    - Except in the four files on threads, calls of one object and passes of
      one thread are atomic and interleave in any order; the theorems there say
      so, and those of ClientThreads.v show what else can happen between the
      parts of a [stop].  In the files on threads a step is
      one access to what the threads share: one operation of the log, one call
      of [process_message], one test of the running flag, the handling of the
      message at the front of the receive buffer, one system call
      with its bookkeeping.  The network manager takes no lock and the SDK
      object documents that it is not thread safe, so data races inside such a
      step are possible; they are outside the model.  The bounds on steps
      (six per packet, seven for the client's loop, six per subscription and
      three more for a receiver's [stop]) count the longest way through the
      points of a loop once the flag is cleared.
    - [std::terminate] and the use of an absent object are [Undefined]; an
      exception that leaves a thread's function is the result of its pass.

    ** Not modelled

    - Waiting ([sleep_for]) and socket options without effect on the results.
    - The test programs of the logger and of the exception classes, which only
      print; build files and the generated and installed copies under build/.
    - [dispatch_message_body], [get_order_book], [get_product_info],
      [on_retransmission_logged_in]: declared, and defined nowhere. *)

From Corelib Require Export ssreflect.
From stdpp Require Export base tactics numbers list gmap strings sorting.
From Stdlib Require Export ZArith Lia.

#[export] Set Default Goal Selector "!".
#[export] Set Warnings "-rewrite-rw".
#[global] Open Scope general_if_scope.
#[global] Open Scope Z_scope.

(** ** Effects *)

(** The exception classes the code throws (error_codes.h and <stdexcept>).
    Exception texts are only logged and are not modelled. *)
Inductive exn : Type :=
| std_runtime_error
| CoreUtilsException
| InvalidArgumentError
| ParsingError
| ConfigurationError
| IOError
| std_out_of_range
| std_invalid_argument
| std_system_error
| std_length_error.

(** [is_a e c]: a [catch (const c&)] clause catches [e], i.e. the class
    hierarchy of error_codes.h and of the standard library. *)
Definition is_a (e c : exn) : bool :=
  match c, e with
  | std_runtime_error,
    (std_runtime_error | CoreUtilsException | InvalidArgumentError | ParsingError
     | ConfigurationError | IOError | std_system_error) => true
  | CoreUtilsException,
    (CoreUtilsException | InvalidArgumentError | ParsingError
     | ConfigurationError | IOError) => true
  | InvalidArgumentError, InvalidArgumentError => true
  | ParsingError, ParsingError => true
  | ConfigurationError, ConfigurationError => true
  | IOError, IOError => true
  | std_out_of_range, std_out_of_range => true
  | std_invalid_argument, std_invalid_argument => true
  | std_system_error, std_system_error => true
  | std_length_error, std_length_error => true
  | _, _ => false
  end.

(** The result of a call: a value, an exception in flight, or undefined
    behaviour (a read outside the object a pointer designates, a signed
    overflow). *)
Inductive result (A : Type) : Type :=
| Ok (a : A)
| Throw (e : exn)
| Undefined.
Arguments Ok {A} a.
Arguments Throw {A} e.
Arguments Undefined {A}.

#[export] Instance result_ret : MRet result := λ A a, Ok a.
#[export] Instance result_bind : MBind result := λ A B f r,
  match r with
  | Ok a => f a
  | Throw e => Throw e
  | Undefined => Undefined
  end.

(** [try_catch r h]: [try { r } catch (...)], where [h e] is [None] when no
    clause matches [e], so that the exception keeps propagating. *)
Definition try_catch {A} (r : result A) (h : exn → option (result A)) : result A :=
  match r with
  | Throw e => default (Throw e) (h e)
  | _ => r
  end.

(** Methods of a stateful object: the object is mutated in place, so an
    exception does not undo the mutations made before it. *)
Definition method (S A : Type) : Type := S → S * result A.

#[export] Instance method_ret {S} : MRet (method S) := λ A a s, (s, Ok a).
#[export] Instance method_bind {S} : MBind (method S) := λ A B f m s,
  match m s with
  | (s', Ok a) => f a s'
  | (s', Throw e) => (s', Throw e)
  | (s', Undefined) => (s', Undefined)
  end.

(** A call to a function that does not touch the object. *)
Definition lift {S A} (r : result A) : method S A := λ s, (s, r).
Definition get {S} : method S S := λ s, (s, Ok s).
Definition modify {S} (f : S → S) : method S unit := λ s, (f s, Ok tt).

(** ** Machine integers: [Z] with the width written out *)

Definition u8 (z : Z) : Z := z `mod` 2 ^ 8.
Definition u16 (z : Z) : Z := z `mod` 2 ^ 16.
Definition u32 (z : Z) : Z := z `mod` 2 ^ 32.
Definition u64 (z : Z) : Z := z `mod` 2 ^ 64.
(** Ten to a digit count. *)
Abbreviation pow10 n := (Z.pow 10 (Z.of_nat n)).

Definition INT64_MIN : Z := - 2 ^ 63.
Definition INT64_MAX : Z := 2 ^ 63 - 1.

(** ** Bytes, strings and memory *)

(** [unsigned char]; a [std::string] is the list of its bytes. *)
Definition is_byte (b : Z) : Prop := (0 ≤ b < 256)%Z.

(** A string literal as a byte list. *)
Fixpoint str (s : string) : list Z :=
  match s with
  | EmptyString => []
  | String c s' => Z.of_nat (Ascii.nat_of_ascii c) :: str s'
  end.

(** A pointer argument: [None] is [nullptr], [Some mem] points to the first
    byte of the readable memory [mem]. *)
Definition pointer : Type := option (list Z).

(** [data[i]]. *)
Definition read1 (mem : list Z) (i : nat) : result Z :=
  match mem !! i with Some b => Ok b | None => Undefined end.

(** The [n] bytes at [data + off] (a [memcpy] source, a span that is read). *)
Definition readn (mem : list Z) (off n : nat) : result (list Z) :=
  if decide (off + n ≤ length mem)%nat then Ok (take n (drop off mem)) else Undefined.

(** ** Proof automation *)

Create HintDb cpp.

Ltac case_bool :=
  match goal with
  | |- context [if ?b then _ else _] => destruct b eqn:?
  | H : context [if ?b then _ else _] |- _ => destruct b eqn:?
  end.

Ltac bool_to_prop :=
  repeat match goal with
  | H : (_ && _)%bool = true |- _ => apply andb_true_iff in H as [? ?]
  | H : (_ || _)%bool = false |- _ => apply orb_false_iff in H as [? ?]
  | H : (_ <? _)%Z = true |- _ => apply Z.ltb_lt in H
  | H : (_ <? _)%Z = false |- _ => apply Z.ltb_ge in H
  | H : (_ <=? _)%Z = true |- _ => apply Z.leb_le in H
  | H : (_ <=? _)%Z = false |- _ => apply Z.leb_gt in H
  | H : (_ =? _)%Z = true |- _ => apply Z.eqb_eq in H
  | H : (_ =? _)%Z = false |- _ => apply Z.eqb_neq in H
  | H : (_ >? _)%Z = _ |- _ => rewrite Z.gtb_ltb in H
  | H : (_ <? _)%nat = true |- _ => apply Nat.ltb_lt in H
  | H : (_ <? _)%nat = false |- _ => apply Nat.ltb_ge in H
  | H : (_ =? _)%nat = true |- _ => apply Nat.eqb_eq in H
  | H : (_ =? _)%nat = false |- _ => apply Nat.eqb_neq in H
  | H : negb _ = true |- _ => apply negb_true_iff in H
  | H : negb _ = false |- _ => apply negb_false_iff in H
  end.

(** Runs a method on a state: unfolds the state-passing plumbing. *)
Ltac run_method := cbv beta iota delta [mbind method_bind mret method_ret lift get modify].

(** ** Generic lemmas *)

Lemma bind_Ok_inv {A B} (r : result A) (f : A → result B) b :
  (r ≫= f) = Ok b → ∃ a, r = Ok a ∧ f a = Ok b.
Proof. destruct r; naive_solver. Qed.

Lemma method_bind_Ok {S A B} (m : method S A) (f : A → method S B) s s' a :
  m s = (s', Ok a) → (m ≫= f) s = f a s'.
Proof. by rewrite /mbind /method_bind => ->. Qed.

Lemma method_bind_Throw {S A B} (m : method S A) (f : A → method S B) s s' e :
  m s = (s', Throw e) → (m ≫= f) s = (s', Throw e).
Proof. by rewrite /mbind /method_bind => ->. Qed.

Lemma read1_Ok mem i b : mem !! i = Some b → read1 mem i = Ok b.
Proof. by rewrite /read1 => ->. Qed.

Lemma readn_Ok mem off n :
  (off + n ≤ length mem)%nat → readn mem off n = Ok (take n (drop off mem)).
Proof. intros. rewrite /readn decide_True //. Qed.

Lemma length_slice {A} (l : list A) off n :
  (off + n ≤ length l)%nat → length (take n (drop off l)) = n.
Proof. intros. rewrite length_take length_drop. lia. Qed.

Lemma Forall_slice {A} (P : A → Prop) (l : list A) off n :
  Forall P l → Forall P (take n (drop off l)).
Proof. intros. by apply Forall_take, Forall_drop. Qed.

Lemma elem_of_take_in {A} (l : list A) n x : x ∈ take n l → x ∈ l.
Proof. intros. rewrite -(take_drop n l). apply elem_of_app. by left. Qed.

Lemma elem_of_drop_in {A} (l : list A) n x : x ∈ drop n l → x ∈ l.
Proof. intros. rewrite -(take_drop n l). apply elem_of_app. by right. Qed.

(** A sum over a list in which one element is replaced. *)
Lemma sum_insert {A} (f : A → nat) (l : list A) i x t :
  l !! i = Some t → (sum_list_with f (<[i := x]> l) + f t)%nat = (sum_list_with f l + f x)%nat.
Proof.
  revert i. induction l as [|y l IH]; intros i Hi; [done|]. destruct i as [|i]; cbn in *.
  - injection Hi as ->. lia.
  - rewrite -!Nat.add_assoc. f_equal. by apply IH.
Qed.

Lemma pow10_pos n : (0 ≤ n)%Z → (0 < 10 ^ n)%Z.
Proof. intros. by apply Z.pow_pos_nonneg. Qed.

#[export] Hint Resolve read1_Ok readn_Ok length_slice Forall_slice pow10_pos : cpp.
