(* ===== verification/CppStd.v ===== *)
(** * Standard-library string conversions

    The numeric conversions of <string> and <cctype> the SDK calls:
    [isdigit], [isspace], [std::stoul], [std::stoull], [std::stoll] and
    [std::to_string].  They follow the C standard's strtol family in base 10
    and the "C" locale, on an LP64 target ([unsigned long] has 64 bits):
    leading white space is skipped, one sign is accepted, the longest digit
    run is converted, [invalid_argument] is thrown when there is no digit and
    [out_of_range] when the value does not fit. *)

From S2P Require Import Prelude.

(** ** Definitions *)

Definition isdigit (c : Z) : bool := (48 <=? c) && (c <=? 57).

Definition isspace (c : Z) : bool := (c =? 32) || ((9 <=? c) && (c <=? 13)).

Fixpoint skip_space (s : list Z) : list Z :=
  match s with
  | c :: s' => if isspace c then skip_space s' else s
  | [] => []
  end.

(** The longest digit prefix. *)
Fixpoint digit_run (s : list Z) : list Z :=
  match s with
  | c :: s' => if isdigit c then c :: digit_run s' else []
  | [] => []
  end.

(** The value of a digit string, most significant digit first. *)
Definition digits_val (s : list Z) : Z :=
  foldl (λ acc c, acc * 10 + (c - 48)) 0 s.

Definition split_sign (s : list Z) : bool * list Z :=
  match s with
  | 45 :: s' => (true, s')
  | 43 :: s' => (false, s')
  | _ => (false, s)
  end.

(** Sign and magnitude of the converted prefix; [None]: no conversion. *)
Definition strto (s : list Z) : option (bool * Z) :=
  let '(neg, s') := split_sign (skip_space s) in
  match digit_run s' with
  | [] => None
  | ds => Some (neg, digits_val ds)
  end.

Definition stoull (s : list Z) : result Z :=
  match strto s with
  | None => Throw std_invalid_argument
  | Some (neg, m) =>
      if m >? 2 ^ 64 - 1 then Throw std_out_of_range
      else Ok (if neg then u64 (- m) else m)
  end.

Definition stoul (s : list Z) : result Z := stoull s.

Definition stoll (s : list Z) : result Z :=
  match strto s with
  | None => Throw std_invalid_argument
  | Some (neg, m) =>
      let v := if neg then - m else m in
      if (v <? INT64_MIN) || (v >? INT64_MAX) then Throw std_out_of_range else Ok v
  end.

(** [std::to_string] on a non-negative value; [fuel] bounds the digits. *)
Fixpoint to_digits (fuel : nat) (n : Z) (acc : list Z) : list Z :=
  match fuel with
  | O => acc
  | S fuel' =>
      let acc' := (48 + n `mod` 10) :: acc in
      if n / 10 =? 0 then acc' else to_digits fuel' (n / 10) acc'
  end.

(** 20 digits are enough for every 64-bit value. *)
Definition to_string (n : Z) : list Z :=
  if n <? 0 then 45 :: to_digits 20 (- n) [] else to_digits 20 n [].

Definition all_digits (s : list Z) : Prop := Forall (λ c, isdigit c = true) s.

(** ** Lemmas *)

Lemma isdigit_spec c : isdigit c = true ↔ 48 ≤ c ≤ 57.
Proof. rewrite /isdigit andb_true_iff !Z.leb_le //. Qed.

Lemma isdigit_not_space c : isdigit c = true → isspace c = false.
Proof.
  rewrite isdigit_spec /isspace orb_false_iff andb_false_iff Z.eqb_neq !Z.leb_gt. lia.
Qed.

Lemma digit_run_all s : all_digits s → digit_run s = s.
Proof. induction 1 as [|c s Hc _ IH]; [done|]. by rewrite /= Hc IH. Qed.

Lemma digits_val_from acc s :
  foldl (λ acc c, acc * 10 + (c - 48)) acc s = acc * pow10 (length s) + digits_val s.
Proof.
  revert acc. induction s as [|c s IH]=> acc.
  - rewrite /digits_val /=. lia.
  - rewrite /digits_val /= IH [foldl _ (0 * 10 + _) s]IH.
    rewrite Nat2Z.inj_succ Z.pow_succ_r; lia.
Qed.

Lemma digits_val_cons c s :
  digits_val (c :: s) = (c - 48) * pow10 (length s) + digits_val s.
Proof. rewrite {1}/digits_val /= digits_val_from. lia. Qed.

Lemma digits_val_app s1 s2 :
  digits_val (s1 ++ s2) = digits_val s1 * pow10 (length s2) + digits_val s2.
Proof. by rewrite {1}/digits_val foldl_app digits_val_from. Qed.

Lemma digits_val_bound s : all_digits s → 0 ≤ digits_val s < pow10 (length s).
Proof.
  induction 1 as [|c s Hc _ IH]; [done|].
  apply isdigit_spec in Hc. rewrite digits_val_cons /= Nat2Z.inj_succ Z.pow_succ_r; nia.
Qed.

Lemma digits_val_zeros n : digits_val (replicate n 48) = 0.
Proof. induction n as [|n IH]; [done|]. rewrite /= digits_val_cons IH. lia. Qed.

Lemma all_digits_zeros n : all_digits (replicate n 48).
Proof. by apply Forall_replicate. Qed.

(** Dropping leading digits keeps the value modulo a power of ten. *)
Lemma digits_val_drop s k :
  all_digits s → (k ≤ length s)%nat →
  digits_val (drop k s) = digits_val s `mod` pow10 (length s - k).
Proof.
  intros Hs Hk.
  have Hl : length (drop k s) = (length s - k)%nat by rewrite length_drop.
  rewrite -{2}(take_drop k s) digits_val_app Hl.
  rewrite Z.add_comm Z_mod_plus_full Z.mod_small //.
  rewrite -Hl. apply digits_val_bound, Forall_drop, Hs.
Qed.

Lemma strto_digits s :
  all_digits s → s ≠ [] → strto s = Some (false, digits_val s).
Proof.
  intros Hs Hne. destruct s as [|c s']; [done|].
  have Hc : isdigit c = true by inversion Hs.
  rewrite /strto /= (isdigit_not_space _ Hc).
  have -> : split_sign (c :: s') = (false, c :: s').
  { apply isdigit_spec in Hc. rewrite /split_sign.
    repeat (case_match; try lia); done. }
  rewrite digit_run_all //.
Qed.

(** A digit string of at most 19 digits converts, to its value. *)
Lemma stoull_digits s :
  all_digits s → s ≠ [] → (length s ≤ 19)%nat → stoull s = Ok (digits_val s).
Proof.
  intros Hs Hne Hl. rewrite /stoull strto_digits //.
  pose proof (digits_val_bound _ Hs).
  have : pow10 (length s) ≤ 10 ^ 19 by apply Z.pow_le_mono_r; lia.
  case_bool; [|done]. bool_to_prop. lia.
Qed.

Lemma stoul_digits s :
  all_digits s → s ≠ [] → (length s ≤ 19)%nat → stoul s = Ok (digits_val s).
Proof. apply stoull_digits. Qed.

Lemma stoll_digits s :
  all_digits s → s ≠ [] → (length s ≤ 18)%nat → stoll s = Ok (digits_val s).
Proof.
  intros Hs Hne Hl. rewrite /stoll strto_digits //.
  pose proof (digits_val_bound _ Hs).
  have : pow10 (length s) ≤ 10 ^ 18 by apply Z.pow_le_mono_r; lia.
  rewrite /INT64_MIN /INT64_MAX.
  case_bool; [|done]. apply orb_true_iff in Heqb as [?|?]; bool_to_prop; lia.
Qed.

Lemma stoll_cases s :
  (∃ v, stoll s = Ok v) ∨ stoll s = Throw std_invalid_argument ∨ stoll s = Throw std_out_of_range.
Proof. rewrite /stoll. destruct (strto s) as [[neg m]|]; [case_bool|]; eauto. Qed.

#[export] Hint Resolve all_digits_zeros isdigit_not_space : cpp.
