(* ===== verification/PackBcd.v ===== *)
(** * PACK BCD conversion (pack_bcd.cpp)

    [asciiToPackBcd] packs a digit string two digits per byte, both
    [packBcdToAscii] overloads unpack it; the lemmas give each function on
    every branch and the decimal value of what is decoded. *)

From S2P Require Import Prelude CppStd.

(** ** Definitions *)

Definition nibble1 (byte : Z) : Z := Z.land (Z.shiftr byte 4) 15.
Definition nibble2 (byte : Z) : Z := Z.land byte 15.

(** The packing loop: two digits per iteration. *)
Fixpoint pack_pairs (s : list Z) : list Z :=
  match s with
  | c1 :: c2 :: s' =>
      let d1 := u8 (c1 - 48) in
      let d2 := u8 (c2 - 48) in
      u8 (Z.lor (Z.shiftl d1 4) d2) :: pack_pairs s'
  | _ => []
  end.

Definition asciiToPackBcd (ascii_numeric_str : list Z) : result (list Z) :=
  if negb (forallb isdigit ascii_numeric_str) then
    if (length ascii_numeric_str =? 0)%nat then Ok []
    else Throw std_runtime_error
  else if (length ascii_numeric_str =? 0)%nat then Ok []
  else
    let s := if negb (length ascii_numeric_str mod 2 =? 0)%nat
             then 48 :: ascii_numeric_str else ascii_numeric_str in
    Ok (pack_pairs s).

(** The decoding loop shared by both overloads of [packBcdToAscii]. *)
Fixpoint decode_nibbles (bcd_data : list Z) : result (list Z) :=
  match bcd_data with
  | [] => Ok []
  | byte :: rest =>
      if (nibble1 byte >? 9) || (nibble2 byte >? 9) then Throw std_runtime_error
      else
        ds ← decode_nibbles rest;
        Ok (nibble1 byte + 48 :: nibble2 byte + 48 :: ds)
  end.

Definition packBcdToAscii (bcd_data : list Z) (num_digits : nat) : result (list Z) :=
  full_decoded_str ← decode_nibbles bcd_data;
  if (num_digits =? 0)%nat && negb (length bcd_data =? 0)%nat then Ok full_decoded_str
  else if (num_digits =? 0)%nat && (length bcd_data =? 0)%nat then Ok []
  else if (length full_decoded_str <? num_digits)%nat then
    Ok (replicate (num_digits - length full_decoded_str) 48 ++ full_decoded_str)
  else if (num_digits <? length full_decoded_str)%nat then
    Ok (drop (length full_decoded_str - num_digits) full_decoded_str)
  else Ok full_decoded_str.

Definition packBcdToAscii_all (bcd_data : list Z) : result (list Z) :=
  if (length bcd_data =? 0)%nat then Ok [] else decode_nibbles bcd_data.

(** *** Specification vocabulary *)

Definition bcd_byte (b : Z) : bool := (nibble1 b <=? 9) && (nibble2 b <=? 9).
Definition bcd_ok (l : list Z) : bool := forallb bcd_byte l.
Definition bcd_digits (l : list Z) : list Z :=
  flat_map (λ b, [nibble1 b + 48; nibble2 b + 48]) l.

(** The number a PACK BCD field denotes: two decimal digits per byte. *)
Definition bcd_val (l : list Z) : Z :=
  foldl (λ acc b, acc * 100 + nibble1 b * 10 + nibble2 b) 0 l.

(** Right-align a digit string in [n] columns ([n = 0]: leave it alone). *)
Definition fit (n : nat) (s : list Z) : list Z :=
  if (n =? 0)%nat then s
  else replicate (n - length s) 48 ++ drop (length s - n) s.

#[global] Arguments fit : simpl never.

(** ** Lemmas *)

Lemma land_15 x : Z.land x 15 = x `mod` 16.
Proof. apply (Z.land_ones x 4). lia. Qed.

Lemma nibble1_range b : 0 ≤ nibble1 b ≤ 15.
Proof. rewrite /nibble1 land_15. pose proof (Z.mod_pos_bound (Z.shiftr b 4) 16). lia. Qed.

Lemma nibble2_range b : 0 ≤ nibble2 b ≤ 15.
Proof. rewrite /nibble2 land_15. pose proof (Z.mod_pos_bound b 16). lia. Qed.

Lemma nibbles_byte b : is_byte b → b = 16 * nibble1 b + nibble2 b.
Proof.
  rewrite /is_byte /nibble1 /nibble2 !land_15 Z.shiftr_div_pow2 //. change (2 ^ 4) with 16.
  intros. rewrite (Z.mod_small (b / 16)); [|apply Z.div_mod; lia].
  split; [apply Z.div_pos; lia|apply Z.div_lt_upper_bound; lia].
Qed.

Lemma nibbles_pack d1 d2 :
  0 ≤ d1 ≤ 9 → 0 ≤ d2 ≤ 9 →
  let b := u8 (Z.lor (Z.shiftl d1 4) d2) in nibble1 b = d1 ∧ nibble2 b = d2.
Proof.
  intros H1 H2.
  have Hd : d1 ∈ seqZ 0 10 by apply elem_of_seqZ; lia.
  have Hd' : d2 ∈ seqZ 0 10 by apply elem_of_seqZ; lia.
  clear H1 H2. cbn in Hd, Hd'.
  repeat (apply elem_of_cons in Hd as [->|Hd]; [|]); try by apply not_elem_of_nil in Hd.
  all: repeat (apply elem_of_cons in Hd' as [->|Hd']; [by vm_compute|]);
    by apply not_elem_of_nil in Hd'.
Qed.

Lemma decode_nibbles_spec l :
  decode_nibbles l = if bcd_ok l then Ok (bcd_digits l) else Throw std_runtime_error.
Proof.
  induction l as [|b l IH]; [done|]. rewrite /= /bcd_byte !Z.gtb_ltb !Z.leb_antisym.
  destruct (9 <? nibble1 b), (9 <? nibble2 b); rewrite //= IH. by destruct (bcd_ok l).
Qed.

Lemma length_bcd_digits l : length (bcd_digits l) = (2 * length l)%nat.
Proof. induction l as [|b l IH]; [done|]. rewrite /= IH. lia. Qed.

Lemma bcd_digits_all l : bcd_ok l = true → all_digits (bcd_digits l).
Proof.
  induction l as [|b l IH]; [constructor|]. rewrite /= => /andb_true_iff [Hb Hl].
  rewrite /bcd_byte in Hb. bool_to_prop.
  pose proof (nibble1_range b). pose proof (nibble2_range b).
  constructor; [apply isdigit_spec; lia|]. constructor; [apply isdigit_spec; lia|by apply IH].
Qed.

Lemma bcd_val_digits l : bcd_val l = digits_val (bcd_digits l).
Proof.
  rewrite /bcd_val /digits_val. generalize 0.
  induction l as [|b l IH]=> acc; [done|]. rewrite /= IH. f_equal. lia.
Qed.

Lemma length_fit n s : n ≠ 0%nat → length (fit n s) = n.
Proof.
  intros. rewrite /fit. case_bool; bool_to_prop; [done|].
  rewrite length_app length_replicate length_drop. lia.
Qed.

Lemma fit_all n s : all_digits s → all_digits (fit n s).
Proof.
  intros Hs. rewrite /fit. case_bool; [done|].
  apply Forall_app; split; [apply all_digits_zeros|by apply Forall_drop].
Qed.

Lemma fit_val n s :
  n ≠ 0%nat → all_digits s → digits_val (fit n s) = digits_val s `mod` pow10 n.
Proof.
  intros Hn Hs. rewrite /fit. case_bool; bool_to_prop; [done|].
  rewrite digits_val_app digits_val_zeros Z.mul_0_l Z.add_0_l digits_val_drop; [done|lia|].
  destruct (decide (length s ≤ n)%nat).
  - replace (length s - (length s - n))%nat with (length s) by lia.
    pose proof (digits_val_bound _ Hs).
    have Hp : pow10 (length s) ≤ pow10 n by apply Z.pow_le_mono_r; lia.
    rewrite !Z.mod_small; lia.
  - by replace (length s - (length s - n))%nat with n by lia.
Qed.

Lemma fit_id s : fit (length s) s = s.
Proof.
  rewrite /fit Nat.sub_diag drop_0. by destruct (length s =? 0)%nat.
Qed.

Lemma fit_zero s : s ≠ [] → fit (length s) (48 :: s) = s.
Proof.
  intros Hne. rewrite /fit. destruct s as [|c s]; [done|].
  cbn [length Nat.eqb]. replace (S (length s) - S (S (length s)))%nat with 0%nat by lia.
  replace (S (S (length s)) - S (length s))%nat with 1%nat by lia. done.
Qed.

(** [packBcdToAscii] on every branch. *)
Lemma packBcdToAscii_eq l n :
  packBcdToAscii l n =
  if bcd_ok l then Ok (fit n (bcd_digits l)) else Throw std_runtime_error.
Proof.
  rewrite /packBcdToAscii decode_nibbles_spec. destruct (bcd_ok l); [|done].
  rewrite /= /fit. pose proof (length_bcd_digits l) as Hl.
  destruct (n =? 0)%nat eqn:Hn; simpl.
  - destruct (length l =? 0)%nat eqn:Hl0; simpl; [|done].
    bool_to_prop. by destruct l.
  - destruct (length (bcd_digits l) <? n)%nat eqn:?; bool_to_prop.
    { by replace (length (bcd_digits l) - n)%nat with 0%nat by lia. }
    destruct (n <? length (bcd_digits l))%nat eqn:?; bool_to_prop;
      replace (n - length (bcd_digits l))%nat with 0%nat by lia; [done|].
    by replace (length (bcd_digits l) - n)%nat with 0%nat by lia.
Qed.

Lemma packBcdToAscii_all_eq l :
  packBcdToAscii_all l =
  if bcd_ok l then Ok (bcd_digits l) else Throw std_runtime_error.
Proof.
  rewrite /packBcdToAscii_all decode_nibbles_spec. by destruct l.
Qed.

(** What a numeric field decodes to: the digits, their value and its bound. *)
Lemma packBcdToAscii_num l n :
  n ≠ 0%nat → bcd_ok l = true →
  ∃ s, packBcdToAscii l n = Ok s ∧ all_digits s ∧ length s = n
       ∧ digits_val s = bcd_val l `mod` pow10 n.
Proof.
  intros Hn Hok. exists (fit n (bcd_digits l)).
  have Hd := bcd_digits_all _ Hok.
  rewrite packBcdToAscii_eq Hok length_fit // fit_val // bcd_val_digits.
  split_and!; auto using fit_all.
Qed.

Lemma pack_pairs_digits s :
  all_digits s → Nat.Even (length s) →
  bcd_ok (pack_pairs s) = true ∧ bcd_digits (pack_pairs s) = s.
Proof.
  remember (length s) as n eqn:Hn. revert s Hn.
  induction n as [n IH] using lt_wf_ind. intros s -> Hs He.
  destruct s as [|c1 [|c2 s]]; [done| |].
  { destruct He as [k Hk]. simpl in Hk. lia. }
  inversion Hs as [|? ? H1 Hs']; subst. inversion Hs' as [|? ? H2 Hs'']; subst.
  apply isdigit_spec in H1, H2. simpl.
  destruct (IH (length s)) with (s := s) as [IH1 IH2]; [simpl; lia|done|done| |].
  { destruct He as [k Hk]. exists (k - 1)%nat. simpl in Hk. lia. }
  have E1 : u8 (c1 - 48) = c1 - 48 by apply Z.mod_small; lia.
  have E2 : u8 (c2 - 48) = c2 - 48 by apply Z.mod_small; lia.
  rewrite E1 E2.
  destruct (nibbles_pack (c1 - 48) (c2 - 48)) as [N1 N2]; [lia..|].
  rewrite /bcd_byte N1 N2 IH1 IH2. split.
  - rewrite andb_true_r andb_true_iff !Z.leb_le. lia.
  - repeat f_equal; lia.
Qed.

#[export] Hint Resolve nibble1_range nibble2_range bcd_digits_all fit_all : cpp.

Lemma bcd_val_bound l : bcd_ok l = true → 0 ≤ bcd_val l < pow10 (2 * length l).
Proof.
  intros Hok. rewrite bcd_val_digits -length_bcd_digits.
  by apply digits_val_bound, bcd_digits_all.
Qed.

(** On its whole width a field decodes to exactly its BCD value. *)
Lemma bcd_val_width l n :
  bcd_ok l = true → n = (2 * length l)%nat → bcd_val l `mod` pow10 n = bcd_val l.
Proof. intros Hok ->. apply Z.mod_small. by apply bcd_val_bound. Qed.

Lemma digits_val_inj s1 s2 :
  all_digits s1 → all_digits s2 → length s1 = length s2 →
  digits_val s1 = digits_val s2 → s1 = s2.
Proof.
  intros H1. revert s2. induction H1 as [|c1 s1 Hc1 H1 IH]; intros s2 H2 Hl Hv.
  { by destruct s2. }
  destruct s2 as [|c2 s2]; [done|]. inversion H2 as [|? ? Hc2 H2']; subst.
  simpl in Hl. injection Hl as Hl. rewrite !digits_val_cons Hl in Hv.
  pose proof (digits_val_bound _ H1) as B1. rewrite Hl in B1.
  pose proof (digits_val_bound _ H2') as B2.
  apply isdigit_spec in Hc1, Hc2.
  have E : c1 = c2 by nia. subst. f_equal. apply IH; [done..|lia].
Qed.

Lemma bcd_digits_inj l1 l2 :
  Forall is_byte l1 → Forall is_byte l2 → bcd_digits l1 = bcd_digits l2 → l1 = l2.
Proof.
  intros H1. revert l2. induction H1 as [|b1 l1 Hb1 H1 IH]; intros l2 H2 He.
  { by destruct l2. }
  destruct H2 as [|b2 l2 Hb2 H2]; [done|]. injection He as E1 E2 He.
  rewrite (nibbles_byte b1) // (nibbles_byte b2) //. f_equal; [lia|by apply IH].
Qed.

(** Two valid fields of the same width with the same value are the same
    bytes. *)
Lemma bcd_val_inj l1 l2 :
  Forall is_byte l1 → Forall is_byte l2 → length l1 = length l2 →
  bcd_ok l1 = true → bcd_ok l2 = true → bcd_val l1 = bcd_val l2 → l1 = l2.
Proof.
  intros ?? Hl H1 H2 Hv. apply bcd_digits_inj; [done..|].
  apply digits_val_inj; [by apply bcd_digits_all..| |].
  - by rewrite !length_bcd_digits Hl.
  - by rewrite -!bcd_val_digits.
Qed.

Lemma asciiToPackBcd_digits s :
  all_digits s →
  asciiToPackBcd s = Ok (pack_pairs (if Nat.odd (length s) then 48 :: s else s)).
Proof.
  intros Hs. rewrite /asciiToPackBcd.
  have -> : forallb isdigit s = true.
  { induction Hs as [|c s Hc _ IH]; [done|]. by rewrite /= Hc. }
  simpl. destruct (length s =? 0)%nat eqn:E; bool_to_prop; [by destruct s|].
  f_equal. f_equal. rewrite -Nat.negb_even.
  have -> : (length s mod 2 =? 0)%nat = Nat.even (length s).
  { apply eq_true_iff_eq. rewrite Nat.eqb_eq Nat.even_spec. split.
    - intros Hm. exists (length s / 2)%nat. pose proof (Nat.div_mod_eq (length s) 2). lia.
    - intros [k ->]. rewrite Nat.mul_comm. apply Nat.Div0.mod_mul. }
  done.
Qed.

Lemma asciiToPackBcd_nondigits s :
  ¬ all_digits s → asciiToPackBcd s = Throw std_runtime_error.
Proof.
  intros Hs. rewrite /asciiToPackBcd.
  destruct (forallb isdigit s) eqn:E; [|by destruct s; [destruct Hs; constructor|]].
  destruct Hs. induction s as [|c s IH]; [constructor|].
  simpl in E. apply andb_true_iff in E as [? ?]. by constructor; [|apply IH].
Qed.

Lemma pack_pairs_bytes s : Forall is_byte (pack_pairs s).
Proof.
  remember (length s) as n eqn:Hn. revert s Hn.
  induction n as [n IH] using lt_wf_ind. intros s ->.
  destruct s as [|c1 [|c2 s]]; [constructor..|]. simpl. constructor.
  - apply Z.mod_pos_bound. lia.
  - by apply (IH (length s)); [simpl; lia|].
Qed.

Lemma odd_pad_even s :
  Nat.Even (length (if Nat.odd (length s) then 48 :: s else s)).
Proof.
  destruct (Nat.odd (length s)) eqn:E; [|by apply Nat.even_spec; rewrite -Nat.negb_odd E].
  apply Nat.even_spec. cbn [length]. by rewrite Nat.even_succ.
Qed.

(** ** Properties *)

(** Every digit string survives packing: [asciiToPackBcd] succeeds on it,
    uses one byte per two digits (a leading zero nibble when the count is
    odd), and [packBcdToAscii] with the original digit count gives the same
    string back. *)
Theorem ascii_bcd_roundtrip s (Hs : all_digits s) :
  ∃ l, asciiToPackBcd s = Ok l ∧ length l = ((length s + 1) / 2)%nat
       ∧ packBcdToAscii l (length s) = Ok s.
Proof.
  eexists. split; [by apply asciiToPackBcd_digits|].
  set (s' := if Nat.odd (length s) then 48 :: s else s).
  have Hs' : all_digits s'.
  { rewrite /s'. case_bool; [|done]. by constructor. }
  destruct (pack_pairs_digits s' Hs' (odd_pad_even s)) as [Hok Hd].
  have Hl := length_bcd_digits (pack_pairs s'). rewrite Hd in Hl.
  rewrite packBcdToAscii_eq Hok Hd. rewrite /s' in Hl |- *.
  destruct (Nat.odd (length s)) eqn:Ho; cbn [length] in Hl; 
    (split; [apply (Nat.div_unique _ 2 _ (if Nat.odd (length s) then 0 else 1)%nat);
             rewrite Ho; lia|]); [|by rewrite fit_id].
  rewrite fit_zero //. by destruct s.
Qed.

Lemma ascii_bcd_roundtrip_witness :
  ∃ l, asciiToPackBcd (str "12345") = Ok l ∧ length l = 3%nat
       ∧ packBcdToAscii l 5 = Ok (str "12345").
Proof. apply (ascii_bcd_roundtrip (str "12345")). repeat constructor. Defined.

(** Conversely, well-formed PACK BCD data decodes with the one-argument
    [packBcdToAscii] to a digit string that packs back to the same bytes. *)
Theorem bcd_ascii_roundtrip l (Hb : Forall is_byte l) (Hok : bcd_ok l = true) :
  ∃ s, packBcdToAscii_all l = Ok s ∧ all_digits s ∧ asciiToPackBcd s = Ok l.
Proof.
  exists (bcd_digits l). have Hd := bcd_digits_all _ Hok.
  rewrite packBcdToAscii_all_eq Hok asciiToPackBcd_digits //. split_and!; [done..|].
  have Ho : Nat.odd (length (bcd_digits l)) = false.
  { rewrite length_bcd_digits -Nat.negb_even Nat.even_mul //. }
  rewrite Ho. f_equal.
  have He : Nat.Even (length (bcd_digits l)) by rewrite length_bcd_digits; exists (length l).
  destruct (pack_pairs_digits _ Hd He) as [Hok' Hd'].
  by apply bcd_digits_inj; [apply pack_pairs_bytes|..].
Qed.

Lemma bcd_ascii_roundtrip_witness :
  ∃ s, packBcdToAscii_all [18; 52; 6] = Ok s ∧ all_digits s ∧ asciiToPackBcd s = Ok [18; 52; 6].
Proof.
  apply bcd_ascii_roundtrip; [|reflexivity]. rewrite /is_byte. repeat constructor; lia.
Defined.

(** The value of a numeric field: on valid BCD the decoded string has
    exactly [num_digits] digits and denotes the field's decimal value modulo
    ten to the [num_digits]; on a field with a nibble above nine both
    overloads throw [std::runtime_error] and nothing else is ever thrown. *)
Theorem packBcdToAscii_spec l n (Hn : n ≠ 0%nat) :
  if bcd_ok l then
    ∃ s, packBcdToAscii l n = Ok s ∧ all_digits s ∧ length s = n
         ∧ digits_val s = bcd_val l `mod` pow10 n
  else packBcdToAscii l n = Throw std_runtime_error
       ∧ packBcdToAscii_all l = Throw std_runtime_error.
Proof.
  destruct (bcd_ok l) eqn:Hok; [by apply packBcdToAscii_num|].
  by rewrite packBcdToAscii_eq packBcdToAscii_all_eq Hok.
Qed.

Lemma packBcdToAscii_spec_witness :
  ∃ s, packBcdToAscii [1; 35; 69; 103; 137] 9 = Ok s ∧ all_digits s ∧ length s = 9%nat
       ∧ digits_val s = bcd_val [1; 35; 69; 103; 137] `mod` pow10 9.
Proof. apply (packBcdToAscii_spec [1; 35; 69; 103; 137] 9). lia. Defined.

(** [asciiToPackBcd] throws [std::runtime_error] exactly on the strings
    with a character that is not a digit, and succeeds on all others. *)
Theorem asciiToPackBcd_errors s :
  (asciiToPackBcd s = Throw std_runtime_error ↔ ¬ all_digits s)
  ∧ ((∃ l, asciiToPackBcd s = Ok l) ↔ all_digits s).
Proof.
  destruct (decide (all_digits s)) as [Hs|Hs].
  - rewrite asciiToPackBcd_digits //. naive_solver.
  - rewrite asciiToPackBcd_nondigits //. naive_solver.
Qed.
