(* ===== verification/StringUtils.v ===== *)
(** * Byte and hexadecimal strings (string_utils.cpp) *)

From S2P Require Import Prelude.

(** ** Definitions *)

Definition bytesToString (data : pointer) (len : nat) : result (list Z) :=
  match data with
  | None => Ok []
  | Some mem => if (len =? 0)%nat then Ok [] else readn mem 0 len
  end.

(** An upper-case hexadecimal digit ([std::hex << std::uppercase]). *)
Definition hex_digit (n : Z) : Z := if n <? 10 then 48 + n else 55 + n.

(** [oss << std::setw(2) << static_cast<int>(b)] with fill character '0':
    the hexadecimal digits of [b], padded on the left to two columns. *)
Definition hex_byte (b : Z) : list Z :=
  let digits := if b <? 16 then [hex_digit b] else [hex_digit (b / 16); hex_digit (b `mod` 16)] in
  replicate (2 - length digits) 48 ++ digits.

Definition bytesToHexString (data : pointer) (len : nat) : result (list Z) :=
  match data with
  | None => Ok []
  | Some mem =>
      if (len =? 0)%nat then Ok []
      else bs ← readn mem 0 len; Ok (flat_map hex_byte bs)
  end.

Definition bytesToHexString_vec (data : list Z) : result (list Z) :=
  if (length data =? 0)%nat then Ok [] else bytesToHexString (Some data) (length data).

(** *** Specification: reading a hexadecimal string back *)

Definition unhex_digit (c : Z) : Z := if c <? 58 then c - 48 else c - 55.

Fixpoint unhex (s : list Z) : list Z :=
  match s with
  | c1 :: c2 :: s' => unhex_digit c1 * 16 + unhex_digit c2 :: unhex s'
  | _ => []
  end.

(** ** Lemmas *)

Lemma unhex_hex_digit n : 0 ≤ n < 16 → unhex_digit (hex_digit n) = n.
Proof. intros. rewrite /unhex_digit /hex_digit. repeat case_bool; bool_to_prop; lia. Qed.

Lemma hex_byte_eq b : is_byte b → hex_byte b = [hex_digit (b / 16); hex_digit (b `mod` 16)].
Proof.
  rewrite /is_byte /hex_byte => Hb. case_bool; [|done]. bool_to_prop.
  rewrite Z.div_small ?Z.mod_small //; lia.
Qed.

Lemma unhex_flat_hex l : Forall is_byte l → unhex (flat_map hex_byte l) = l.
Proof.
  induction 1 as [|b l Hb Hl IH]; [done|]. cbn [flat_map].
  rewrite hex_byte_eq // /= IH !unhex_hex_digit.
  - rewrite /is_byte in Hb. split; [apply Z.div_pos; lia|apply Z.div_lt_upper_bound; lia].
  - by apply Z.mod_pos_bound.
  - f_equal. pose proof (Z.div_mod b 16). lia.
Qed.

(** ** Properties *)

(** [bytesToHexString] on a byte vector never fails, writes exactly two
    characters per byte, and loses nothing: reading the hexadecimal pairs back
    gives the original bytes. *)
Theorem hex_roundtrip l (Hl : Forall is_byte l) :
  ∃ s, bytesToHexString_vec l = Ok s ∧ length s = (2 * length l)%nat ∧ unhex s = l.
Proof.
  exists (flat_map hex_byte l). split_and!.
  - rewrite /bytesToHexString_vec /bytesToHexString readn_Ok //= drop_0 firstn_all.
    by destruct l.
  - induction Hl as [|b l Hb _ IH]; [done|]. cbn [flat_map]. rewrite hex_byte_eq //= IH. lia.
  - by apply unhex_flat_hex.
Qed.

Lemma hex_roundtrip_witness :
  ∃ s, bytesToHexString_vec [222; 173; 0; 7] = Ok s ∧ length s = 8%nat
       ∧ unhex s = [222; 173; 0; 7].
Proof. apply (hex_roundtrip [222; 173; 0; 7]). rewrite /is_byte. repeat constructor; lia. Defined.
