(* ===== verification/Checksum.v ===== *)
(** * XOR checksum of market-data messages (checksum.cpp) *)

From S2P Require Import Prelude.

(** ** Definitions *)

Definition xor_step (checksum b : Z) : Z := Z.lxor checksum b.

Definition calculateXorChecksum (data_segment : list Z) : Z :=
  if (length data_segment =? 0)%nat then 0 else foldl xor_step 0 data_segment.

Definition calculateXorChecksum_vec (data : list Z) : Z :=
  if (length data =? 0)%nat then 0 else calculateXorChecksum data.

Definition verifyXorChecksum (data_segment : list Z) (expected_checksum : Z) : bool :=
  calculateXorChecksum data_segment =? expected_checksum.

Definition verifyXorChecksum_vec (data : list Z) (expected_checksum : Z) : bool :=
  verifyXorChecksum data expected_checksum.

(** ** Lemmas *)

Lemma calculateXorChecksum_eq l : calculateXorChecksum l = foldl xor_step 0 l.
Proof. by destruct l. Qed.

Lemma foldl_xor acc l : foldl xor_step acc l = Z.lxor acc (foldl xor_step 0 l).
Proof.
  revert acc. induction l as [|b l IH]=> acc; [by rewrite /= Z.lxor_0_r|].
  rewrite /= IH [foldl _ (xor_step 0 b) l]IH /xor_step Z.lxor_0_l Z.lxor_assoc //.
Qed.

Lemma xor_app l1 l2 :
  calculateXorChecksum (l1 ++ l2)
  = Z.lxor (calculateXorChecksum l1) (calculateXorChecksum l2).
Proof. by rewrite !calculateXorChecksum_eq foldl_app foldl_xor. Qed.

Lemma xor_cons b l : calculateXorChecksum (b :: l) = Z.lxor b (calculateXorChecksum l).
Proof. rewrite !calculateXorChecksum_eq /= foldl_xor /xor_step Z.lxor_0_l //. Qed.

(** A segment followed by its checksum cancels out. *)
Lemma xor_self l : calculateXorChecksum (l ++ [calculateXorChecksum l]) = 0.
Proof. by rewrite xor_app xor_cons Z.lxor_0_r Z.lxor_nilpotent. Qed.

Lemma lxor_byte a b : is_byte a → is_byte b → is_byte (Z.lxor a b).
Proof.
  rewrite /is_byte => Ha Hb.
  have H0 : 0 ≤ Z.lxor a b by apply Z.lxor_nonneg; lia.
  split; [done|]. destruct (Z.eq_dec (Z.lxor a b) 0) as [->|Hne]; [lia|].
  change 256 with (2 ^ 8). apply Z.log2_lt_pow2; [lia|].
  have := Z.log2_lxor a b. have Hl : ∀ x, 0 ≤ x < 256 → Z.log2 x < 8.
  { intros x Hx. destruct (Z.eq_dec x 0) as [->|?]; [done|]. apply Z.log2_lt_pow2; lia. }
  pose proof (Hl a Ha). pose proof (Hl b Hb). lia.
Qed.

Lemma checksum_byte l : Forall is_byte l → is_byte (calculateXorChecksum l).
Proof.
  induction 1 as [|b l Hb Hl IH]; [by rewrite calculateXorChecksum_eq|].
  rewrite xor_cons. by apply lxor_byte.
Qed.

(** Changing one byte changes the checksum. *)
Lemma checksum_insert_ne l i b b' :
  l !! i = Some b → b ≠ b' →
  calculateXorChecksum (<[i := b']> l) ≠ calculateXorChecksum l.
Proof.
  intros Hi Hne. revert i Hi. induction l as [|c l IH]; intros [|i] Hi; simplify_eq/=.
  - rewrite !xor_cons => E. apply Hne.
    apply (f_equal (λ x, Z.lxor x (calculateXorChecksum l))) in E.
    by rewrite !Z.lxor_assoc Z.lxor_nilpotent !Z.lxor_0_r in E.
  - rewrite !xor_cons => E. apply (IH i Hi).
    apply (f_equal (Z.lxor c)) in E.
    by rewrite -!Z.lxor_assoc Z.lxor_nilpotent !Z.lxor_0_l in E.
Qed.

(** ** Properties *)

(** The checksum of a segment is a byte, a segment followed by its own
    checksum has checksum zero, and the order of the bytes does not matter. *)
Theorem checksum_algebra l l' (Hl : Forall is_byte l) (Hp : l ≡ₚ l') :
  is_byte (calculateXorChecksum l)
  ∧ calculateXorChecksum (l ++ [calculateXorChecksum l]) = 0
  ∧ calculateXorChecksum l' = calculateXorChecksum l
  ∧ verifyXorChecksum l' (calculateXorChecksum_vec l) = true.
Proof.
  have Hperm : calculateXorChecksum l' = calculateXorChecksum l.
  { induction Hp as [|x l l' Hp IH|x y l|l1 l2 l3 H1 IH1 H2 IH2]; [done| | |].
    - rewrite !xor_cons IH //. by inversion Hl.
    - by rewrite !xor_cons -!Z.lxor_assoc (Z.lxor_comm x).
    - rewrite IH2 ?IH1 //. by rewrite -H1. }
  split_and!; [by apply checksum_byte| |done|].
  - apply xor_self.
  - rewrite /verifyXorChecksum Hperm. apply Z.eqb_eq. by destruct l.
Qed.

Lemma checksum_algebra_witness :
  is_byte (calculateXorChecksum [27; 50; 65])
  ∧ calculateXorChecksum ([27; 50; 65] ++ [calculateXorChecksum [27; 50; 65]]) = 0
  ∧ calculateXorChecksum [50; 27; 65] = calculateXorChecksum [27; 50; 65]
  ∧ verifyXorChecksum [50; 27; 65] (calculateXorChecksum_vec [27; 50; 65]) = true.
Proof.
  apply (checksum_algebra [27; 50; 65] [50; 27; 65]); [|apply Permutation_swap].
  rewrite /is_byte. repeat constructor; lia.
Defined.

(** The checksum detects every single-byte error: replacing one byte of a
    segment by a different value makes [verifyXorChecksum] fail against the
    checksum of the original segment. *)
Theorem checksum_detects_single_byte l i b b'
  (Hi : l !! i = Some b) (Hne : b ≠ b') :
  verifyXorChecksum l (calculateXorChecksum l) = true
  ∧ verifyXorChecksum (<[i := b']> l) (calculateXorChecksum l) = false
  ∧ verifyXorChecksum_vec (<[i := b']> l) (calculateXorChecksum_vec l) = false.
Proof.
  rewrite /verifyXorChecksum_vec /verifyXorChecksum. rewrite Z.eqb_refl.
  have Hv : calculateXorChecksum_vec l = calculateXorChecksum l by destruct l.
  rewrite Hv. split_and!; [done|..]; apply Z.eqb_neq; by eapply checksum_insert_ne.
Qed.

Lemma checksum_detects_single_byte_witness :
  verifyXorChecksum [49; 49; 7] (calculateXorChecksum [49; 49; 7]) = true
  ∧ verifyXorChecksum (<[2%nat := 6]> [49; 49; 7]) (calculateXorChecksum [49; 49; 7]) = false
  ∧ verifyXorChecksum_vec (<[2%nat := 6]> [49; 49; 7]) (calculateXorChecksum_vec [49; 49; 7]) = false.
Proof. apply (checksum_detects_single_byte [49; 49; 7] 2 7 6); [reflexivity|lia]. Defined.
