(* ===== verification/CommonHeader.v ===== *)
(** * The common message header (common_header.cpp)

    [CommonHeader::parse] splits the first 19 bytes of a message; the getters
    decode its BCD fields.  The lemmas show that the getters' range checks and
    conversion-error handlers are never reached: a getter returns the decimal
    value of its field, or throws [ParsingError] when a nibble is above nine. *)

From S2P Require Import Prelude CppStd PackBcd.

(** ** Definitions *)

Definition HEADER_SIZE : nat := 19.

Record CommonHeader : Type := mkCommonHeader {
  esc_code : Z;
  transmission_code : Z;
  message_kind : Z;
  information_time_bcd : list Z;
  channel_id_bcd : list Z;
  channel_seq_bcd : list Z;
  version_no_bcd : Z;
  body_length_bcd : list Z;
}.

(** The default constructor. *)
Definition CommonHeader_default : CommonHeader := {|
  esc_code := 0; transmission_code := 0; message_kind := 0;
  information_time_bcd := replicate 6 0;
  channel_id_bcd := replicate 2 0;
  channel_seq_bcd := replicate 5 0;
  version_no_bcd := 0;
  body_length_bcd := replicate 2 0;
|}.

Definition CommonHeader_parse (buffer : pointer) (buffer_len : nat)
    (out_header : CommonHeader) : result (bool * CommonHeader) :=
  match buffer with
  | None => Ok (false, out_header)
  | Some mem =>
      if (buffer_len <? HEADER_SIZE)%nat then Ok (false, out_header)
      else
        let offset := 0%nat in
        esc ← read1 mem offset;
        let offset := (offset + 1)%nat in
        tc ← read1 mem offset;
        let offset := (offset + 1)%nat in
        mk ← read1 mem offset;
        let offset := (offset + 1)%nat in
        it ← readn mem offset 6;
        let offset := (offset + 6)%nat in
        ci ← readn mem offset 2;
        let offset := (offset + 2)%nat in
        cs ← readn mem offset 5;
        let offset := (offset + 5)%nat in
        vn ← read1 mem offset;
        let offset := (offset + 1)%nat in
        bl ← readn mem offset 2;
        let offset := (offset + 2)%nat in
        Ok ((offset =? HEADER_SIZE)%nat, mkCommonHeader esc tc mk it ci cs vn bl)
  end.

Definition bcdArrayToNumericString (bcd_array : list Z) (num_digits : nat) : result (list Z) :=
  try_catch (packBcdToAscii bcd_array num_digits) (λ e,
    if is_a e ParsingError then Some (Throw ParsingError)
    else if is_a e std_runtime_error then Some (Throw ParsingError)
    else None).

Definition bcdByteToNumericString (bcd_byte : Z) (num_digits : nat) : result (list Z) :=
  try_catch (packBcdToAscii [bcd_byte] num_digits) (λ e,
    if is_a e ParsingError then Some (Throw ParsingError)
    else if is_a e std_runtime_error then Some (Throw ParsingError)
    else None).

(** The [catch] clauses every numeric getter shares. *)
Definition conversion_handler {A} (e : exn) : option (result A) :=
  if is_a e std_out_of_range then Some (Throw ParsingError)
  else if is_a e std_invalid_argument then Some (Throw ParsingError)
  else None.

Definition getInformationTimeString (h : CommonHeader) : result (list Z) :=
  bcdArrayToNumericString (information_time_bcd h) 12.

Definition getChannelId (h : CommonHeader) : result Z :=
  s ← bcdArrayToNumericString (channel_id_bcd h) 4;
  try_catch
    (val ← stoul s;
     if val >? 2 ^ 32 - 1 then Throw std_out_of_range else Ok (u32 val))
    conversion_handler.

Definition getChannelSeq (h : CommonHeader) : result Z :=
  s ← bcdArrayToNumericString (channel_seq_bcd h) 10;
  try_catch (stoull s) conversion_handler.

Definition getVersionNo (h : CommonHeader) : result Z :=
  s ← bcdByteToNumericString (version_no_bcd h) 2;
  try_catch
    (val ← stoul s;
     if val >? 2 ^ 8 - 1 then Throw std_out_of_range else Ok (u8 val))
    conversion_handler.

Definition getBodyLength (h : CommonHeader) : result Z :=
  s ← bcdArrayToNumericString (body_length_bcd h) 4;
  try_catch
    (val ← stoul s;
     if val >? 2 ^ 16 - 1 then Throw std_out_of_range else Ok (u16 val))
    conversion_handler.

(** *** Specification vocabulary *)

(** The array sizes of the struct. *)
Definition wf_header (h : CommonHeader) : Prop :=
  length (information_time_bcd h) = 6%nat ∧ length (channel_id_bcd h) = 2%nat
  ∧ length (channel_seq_bcd h) = 5%nat ∧ length (body_length_bcd h) = 2%nat.

(** A field decoded as a number. *)
Definition bcd_field (l : list Z) : result Z :=
  if bcd_ok l then Ok (bcd_val l) else Throw ParsingError.

(** The header's bytes on the wire. *)
Definition header_bytes (h : CommonHeader) : list Z :=
  [esc_code h; transmission_code h; message_kind h] ++ information_time_bcd h
  ++ channel_id_bcd h ++ channel_seq_bcd h ++ [version_no_bcd h] ++ body_length_bcd h.

(** ** Lemmas *)

Lemma bcdArrayToNumericString_eq l n :
  bcdArrayToNumericString l n =
  if bcd_ok l then Ok (fit n (bcd_digits l)) else Throw ParsingError.
Proof. rewrite /bcdArrayToNumericString packBcdToAscii_eq. by destruct (bcd_ok l). Qed.

(** A decoded field that fits in [2 * length l] digits below [bound] passes
    every check of a getter. *)
Lemma getter_eq l n bound (conv : Z → Z) :
  n = (2 * length l)%nat → (1 ≤ n ≤ 18)%nat → pow10 n ≤ bound →
  (∀ v, 0 ≤ v < bound → conv v = v) →
  (s ← bcdArrayToNumericString l n;
   try_catch (val ← stoul s; if val >? bound - 1 then Throw std_out_of_range else Ok (conv val))
     conversion_handler) = bcd_field l.
Proof.
  intros Hn Hr Hb Hc. rewrite bcdArrayToNumericString_eq /bcd_field.
  destruct (bcd_ok l) eqn:Hok; [|done]. cbn.
  have Hd := bcd_digits_all _ Hok.
  have Hl : length (fit n (bcd_digits l)) = n by apply length_fit; lia.
  rewrite stoul_digits; [by apply fit_all| |lia|].
  { intros E. rewrite E /= in Hl. lia. }
  have Hv : digits_val (fit n (bcd_digits l)) = bcd_val l.
  { rewrite fit_val //; [lia|]. rewrite -bcd_val_digits. by apply bcd_val_width. }
  have Hbd := bcd_val_bound _ Hok. rewrite -Hn in Hbd.
  rewrite Hv /=. destruct (bcd_val l >? bound - 1) eqn:E; bool_to_prop; [lia|].
  rewrite Hc //. lia.
Qed.

Lemma getChannelId_eq h : wf_header h → getChannelId h = bcd_field (channel_id_bcd h).
Proof.
  intros (_ & Hl & _). apply (getter_eq _ _ (2 ^ 32)); [lia..|done|].
  intros. by apply Z.mod_small.
Qed.

Lemma getBodyLength_eq h : wf_header h → getBodyLength h = bcd_field (body_length_bcd h).
Proof.
  intros (_ & _ & _ & Hl). apply (getter_eq _ _ (2 ^ 16)); [lia..|done|].
  intros. by apply Z.mod_small.
Qed.

Lemma getVersionNo_eq h : getVersionNo h = bcd_field [version_no_bcd h].
Proof.
  apply (getter_eq [version_no_bcd h] _ (2 ^ 8)); [done|lia|done|].
  intros. by apply Z.mod_small.
Qed.

Lemma getChannelSeq_eq h : wf_header h → getChannelSeq h = bcd_field (channel_seq_bcd h).
Proof.
  intros (_ & _ & Hl & _).
  rewrite -(getter_eq (channel_seq_bcd h) 10 (2 ^ 64) id) //; [lia..|].
  rewrite /getChannelSeq bcdArrayToNumericString_eq.
  destruct (bcd_ok _) eqn:Hok; [|done]. cbn.
  have Hd := bcd_digits_all _ Hok.
  have Hf : length (fit 10 (bcd_digits (channel_seq_bcd h))) = 10%nat by apply length_fit.
  have Hne : fit 10 (bcd_digits (channel_seq_bcd h)) ≠ [] by intros E; rewrite E in Hf.
  have Hbd := digits_val_bound _ (fit_all 10 _ Hd). rewrite Hf in Hbd.
  rewrite /stoul stoull_digits ?Hf; [by apply fit_all|done|lia|]. cbn.
  case_bool; [|done]. bool_to_prop. change (pow10 10) with 10000000000 in Hbd. lia.
Qed.

Lemma bcd_field_Ok l v : bcd_field l = Ok v → bcd_ok l = true ∧ v = bcd_val l.
Proof. rewrite /bcd_field. by destruct (bcd_ok l) => [[->]|]. Qed.

Lemma bcd_field_total l : (∃ v, bcd_field l = Ok v) ∨ bcd_field l = Throw ParsingError.
Proof. rewrite /bcd_field. destruct (bcd_ok l); eauto. Qed.

Lemma bcd_field_range l v : bcd_field l = Ok v → 0 ≤ v < pow10 (2 * length l).
Proof. intros [? ->]%bcd_field_Ok. by apply bcd_val_bound. Qed.

Lemma header_bytes_length h : wf_header h → length (header_bytes h) = HEADER_SIZE.
Proof.
  intros (?&?&?&?). rewrite /header_bytes !length_app /=. unfold HEADER_SIZE. lia.
Qed.

(** A buffer of at least 19 bytes is a header followed by the rest. *)
Lemma split_header mem :
  (HEADER_SIZE ≤ length mem)%nat →
  ∃ h, wf_header h ∧ mem = header_bytes h ++ drop HEADER_SIZE mem.
Proof.
  rewrite /HEADER_SIZE => Hl.
  do 19 (destruct mem as [|? mem]; [simpl in Hl; lia|]).
  eexists (mkCommonHeader _ _ _ [_;_;_;_;_;_] [_;_] [_;_;_;_;_] _ [_;_]).
  split; [by rewrite /wf_header|]. by rewrite /header_bytes /=.
Qed.

(** Parsing a well-formed header followed by anything returns it. *)
Lemma parse_header_bytes h rest n out :
  wf_header h → (HEADER_SIZE ≤ n)%nat →
  CommonHeader_parse (Some (header_bytes h ++ rest)) n out = Ok (true, h).
Proof.
  intros (H1 & H2 & H3 & H4) Hn. destruct h as [e t m it ci cs vn bl]; simpl in *.
  rewrite /CommonHeader_parse. rewrite (proj2 (Nat.ltb_ge _ _) Hn).
  do 7 (destruct it as [|? it]; try done). do 3 (destruct ci as [|? ci]; try done).
  do 6 (destruct cs as [|? cs]; try done). do 3 (destruct bl as [|? bl]; try done).
Qed.

Lemma parse_short buf n out :
  (n < HEADER_SIZE)%nat → CommonHeader_parse buf n out = Ok (false, out).
Proof. intros. destruct buf; [|done]. by rewrite /= (proj2 (Nat.ltb_lt _ _)). Qed.

(** [parse] on a buffer whose [n] bytes are readable. *)
Lemma parse_cases mem n out :
  (n ≤ length mem)%nat →
  ((n < HEADER_SIZE)%nat ∧ CommonHeader_parse (Some mem) n out = Ok (false, out))
  ∨ ∃ h, wf_header h ∧ mem = header_bytes h ++ drop HEADER_SIZE mem
         ∧ CommonHeader_parse (Some mem) n out = Ok (true, h).
Proof.
  intros Hl. destruct (decide (n < HEADER_SIZE)%nat) as [Hn|Hn].
  { left. split; [done|]. by apply parse_short. }
  right. destruct (split_header mem) as (h & Hwf & E); [lia|].
  exists h. split_and!; [done..|]. rewrite E. apply parse_header_bytes; [done|lia].
Qed.

#[export] Hint Resolve header_bytes_length parse_header_bytes parse_short : cpp.

(** ** Properties *)

(** Parsing is the inverse of laying a header out on the wire: for every
    header with the declared array sizes, [CommonHeader::parse] on its 19
    bytes followed by any further data returns true and exactly that header;
    with fewer than 19 bytes (or a null buffer) it returns false and leaves
    the output header as it was. *)
Theorem header_parse_roundtrip h out rest n (Hwf : wf_header h) :
  (if (n <? HEADER_SIZE)%nat
   then CommonHeader_parse (Some (header_bytes h ++ rest)) n out = Ok (false, out)
   else CommonHeader_parse (Some (header_bytes h ++ rest)) n out = Ok (true, h))
  ∧ CommonHeader_parse None n out = Ok (false, out).
Proof.
  split; [|done]. case_bool; bool_to_prop; auto with cpp.
Qed.

Definition sample_header : CommonHeader :=
  mkCommonHeader 27 50 65 [9;0;1;2;3;4] [0;7] [0;0;0;0;66] 1 [0;50].

Lemma header_parse_roundtrip_witness :
  CommonHeader_parse (Some (header_bytes sample_header ++ [1; 2])) 21 CommonHeader_default
  = Ok (true, sample_header) ∧ CommonHeader_parse None 21 CommonHeader_default = Ok (false, CommonHeader_default).
Proof.
  apply (header_parse_roundtrip sample_header CommonHeader_default [1; 2] 21).
  repeat split.
Defined.

(** The getters are total up to malformed BCD: on a header of the
    declared shape the time getter returns the field's twelve digits, each
    numeric getter returns the decimal value of its field, inside the
    documented range (so the overflow and conversion handlers are dead code),
    or throws [ParsingError], exactly when the field has a nibble above nine. *)
Theorem header_getters_spec h (Hwf : wf_header h) :
  getInformationTimeString h
  = (if bcd_ok (information_time_bcd h) then Ok (bcd_digits (information_time_bcd h))
     else Throw ParsingError)
  ∧ getChannelId h = bcd_field (channel_id_bcd h)
  ∧ getChannelSeq h = bcd_field (channel_seq_bcd h)
  ∧ getVersionNo h = bcd_field [version_no_bcd h]
  ∧ getBodyLength h = bcd_field (body_length_bcd h)
  ∧ (∀ v, getChannelId h = Ok v → 0 ≤ v ≤ 9999)
  ∧ (∀ v, getChannelSeq h = Ok v → 0 ≤ v ≤ 9999999999)
  ∧ (∀ v, getVersionNo h = Ok v → 0 ≤ v ≤ 99)
  ∧ (∀ v, getBodyLength h = Ok v → 0 ≤ v ≤ 9999).
Proof.
  rewrite getChannelId_eq // getChannelSeq_eq // getVersionNo_eq getBodyLength_eq //.
  destruct Hwf as (L0 & L1 & L2 & L3).
  split.
  { rewrite /getInformationTimeString bcdArrayToNumericString_eq.
    replace 12%nat with (length (bcd_digits (information_time_bcd h))).
    - by rewrite fit_id.
    - by rewrite length_bcd_digits L0. }
  split_and!; try done; intros v Hv%bcd_field_range; rewrite ?L1 ?L2 ?L3 in Hv;
    simpl in Hv; lia.
Qed.

Lemma header_getters_spec_witness :
  getInformationTimeString sample_header
  = (if bcd_ok (information_time_bcd sample_header)
     then Ok (bcd_digits (information_time_bcd sample_header)) else Throw ParsingError)
  ∧ getChannelId sample_header = bcd_field (channel_id_bcd sample_header)
  ∧ getChannelSeq sample_header = bcd_field (channel_seq_bcd sample_header)
  ∧ getVersionNo sample_header = bcd_field [version_no_bcd sample_header]
  ∧ getBodyLength sample_header = bcd_field (body_length_bcd sample_header)
  ∧ (∀ v, getChannelId sample_header = Ok v → 0 ≤ v ≤ 9999)
  ∧ (∀ v, getChannelSeq sample_header = Ok v → 0 ≤ v ≤ 9999999999)
  ∧ (∀ v, getVersionNo sample_header = Ok v → 0 ≤ v ≤ 99)
  ∧ (∀ v, getBodyLength sample_header = Ok v → 0 ≤ v ≤ 9999).
Proof. apply (header_getters_spec sample_header). repeat split. Defined.
