(* ===== verification/MessageIdentifier.v ===== *)
(** * Message identification (message_identifier.cpp)

    The [(transmission code, message kind)] table and the identifier string
    derived from it. *)

From Stdlib Require Import Ascii.
From S2P Require Import Prelude CppStd CommonHeader.

(** ** Definitions *)

Definition formatLastThreeDigits (code_val : Z) : list Z :=
  if code_val <? 0 then str "XXX"
  else
    let num_str := to_string (Z.rem code_val 1000) in
    replicate (3 - length num_str) 48 ++ num_str.

(** The character literals of the table. *)
Definition chr (c : ascii) : Z := Z.of_nat (nat_of_ascii c).

Definition message_map : list ((Z * Z) * Z) :=
  let e tc mk code := ((chr tc, chr mk), code) in
  [ e "0" "1" 1001; e "0" "2" 1002;
    (* futures, transmission code '1' *)
    e "1" "1" 1010; e "1" "2" 1030; e "1" "3" 1011; e "1" "4" 1050; e "1" "5" 1060;
    e "1" "6" 1120; e "1" "7" 1130; e "1" "8" 1064; e "1" "A" 1012;
    (* '2' *)
    e "2" "1" 1070; e "2" "2" 1071; e "2" "3" 1072; e "2" "4" 1100; e "2" "A" 1081;
    e "2" "B" 1083; e "2" "C" 1084; e "2" "D" 1024; e "2" "E" 1025;
    (* '3' *)
    e "3" "1" 1070; e "3" "3" 1140; e "3" "4" 1073;
    (* options, transmission code '4' *)
    e "4" "1" 1010; e "4" "2" 1030; e "4" "3" 1011; e "4" "4" 1050; e "4" "5" 1060;
    e "4" "6" 1120; e "4" "7" 1130; e "4" "8" 1064; e "4" "A" 1012;
    (* '5' *)
    e "5" "1" 1070; e "5" "2" 1071; e "5" "3" 1072; e "5" "4" 1100; e "5" "A" 1081;
    e "5" "B" 1083; e "5" "C" 1084; e "5" "D" 1024; e "5" "E" 1025 ]%char.

(** [message_map.find]. *)
Fixpoint map_find (k : Z * Z) (m : list ((Z * Z) * Z)) : option Z :=
  match m with
  | [] => None
  | (k', v) :: m' => if decide (k = k') then Some v else map_find k m'
  end.

Definition find_code (k : Z * Z) : option Z := map_find k message_map.

(** The identifier string of a numeric code. *)
Definition code_id (code_val : Z) : list Z :=
  if code_val =? 1001 then str "M1001"
  else if code_val =? 1002 then str "M1002"
  else str "I" ++ formatLastThreeDigits code_val.

Definition identifyMessageId (header : CommonHeader) : list Z :=
  match find_code (transmission_code header, message_kind header) with
  | Some code_val => code_id code_val
  | None => []
  end.

(** ** Lemmas *)

(** The table is a map: no key occurs twice. *)
Lemma message_map_NoDup : NoDup message_map.*1.
Proof. by apply (bool_decide_unpack _); vm_compute. Qed.

Lemma map_find_Some k m v : map_find k m = Some v → (k, v) ∈ m.
Proof.
  induction m as [|[k' v'] m IH]; [done|]. simpl. case_decide; [|set_solver].
  intros [= ->]. subst. set_solver.
Qed.

Lemma map_find_elem k m v : NoDup m.*1 → (k, v) ∈ m → map_find k m = Some v.
Proof.
  induction m as [|[k' v'] m IH]; [set_solver|]. rewrite fmap_cons => /NoDup_cons [Hn Hd] Hin.
  simpl. apply elem_of_cons in Hin. case_decide as Hk; [subst|].
  - destruct Hin as [[= ->]|Hin]; [done|]. destruct Hn.
    apply list_elem_of_fmap. by exists (k', v).
  - destruct Hin as [[= -> ->]|Hin]; [done|by apply IH].
Qed.

Lemma find_code_iff k v : find_code k = Some v ↔ (k, v) ∈ message_map.
Proof. split; [apply map_find_Some|apply map_find_elem, message_map_NoDup]. Qed.

(** [to_string] below one thousand, by evaluation of all the cases. *)
Lemma format_check :
  forallb (λ n, let s := replicate (3 - length (to_string n)) 48 ++ to_string n in
     forallb isdigit s && (length s =? 3)%nat && (digits_val s =? n)) (seqZ 0 1000) = true.
Proof. vm_compute. reflexivity. Qed.

Lemma format_spec code :
  0 ≤ code →
  all_digits (formatLastThreeDigits code) ∧ length (formatLastThreeDigits code) = 3%nat
  ∧ digits_val (formatLastThreeDigits code) = code `mod` 1000.
Proof.
  intros Hc. rewrite /formatLastThreeDigits. rewrite (proj2 (Z.ltb_ge _ _)) //.
  rewrite Z.rem_mod_nonneg //. have Hm := Z.mod_pos_bound code 1000.
  pose proof format_check as Hf. rewrite forallb_forall in Hf.
  specialize (Hf (code `mod` 1000)).
  rewrite -list_elem_of_In elem_of_seqZ in Hf. specialize (Hf ltac:(lia)).
  cbv zeta in Hf. bool_to_prop. split_and!; [|done..].
  apply Forall_forall. intros c. rewrite list_elem_of_In. revert c. by apply forallb_forall.
Qed.

(** The keys whose identifier is [s]. *)
Definition keys_of (s : list Z) : list (Z * Z) :=
  fst <$> filter (λ e, code_id e.2 = s) message_map.

Lemma identify_iff h s :
  s ≠ [] →
  identifyMessageId h = s ↔ (transmission_code h, message_kind h) ∈ keys_of s.
Proof.
  intros Hs. rewrite /identifyMessageId /keys_of list_elem_of_fmap. split.
  - destruct (find_code _) as [v|] eqn:E; [|done]. intros <-.
    apply find_code_iff in E. eexists (_, v). split; [done|]. by apply list_elem_of_filter.
  - intros ([k v] & Hk & Hin). apply list_elem_of_filter in Hin as [Hv Hin].
    simpl in *. rewrite Hk. apply find_code_iff in Hin. by rewrite Hin.
Qed.

(** ** Properties *)

(** Identification is exact for every message the SDK handles: a header
    is identified as I010, I081, I083, M1001 or M1002 precisely for the
    futures and options (transmission code, message kind) pairs of the table,
    and as the empty string precisely when the pair is not in the table. *)
Theorem identify_dispatch h :
  let key := (transmission_code h, message_kind h) in
  (identifyMessageId h = str "I010" ↔ key = (49, 49) ∨ key = (52, 49))
  ∧ (identifyMessageId h = str "I081" ↔ key = (50, 65) ∨ key = (53, 65))
  ∧ (identifyMessageId h = str "I083" ↔ key = (50, 66) ∨ key = (53, 66))
  ∧ (identifyMessageId h = str "M1001" ↔ key = (48, 49))
  ∧ (identifyMessageId h = str "M1002" ↔ key = (48, 50))
  ∧ (identifyMessageId h = [] ↔ key ∉ message_map.*1).
Proof.
  cbv zeta. rewrite (identify_iff h (str "I010")) // (identify_iff h (str "I081")) //.
  rewrite (identify_iff h (str "I083")) // (identify_iff h (str "M1001")) //.
  rewrite (identify_iff h (str "M1002")) //.
  have -> : keys_of (str "I010") = [(49, 49); (52, 49)] by vm_compute.
  have -> : keys_of (str "I081") = [(50, 65); (53, 65)] by vm_compute.
  have -> : keys_of (str "I083") = [(50, 66); (53, 66)] by vm_compute.
  have -> : keys_of (str "M1001") = [(48, 49)] by vm_compute.
  have -> : keys_of (str "M1002") = [(48, 50)] by vm_compute.
  do 5 (split; [rewrite !elem_of_cons elem_of_nil; tauto|]).
  rewrite /identifyMessageId. destruct (find_code _) as [v|] eqn:E.
  - apply find_code_iff in E. split.
    + rewrite /code_id. by repeat case_bool.
    + intros []. apply list_elem_of_fmap. by eexists (_, v).
  - split; [|done]. intros _ ([k v] & Hk & Hin)%list_elem_of_fmap.
    apply find_code_iff in Hin. simpl in *. congruence.
Qed.

(** Every identifier produced from the table is the empty string, one of
    the two channel-control names, or the letter I followed by the last three
    decimal digits of the message's code, zero-padded. *)
Theorem identify_format h :
  let s := identifyMessageId h in
  s = [] ∨ s = str "M1001" ∨ s = str "M1002"
  ∨ ∃ code ds, ((transmission_code h, message_kind h), code) ∈ message_map
      ∧ s = str "I" ++ ds ∧ all_digits ds ∧ length ds = 3%nat
      ∧ digits_val ds = code `mod` 1000.
Proof.
  cbv zeta. rewrite /identifyMessageId. destruct (find_code _) as [v|] eqn:E; [|by left].
  apply find_code_iff in E. right. rewrite /code_id. do 2 (case_bool; [by auto|]).
  have Hv : Forall (λ e, 0 ≤ e.2) message_map by apply (bool_decide_unpack _); vm_compute.
  rewrite Forall_forall in Hv. destruct (format_spec v (Hv _ E)) as (? & ? & ?).
  do 2 right. by exists v, (formatLastThreeDigits v).
Qed.
