(* ===== verification/MessageFields.v ===== *)
(** * Field decoding shared by the message-body parsers
      (messages/message_parser_utils.cpp, message_i001.cpp, message_i002.cpp)

    Every numeric field of a body is decoded the same way: the helper turns
    the BCD bytes into a digit string (empty on error), an empty string makes
    the parser return false, and so does an exception of the conversion. *)

From S2P Require Import Prelude CppStd PackBcd.

(** ** Definitions *)

Definition bcdBytesToAsciiStringHelper (bcd_data_view : list Z) (num_digits : nat)
    : result (list Z) :=
  if (length bcd_data_view =? 0)%nat then Ok []
  else
    try_catch (packBcdToAscii bcd_data_view num_digits) (λ e,
      if is_a e std_runtime_error then Some (Ok []) else None).

(** The statement sequence "span; helper; return false if empty; try the
    conversion, return false if it throws", with continuation [k]. *)
Definition with_numeric {R} (mem : list Z) (offset bcd_len num_digits : nat)
    (conv : list Z → result Z) (return_false : result R) (k : Z → result R) : result R :=
  view ← readn mem offset bcd_len;
  s ← bcdBytesToAsciiStringHelper view num_digits;
  if (length s =? 0)%nat && (0 <? num_digits)%nat then return_false
  else match conv s with
       | Ok v => k v
       | Throw _ => return_false
       | Undefined => Undefined
       end.

(** The same for a field kept as a string (the dates of I010): the string is
    stored by [k] before the emptiness check. *)
Definition with_digits {R} (mem : list Z) (offset bcd_len num_digits : nat)
    (k : list Z → bool → result R) : result R :=
  view ← readn mem offset bcd_len;
  s ← bcdBytesToAsciiStringHelper view num_digits;
  k s ((length s =? 0)%nat && (0 <? num_digits)%nat).

(** I001 (heartbeat) and I002 (sequence reset) carry no data: only the body
    length is checked, the message structs are empty. *)
Definition parse_i001_body (body_data : pointer) (body_length : nat) : bool :=
  if (body_length =? 0)%nat then true
  else if (body_length =? 3)%nat then true
  else false.

Definition parse_i002_body (body_data : pointer) (body_length : nat) : bool :=
  if (body_length =? 0)%nat then true
  else if (body_length =? 3)%nat then true
  else false.

(** *** Specification vocabulary *)

Definition slice (mem : list Z) (off n : nat) : list Z := take n (drop off mem).

(** The number in the field at [off], [None] when it is not valid BCD. *)
Definition num_at (mem : list Z) (off len digits : nat) : option Z :=
  if bcd_ok (slice mem off len) then Some (bcd_val (slice mem off len) `mod` pow10 digits)
  else None.

(** The digit string of the field at [off]. *)
Definition digits_at (mem : list Z) (off len digits : nat) : option (list Z) :=
  if bcd_ok (slice mem off len) then Some (fit digits (bcd_digits (slice mem off len)))
  else None.

Definition byte_at (mem : list Z) (off : nat) : Z := default 0 (mem !! off).

(** A repeating group: [count] records of [stride] bytes, the first at [off]. *)
Fixpoint records_at {E} (f : nat → option E) (stride count off : nat) : option (list E) :=
  match count with
  | O => Some []
  | S count' =>
      e ← f off;
      es ← records_at f stride count' (off + stride);
      Some (e :: es)
  end.

(** A parser call [r] agrees with the specified message: it returns true with
    exactly that message, or false (with a partly filled message). *)
Definition parses {M} (r : result (bool * M)) (spec : option M) : Prop :=
  match spec with
  | Some m => r = Ok (true, m)
  | None => ∃ out, r = Ok (false, out)
  end.

(** A conversion that is exact on short digit strings. *)
Class ExactConv (conv : list Z → result Z) : Prop :=
  exact_conv s : all_digits s → s ≠ [] → (length s ≤ 18)%nat → conv s = Ok (digits_val s).

#[export] Instance stoll_exact : ExactConv stoll.
Proof. intros s ???. by apply stoll_digits. Qed.
#[export] Instance stoul_exact : ExactConv stoul.
Proof. intros s ???. apply stoul_digits; [done..|lia]. Qed.

(** ** Lemmas *)

Lemma helper_eq view n :
  view ≠ [] →
  bcdBytesToAsciiStringHelper view n =
  Ok (if bcd_ok view then fit n (bcd_digits view) else []).
Proof.
  intros Hv. rewrite /bcdBytesToAsciiStringHelper packBcdToAscii_eq.
  destruct view as [|b view]; [done|]. by destruct (bcd_ok _).
Qed.

Lemma slice_ne mem off n :
  (off + n ≤ length mem)%nat → n ≠ 0%nat → slice mem off n ≠ [].
Proof.
  intros Hl Hn E. have := length_slice mem off n Hl. rewrite -/(slice mem off n) E /=. lia.
Qed.

Lemma fit_ne n s : n ≠ 0%nat → fit n s ≠ [].
Proof. intros Hn E. have := length_fit n s Hn. rewrite E /=. lia. Qed.

Lemma length_fit_eqb n s : n ≠ 0%nat → (length (fit n s) =? 0)%nat = false.
Proof. intros. rewrite length_fit //. by apply Nat.eqb_neq. Qed.

Lemma with_numeric_eq {R} mem off len digits conv `{!ExactConv conv} (rf : result R) k :
  (off + len ≤ length mem)%nat → len ≠ 0%nat → (1 ≤ digits ≤ 18)%nat →
  with_numeric mem off len digits conv rf k =
  match num_at mem off len digits with Some v => k v | None => rf end.
Proof.
  intros Hl Hn Hd. rewrite /with_numeric readn_Ok //= -/(slice mem off len).
  rewrite helper_eq; [by apply slice_ne|]. rewrite /num_at /=.
  have Hd0 : (0 <? digits)%nat = true by apply Nat.ltb_lt; lia.
  destruct (bcd_ok _) eqn:Hok; [|by rewrite /= Hd0].
  have Hb := bcd_digits_all _ Hok.
  rewrite length_fit_eqb; [lia|]. rewrite /= exact_conv.
  - by apply fit_all.
  - apply fit_ne. lia.
  - rewrite length_fit; lia.
  - rewrite fit_val; [lia|done|]. by rewrite -bcd_val_digits.
Qed.

Lemma with_digits_eq {R} mem off len digits (k : list Z → bool → result R) :
  (off + len ≤ length mem)%nat → len ≠ 0%nat → (1 ≤ digits)%nat →
  with_digits mem off len digits k =
  match digits_at mem off len digits with Some s => k s false | None => k [] true end.
Proof.
  intros Hl Hn Hd. rewrite /with_digits readn_Ok //= -/(slice mem off len).
  rewrite helper_eq; [by apply slice_ne|]. rewrite /digits_at /=.
  have Hd0 : (0 <? digits)%nat = true by apply Nat.ltb_lt; lia.
  destruct (bcd_ok _) eqn:Hok; [|by rewrite /= Hd0].
  rewrite length_fit_eqb; [lia|]. done.
Qed.

Lemma read1_at mem off : (off < length mem)%nat → read1 mem off = Ok (byte_at mem off).
Proof.
  intros Hl. destruct (lookup_lt_is_Some_2 mem off Hl) as [b Hb].
  by rewrite /byte_at (read1_Ok _ _ _ Hb) Hb.
Qed.

Lemma num_at_range mem off len digits v :
  num_at mem off len digits = Some v → 0 ≤ v < pow10 digits.
Proof.
  rewrite /num_at. case_bool; [|done]. intros [= <-]. apply Z.mod_pos_bound, pow10_pos. lia.
Qed.

Lemma digits_at_spec mem off len digits s :
  digits ≠ 0%nat → digits_at mem off len digits = Some s →
  all_digits s ∧ length s = digits.
Proof.
  intros Hd. rewrite /digits_at. case_bool; [|done]. intros [= <-].
  split; [by apply fit_all, bcd_digits_all|by apply length_fit].
Qed.

Lemma records_at_Some {E} (f : nat → option E) stride count off es :
  records_at f stride count off = Some es ↔
  length es = count ∧ ∀ i e, es !! i = Some e → f (off + i * stride)%nat = Some e.
Proof.
  revert off es. induction count as [|count IH]; intros off es; simpl.
  { split; [by intros [= <-]|]. intros [?%nil_length_inv _]. by subst. }
  split.
  - intros (e & He & Hr)%bind_Some. apply bind_Some in Hr as (es' & Hr & [= <-]).
    apply IH in Hr as [Hl Hi]. split; [by rewrite /= Hl|]. intros [|i] e' Ei; simpl in Ei.
    + injection Ei as <-. by rewrite Nat.add_0_r.
    + replace (off + S i * stride)%nat with (off + stride + i * stride)%nat by lia. auto.
  - intros [Hl Hi]. destruct es as [|e es]; [done|].
    have := Hi 0%nat e eq_refl. rewrite Nat.add_0_r => -> /=.
    have -> : records_at f stride count (off + stride) = Some es; [|done].
    apply IH. split; [by injection Hl|]. intros i e' Ei.
    rewrite -(Hi (S i) e' Ei). f_equal. lia.
Qed.

(** Evaluates a parser on a long enough buffer, one field per step. *)
Ltac parse_step :=
  lazymatch goal with
  | |- parses (readn _ _ _ ≫= _) _ => rewrite readn_Ok; [lia|]; cbn [mbind result_bind]
  | |- parses (read1 _ _ ≫= _) _ => rewrite read1_at; [lia|]; cbn [mbind result_bind]
  | |- parses (with_numeric ?m ?o ?l ?d _ _ _) _ =>
      rewrite with_numeric_eq; [lia..|]; destruct (num_at m o l d) eqn:?; simpl;
      [|by eexists]
  | |- parses (with_digits ?m ?o ?l ?d _) _ =>
      rewrite with_digits_eq; [lia..|]; destruct (digits_at m o l d) eqn:?; simpl;
      [|by eexists]
  end.

(** ** Properties *)

(** Heartbeat and sequence-reset bodies are accepted exactly when they
    are empty or hold just the three trailer bytes, whatever the data pointer. *)
Theorem empty_body_parsers data n :
  (parse_i001_body data n = true ↔ n = 0%nat ∨ n = 3%nat)
  ∧ parse_i002_body data n = parse_i001_body data n.
Proof.
  rewrite /parse_i001_body /parse_i002_body. repeat case_bool; bool_to_prop; naive_solver.
Qed.
