(* ===== verification/MessageI010.v ===== *)
(** * I010, product basic data (messages/message_i010.cpp) *)

From S2P Require Import Prelude CppStd PackBcd MessageFields.

(** ** Definitions *)

Record MessageI010 : Type := mkMessageI010 {
  prod_id_s : list Z;
  reference_price : Z;
  prod_kind : Z;
  decimal_locator : Z;
  strike_price_decimal_locator : Z;
  begin_date : list Z;
  end_date : list Z;
  flow_group : Z;
  delivery_date : list Z;
  dynamic_banding : Z;
}.

(** A message object before parsing; the code never reads these values. *)
Definition MessageI010_uninit : MessageI010 := mkMessageI010 [] 0 0 0 0 [] [] 0 [] 0.

Definition parse_i010_body (body_data : pointer) (body_length : nat)
    (out_msg : MessageI010) : result (bool * MessageI010) :=
  match body_data with
  | None => Ok (false, out_msg)
  | Some mem =>
      let offset := 0%nat in
      if (body_length <? 32)%nat then Ok (false, out_msg)
      else
        let '(mkMessageI010 _ rp pk dl sdl bd ed fg dd db) := out_msg in
        (* 1. PROD-ID-S *)
        pid ← readn mem offset 10;
        let offset := (offset + 10)%nat in
        (* 2. REFERENCE-PRICE *)
        with_numeric mem offset 5 9 stoll
          (Ok (false, mkMessageI010 pid rp pk dl sdl bd ed fg dd db)) (λ rp,
        let offset := (offset + 5)%nat in
        (* 3. PROD-KIND *)
        pk ← read1 mem offset;
        let offset := (offset + 1)%nat in
        (* 4. DECIMAL-LOCATOR *)
        with_numeric mem offset 1 1 stoul
          (Ok (false, mkMessageI010 pid rp pk dl sdl bd ed fg dd db)) (λ v,
        let dl := u8 v in
        let offset := (offset + 1)%nat in
        (* 5. STRIKE-PRICE-DECIMAL-LOCATOR *)
        with_numeric mem offset 1 1 stoul
          (Ok (false, mkMessageI010 pid rp pk dl sdl bd ed fg dd db)) (λ v,
        let sdl := u8 v in
        let offset := (offset + 1)%nat in
        (* 6. BEGIN-DATE *)
        with_digits mem offset 4 8 (λ bd empty,
        if empty : bool then Ok (false, mkMessageI010 pid rp pk dl sdl bd ed fg dd db) else
        let offset := (offset + 4)%nat in
        (* 7. END-DATE *)
        with_digits mem offset 4 8 (λ ed empty,
        if empty : bool then Ok (false, mkMessageI010 pid rp pk dl sdl bd ed fg dd db) else
        let offset := (offset + 4)%nat in
        (* 8. FLOW-GROUP *)
        with_numeric mem offset 1 2 stoul
          (Ok (false, mkMessageI010 pid rp pk dl sdl bd ed fg dd db)) (λ v,
        let fg := u8 v in
        let offset := (offset + 1)%nat in
        (* 9. DELIVERY-DATE *)
        with_digits mem offset 4 8 (λ dd empty,
        if empty : bool then Ok (false, mkMessageI010 pid rp pk dl sdl bd ed fg dd db) else
        let offset := (offset + 4)%nat in
        (* 10. DYNAMIC-BANDING *)
        db ← read1 mem offset;
        Ok (true, mkMessageI010 pid rp pk dl sdl bd ed fg dd db))))))))
  end.

(** *** Specification: the fields a body denotes *)

Definition i010_fields (mem : list Z) : option MessageI010 :=
  rp ← num_at mem 10 5 9;
  dl ← num_at mem 16 1 1;
  sdl ← num_at mem 17 1 1;
  bd ← digits_at mem 18 4 8;
  ed ← digits_at mem 22 4 8;
  fg ← num_at mem 26 1 2;
  dd ← digits_at mem 27 4 8;
  Some (mkMessageI010 (slice mem 0 10) rp (byte_at mem 15) dl sdl bd ed fg dd (byte_at mem 31)).

(** What a successfully parsed message satisfies. *)
Definition i010_ok (m : MessageI010) : Prop :=
  length (prod_id_s m) = 10%nat ∧ 0 ≤ reference_price m < 10 ^ 9
  ∧ 0 ≤ decimal_locator m ≤ 9 ∧ 0 ≤ strike_price_decimal_locator m ≤ 9
  ∧ 0 ≤ flow_group m ≤ 99
  ∧ Forall (λ d, all_digits d ∧ length d = 8%nat) [begin_date m; end_date m; delivery_date m].

(** ** Lemmas *)

Lemma u8_small v : 0 ≤ v < 256 → u8 v = v.
Proof. apply Z.mod_small. Qed.

Lemma parse_i010_eq mem n out :
  (n ≤ length mem)%nat → (32 ≤ n)%nat →
  parses (parse_i010_body (Some mem) n out) (i010_fields mem).
Proof.
  intros Hl Hn. rewrite /parse_i010_body (proj2 (Nat.ltb_ge _ _) Hn).
  destruct out as [pid rp pk dl sdl bd ed fg dd db]. cbv zeta. cbn [Nat.add].
  rewrite /i010_fields. do 10 parse_step.
  repeat match goal with H : num_at _ _ _ _ = Some _ |- _ => apply num_at_range in H end.
  rewrite !u8_small; [lia..|done].
Qed.

Lemma i010_fields_ok mem m :
  (32 ≤ length mem)%nat → i010_fields mem = Some m → i010_ok m.
Proof.
  intros Hl. rewrite /i010_fields => E.
  repeat match goal with
  | H : ?o ≫= _ = Some _ |- _ => apply bind_Some in H as (? & ? & H)
  | H : num_at _ _ _ _ = Some _ |- _ => apply num_at_range in H
  | H : digits_at _ _ _ _ = Some _ |- _ => apply digits_at_spec in H; [|done]
  end.
  injection E as <-. rewrite /i010_ok /=.
  split_and!; try lia; [|by repeat constructor; naive_solver].
  apply length_slice. lia.
Qed.

(** ** Properties *)

(** [parse_i010_body] on a readable body never throws and never reads
    outside it.  A null pointer or a body shorter than 32 bytes is refused
    with the output untouched; otherwise the parser accepts exactly the
    bodies whose seven BCD fields are valid, and then the message is
    determined by the body alone: each field is the slice at its documented
    offset, the identifier has 10 bytes, the reference price is below 10^9,
    the locators are single digits and the dates have eight digits. *)
Theorem parse_i010_spec mem n out (Hmem : (n ≤ length mem)%nat) :
  parse_i010_body None n out = Ok (false, out)
  ∧ if (n <? 32)%nat then parse_i010_body (Some mem) n out = Ok (false, out)
    else parses (parse_i010_body (Some mem) n out) (i010_fields mem)
         ∧ ∀ m, i010_fields mem = Some m → i010_ok m.
Proof.
  split; [done|]. case_bool; bool_to_prop.
  - by rewrite /parse_i010_body (proj2 (Nat.ltb_lt _ _)).
  - split; [by apply parse_i010_eq|]. intros m. apply i010_fields_ok. lia.
Qed.

(** The I010 body of the unit test: TXF, 123456789, two decimals. *)
Definition sample_i010_body : list Z :=
  str "TXF       " ++ [1; 35; 69; 103; 137] ++ str "F" ++ [2; 0]
  ++ [32; 35; 1; 21] ++ [32; 36; 18; 49] ++ [5] ++ [32; 37; 3; 32] ++ str "Y".

Example parse_i010_sample :
  parse_i010_body (Some sample_i010_body) 32 MessageI010_uninit =
  Ok (true, mkMessageI010 (str "TXF       ") 123456789 70 2 0 (str "20230115")
              (str "20241231") 5 (str "20250320") 89).
Proof. vm_compute. reflexivity. Qed.

Lemma parse_i010_spec_witness :
  parse_i010_body None 32 MessageI010_uninit = Ok (false, MessageI010_uninit)
  ∧ parses (parse_i010_body (Some sample_i010_body) 32 MessageI010_uninit)
      (i010_fields sample_i010_body)
  ∧ ∀ m, i010_fields sample_i010_body = Some m → i010_ok m.
Proof. apply (parse_i010_spec sample_i010_body 32 MessageI010_uninit). simpl. lia. Defined.
