(* ===== verification/MessageI081.v ===== *)
(** * I081, differential order-book update (messages/message_i081.cpp) *)

From S2P Require Import Prelude CppStd PackBcd MessageFields.

(** ** Definitions *)

Record MdEntryI081 : Type := mkMdEntryI081 {
  i081_md_update_action : Z;
  i081_md_entry_type : Z;
  i081_sign : Z;
  i081_md_entry_px : Z;
  i081_md_entry_size : Z;
  i081_md_price_level : Z;
}.

Record MessageI081 : Type := mkMessageI081 {
  i081_prod_id : list Z;
  i081_prod_msg_seq : Z;
  i081_no_md_entries : Z;
  i081_md_entries : list MdEntryI081;
}.

Definition MessageI081_uninit : MessageI081 := mkMessageI081 [] 0 0 [].

(** One iteration of the entry loop at [offset]; the continuation gets the
    finished entry. *)
Definition parse_i081_entry {R} (mem : list Z) (offset : nat) (return_false : result R)
    (k : MdEntryI081 → result R) : result R :=
  action ← read1 mem offset;
  let offset := (offset + 1)%nat in
  ty ← read1 mem offset;
  let offset := (offset + 1)%nat in
  sign ← read1 mem offset;
  let offset := (offset + 1)%nat in
  with_numeric mem offset 5 9 stoll return_false (λ px,
  let offset := (offset + 5)%nat in
  with_numeric mem offset 4 8 stoll return_false (λ size,
  let offset := (offset + 4)%nat in
  with_numeric mem offset 1 2 stoul return_false (λ level,
  k (mkMdEntryI081 action ty sign px size (u8 level))))).

(** The entry loop, [count] iterations to go; an iteration consumes 13 bytes
    and appends one entry. *)
Fixpoint parse_i081_entries (count : nat) (mem : list Z) (offset : nat)
    (out_msg : MessageI081) : result (bool * MessageI081) :=
  match count with
  | O => Ok (true, out_msg)
  | S count' =>
      parse_i081_entry mem offset (Ok (false, out_msg)) (λ entry,
      let '(mkMessageI081 pid seq cnt entries) := out_msg in
      parse_i081_entries count' mem (offset + 13) (mkMessageI081 pid seq cnt (entries ++ [entry])))
  end.

Definition parse_i081_body (body_data : pointer) (body_length : nat)
    (out_msg : MessageI081) : result (bool * MessageI081) :=
  match body_data with
  | None => Ok (false, out_msg)
  | Some mem =>
      let offset := 0%nat in
      if (body_length <? 26)%nat then Ok (false, out_msg)
      else
        let '(mkMessageI081 _ seq cnt entries) := out_msg in
        (* 1. PROD-ID *)
        pid ← readn mem offset 20;
        let offset := (offset + 20)%nat in
        (* 2. PROD-MSG-SEQ *)
        with_numeric mem offset 5 10 stoul (Ok (false, mkMessageI081 pid seq cnt entries)) (λ v,
        let seq := u32 v in
        let offset := (offset + 5)%nat in
        (* 3. NO-MD-ENTRIES *)
        with_numeric mem offset 1 2 stoul (Ok (false, mkMessageI081 pid seq cnt entries)) (λ v,
        let cnt := u8 v in
        let offset := (offset + 1)%nat in
        if (body_length <? offset + Z.to_nat cnt * 13)%nat then
          Ok (false, mkMessageI081 pid seq cnt entries)
        else
          parse_i081_entries (Z.to_nat cnt) mem offset (mkMessageI081 pid seq cnt [])))
  end.

(** *** Specification: the message a body denotes *)

Definition i081_entry_at (mem : list Z) (off : nat) : option MdEntryI081 :=
  px ← num_at mem (off + 3) 5 9;
  size ← num_at mem (off + 8) 4 8;
  level ← num_at mem (off + 12) 1 2;
  Some (mkMdEntryI081 (byte_at mem off) (byte_at mem (off + 1)) (byte_at mem (off + 2)) px size level).

Definition i081_fields (mem : list Z) (n : nat) : option MessageI081 :=
  seq ← num_at mem 20 5 10;
  cnt ← num_at mem 25 1 2;
  if (n <? 26 + Z.to_nat cnt * 13)%nat then None
  else
    entries ← records_at (i081_entry_at mem) 13 (Z.to_nat cnt) 26;
    Some (mkMessageI081 (slice mem 0 20) (u32 seq) cnt entries).

(** Ranges of a parsed entry; the price magnitude is never negative. *)
Definition i081_entry_ok (e : MdEntryI081) : Prop :=
  0 ≤ i081_md_entry_px e < 10 ^ 9 ∧ 0 ≤ i081_md_entry_size e < 10 ^ 8
  ∧ 0 ≤ i081_md_price_level e ≤ 99.

Definition i081_ok (m : MessageI081) : Prop :=
  length (i081_prod_id m) = 20%nat ∧ 0 ≤ i081_prod_msg_seq m < 2 ^ 32
  ∧ i081_no_md_entries m = Z.of_nat (length (i081_md_entries m))
  ∧ (length (i081_md_entries m) ≤ 99)%nat ∧ Forall i081_entry_ok (i081_md_entries m).

(** ** Lemmas *)

Lemma u8_num mem off len v : num_at mem off len 2 = Some v → u8 v = v.
Proof. intros H%num_at_range. apply Z.mod_small. lia. Qed.

Lemma parse_i081_entry_eq {R} mem off (rf : result R) k :
  (off + 13 ≤ length mem)%nat →
  parse_i081_entry mem off rf k =
  match i081_entry_at mem off with Some e => k e | None => rf end.
Proof.
  intros Hl. rewrite /parse_i081_entry /i081_entry_at.
  rewrite read1_at; [lia|]. cbn. rewrite read1_at; [lia|]. cbn. rewrite read1_at; [lia|]. cbn.
  rewrite with_numeric_eq; [lia..|].
  replace (off + 1 + 1 + 1)%nat with (off + 3)%nat by lia.
  destruct (num_at _ (off + 3) _ _) eqn:E1; [|done]. cbn. rewrite with_numeric_eq; [lia..|].
  replace (off + 3 + 5)%nat with (off + 8)%nat by lia.
  destruct (num_at _ (off + 8) _ _) eqn:E2; [|done]. cbn. rewrite with_numeric_eq; [lia..|].
  replace (off + 8 + 4)%nat with (off + 12)%nat by lia.
  destruct (num_at _ (off + 12) _ _) eqn:E3; [|done]. cbn. by rewrite (u8_num _ _ _ _ E3) -Nat.add_assoc.
Qed.

(** The loop collects the entries at its 13-byte strides, in order. *)
Lemma parse_i081_entries_eq count mem off pid seq cnt es :
  (off + count * 13 ≤ length mem)%nat →
  parses (parse_i081_entries count mem off (mkMessageI081 pid seq cnt es))
    (entries ← records_at (i081_entry_at mem) 13 count off;
     Some (mkMessageI081 pid seq cnt (es ++ entries))).
Proof.
  revert off es. induction count as [|count IH]; intros off es Hl.
  { by rewrite /= app_nil_r. }
  cbn [parse_i081_entries records_at]. rewrite parse_i081_entry_eq; [lia|].
  destruct (i081_entry_at mem off) as [e|] eqn:E; [|by eexists]. cbn.
  specialize (IH (off + 13)%nat (es ++ [e]) ltac:(lia)).
  destruct (records_at _ _ _ _) as [l|]; cbn in *; [|done]. by rewrite -app_assoc in IH.
Qed.

Lemma parse_i081_eq mem n out :
  (n ≤ length mem)%nat → (26 ≤ n)%nat →
  parses (parse_i081_body (Some mem) n out) (i081_fields mem n).
Proof.
  intros Hl Hn. rewrite /parse_i081_body (proj2 (Nat.ltb_ge _ _) Hn).
  destruct out as [pid seq cnt es]. cbv zeta. cbn [Nat.add].
  rewrite /i081_fields. do 3 parse_step.
  rewrite (u8_num _ _ _ _ Heqo0). case_bool; [by eexists|]. bool_to_prop.
  by apply (parse_i081_entries_eq _ _ 26 _ _ _ []); lia.
Qed.

Lemma i081_entry_at_ok mem off e : i081_entry_at mem off = Some e → i081_entry_ok e.
Proof.
  rewrite /i081_entry_at => E.
  repeat match goal with
  | H : ?o ≫= _ = Some _ |- _ => apply bind_Some in H as (? & ? & H)
  | H : num_at _ _ _ _ = Some _ |- _ => apply num_at_range in H
  end.
  injection E as <-. rewrite /i081_entry_ok /=. lia.
Qed.

Lemma i081_fields_ok mem n m :
  (26 ≤ n ≤ length mem)%nat → i081_fields mem n = Some m → i081_ok m.
Proof.
  intros Hl. rewrite /i081_fields => /bind_Some [seq [Hs /bind_Some [cnt [Hc E]]]].
  case_bool; [done|]. apply bind_Some in E as (es & Hes & [= <-]).
  apply records_at_Some in Hes as [Hlen Hes]. apply num_at_range in Hc.
  rewrite /i081_ok /=. split_and!.
  - apply length_slice. lia.
  - apply Z.mod_pos_bound. lia.
  - apply Z.mod_pos_bound. lia.
  - lia.
  - lia.
  - apply Forall_lookup. intros i e He. by eapply i081_entry_at_ok, Hes.
Qed.

(** ** Properties *)

(** C40: [parse_i081_body] on a readable body never throws and never reads
    outside it: a null pointer or a body shorter than 26 bytes is refused with
    the output untouched, otherwise it accepts exactly the bodies whose
    sequence number and entry count are valid BCD, that are long enough for
    the declared count of 13-byte entries, and whose entry fields are valid;
    the result is then the message the body denotes, with as many entries as
    declared (at most 99), each within its documented range, and a 32-bit
    sequence number. *)
Theorem parse_i081_spec mem n out (Hmem : (n ≤ length mem)%nat) :
  parse_i081_body None n out = Ok (false, out)
  ∧ if (n <? 26)%nat then parse_i081_body (Some mem) n out = Ok (false, out)
    else parses (parse_i081_body (Some mem) n out) (i081_fields mem n)
         ∧ ∀ m, i081_fields mem n = Some m → i081_ok m.
Proof.
  split; [done|]. case_bool; bool_to_prop.
  - by rewrite /parse_i081_body (proj2 (Nat.ltb_lt _ _)).
  - split; [by apply parse_i081_eq|]. intros m. apply i081_fields_ok. lia.
Qed.

(** One new bid: price 20050, quantity 3, level 1. *)
Definition sample_i081_entry : list Z := str "000" ++ [0; 0; 2; 0; 80] ++ [0; 0; 0; 3] ++ [1].
Definition sample_i081_body : list Z :=
  str "TXF                 " ++ [0; 0; 0; 0; 2] ++ [1] ++ sample_i081_entry.

Example parse_i081_sample :
  parse_i081_body (Some sample_i081_body) 39 MessageI081_uninit =
  Ok (true, mkMessageI081 (str "TXF                 ") 2 1 [mkMdEntryI081 48 48 48 20050 3 1]).
Proof. vm_compute. reflexivity. Qed.

Lemma parse_i081_spec_witness :
  parse_i081_body None 39 MessageI081_uninit = Ok (false, MessageI081_uninit)
  ∧ parses (parse_i081_body (Some sample_i081_body) 39 MessageI081_uninit)
      (i081_fields sample_i081_body 39)
  ∧ ∀ m, i081_fields sample_i081_body 39 = Some m → i081_ok m.
Proof. apply (parse_i081_spec sample_i081_body 39 MessageI081_uninit). simpl. lia. Defined.

(** PROD-MSG-SEQ is a ten-digit field stored in 32 bits: two accepted
    bodies whose sequence numbers differ by 2^32 parse to the same message, so
    the sequence number is exact only below 2^32. *)
Theorem i081_seq_truncated :
  ∃ b1 b2 m, num_at b1 20 5 10 = Some 5 ∧ num_at b2 20 5 10 = Some (5 + 2 ^ 32)
    ∧ parse_i081_body (Some b1) 39 MessageI081_uninit = Ok (true, m)
    ∧ parse_i081_body (Some b2) 39 MessageI081_uninit = Ok (true, m).
Proof.
  exists (str "TXF                 " ++ [0; 0; 0; 0; 5] ++ [1] ++ sample_i081_entry).
  exists (str "TXF                 " ++ [66; 148; 150; 115; 1] ++ [1] ++ sample_i081_entry).
  eexists. split_and!; vm_compute; reflexivity.
Qed.
