(* ===== verification/MessageI083.v ===== *)
(** * I083, order-book snapshot (messages/message_i083.cpp) *)

From S2P Require Import Prelude CppStd PackBcd MessageFields MessageI081.

(** ** Definitions *)

Record MdEntryI083 : Type := mkMdEntryI083 {
  i083_md_entry_type : Z;
  i083_sign : Z;
  i083_md_entry_px : Z;
  i083_md_entry_size : Z;
  i083_md_price_level : Z;
}.

Record MessageI083 : Type := mkMessageI083 {
  i083_prod_id : list Z;
  i083_prod_msg_seq : Z;
  i083_calculated_flag : Z;
  i083_no_md_entries : Z;
  i083_md_entries : list MdEntryI083;
}.

Definition MessageI083_uninit : MessageI083 := mkMessageI083 [] 0 0 0 [].

(** One iteration of the entry loop at [offset]. *)
Definition parse_i083_entry {R} (mem : list Z) (offset : nat) (return_false : result R)
    (k : MdEntryI083 → result R) : result R :=
  ty ← read1 mem offset;
  let offset := (offset + 1)%nat in
  sign ← read1 mem offset;
  let offset := (offset + 1)%nat in
  with_numeric mem offset 5 9 stoll return_false (λ px,
  let offset := (offset + 5)%nat in
  with_numeric mem offset 4 8 stoll return_false (λ size,
  let offset := (offset + 4)%nat in
  with_numeric mem offset 1 2 stoul return_false (λ level,
  k (mkMdEntryI083 ty sign px size (u8 level))))).

(** The entry loop, [count] iterations to go; 12 bytes per entry. *)
Fixpoint parse_i083_entries (count : nat) (mem : list Z) (offset : nat)
    (out_msg : MessageI083) : result (bool * MessageI083) :=
  match count with
  | O => Ok (true, out_msg)
  | S count' =>
      parse_i083_entry mem offset (Ok (false, out_msg)) (λ entry,
      let '(mkMessageI083 pid seq flag cnt entries) := out_msg in
      parse_i083_entries count' mem (offset + 12)
        (mkMessageI083 pid seq flag cnt (entries ++ [entry])))
  end.

Definition parse_i083_body (body_data : pointer) (body_length : nat)
    (out_msg : MessageI083) : result (bool * MessageI083) :=
  match body_data with
  | None => Ok (false, out_msg)
  | Some mem =>
      let offset := 0%nat in
      if (body_length <? 27)%nat then Ok (false, out_msg)
      else
        let '(mkMessageI083 _ seq flag cnt entries) := out_msg in
        (* 1. PROD-ID *)
        pid ← readn mem offset 20;
        let offset := (offset + 20)%nat in
        (* 2. PROD-MSG-SEQ *)
        with_numeric mem offset 5 10 stoul (Ok (false, mkMessageI083 pid seq flag cnt entries)) (λ v,
        let seq := u32 v in
        let offset := (offset + 5)%nat in
        (* 3. CALCULATED-FLAG *)
        flag ← read1 mem offset;
        let offset := (offset + 1)%nat in
        (* 4. NO-MD-ENTRIES *)
        with_numeric mem offset 1 2 stoul (Ok (false, mkMessageI083 pid seq flag cnt entries)) (λ v,
        let cnt := u8 v in
        let offset := (offset + 1)%nat in
        if (body_length <? offset + Z.to_nat cnt * 12)%nat then
          Ok (false, mkMessageI083 pid seq flag cnt entries)
        else
          parse_i083_entries (Z.to_nat cnt) mem offset (mkMessageI083 pid seq flag cnt [])))
  end.

(** *** Specification: the message a body denotes *)

Definition i083_entry_at (mem : list Z) (off : nat) : option MdEntryI083 :=
  px ← num_at mem (off + 2) 5 9;
  size ← num_at mem (off + 7) 4 8;
  level ← num_at mem (off + 11) 1 2;
  Some (mkMdEntryI083 (byte_at mem off) (byte_at mem (off + 1)) px size level).

Definition i083_fields (mem : list Z) (n : nat) : option MessageI083 :=
  seq ← num_at mem 20 5 10;
  cnt ← num_at mem 26 1 2;
  if (n <? 27 + Z.to_nat cnt * 12)%nat then None
  else
    entries ← records_at (i083_entry_at mem) 12 (Z.to_nat cnt) 27;
    Some (mkMessageI083 (slice mem 0 20) (u32 seq) (byte_at mem 25) cnt entries).

Definition i083_entry_ok (e : MdEntryI083) : Prop :=
  0 ≤ i083_md_entry_px e < 10 ^ 9 ∧ 0 ≤ i083_md_entry_size e < 10 ^ 8
  ∧ 0 ≤ i083_md_price_level e ≤ 99.

Definition i083_ok (m : MessageI083) : Prop :=
  length (i083_prod_id m) = 20%nat ∧ 0 ≤ i083_prod_msg_seq m < 2 ^ 32
  ∧ i083_no_md_entries m = Z.of_nat (length (i083_md_entries m))
  ∧ (length (i083_md_entries m) ≤ 99)%nat ∧ Forall i083_entry_ok (i083_md_entries m).

(** ** Lemmas *)

Lemma parse_i083_entry_eq {R} mem off (rf : result R) k :
  (off + 12 ≤ length mem)%nat →
  parse_i083_entry mem off rf k =
  match i083_entry_at mem off with Some e => k e | None => rf end.
Proof.
  intros Hl. rewrite /parse_i083_entry /i083_entry_at.
  rewrite read1_at; [lia|]. cbn. rewrite read1_at; [lia|]. cbn.
  rewrite with_numeric_eq; [lia..|].
  replace (off + 1 + 1)%nat with (off + 2)%nat by lia.
  destruct (num_at _ (off + 2) _ _) eqn:E1; [|done]. cbn. rewrite with_numeric_eq; [lia..|].
  replace (off + 2 + 5)%nat with (off + 7)%nat by lia.
  destruct (num_at _ (off + 7) _ _) eqn:E2; [|done]. cbn. rewrite with_numeric_eq; [lia..|].
  replace (off + 7 + 4)%nat with (off + 11)%nat by lia.
  destruct (num_at _ (off + 11) _ _) eqn:E3; [|done]. cbn. by rewrite (u8_num _ _ _ _ E3).
Qed.

(** The loop collects the entries at its 12-byte strides, in order. *)
Lemma parse_i083_entries_eq count mem off pid seq flag cnt es :
  (off + count * 12 ≤ length mem)%nat →
  parses (parse_i083_entries count mem off (mkMessageI083 pid seq flag cnt es))
    (entries ← records_at (i083_entry_at mem) 12 count off;
     Some (mkMessageI083 pid seq flag cnt (es ++ entries))).
Proof.
  revert off es. induction count as [|count IH]; intros off es Hl.
  { by rewrite /= app_nil_r. }
  cbn [parse_i083_entries records_at]. rewrite parse_i083_entry_eq; [lia|].
  destruct (i083_entry_at mem off) as [e|] eqn:E; [|by eexists]. cbn.
  specialize (IH (off + 12)%nat (es ++ [e]) ltac:(lia)).
  destruct (records_at _ _ _ _) as [l|]; cbn in *; [|done]. by rewrite -app_assoc in IH.
Qed.

Lemma parse_i083_eq mem n out :
  (n ≤ length mem)%nat → (27 ≤ n)%nat →
  parses (parse_i083_body (Some mem) n out) (i083_fields mem n).
Proof.
  intros Hl Hn. rewrite /parse_i083_body (proj2 (Nat.ltb_ge _ _) Hn).
  destruct out as [pid seq flag cnt es]. cbv zeta. cbn [Nat.add].
  rewrite /i083_fields. do 4 parse_step.
  rewrite (u8_num _ _ _ _ Heqo0). case_bool; [by eexists|]. bool_to_prop.
  by apply (parse_i083_entries_eq _ _ 27 _ _ _ _ []); lia.
Qed.

Lemma i083_entry_at_ok mem off e : i083_entry_at mem off = Some e → i083_entry_ok e.
Proof.
  rewrite /i083_entry_at => E.
  repeat match goal with
  | H : ?o ≫= _ = Some _ |- _ => apply bind_Some in H as (? & ? & H)
  | H : num_at _ _ _ _ = Some _ |- _ => apply num_at_range in H
  end.
  injection E as <-. rewrite /i083_entry_ok /=. lia.
Qed.

Lemma i083_fields_ok mem n m :
  (27 ≤ n ≤ length mem)%nat → i083_fields mem n = Some m → i083_ok m.
Proof.
  intros Hl. rewrite /i083_fields => /bind_Some [seq [Hs /bind_Some [cnt [Hc E]]]].
  case_bool; [done|]. apply bind_Some in E as (es & Hes & [= <-]).
  apply records_at_Some in Hes as [Hlen Hes]. apply num_at_range in Hc.
  rewrite /i083_ok /=. split_and!; try lia.
  - apply length_slice. lia.
  - apply Z.mod_pos_bound. lia.
  - apply Z.mod_pos_bound. lia.
  - apply Forall_lookup. intros i e He. by eapply i083_entry_at_ok, Hes.
Qed.

(** ** Properties *)

(** [parse_i083_body] on a readable body never throws and never reads
    outside it: a null pointer or a body shorter than 27 bytes is refused with
    the output untouched, otherwise it accepts exactly the bodies whose
    sequence number and entry count are valid BCD, that are long enough for
    the declared count of 12-byte entries, and whose entry fields are valid;
    the result is then the snapshot the body denotes, with as many entries as
    declared, each within its documented range. *)
Theorem parse_i083_spec mem n out (Hmem : (n ≤ length mem)%nat) :
  parse_i083_body None n out = Ok (false, out)
  ∧ if (n <? 27)%nat then parse_i083_body (Some mem) n out = Ok (false, out)
    else parses (parse_i083_body (Some mem) n out) (i083_fields mem n)
         ∧ ∀ m, i083_fields mem n = Some m → i083_ok m.
Proof.
  split; [done|]. case_bool; bool_to_prop.
  - by rewrite /parse_i083_body (proj2 (Nat.ltb_lt _ _)).
  - split; [by apply parse_i083_eq|]. intros m. apply i083_fields_ok. lia.
Qed.

(** One bid (15000 x 10) and one ask (15100 x 5). *)
Definition sample_i083_body : list Z :=
  str "TXF                 " ++ [0; 0; 0; 1; 35] ++ str "0" ++ [2]
  ++ str "00" ++ [0; 0; 1; 80; 0] ++ [0; 0; 0; 16] ++ [1]
  ++ str "10" ++ [0; 0; 1; 81; 0] ++ [0; 0; 0; 5] ++ [1].

Example parse_i083_sample :
  parse_i083_body (Some sample_i083_body) 51 MessageI083_uninit =
  Ok (true, mkMessageI083 (str "TXF                 ") 123 48 2
              [mkMdEntryI083 48 48 15000 10 1; mkMdEntryI083 49 48 15100 5 1]).
Proof. vm_compute. reflexivity. Qed.

Lemma parse_i083_spec_witness :
  parse_i083_body None 51 MessageI083_uninit = Ok (false, MessageI083_uninit)
  ∧ parses (parse_i083_body (Some sample_i083_body) 51 MessageI083_uninit)
      (i083_fields sample_i083_body 51)
  ∧ ∀ m, i083_fields sample_i083_body 51 = Some m → i083_ok m.
Proof. apply (parse_i083_spec sample_i083_body 51 MessageI083_uninit). simpl. lia. Defined.
