(* ===== verification/CppMap.v ===== *)
(** * [std::map]

    An ordered associative container as the list of its nodes in iteration
    order; the comparison object is a parameter.  [map_ok] is the container's
    invariant (keys strictly increasing in the comparison), every operation
    preserves it, and lookups after each operation are given as equations, so
    that clients reason with finite-map laws; [to_gmap] is the abstraction to
    stdpp's finite maps. *)

From S2P Require Import Prelude.

(** ** Definitions *)

(** The requirements on a comparison object over integer keys: a strict total
    order. *)
Class StrictTotal (lt : Z → Z → bool) : Prop := {
  st_irrefl k : lt k k = false;
  st_trans k1 k2 k3 : lt k1 k2 = true → lt k2 k3 = true → lt k1 k3 = true;
  st_total k1 k2 : lt k1 k2 = false → lt k2 k1 = false → k1 = k2;
}.

(** [std::less] and [std::greater]. *)
#[export] Instance less_total : StrictTotal Z.ltb.
Proof.
  split.
  - intros. apply Z.ltb_irrefl.
  - intros ???. rewrite !Z.ltb_lt. lia.
  - intros ??. rewrite !Z.ltb_ge. lia.
Qed.
#[export] Instance greater_total : StrictTotal Z.gtb.
Proof.
  split; intros *; rewrite !Z.gtb_ltb.
  - apply Z.ltb_irrefl.
  - rewrite !Z.ltb_lt. lia.
  - rewrite !Z.ltb_ge. lia.
Qed.

Section Map.
Context {V : Type} (lt : Z → Z → bool).
Implicit Types (m : list (Z * V)).

(** [m.find(k)]: the mapped value, [None] for [end()]. *)
Fixpoint map_get (m : list (Z * V)) (k : Z) : option V :=
  match m with
  | [] => None
  | (k', v) :: m' => if k =? k' then Some v else map_get m' k
  end.

(** [m[k] = v]. *)
Fixpoint map_put (m : list (Z * V)) (k : Z) (v : V) : list (Z * V) :=
  match m with
  | [] => [(k, v)]
  | (k', v') :: m' =>
      if lt k k' then (k, v) :: (k', v') :: m'
      else if k =? k' then (k, v) :: m'
      else (k', v') :: map_put m' k v
  end.

(** [m.erase(k)]. *)
Fixpoint map_erase (m : list (Z * V)) (k : Z) : list (Z * V) :=
  match m with
  | [] => []
  | (k', v') :: m' => if k =? k' then m' else (k', v') :: map_erase m' k
  end.

(** [m.erase(m.begin())]. *)
Definition map_erase_begin (m : list (Z * V)) : list (Z * V) := tail m.

(** The invariant: keys strictly increasing in iteration order. *)
Definition map_ok (m : list (Z * V)) : Prop :=
  StronglySorted (λ k1 k2, lt k1 k2 = true) m.*1.

Definition to_gmap (m : list (Z * V)) : gmap Z V := list_to_map m.

(** ** Lemmas *)

Lemma map_ok_cons k v m :
  map_ok ((k, v) :: m) ↔ map_ok m ∧ Forall (λ k', lt k k' = true) m.*1.
Proof.
  rewrite /map_ok fmap_cons. split; [by inversion 1|]. intros [? ?]. by constructor.
Qed.

Lemma map_get_notin m k : k ∉ m.*1 → map_get m k = None.
Proof. clear lt.
  induction m as [|[k' v'] m IH]; [done|]. rewrite fmap_cons not_elem_of_cons => -[Hk Hm].
  simpl in *. rewrite (proj2 (Z.eqb_neq _ _)) //. by apply IH.
Qed.

Lemma map_get_in m k v : map_get m k = Some v → (k, v) ∈ m.
Proof. clear lt.
  induction m as [|[k' v'] m IH]; [done|]. simpl. case_bool; bool_to_prop.
  - intros [= ->]. subst. by left.
  - intros H. right. by apply IH.
Qed.

Lemma map_put_keys m k v x : x ∈ (map_put m k v).*1 ↔ x = k ∨ x ∈ m.*1.
Proof.
  induction m as [|[k' v'] m IH]; simpl; [set_solver|].
  repeat case_bool; bool_to_prop; rewrite ?fmap_cons /=; set_solver.
Qed.

Lemma map_erase_keys m k x : x ∈ (map_erase m k).*1 → x ∈ m.*1.
Proof. clear lt.
  induction m as [|[k' v'] m IH]; simpl; [done|].
  case_bool; rewrite ?fmap_cons /=; set_solver.
Qed.

Lemma map_put_elem m k v x : x ∈ map_put m k v → x = (k, v) ∨ x ∈ m.
Proof.
  induction m as [|[k' v'] m IH]; simpl; [set_solver|].
  repeat case_bool; bool_to_prop; set_solver.
Qed.

Lemma map_erase_elem m k x : x ∈ map_erase m k → x ∈ m.
Proof. clear lt. induction m as [|[k' v'] m IH]; simpl; [done|]. case_bool; set_solver. Qed.

(** The abstraction to finite maps. *)
Lemma lookup_to_gmap m k : to_gmap m !! k = map_get m k.
Proof. clear lt.
  rewrite /to_gmap. induction m as [|[k' v'] m IH]; [done|]. simpl.
  destruct (k =? k') eqn:E; bool_to_prop; subst; [by rewrite lookup_insert_eq|].
  by rewrite lookup_insert_ne.
Qed.

Context `{!StrictTotal lt}.

Lemma st_ne k1 k2 : lt k1 k2 = true → k1 ≠ k2.
Proof. intros H ->. by rewrite st_irrefl in H. Qed.

Lemma map_ok_NoDup m : map_ok m → NoDup m.*1.
Proof.
  induction m as [|[k v] m IH]; [constructor|]. intros [Hm Hk]%map_ok_cons.
  rewrite fmap_cons. constructor; [|by apply IH].
  intros Hin. rewrite Forall_forall in Hk. specialize (Hk _ Hin). simpl in Hk.
  by rewrite st_irrefl in Hk.
Qed.

Lemma map_get_elem m k v : map_ok m → (k, v) ∈ m → map_get m k = Some v.
Proof.
  intros Hok. apply map_ok_NoDup in Hok. induction m as [|[k' v'] m IH]; [set_solver|].
  rewrite fmap_cons in Hok. apply NoDup_cons in Hok as [Hn Hok].
  intros [[= <- <-]|Hin]%elem_of_cons; simpl; [by rewrite Z.eqb_refl|].
  rewrite (proj2 (Z.eqb_neq _ _)); [|by apply IH]. intros ->. apply Hn.
  apply list_elem_of_fmap. by exists (k', v).
Qed.

Lemma map_put_ok m k v : map_ok m → map_ok (map_put m k v).
Proof.
  induction m as [|[k' v'] m IH].
  { intros _. apply map_ok_cons. split; [constructor|constructor]. }
  intros [Hm Hk]%map_ok_cons. simpl. case_bool; [|case_bool; bool_to_prop].
  - apply map_ok_cons. split; [by apply map_ok_cons|]. rewrite fmap_cons. constructor; [done|].
    eapply Forall_impl; [exact Hk|]. intros x Hx. by eapply st_trans.
  - subst. by apply map_ok_cons.
  - apply map_ok_cons. split; [by apply IH|]. apply Forall_forall. intros x [->|Hx]%map_put_keys.
    + destruct (lt k' k) eqn:E; [done|]. by destruct (st_total k k').
    + rewrite Forall_forall in Hk. by apply Hk.
Qed.

Lemma map_erase_ok m k : map_ok m → map_ok (map_erase m k).
Proof.
  induction m as [|[k' v'] m IH]; [done|]. intros [Hm Hk]%map_ok_cons. simpl.
  case_bool; [done|]. apply map_ok_cons. split; [by apply IH|].
  apply Forall_forall. intros x Hx%map_erase_keys. rewrite Forall_forall in Hk. by apply Hk.
Qed.

Lemma map_get_put m k v k' :
  map_ok m → map_get (map_put m k v) k' = if decide (k = k') then Some v else map_get m k'.
Proof.
  induction m as [|[k0 v0] m IH].
  { intros _. simpl. case_bool; case_decide; bool_to_prop; congruence. }
  intros [Hm Hk]%map_ok_cons. simpl. case_bool; [|case_bool; bool_to_prop].
  - simpl. case_decide; subst; [by rewrite Z.eqb_refl|].
    by rewrite (proj2 (Z.eqb_neq k' k)).
  - subst. simpl. case_decide; subst; [by rewrite Z.eqb_refl|].
    by rewrite !(proj2 (Z.eqb_neq k' k0)).
  - simpl. rewrite IH //. case_bool; bool_to_prop; [|done]. subst. by rewrite decide_False.
Qed.

Lemma map_get_erase m k k' :
  map_ok m → map_get (map_erase m k) k' = if decide (k = k') then None else map_get m k'.
Proof.
  intros Hok. pose proof (map_ok_NoDup _ Hok) as Hnd. clear Hok.
  induction m as [|[k0 v0] m IH]; [by case_decide|].
  rewrite fmap_cons in Hnd. apply NoDup_cons in Hnd as [Hn Hd]. simpl.
  destruct (k =? k0) eqn:E; bool_to_prop; simpl.
  - subst. case_decide; subst; [by apply map_get_notin|].
    by rewrite (proj2 (Z.eqb_neq k' k0)).
  - rewrite IH //. case_bool; bool_to_prop; [|done]. subst. by rewrite decide_False.
Qed.

Lemma map_fresh k (ks : list Z) : Forall (λ k', lt k k' = true) ks → k ∉ ks.
Proof.
  rewrite Forall_forall => Hk Hin. have Hx : lt k k = true by apply Hk.
  by rewrite st_irrefl in Hx.
Qed.

Lemma map_head_not_lt k v m k' v' m' :
  map_ok ((k', v') :: m') →
  (∀ x, map_get ((k, v) :: m) x = map_get ((k', v') :: m') x) → lt k k' = false.
Proof.
  intros Ho' Hg. destruct (lt k k') eqn:E; [|done].
  specialize (Hg k). rewrite /= Z.eqb_refl in Hg.
  rewrite (proj2 (Z.eqb_neq _ _) (st_ne _ _ E)) in Hg. symmetry in Hg.
  apply map_get_in in Hg. apply map_ok_cons in Ho' as [_ Hk]. rewrite Forall_forall in Hk.
  specialize (Hk k). rewrite list_elem_of_fmap in Hk.
  have E' := Hk (ex_intro _ (k, v) (conj eq_refl Hg)).
  have Hkk : lt k k = true by eapply st_trans; [exact E|exact E'].
  by rewrite st_irrefl in Hkk.
Qed.

(** A map is determined by its lookups: the representation is canonical. *)
Lemma map_eq_get m1 m2 :
  map_ok m1 → map_ok m2 → (∀ k, map_get m1 k = map_get m2 k) → m1 = m2.
Proof.
  revert m2. induction m1 as [|[k1 v1] m1 IH]; intros [|[k2 v2] m2] H1 H2 Hg; [done|..].
  { specialize (Hg k2). by rewrite /= Z.eqb_refl in Hg. }
  { specialize (Hg k1). by rewrite /= Z.eqb_refl in Hg. }
  have E : k1 = k2 by apply st_total; eapply map_head_not_lt; eauto. subst.
  have Ev := Hg k2. rewrite /= Z.eqb_refl in Ev. injection Ev as ->. f_equal.
  apply map_ok_cons in H1 as [H1 Hk1]. apply map_ok_cons in H2 as [H2 Hk2].
  apply IH; [done..|]. intros k. specialize (Hg k). simpl in Hg. case_bool; [|done].
  bool_to_prop. subst. rewrite !map_get_notin //.
  - by eapply map_fresh.
  - by eapply map_fresh.
Qed.

Lemma to_gmap_put m k v : map_ok m → to_gmap (map_put m k v) = <[k := v]> (to_gmap m).
Proof.
  intros. apply map_eq. intros k'. rewrite lookup_insert !lookup_to_gmap map_get_put //.
Qed.

Lemma to_gmap_erase m k : map_ok m → to_gmap (map_erase m k) = delete k (to_gmap m).
Proof.
  intros. apply map_eq. intros k'. rewrite lookup_delete !lookup_to_gmap map_get_erase //.
Qed.

End Map.

#[global] Arguments map_ok {V} lt m : simpl never.

#[export] Hint Resolve map_put_ok map_erase_ok : cpp.
