(* ===== verification/OrderBook.v ===== *)
(** * The order book (order_book/order_book.cpp)

    [OrderBook] keeps bids and asks in two [std::map]s (best price first), the
    two derived quotes, and the last product message sequence number.  The
    specification sees a book as two finite maps from price to quantity; the
    refinement theorem shows that [apply_update] acts on them entry by entry. *)

From S2P Require Import Prelude CppMap MessageI081 MessageI083.

(** ** Definitions *)

Record PriceQuantityLevel : Type := mkLevel { price : Z; quantity : Z }.

#[export] Instance PriceQuantityLevel_eq_dec : EqDecision PriceQuantityLevel.
Proof. solve_decision. Defined.

Record OrderBook : Type := mkOrderBook {
  product_id_ : list Z;
  decimal_locator_ : Z;
  last_prod_msg_seq_ : Z;
  bids_ : list (Z * Z);
  asks_ : list (Z * Z);
  derived_bid_ : option PriceQuantityLevel;
  derived_ask_ : option PriceQuantityLevel;
}.

Definition set_seq (b : OrderBook) (s : Z) : OrderBook :=
  mkOrderBook (product_id_ b) (decimal_locator_ b) s (bids_ b) (asks_ b)
    (derived_bid_ b) (derived_ask_ b).
Definition set_locator (b : OrderBook) (l : Z) : OrderBook :=
  mkOrderBook (product_id_ b) l (last_prod_msg_seq_ b) (bids_ b) (asks_ b)
    (derived_bid_ b) (derived_ask_ b).
Definition set_bids (b : OrderBook) (m : list (Z * Z)) : OrderBook :=
  mkOrderBook (product_id_ b) (decimal_locator_ b) (last_prod_msg_seq_ b) m (asks_ b)
    (derived_bid_ b) (derived_ask_ b).
Definition set_asks (b : OrderBook) (m : list (Z * Z)) : OrderBook :=
  mkOrderBook (product_id_ b) (decimal_locator_ b) (last_prod_msg_seq_ b) (bids_ b) m
    (derived_bid_ b) (derived_ask_ b).
Definition set_derived_bid (b : OrderBook) (d : option PriceQuantityLevel) : OrderBook :=
  mkOrderBook (product_id_ b) (decimal_locator_ b) (last_prod_msg_seq_ b) (bids_ b) (asks_ b)
    d (derived_ask_ b).
Definition set_derived_ask (b : OrderBook) (d : option PriceQuantityLevel) : OrderBook :=
  mkOrderBook (product_id_ b) (decimal_locator_ b) (last_prod_msg_seq_ b) (bids_ b) (asks_ b)
    (derived_bid_ b) d.

(** The constructors. *)
Definition OrderBook_new (prod_id : list Z) (decimal_loc : Z) : OrderBook :=
  mkOrderBook prod_id decimal_loc 0 [] [] None None.
Definition OrderBook_default : OrderBook := mkOrderBook [] 0 0 [] [] None None.

Definition reset (b : OrderBook) : OrderBook :=
  mkOrderBook (product_id_ b) (decimal_locator_ b) 0 [] [] None None.

Definition get_product_id (b : OrderBook) : list Z := product_id_ b.
Definition get_last_prod_msg_seq (b : OrderBook) : Z := last_prod_msg_seq_ b.

(** The iteration of [get_top_bids] and [get_top_asks]. *)
Fixpoint top_loop (n : nat) (levels : list (Z * Z)) (top_levels : list PriceQuantityLevel)
    : list PriceQuantityLevel :=
  match levels with
  | [] => top_levels
  | (p, q) :: rest =>
      if (n <=? length top_levels)%nat then top_levels
      else top_loop n rest (top_levels ++ [mkLevel p q])
  end.

Definition get_top_bids (b : OrderBook) (n : nat) : list PriceQuantityLevel :=
  if (n =? 0)%nat then [] else top_loop n (bids_ b) [].

Definition get_top_asks (b : OrderBook) (n : nat) : list PriceQuantityLevel :=
  if (n =? 0)%nat then [] else top_loop n (asks_ b) [].

Definition get_derived_bid (b : OrderBook) : option PriceQuantityLevel := derived_bid_ b.
Definition get_derived_ask (b : OrderBook) : option PriceQuantityLevel := derived_ask_ b.

Definition apply_sign_to_price (price_magnitude sign_char : Z) : Z :=
  if sign_char =? 45 then
    if price_magnitude >? 0 then - price_magnitude else price_magnitude
  else price_magnitude.

Definition scale_price (b : OrderBook) (raw_price : Z) : Z := raw_price.

(** A derived quote is stored unless both its fields are zero. *)
Definition derived_quote (p q : Z) : option PriceQuantityLevel :=
  if (q >? 0) || negb (p =? 0) then Some (mkLevel p q) else None.

(** One iteration of the loop of [apply_snapshot]. *)
Definition snapshot_entry (calculated_flag : Z) (b : OrderBook) (e : MdEntryI083) : OrderBook :=
  let current_price := apply_sign_to_price (i083_md_entry_px e) (i083_sign e) in
  let current_quantity := u64 (i083_md_entry_size e) in
  let ty := i083_md_entry_type e in
  if ty =? 48 then
    if current_quantity >? 0 then
      set_bids b (map_put Z.gtb (bids_ b) current_price current_quantity)
    else b
  else if ty =? 49 then
    if current_quantity >? 0 then
      set_asks b (map_put Z.ltb (asks_ b) current_price current_quantity)
    else b
  else if ty =? 69 then
    if calculated_flag =? 48 then
      set_derived_bid b (derived_quote current_price current_quantity)
    else b
  else if ty =? 70 then
    if calculated_flag =? 48 then
      set_derived_ask b (derived_quote current_price current_quantity)
    else b
  else b.

Definition apply_snapshot (b : OrderBook) (i083_msg : MessageI083) : OrderBook :=
  let b := reset b in
  let b := set_seq b (i083_prod_msg_seq i083_msg) in
  foldl (snapshot_entry (i083_calculated_flag i083_msg)) b (i083_md_entries i083_msg).

(** The New / Change / Delete branches, identical for the two sides. *)
Definition update_side (lt : Z → Z → bool) (side : list (Z * Z))
    (update_action current_price current_quantity : Z) : list (Z * Z) :=
  if update_action =? 48 then
    if current_quantity >? 0 then map_put lt side current_price current_quantity else side
  else if update_action =? 49 then
    match map_get side current_price with
    | Some _ =>
        if current_quantity >? 0 then map_put lt side current_price current_quantity
        else map_erase side current_price
    | None =>
        if current_quantity >? 0 then map_put lt side current_price current_quantity else side
    end
  else if update_action =? 50 then map_erase side current_price
  else side.

(** One iteration of the loop of [apply_update]. *)
Definition update_entry (b : OrderBook) (e : MdEntryI081) : OrderBook :=
  let current_price := apply_sign_to_price (i081_md_entry_px e) (i081_sign e) in
  let current_quantity := u64 (i081_md_entry_size e) in
  let update_action := i081_md_update_action e in
  let entry_type := i081_md_entry_type e in
  if entry_type =? 48 then
    set_bids b (update_side Z.gtb (bids_ b) update_action current_price current_quantity)
  else if entry_type =? 49 then
    set_asks b (update_side Z.ltb (asks_ b) update_action current_price current_quantity)
  else if entry_type =? 69 then
    if update_action =? 53 then
      set_derived_bid b (derived_quote current_price current_quantity)
    else b
  else if entry_type =? 70 then
    if update_action =? 53 then
      set_derived_ask b (derived_quote current_price current_quantity)
    else b
  else b.

Definition apply_update (b : OrderBook) (i081_msg : MessageI081) : OrderBook :=
  let b :=
    if (i081_prod_msg_seq i081_msg >? last_prod_msg_seq_ b) || (last_prod_msg_seq_ b =? 0)
    then set_seq b (i081_prod_msg_seq i081_msg)
    else b (* an older or equal number: nothing happens on this branch *) in
  foldl update_entry b (i081_md_entries i081_msg).

(** *** Specification *)

(** The price and quantity an entry carries. *)
Definition e081_price (e : MdEntryI081) : Z := apply_sign_to_price (i081_md_entry_px e) (i081_sign e).
Definition e081_qty (e : MdEntryI081) : Z := u64 (i081_md_entry_size e).

(** What an update action does to one price level: New and Change with a
    positive quantity set it, Change to zero and Delete remove it, New with
    quantity zero and every other action leave it. *)
Definition level_step (action q : Z) (old : option Z) : option Z :=
  if action =? 48 then if q >? 0 then Some q else old
  else if action =? 49 then if q >? 0 then Some q else None
  else if action =? 50 then None
  else old.

(** The abstract book: unordered finite maps. *)
Record abs_book : Type := mkAbs {
  abs_bids : gmap Z Z;
  abs_asks : gmap Z Z;
  abs_derived_bid : option PriceQuantityLevel;
  abs_derived_ask : option PriceQuantityLevel;
}.

Definition abs (b : OrderBook) : abs_book :=
  mkAbs (to_gmap (bids_ b)) (to_gmap (asks_ b)) (derived_bid_ b) (derived_ask_ b).

Definition abs_entry (a : abs_book) (e : MdEntryI081) : abs_book :=
  let f := level_step (i081_md_update_action e) (e081_qty e) in
  let p := e081_price e in
  let ty := i081_md_entry_type e in
  let overlay d := if i081_md_update_action e =? 53 then derived_quote p (e081_qty e) else d in
  mkAbs
    (if ty =? 48 then partial_alter f p (abs_bids a) else abs_bids a)
    (if ty =? 49 then partial_alter f p (abs_asks a) else abs_asks a)
    (if ty =? 69 then overlay (abs_derived_bid a) else abs_derived_bid a)
    (if ty =? 70 then overlay (abs_derived_ask a) else abs_derived_ask a).

(** A side of a book in good shape: the container invariant for its order,
    and only positive 64-bit quantities. *)
Definition side_ok (lt : Z → Z → bool) (side : list (Z * Z)) : Prop :=
  map_ok lt side ∧ Forall (λ pq, 0 < pq.2 < 2 ^ 64) side.

Definition derived_ok (d : option PriceQuantityLevel) : Prop :=
  match d with
  | Some l => 0 ≤ quantity l < 2 ^ 64 ∧ (0 < quantity l ∨ price l ≠ 0)
  | None => True
  end.

Definition book_ok (b : OrderBook) : Prop :=
  side_ok Z.gtb (bids_ b) ∧ side_ok Z.ltb (asks_ b)
  ∧ derived_ok (derived_bid_ b) ∧ derived_ok (derived_ask_ b).

(** [top] are the [n] best levels of a side, best first: they are levels of the
    book, and every level left out is worse than all of them. *)
Definition best_levels (lt : Z → Z → bool) (side : list (Z * Z)) (n : nat)
    (top : list PriceQuantityLevel) : Prop :=
  length top = (n `min` length side)%nat
  ∧ StronglySorted (λ l1 l2, lt (price l1) (price l2) = true) top
  ∧ (∀ l, l ∈ top → map_get side (price l) = Some (quantity l))
  ∧ (∀ p q, map_get side p = Some q →
       mkLevel p q ∈ top ∨ length top = n ∧ ∀ l, l ∈ top → lt (price l) p = true).

(** The states a book can reach from a constructor through its methods. *)
Inductive book_reach : OrderBook → Prop :=
| reach_new pid dl : book_reach (OrderBook_new pid dl)
| reach_default : book_reach OrderBook_default
| reach_reset b : book_reach b → book_reach (reset b)
| reach_snapshot b m : book_reach b → book_reach (apply_snapshot b m)
| reach_update b m : book_reach b → book_reach (apply_update b m).

(** A snapshot as a list of differential entries: a New per level, an Overlay
    per derived quote (none in a call-auction snapshot). *)
Definition snapshot_action (calculated_flag ty : Z) : Z :=
  if (ty =? 48) || (ty =? 49) then 48
  else if calculated_flag =? 48 then 53 else 48.

Definition snapshot_as_update (m : MessageI083) : MessageI081 :=
  mkMessageI081 (i083_prod_id m) (i083_prod_msg_seq m) (i083_no_md_entries m)
    ((λ e, mkMdEntryI081 (snapshot_action (i083_calculated_flag m) (i083_md_entry_type e))
             (i083_md_entry_type e) (i083_sign e) (i083_md_entry_px e)
             (i083_md_entry_size e) (i083_md_price_level e)) <$> i083_md_entries m).

(** ** Lemmas *)

Lemma u64_range q : 0 ≤ u64 q < 2 ^ 64.
Proof. apply Z.mod_pos_bound. lia. Qed.

Section Side.
Context (lt : Z → Z → bool) `{!StrictTotal lt}.

Lemma side_ok_put s p q : side_ok lt s → 0 < q < 2 ^ 64 → side_ok lt (map_put lt s p q).
Proof.
  intros [Hm Hq] Hb. split; [by apply map_put_ok|]. apply Forall_forall.
  intros x [->|Hx]%map_put_elem; [done|]. rewrite Forall_forall in Hq. by apply Hq.
Qed.

Lemma side_ok_erase s p : side_ok lt s → side_ok lt (map_erase s p).
Proof.
  intros [Hm Hq]. split; [by apply map_erase_ok|]. apply Forall_forall.
  intros x Hx%map_erase_elem. rewrite Forall_forall in Hq. by apply Hq.
Qed.

Lemma update_side_ok s a p q :
  side_ok lt s → 0 ≤ q < 2 ^ 64 → side_ok lt (update_side lt s a p q).
Proof.
  intros Hs Hq. rewrite /update_side.
  repeat (case_bool || case_match); bool_to_prop; auto using side_ok_erase;
    apply side_ok_put; auto; lia.
Qed.

(** An update action touches one level, and does [level_step] to it. *)
Lemma update_side_gmap s a p q :
  map_ok lt s → to_gmap (update_side lt s a p q) = partial_alter (level_step a q) p (to_gmap s).
Proof.
  intros Hs. apply map_eq. intros k. rewrite lookup_partial_alter !lookup_to_gmap.
  rewrite /update_side /level_step.
  repeat (case_bool || case_match); bool_to_prop;
    rewrite ?map_get_put ?map_get_erase //; case_decide; subst; congruence.
Qed.

End Side.

Lemma side_ok_nil lt : side_ok lt [].
Proof. split; [constructor|constructor]. Qed.

Lemma derived_quote_ok p q : 0 ≤ q < 2 ^ 64 → derived_ok (derived_quote p q).
Proof.
  intros Hq. rewrite /derived_quote. case_bool; [|done]. simpl. split; [done|].
  apply orb_true_iff in Heqb as [?|?]; bool_to_prop; [by left|by right].
Qed.

#[export] Hint Resolve u64_range update_side_ok side_ok_put side_ok_nil derived_quote_ok
  less_total greater_total : cpp.

Lemma update_entry_ok b e : book_ok b → book_ok (update_entry b e).
Proof.
  intros (Hb & Ha & Hdb & Hda). rewrite /update_entry /book_ok.
  repeat case_bool; simpl; split_and!; auto with cpp.
Qed.

Lemma update_entries_ok es b : book_ok b → book_ok (foldl update_entry b es).
Proof. revert b. induction es as [|e es IH]; intros b Hb; [done|]. by apply IH, update_entry_ok. Qed.

Lemma apply_update_ok b m : book_ok b → book_ok (apply_update b m).
Proof. intros Hb. apply update_entries_ok. by case_bool. Qed.

Lemma reset_ok b : book_ok (reset b).
Proof. rewrite /book_ok /reset /=. split_and!; auto with cpp; done. Qed.

Lemma update_entry_abs b e : book_ok b → abs (update_entry b e) = abs_entry (abs b) e.
Proof.
  intros ([Hb _] & [Ha _] & _). rewrite /update_entry /abs /abs_entry /e081_qty /e081_price /=.
  repeat case_bool; bool_to_prop; simplify_eq; rewrite /= ?update_side_gmap //; lia.
Qed.

Lemma update_entries_abs es b :
  book_ok b → abs (foldl update_entry b es) = foldl abs_entry (abs b) es.
Proof.
  revert b. induction es as [|e es IH]; intros b Hb; [done|]. simpl.
  rewrite IH; [by apply update_entry_ok|]. by rewrite update_entry_abs.
Qed.

Lemma apply_update_abs b m :
  book_ok b → abs (apply_update b m) = foldl abs_entry (abs b) (i081_md_entries m).
Proof.
  intros Hb. rewrite /apply_update update_entries_abs; [by case_bool|]. by case_bool.
Qed.

(** The per-price view of a run of abstract entries. *)
Lemma abs_entries_bids es a p :
  abs_bids (foldl abs_entry a es) !! p =
  foldl (λ o e, level_step (i081_md_update_action e) (e081_qty e) o) (abs_bids a !! p)
    (filter (λ e, i081_md_entry_type e = 48 ∧ e081_price e = p) es).
Proof.
  revert a. induction es as [|e es IH]; intros a; [done|].
  rewrite /= IH filter_cons /=. case_decide as Hd.
  - destruct Hd as [Ht Hp]. rewrite Ht /= Hp lookup_partial_alter_eq //.
  - f_equal. destruct (i081_md_entry_type e =? 48) eqn:Ht; [|done]. bool_to_prop.
    rewrite lookup_partial_alter_ne //. naive_solver.
Qed.

Lemma abs_entries_asks es a p :
  abs_asks (foldl abs_entry a es) !! p =
  foldl (λ o e, level_step (i081_md_update_action e) (e081_qty e) o) (abs_asks a !! p)
    (filter (λ e, i081_md_entry_type e = 49 ∧ e081_price e = p) es).
Proof.
  revert a. induction es as [|e es IH]; intros a; [done|].
  rewrite /= IH filter_cons /=. case_decide as Hd.
  - destruct Hd as [Ht Hp]. rewrite Ht /= Hp lookup_partial_alter_eq //.
  - f_equal. destruct (i081_md_entry_type e =? 49) eqn:Ht; [|done]. bool_to_prop.
    rewrite lookup_partial_alter_ne //. naive_solver.
Qed.

(** A snapshot entry is the corresponding differential entry. *)
Lemma snapshot_entry_update flag b e :
  snapshot_entry flag b e =
  update_entry b (mkMdEntryI081 (snapshot_action flag (i083_md_entry_type e))
    (i083_md_entry_type e) (i083_sign e) (i083_md_entry_px e)
    (i083_md_entry_size e) (i083_md_price_level e)).
Proof.
  rewrite /snapshot_entry /update_entry /snapshot_action /update_side /=.
  destruct b as [pid dl seq bids asks db da].
  destruct (i083_md_entry_type e =? 48) eqn:E0; simpl; [by case_bool|].
  destruct (i083_md_entry_type e =? 49) eqn:E1; simpl; [by case_bool|].
  by destruct (i083_md_entry_type e =? 69), (i083_md_entry_type e =? 70), (flag =? 48).
Qed.

Lemma apply_snapshot_update b m :
  apply_snapshot b m = apply_update (reset b) (snapshot_as_update m).
Proof.
  rewrite /apply_snapshot /apply_update orb_true_r.
  cbn [snapshot_as_update i081_prod_msg_seq i081_md_entries].
  generalize (set_seq (reset b) (i083_prod_msg_seq m)).
  induction (i083_md_entries m) as [|e es IH]; intros b0; [done|].
  by rewrite fmap_cons /= IH snapshot_entry_update.
Qed.

Lemma apply_snapshot_ok b m : book_ok (apply_snapshot b m).
Proof. rewrite apply_snapshot_update. apply apply_update_ok, reset_ok. Qed.

(** Only the identity of the old book survives a reset. *)
Lemma update_entry_identity b e :
  product_id_ (update_entry b e) = product_id_ b
  ∧ decimal_locator_ (update_entry b e) = decimal_locator_ b
  ∧ last_prod_msg_seq_ (update_entry b e) = last_prod_msg_seq_ b.
Proof. rewrite /update_entry. by repeat case_bool. Qed.

Lemma update_entries_identity es b :
  product_id_ (foldl update_entry b es) = product_id_ b
  ∧ decimal_locator_ (foldl update_entry b es) = decimal_locator_ b
  ∧ last_prod_msg_seq_ (foldl update_entry b es) = last_prod_msg_seq_ b.
Proof.
  revert b. induction es as [|e es IH]; intros b; [done|].
  cbn [foldl]. destruct (IH (update_entry b e)) as (-> & -> & ->). apply update_entry_identity.
Qed.

Lemma apply_update_identity b m :
  product_id_ (apply_update b m) = product_id_ b
  ∧ decimal_locator_ (apply_update b m) = decimal_locator_ b.
Proof.
  rewrite /apply_update. destruct (update_entries_identity (i081_md_entries m)
    (if (i081_prod_msg_seq m >? last_prod_msg_seq_ b) || (last_prod_msg_seq_ b =? 0)
     then set_seq b (i081_prod_msg_seq m) else b)) as (-> & -> & _). by case_bool.
Qed.

Lemma apply_update_seq b m :
  0 ≤ last_prod_msg_seq_ b → 0 ≤ i081_prod_msg_seq m →
  last_prod_msg_seq_ (apply_update b m) = Z.max (last_prod_msg_seq_ b) (i081_prod_msg_seq m).
Proof.
  intros ??. rewrite /apply_update. destruct (update_entries_identity (i081_md_entries m)
    (if (i081_prod_msg_seq m >? last_prod_msg_seq_ b) || (last_prod_msg_seq_ b =? 0)
     then set_seq b (i081_prod_msg_seq m) else b)) as (_ & _ & ->).
  case_bool; simpl.
  - apply orb_true_iff in Heqb0 as [?|?]; bool_to_prop; lia.
  - bool_to_prop. lia.
Qed.

Lemma top_loop_take n levels acc :
  (length acc ≤ n)%nat →
  top_loop n levels acc = acc ++ ((λ pq, mkLevel pq.1 pq.2) <$> take (n - length acc) levels).
Proof.
  revert acc. induction levels as [|[p q] levels IH]; intros acc Hl.
  { by rewrite take_nil app_nil_r. }
  simpl. destruct (n <=? length acc)%nat eqn:E.
  - apply Nat.leb_le in E. replace (n - length acc)%nat with 0%nat by lia. by rewrite app_nil_r.
  - apply Nat.leb_gt in E. rewrite IH length_app /=; [lia|].
    replace (n - length acc)%nat with (S (n - (length acc + 1))) by lia. by rewrite -app_assoc.
Qed.

Lemma top_take n levels :
  (if (n =? 0)%nat then [] else top_loop n levels [])
  = (λ pq, mkLevel pq.1 pq.2) <$> take n levels.
Proof.
  case_bool; bool_to_prop; [by subst|]. rewrite top_loop_take; [simpl; lia|]. by rewrite Nat.sub_0_r.
Qed.

Lemma StronglySorted_fmap_take {A B} (R : B → B → Prop) (f : A → B) l n :
  StronglySorted R (f <$> l) → StronglySorted R (f <$> take n l).
Proof.
  revert n. induction l as [|x l IH]; intros [|n]; [constructor..|].
  cbn [take]. rewrite !fmap_cons. inversion 1 as [|?? Hs Hf]; subst.
  constructor; [by apply IH|]. rewrite !Forall_fmap in Hf *. by apply Forall_take.
Qed.

Lemma StronglySorted_take_drop {A} (R : A → A → Prop) l n x y :
  StronglySorted R l → x ∈ take n l → y ∈ drop n l → R x y.
Proof.
  revert n. induction l as [|z l IH]; intros [|n] Hs Hx Hy; simpl in *; try set_solver.
  inversion Hs as [|?? Hs' Hf]; subst. apply elem_of_cons in Hx as [->|Hx]; [|by eapply IH].
  rewrite Forall_forall in Hf. by eapply Hf, elem_of_drop_in.
Qed.

Lemma take_best lt `{!StrictTotal lt} side n :
  map_ok lt side → best_levels lt side n ((λ pq, mkLevel pq.1 pq.2) <$> take n side).
Proof.
  intros Hok. split_and!.
  - by rewrite length_fmap length_take.
  - rewrite /map_ok in Hok. apply (StronglySorted_fmap_take _ _ _ n) in Hok.
    induction (take n side) as [|x l IH]; [constructor|]. rewrite !fmap_cons in Hok *.
    inversion Hok as [|?? Hs Hf]; subst. constructor; [by apply IH|].
    by rewrite !Forall_fmap in Hf *.
  - intros l ([p q] & -> & Hin)%list_elem_of_fmap. apply (map_get_elem lt); [done|].
    by eapply elem_of_take_in.
  - intros p q Hg. apply map_get_in in Hg. rewrite -(take_drop n side) in Hg.
    apply elem_of_app in Hg as [Hg|Hg]; [left; apply list_elem_of_fmap; by exists (p, q)|right].
    split.
    + rewrite length_fmap length_take. destruct (decide (n ≤ length side)%nat); [lia|].
      rewrite drop_ge in Hg; [lia|]. by apply not_elem_of_nil in Hg.
    + intros l ([p' q'] & -> & Hin)%list_elem_of_fmap. simpl.
      eapply (StronglySorted_take_drop (λ k1 k2, lt k1 k2 = true) side.*1 n); [done|..].
      * rewrite -fmap_take. apply list_elem_of_fmap. by exists (p', q').
      * rewrite -fmap_drop. apply list_elem_of_fmap. by exists (p, q).
Qed.

(** ** Properties *)

(** A book with two bids and one ask, and an update of it. *)
Definition sample_book : OrderBook :=
  mkOrderBook (str "TXF                 ") 2 7 [(20100, 5); (20050, 3)] [(20150, 8)] None None.
Definition sample_update : MessageI081 :=
  mkMessageI081 (str "TXF                 ") 8 3
    [mkMdEntryI081 49 48 48 20100 0 1; mkMdEntryI081 48 48 48 20110 4 1;
     mkMdEntryI081 53 69 48 20120 2 1].

(** An update older than the book. *)
Definition old_update : MessageI081 :=
  mkMessageI081 (str "TXF                 ") 3 1 [mkMdEntryI081 48 48 48 20200 6 1].

Lemma sample_book_ok : book_ok sample_book.
Proof. rewrite /book_ok /side_ok /map_ok. by repeat (split || constructor). Defined.

(** C23: the book invariant holds in every reachable state: however snapshots,
    updates and resets are interleaved from a freshly constructed book, both
    sides stay strictly ordered by price with one node per price, every stored
    quantity is positive and fits 64 bits, and a derived quote is never stored
    with price and quantity both zero. *)
Theorem book_invariant b (Hr : book_reach b) : book_ok b.
Proof.
  induction Hr as [pid dl| |b _ IH|b m _ IH|b m _ IH].
  - apply (reset_ok (OrderBook_new pid dl)).
  - apply (reset_ok OrderBook_default).
  - apply reset_ok.
  - apply apply_snapshot_ok.
  - by apply apply_update_ok.
Qed.

Lemma book_invariant_witness :
  book_ok (apply_update (OrderBook_new (str "TXF") 2) sample_update).
Proof. apply book_invariant. apply reach_update, reach_new. Defined.

(** C3: refinement: on a well-formed book, [apply_update] implements the
    abstract update, which changes the finite map of each side one price level
    per entry, in message order (New/Change set, Change to zero and Delete
    remove, Overlay replaces a derived quote); it keeps the book well formed,
    never touches the product identity, and leaves the larger of the old and
    the new sequence number.  The entries are applied whatever the message's
    number is: an update older than the book keeps the book's number and still
    changes the levels, although a comment in the function and a test of the
    repository have it skipped.  The levels are keyed by the prices as parsed:
    neither the book's number nor its decimal locator has any influence on
    them, although the header documents prices scaled by the locator. *)
Theorem apply_update_refines b m (Hb : book_ok b)
    (Hs : 0 ≤ last_prod_msg_seq_ b) (Hm : 0 ≤ i081_prod_msg_seq m) :
  abs (apply_update b m) = foldl abs_entry (abs b) (i081_md_entries m)
  ∧ book_ok (apply_update b m)
  ∧ product_id_ (apply_update b m) = product_id_ b
  ∧ decimal_locator_ (apply_update b m) = decimal_locator_ b
  ∧ last_prod_msg_seq_ (apply_update b m)
    = Z.max (last_prod_msg_seq_ b) (i081_prod_msg_seq m)
  ∧ (i081_prod_msg_seq m < last_prod_msg_seq_ b →
     last_prod_msg_seq_ (apply_update b m) = last_prod_msg_seq_ b
     ∧ abs (apply_update b m) = foldl abs_entry (abs b) (i081_md_entries m))
  ∧ (∀ seq locator, abs (apply_update (set_seq (set_locator b locator) seq) m)
                    = abs (apply_update b m)).
Proof.
  have Habs := apply_update_abs b m Hb. have Hseq := apply_update_seq b m Hs Hm.
  split_and!; [done|by apply apply_update_ok|apply apply_update_identity..|done| |].
  - intros Hold. rewrite Hseq. split; [lia|done].
  - intros seq locator. by rewrite Habs apply_update_abs.
Qed.

Lemma apply_update_refines_witness :
  abs (apply_update sample_book sample_update)
  = foldl abs_entry (abs sample_book) (i081_md_entries sample_update)
  ∧ book_ok (apply_update sample_book sample_update)
  ∧ product_id_ (apply_update sample_book sample_update) = product_id_ sample_book
  ∧ decimal_locator_ (apply_update sample_book sample_update) = decimal_locator_ sample_book
  ∧ last_prod_msg_seq_ (apply_update sample_book sample_update)
    = Z.max (last_prod_msg_seq_ sample_book) (i081_prod_msg_seq sample_update)
  ∧ last_prod_msg_seq_ (apply_update sample_book old_update) = 7
  ∧ get_top_bids (apply_update sample_book old_update) 1 = [mkLevel 20200 6].
Proof.
  destruct (apply_update_refines sample_book sample_update sample_book_ok)
    as (Ha & Hok & Hp & Hd & Hseq & _); [done..|].
  destruct (apply_update_refines sample_book old_update sample_book_ok)
    as (_ & _ & _ & _ & _ & Hold & _); [done..|].
  split_and!; [done..|by apply Hold|done].
Defined.

(** Price levels are independent: after an update the quantity at a price
    of a side is determined by the quantity there before and by just the
    entries for that side and that price, applied in order; entries for other
    prices, for the other side or for derived quotes cannot change it. *)
Theorem update_per_price b m p (Hb : book_ok b) :
  let step := λ o e, level_step (i081_md_update_action e) (e081_qty e) o in
  map_get (bids_ (apply_update b m)) p =
    foldl step (map_get (bids_ b) p)
      (filter (λ e, i081_md_entry_type e = 48 ∧ e081_price e = p) (i081_md_entries m))
  ∧ map_get (asks_ (apply_update b m)) p =
    foldl step (map_get (asks_ b) p)
      (filter (λ e, i081_md_entry_type e = 49 ∧ e081_price e = p) (i081_md_entries m)).
Proof.
  cbv zeta. have Ha := apply_update_abs b m Hb. split.
  - apply (f_equal (λ a, abs_bids a !! p)) in Ha.
    by rewrite abs_entries_bids /= !lookup_to_gmap in Ha.
  - apply (f_equal (λ a, abs_asks a !! p)) in Ha.
    by rewrite abs_entries_asks /= !lookup_to_gmap in Ha.
Qed.

Lemma update_per_price_witness :
  let step := λ o e, level_step (i081_md_update_action e) (e081_qty e) o in
  map_get (bids_ (apply_update sample_book sample_update)) 20100 =
    foldl step (map_get (bids_ sample_book) 20100)
      (filter (λ e, i081_md_entry_type e = 48 ∧ e081_price e = 20100) (i081_md_entries sample_update))
  ∧ map_get (asks_ (apply_update sample_book sample_update)) 20100 =
    foldl step (map_get (asks_ sample_book) 20100)
      (filter (λ e, i081_md_entry_type e = 49 ∧ e081_price e = 20100) (i081_md_entries sample_update)).
Proof. apply (update_per_price sample_book sample_update 20100 sample_book_ok). Defined.

(** C25: [get_top_bids] and [get_top_asks] return exactly the best levels: as
    many as asked for (or all there are), highest bid (lowest ask) first in
    strict price order, each a level of the book with its quantity, and any
    level left out is worse than every level returned. *)
Theorem top_levels_best b n (Hb : book_ok b) :
  best_levels Z.gtb (bids_ b) n (get_top_bids b n)
  ∧ best_levels Z.ltb (asks_ b) n (get_top_asks b n).
Proof.
  destruct Hb as ([Hb _] & [Ha _] & _). rewrite /get_top_bids /get_top_asks !top_take.
  split; by apply take_best; auto with cpp.
Qed.

Lemma top_levels_best_witness :
  best_levels Z.gtb (bids_ sample_book) 1 (get_top_bids sample_book 1)
  ∧ best_levels Z.ltb (asks_ sample_book) 1 (get_top_asks sample_book 1).
Proof. apply (top_levels_best sample_book 1 sample_book_ok). Defined.

(** C24: a snapshot is a rebuild: applying an I083 equals resetting the book
    and applying its entries as New (and, outside a call auction, Overlay)
    entries, so that the two code paths agree; the result does not depend on
    what the book held before, only on which product it is for; and applying
    the same snapshot twice changes nothing. *)
Theorem snapshot_rebuilds b b' m
    (Hid : product_id_ b = product_id_ b') (Hdl : decimal_locator_ b = decimal_locator_ b') :
  apply_snapshot b m = apply_update (reset b) (snapshot_as_update m)
  ∧ apply_snapshot b' m = apply_snapshot b m
  ∧ apply_snapshot (apply_snapshot b m) m = apply_snapshot b m.
Proof.
  have Hindep : ∀ b1 b2, product_id_ b1 = product_id_ b2 →
    decimal_locator_ b1 = decimal_locator_ b2 → apply_snapshot b1 m = apply_snapshot b2 m.
  { intros b1 b2 H1 H2. by rewrite /apply_snapshot /reset H1 H2. }
  split_and!; [apply apply_snapshot_update|by apply Hindep|].
  destruct (apply_update_identity (reset b) (snapshot_as_update m)) as [E1 E2].
  apply Hindep; by rewrite apply_snapshot_update ?E1 ?E2.
Qed.

Definition sample_snapshot : MessageI083 :=
  mkMessageI083 (str "TXF                 ") 9 48 2
    [mkMdEntryI083 48 48 15000 10 1; mkMdEntryI083 69 45 15 2 1].

Lemma snapshot_rebuilds_witness :
  apply_snapshot sample_book sample_snapshot
  = apply_update (reset sample_book) (snapshot_as_update sample_snapshot)
  ∧ apply_snapshot (reset sample_book) sample_snapshot = apply_snapshot sample_book sample_snapshot
  ∧ apply_snapshot (apply_snapshot sample_book sample_snapshot) sample_snapshot
    = apply_snapshot sample_book sample_snapshot.
Proof. by apply (snapshot_rebuilds sample_book (reset sample_book) sample_snapshot). Defined.

(** An out-of-date update is applied in full: the sequence number of an
    I081 has no influence on what its entries do to the book, so a message
    older than the last one seen changes the levels exactly as a fresh one. *)
Theorem stale_update_applied b m s :
  abs (apply_update b m)
  = abs (apply_update b (mkMessageI081 (i081_prod_id m) s (i081_no_md_entries m) (i081_md_entries m))).
Proof.
  have Hseq : ∀ es b s, foldl update_entry (set_seq b s) es = set_seq (foldl update_entry b es) s.
  { induction es as [|e es IH]; intros b0 s0; [done|]. simpl.
    have -> : update_entry (set_seq b0 s0) e = set_seq (update_entry b0 e) s0.
    { rewrite /update_entry. by repeat case_bool. }
    apply IH. }
  rewrite /apply_update /=. repeat case_bool; rewrite ?Hseq; done.
Qed.
