(* ===== verification/TaifexSdk.v ===== *)
(** * The SDK object (sdk/taifex_sdk.cpp)

    [TaifexSdk] owns the product cache, the order books and the per-channel
    sequence numbers.  [process_message] validates a framed message and tracks
    its sequence number; the [handle_*] methods apply the parsed bodies.  An
    [OrderBook*] into [order_books_] is modelled by the key of its map node
    (nodes of a [std::map] do not move), so a call through it changes the node
    in place. *)

From S2P Require Import Prelude PackBcd CommonHeader Checksum MessageIdentifier.
From S2P Require Import MessageFields MessageI010 MessageI081 MessageI083 OrderBook.

(** ** Definitions *)

Record TaifexSdk : Type := mkTaifexSdk {
  product_info_cache_ : gmap (list Z) MessageI010;
  order_books_ : gmap (list Z) OrderBook;
  channel_sequences_ : gmap Z Z;
  initialized_ : bool;
}.

Definition set_cache (s : TaifexSdk) (c : gmap (list Z) MessageI010) : TaifexSdk :=
  mkTaifexSdk c (order_books_ s) (channel_sequences_ s) (initialized_ s).
Definition set_books (s : TaifexSdk) (b : gmap (list Z) OrderBook) : TaifexSdk :=
  mkTaifexSdk (product_info_cache_ s) b (channel_sequences_ s) (initialized_ s).
Definition set_channels (s : TaifexSdk) (c : gmap Z Z) : TaifexSdk :=
  mkTaifexSdk (product_info_cache_ s) (order_books_ s) c (initialized_ s).

(** The constructor. *)
Definition TaifexSdk_new : TaifexSdk := mkTaifexSdk ∅ ∅ ∅ false.

Definition initialize : method TaifexSdk bool :=
  modify (λ s, mkTaifexSdk (product_info_cache_ s) (order_books_ s) (channel_sequences_ s) true);;
  mret true.

Definition is_sequence_valid (header : CommonHeader) : method TaifexSdk bool :=
  channel_id ← lift (getChannelId header);
  current_channel_seq ← lift (getChannelSeq header);
  s ← get;
  match channel_sequences_ s !! channel_id with
  | None =>
      modify (λ s, set_channels s (<[channel_id := current_channel_seq]> (channel_sequences_ s)));;
      mret true
  | Some last_known_seq =>
      if current_channel_seq =? u64 (last_known_seq + 1) then
        modify (λ s, set_channels s (<[channel_id := current_channel_seq]> (channel_sequences_ s)));;
        mret true
      else if current_channel_seq <=? last_known_seq then mret false
      else
        modify (λ s, set_channels s (<[channel_id := current_channel_seq]> (channel_sequences_ s)));;
        mret false
  end.

(** The log statement after the checksum test calls three getters, which may
    throw; the dispatch to the handlers is commented out in the source. *)
Definition process_message (raw_message : pointer) (length : nat) : method TaifexSdk unit :=
  s ← get;
  if negb (initialized_ s) then mret tt
  else
    match raw_message with
    | None => mret tt
    | Some mem =>
        if (length =? 0)%nat then mret tt
        else if (length <? HEADER_SIZE + 1 + 2)%nat then mret tt
        else
          parsed ← lift (CommonHeader_parse raw_message length CommonHeader_default);
          let '(ok, temp_header) := parsed in
          if negb ok then mret tt
          else
            body_len ← lift (getBodyLength temp_header);
            let body_len_from_header := Z.to_nat body_len in
            let expected_total_length := (HEADER_SIZE + body_len_from_header + 1 + 2)%nat in
            if negb (length =? expected_total_length)%nat then mret tt
            else
              received_checksum ← lift (read1 mem (HEADER_SIZE + body_len_from_header));
              let checksum_data_length := (HEADER_SIZE - 1 + body_len_from_header)%nat in
              checksum_data ← lift (readn mem 1 checksum_data_length);
              let calculated_checksum := calculateXorChecksum checksum_data in
              if negb (calculated_checksum =? received_checksum) then mret tt
              else
                let header := temp_header in
                lift (getBodyLength header);;
                lift (getChannelId header);;
                lift (getChannelSeq header);;
                is_sequence_valid header;;
                let msg_type_str := identifyMessageId header in
                lift (getBodyLength header);;
                mret tt
    end.

(** [find('/')], then [substr(0, slash_pos)]; otherwise the first ten bytes. *)
Definition get_base_prod_id_for_i010_lookup (prod_id_from_message : list Z) : list Z :=
  match list_find (λ c, c = 47) prod_id_from_message with
  | Some (slash_pos, _) => take slash_pos prod_id_from_message
  | None =>
      if (10 <? length prod_id_from_message)%nat then take 10 prod_id_from_message
      else prod_id_from_message
  end.

(** Returns the key of the node the pointer designates, [None] for [nullptr]. *)
Definition get_or_create_order_book (product_id_from_message_body : list Z)
    : method TaifexSdk (option (list Z)) :=
  s ← get;
  match order_books_ s !! product_id_from_message_body with
  | Some _ => mret (Some product_id_from_message_body)
  | None =>
      let base_prod_id_for_i010 :=
        get_base_prod_id_for_i010_lookup product_id_from_message_body in
      match product_info_cache_ s !! base_prod_id_for_i010 with
      | Some product_info =>
          modify (λ s, set_books s
            (<[product_id_from_message_body :=
                 OrderBook_new product_id_from_message_body (decimal_locator product_info)]>
               (order_books_ s)));;
          mret (Some product_id_from_message_body)
      | None => mret None
      end
  end.

(** [ob->f()] for a book pointer [ob]. *)
Definition call_book (ob : list Z) (f : OrderBook → OrderBook) : method TaifexSdk unit :=
  modify (λ s, set_books s (alter f ob (order_books_ s))).

Definition handle_i010 (body_ptr : pointer) (body_len : nat) (header : CommonHeader)
    : method TaifexSdk unit :=
  parsed ← lift (parse_i010_body body_ptr body_len MessageI010_uninit);
  let '(ok, i010_msg) := parsed in
  if ok : bool then
    let prod_id_s := prod_id_s i010_msg in
    modify (λ s, set_cache s (<[prod_id_s := i010_msg]> (product_info_cache_ s)))
  else mret tt.

Definition handle_i081 (body_ptr : pointer) (body_len : nat) (header : CommonHeader)
    : method TaifexSdk unit :=
  parsed ← lift (parse_i081_body body_ptr body_len MessageI081_uninit);
  let '(ok, i081_msg) := parsed in
  if ok : bool then
    let current_prod_id := i081_prod_id i081_msg in
    ob ← get_or_create_order_book current_prod_id;
    match ob with
    | Some ob => call_book ob (λ b, apply_update b i081_msg)
    | None => mret tt
    end
  else mret tt.

Definition handle_i083 (body_ptr : pointer) (body_len : nat) (header : CommonHeader)
    : method TaifexSdk unit :=
  parsed ← lift (parse_i083_body body_ptr body_len MessageI083_uninit);
  let '(ok, i083_msg) := parsed in
  if ok : bool then
    let current_prod_id := i083_prod_id i083_msg in
    ob ← get_or_create_order_book current_prod_id;
    match ob with
    | Some ob => call_book ob (λ b, apply_snapshot b i083_msg)
    | None => mret tt
    end
  else mret tt.

(** Only the getters of the log statement can have an effect: to throw. *)
Definition handle_i001 (header : CommonHeader) : method TaifexSdk unit :=
  lift (getChannelId header);;
  lift (getChannelSeq header);;
  mret tt.

Definition handle_i002 (header : CommonHeader) : method TaifexSdk unit :=
  lift (getChannelId header);;
  modify (λ s, set_books s (reset <$> order_books_ s));;
  channel_id ← lift (getChannelId header);
  modify (λ s, set_channels s (<[channel_id := 0]> (channel_sequences_ s))).

(** *** Specification vocabulary *)

(** A message on the wire: header, body, checksum of everything between the
    escape byte and the checksum, terminal code. *)
Definition checked_bytes (h : CommonHeader) (body : list Z) : list Z :=
  drop 1 (header_bytes h) ++ body.
Definition frame (h : CommonHeader) (body term : list Z) : list Z :=
  header_bytes h ++ body ++ [calculateXorChecksum (checked_bytes h body)] ++ term.

(** A header whose fields are valid and that announces [body]. *)
Definition announces (h : CommonHeader) (body : list Z) : Prop :=
  wf_header h ∧ bcd_field (body_length_bcd h) = Ok (Z.of_nat (length body)).

(** What a sequence number does to the last one known, and the verdict. *)
Definition track (last : option Z) (seq : Z) : option Z :=
  Some (match last with Some l => Z.max l seq | None => seq end).
Definition expected (last : option Z) (seq : Z) : bool :=
  match last with Some l => seq =? l + 1 | None => true end.

(** A run of [is_sequence_valid] over a stream of headers, with the verdicts. *)
Fixpoint check_stream (hs : list CommonHeader) : method TaifexSdk (list bool) :=
  match hs with
  | [] => mret []
  | h :: hs =>
      v ← is_sequence_valid h;
      vs ← check_stream hs;
      mret (v :: vs)
  end.

(** The sequence numbers of channel [c] in a stream, in order. *)
Definition seqs_of (c : Z) (hs : list CommonHeader) : list Z :=
  (λ h, bcd_val (channel_seq_bcd h)) <$> filter (λ h, bcd_val (channel_id_bcd h) = c) hs.

(** [seqs] continues [last] without a gap or a repetition. *)
Fixpoint consecutive (last : option Z) (seqs : list Z) : Prop :=
  match seqs with
  | [] => True
  | s :: seqs => expected last s = true ∧ consecutive (Some s) seqs
  end.

Definition valid_header (h : CommonHeader) : Prop :=
  wf_header h ∧ bcd_ok (channel_id_bcd h) = true ∧ bcd_ok (channel_seq_bcd h) = true.

(** The calls a client can make, with readable arguments. *)
Inductive call : Type :=
| Initialize
| ProcessMessage (raw : pointer) (n : nat)
| HandleI010 (body : pointer) (n : nat) (h : CommonHeader)
| HandleI081 (body : pointer) (n : nat) (h : CommonHeader)
| HandleI083 (body : pointer) (n : nat) (h : CommonHeader)
| HandleI001 (h : CommonHeader)
| HandleI002 (h : CommonHeader).

Definition exec (c : call) : method TaifexSdk unit :=
  match c with
  | Initialize => initialize;; mret tt
  | ProcessMessage raw n => process_message raw n
  | HandleI010 body n h => handle_i010 body n h
  | HandleI081 body n h => handle_i081 body n h
  | HandleI083 body n h => handle_i083 body n h
  | HandleI001 h => handle_i001 h
  | HandleI002 h => handle_i002 h
  end.

Definition readable (p : pointer) (n : nat) : Prop :=
  match p with Some mem => (n ≤ length mem)%nat | None => True end.

Definition call_ok (c : call) : Prop :=
  match c with
  | Initialize => True
  | ProcessMessage p n => readable p n
  | HandleI010 p n h | HandleI081 p n h | HandleI083 p n h => readable p n ∧ wf_header h
  | HandleI001 h | HandleI002 h => wf_header h
  end.

(** The states reachable through calls; a call that throws keeps the state it
    had reached. *)
Inductive sdk_reach : TaifexSdk → Prop :=
| sdk_reach_new : sdk_reach TaifexSdk_new
| sdk_reach_step s c : sdk_reach s → call_ok c → sdk_reach (exec c s).1.

Definition cache_entry_ok (k : list Z) (m : MessageI010) : Prop := k = prod_id_s m ∧ i010_ok m.
Definition book_entry_ok (cache : gmap (list Z) MessageI010) (k : list Z) (b : OrderBook) : Prop :=
  product_id_ b = k ∧ length k = 20%nat ∧ book_ok b ∧ 0 ≤ decimal_locator_ b ≤ 9
  ∧ is_Some (cache !! get_base_prod_id_for_i010_lookup k).
Definition channel_entry_ok (c q : Z) : Prop := 0 ≤ c < 10 ^ 4 ∧ 0 ≤ q < 10 ^ 10.

Definition sdk_ok (s : TaifexSdk) : Prop :=
  map_Forall cache_entry_ok (product_info_cache_ s)
  ∧ map_Forall (book_entry_ok (product_info_cache_ s)) (order_books_ s)
  ∧ map_Forall channel_entry_ok (channel_sequences_ s).

(** The effect of a parsed order-book message on the books: [f] is applied to
    the product's book, which is created if its I010 is known. *)
Definition book_effect (s : TaifexSdk) (pid : list Z) (f : OrderBook → OrderBook) : TaifexSdk :=
  match order_books_ s !! pid with
  | Some b => set_books s (<[pid := f b]> (order_books_ s))
  | None =>
      match product_info_cache_ s !! get_base_prod_id_for_i010_lookup pid with
      | Some info =>
          set_books s (<[pid := f (OrderBook_new pid (decimal_locator info))]> (order_books_ s))
      | None => s
      end
  end.

(** ** Lemmas *)

(** *** Sequence tracking *)

Lemma set_channels_id s : set_channels s (channel_sequences_ s) = s.
Proof. by destruct s. Qed.

Lemma getters_valid h :
  valid_header h →
  getChannelId h = Ok (bcd_val (channel_id_bcd h))
  ∧ getChannelSeq h = Ok (bcd_val (channel_seq_bcd h))
  ∧ channel_entry_ok (bcd_val (channel_id_bcd h)) (bcd_val (channel_seq_bcd h)).
Proof.
  intros (Hwf & Hc & Hs). rewrite getChannelId_eq // getChannelSeq_eq // /bcd_field Hc Hs.
  destruct Hwf as (_ & L1 & L2 & _). apply bcd_val_bound in Hc, Hs.
  rewrite L1 in Hc. rewrite L2 in Hs. by split_and!.
Qed.

(** With valid fields and sequence numbers far from the 64-bit limit, the
    method is [track] on the channel's entry and returns [expected]. *)
Lemma is_sequence_valid_eq h s :
  valid_header h → map_Forall channel_entry_ok (channel_sequences_ s) →
  let c := bcd_val (channel_id_bcd h) in
  let q := bcd_val (channel_seq_bcd h) in
  is_sequence_valid h s =
  (set_channels s (partial_alter (λ o, track o q) c (channel_sequences_ s)),
   Ok (expected (channel_sequences_ s !! c) q)).
Proof.
  intros Hh Hm c q. destruct (getters_valid h Hh) as (Ec & Eq & _).
  rewrite /is_sequence_valid Ec Eq -/c -/q. run_method.
  have Hins : ∀ v, track (channel_sequences_ s !! c) q = Some v →
    partial_alter (λ o, track o q) c (channel_sequences_ s) = <[c := v]> (channel_sequences_ s).
  { intros v Hv. apply map_eq => i. destruct (decide (c = i)) as [<-|?].
    - by rewrite lookup_partial_alter_eq lookup_insert_eq.
    - by rewrite lookup_partial_alter_ne // lookup_insert_ne. }
  destruct (channel_sequences_ s !! c) as [last|] eqn:El; cbn; last first.
  { by rewrite (Hins _ eq_refl). }
  apply Hm in El as Hb. destruct Hb as [_ Hb].
  rewrite (Hins _ eq_refl). have -> : u64 (last + 1) = last + 1 by apply Z.mod_small; lia.
  repeat case_bool; bool_to_prop; cbn.
  - by rewrite Z.max_r; [lia|].
  - rewrite Z.max_l; [lia|]. rewrite insert_id //. by rewrite set_channels_id.
  - by rewrite Z.max_r; [lia|].
Qed.

Lemma track_ok s h :
  valid_header h → map_Forall channel_entry_ok (channel_sequences_ s) →
  map_Forall channel_entry_ok
    (partial_alter (λ o, track o (bcd_val (channel_seq_bcd h))) (bcd_val (channel_id_bcd h))
       (channel_sequences_ s)).
Proof.
  intros Hh Hm c q. destruct (getters_valid h Hh) as (_ & _ & Hok).
  rewrite lookup_partial_alter. case_decide; [subst|by apply Hm].
  rewrite /track => [[= <-]]. case_match; [|done].
  apply Hm in H as [? ?]. destruct Hok. split; lia.
Qed.

(** *** Framing *)

(** The first [n >= 22] bytes of a readable buffer split into a header, a
    body, one checksum byte and the terminal code. *)
Lemma split_message mem n :
  (HEADER_SIZE + 3 ≤ n ≤ length mem)%nat →
  ∃ h body ck term, wf_header h ∧ mem = header_bytes h ++ body ++ [ck] ++ term
    ∧ (2 ≤ length term)%nat ∧ n = (HEADER_SIZE + length body + 3)%nat.
Proof.
  intros Hl. destruct (split_header mem) as (h & Hwf & E); [lia|].
  have Hd : length (drop HEADER_SIZE mem) = (length mem - HEADER_SIZE)%nat by apply length_drop.
  set r := drop HEADER_SIZE mem in E Hd. set k := (n - HEADER_SIZE - 3)%nat.
  have Hlr : length (drop k r) = (length mem - n + 3)%nat by rewrite length_drop; lia.
  destruct (drop k r) as [|ck term] eqn:Er; simpl in Hlr; [lia|].
  exists h, (take k r), ck, term. split_and!; [done| |lia|].
  - by rewrite E /= -Er take_drop.
  - rewrite length_take. lia.
Qed.

Lemma drop1_header h rest : wf_header h →
  drop 1 (header_bytes h ++ rest) = drop 1 (header_bytes h) ++ rest.
Proof. intros Hwf. rewrite drop_app_le // header_bytes_length // /HEADER_SIZE. lia. Qed.

(** [process_message] on a split message of an initialized object. *)
Lemma process_message_split s h body ck term :
  initialized_ s = true → wf_header h → (2 ≤ length term)%nat →
  let mem := header_bytes h ++ body ++ [ck] ++ term in
  let n := (HEADER_SIZE + length body + 3)%nat in
  process_message (Some mem) n s =
  match bcd_field (body_length_bcd h) with
  | Ok bl =>
      if bl =? Z.of_nat (length body) then
        if calculateXorChecksum (checked_bytes h body) =? ck then
          (lift (getChannelId h);; lift (getChannelSeq h);; is_sequence_valid h;; mret tt) s
        else (s, Ok tt)
      else (s, Ok tt)
  | Throw e => (s, Throw e)
  | Undefined => (s, Undefined)
  end.
Proof.
  intros Hi Hwf Ht mem n. have Hh := header_bytes_length h Hwf.
  have Hlen : length mem = (HEADER_SIZE + length body + 1 + length term)%nat.
  { rewrite /mem length_app Hh !length_app. cbn [length]. lia. }
  rewrite /process_message. run_method. rewrite Hi. cbn [negb].
  rewrite (proj2 (Nat.eqb_neq _ _)); [lia|].
  rewrite (proj2 (Nat.ltb_ge _ _)); [lia|].
  rewrite parse_header_bytes //; [lia|]. cbn [negb].
  rewrite getBodyLength_eq //.
  destruct (bcd_field (body_length_bcd h)) as [bl|e|] eqn:Ebl; [|done..].
  apply bcd_field_range in Ebl as Hbl.
  destruct (bl =? Z.of_nat (length body)) eqn:Eb; bool_to_prop; last first.
  { rewrite (proj2 (Nat.eqb_neq _ _)) //. lia. }
  rewrite (proj2 (Nat.eqb_eq _ _)); [lia|]. cbn [negb]. subst bl. rewrite Nat2Z.id.
  have -> : read1 mem (HEADER_SIZE + length body) = Ok ck.
  { apply read1_Ok. rewrite /mem app_assoc lookup_app_r length_app Hh; [lia|].
    by rewrite Nat.sub_diag. }
  rewrite readn_Ok; [rewrite Hlen /HEADER_SIZE; lia|].
  have -> : take (HEADER_SIZE - 1 + length body) (drop 1 mem) = checked_bytes h body.
  { rewrite /mem drop1_header // /checked_bytes app_assoc take_app_length' //.
    by rewrite length_app length_drop Hh. }
  destruct (_ =? ck); [|done]. cbn [negb].
  destruct (getChannelId h); [|done..]. destruct (getChannelSeq h); [|done..].
  by destruct (is_sequence_valid h s) as [s' [v| |]].
Qed.

(** The state after the last part of [process_message]. *)
Lemma tail_state s h :
  wf_header h → map_Forall channel_entry_ok (channel_sequences_ s) →
  (lift (getChannelId h);; lift (getChannelSeq h);; is_sequence_valid h;; mret tt) s =
  if bcd_ok (channel_id_bcd h) && bcd_ok (channel_seq_bcd h) then
    (set_channels s (partial_alter (λ o, track o (bcd_val (channel_seq_bcd h)))
       (bcd_val (channel_id_bcd h)) (channel_sequences_ s)), Ok tt)
  else (s, Throw ParsingError).
Proof.
  intros Hwf Hm. destruct (bcd_ok (channel_id_bcd h)) eqn:E1; cbn [andb]; last first.
  { by rewrite getChannelId_eq // /bcd_field E1. }
  destruct (bcd_ok (channel_seq_bcd h)) eqn:E2; last first.
  { rewrite getChannelId_eq // getChannelSeq_eq // /bcd_field E1 E2 //. }
  have Hv : valid_header h by split_and!.
  destruct (getters_valid h Hv) as (-> & -> & _).
  run_method. by rewrite is_sequence_valid_eq.
Qed.

(** The effect of an accepted frame. *)
Definition accept (s : TaifexSdk) (h : CommonHeader) : TaifexSdk :=
  set_channels s (partial_alter (λ o, track o (bcd_val (channel_seq_bcd h)))
    (bcd_val (channel_id_bcd h)) (channel_sequences_ s)).

Lemma process_frame s h body term :
  initialized_ s = true → map_Forall channel_entry_ok (channel_sequences_ s) →
  announces h body → valid_header h → (2 ≤ length term)%nat →
  process_message (Some (frame h body term)) (HEADER_SIZE + length body + 3) s = (accept s h, Ok tt).
Proof.
  intros Hi Hm [Hwf Hbl] (_ & Hc & Hq) Ht. rewrite /frame process_message_split // Hbl !Z.eqb_refl.
  by rewrite tail_state // Hc Hq.
Qed.

(** What a call can do: nothing, or accept a well-formed frame. *)
Lemma process_message_cases s raw n :
  map_Forall channel_entry_ok (channel_sequences_ s) → readable raw n →
  (∃ r, process_message raw n s = (s, r) ∧ (r = Ok tt ∨ r = Throw ParsingError))
  ∨ ∃ h body term, initialized_ s = true ∧ raw = Some (frame h body term)
      ∧ n = (HEADER_SIZE + length body + 3)%nat ∧ announces h body ∧ valid_header h
      ∧ (2 ≤ length term)%nat ∧ process_message raw n s = (accept s h, Ok tt).
Proof.
  intros Hm Hr. destruct (initialized_ s) eqn:Hi; last first.
  { left. exists (Ok tt). split; [|by left]. rewrite /process_message. run_method. by rewrite Hi. }
  destruct raw as [mem|]; last first.
  { left. exists (Ok tt). split; [|by left]. rewrite /process_message. run_method. by rewrite Hi. }
  destruct (decide (HEADER_SIZE + 3 ≤ n)%nat) as [Hn|Hn]; last first.
  { left. exists (Ok tt). split; [|by left]. rewrite /process_message. run_method. rewrite Hi /=.
    case_bool; [done|]. rewrite (proj2 (Nat.ltb_lt _ _)) //. rewrite /HEADER_SIZE in Hn *. lia. }
  destruct (split_message mem n) as (h & body & ck & term & Hwf & -> & Ht & ->); [done|].
  rewrite process_message_split //.
  destruct (bcd_field_total (body_length_bcd h)) as [[v Hv]|Hv]; rewrite Hv; last by left; eauto.
  destruct (v =? _) eqn:Ev; [|by left; eauto]. destruct (_ =? ck) eqn:Eck; [|by left; eauto].
  bool_to_prop. subst v ck. rewrite tail_state //.
  destruct (bcd_ok (channel_id_bcd h)) eqn:E1; [|by left; eauto].
  destruct (bcd_ok (channel_seq_bcd h)) eqn:E2; [|by left; eauto].
  right. exists h, body, term. by split_and!.
Qed.

(** The bytes from the first after the escape to the checksum cancel out. *)
Lemma frame_xor h body term :
  wf_header h →
  calculateXorChecksum (take (HEADER_SIZE + length body) (drop 1 (frame h body term))) = 0.
Proof.
  intros Hwf. have Hl : length (drop 1 (header_bytes h)) = (HEADER_SIZE - 1)%nat.
  { by rewrite length_drop header_bytes_length. }
  rewrite /frame drop1_header // app_assoc -/(checked_bytes h body).
  have Hc : length (checked_bytes h body) = (HEADER_SIZE - 1 + length body)%nat.
  { by rewrite /checked_bytes length_app Hl. }
  rewrite (app_assoc (checked_bytes h body) [_] term) take_app_length'.
  - rewrite length_app Hc /=. rewrite /HEADER_SIZE. lia.
  - apply xor_self.
Qed.

(** A frame with one byte changed, other than the escape byte and the terminal
    code, has no effect. *)
Lemma process_corrupted s h body t1 t2 i b :
  map_Forall channel_entry_ok (channel_sequences_ s) → wf_header h →
  (1 ≤ i < HEADER_SIZE + length body + 1)%nat → frame h body [t1; t2] !! i ≠ Some b →
  let mem := frame h body [t1; t2] in
  (process_message (Some (<[i := b]> mem)) (length mem) s).1 = s.
Proof.
  intros Hs Hwf Hi Hb mem. have Hl : length mem = (HEADER_SIZE + length body + 3)%nat.
  { rewrite /mem /frame length_app header_bytes_length // length_app /=. lia. }
  destruct (process_message_cases s (Some (<[i:=b]> mem)) (length mem)) as [(r & -> & _)|H];
    [done|by rewrite /= length_insert|done|].
  destruct H as (h' & body' & term' & _ & [= E] & Hl' & [Hwf' _] & _).
  exfalso. have Hbl : length body' = length body by lia.
  have X := frame_xor h body [t1; t2] Hwf. have X' := frame_xor h' body' term' Hwf'.
  rewrite -E Hbl in X'. destruct (lookup_lt_is_Some_2 mem i) as [b0 Hb0]; [lia|].
  rewrite drop_insert_ge in X'; [lia|]. rewrite take_insert_lt in X'; [lia|].
  apply (checksum_insert_ne (take (HEADER_SIZE + length body) (drop 1 mem)) (i - 1) b0 b);
    [|by intros <-|by rewrite X' X].
  rewrite lookup_take_lt; [lia|]. rewrite lookup_drop -Hb0. f_equal. lia.
Qed.

(** *** Handlers *)

Lemma order_book_call s pid f :
  (ob ← get_or_create_order_book pid;
   match ob with Some ob => call_book ob f | None => mret tt end) s
  = (book_effect s pid f, Ok tt).
Proof.
  rewrite /get_or_create_order_book /call_book /book_effect. run_method.
  destruct (order_books_ s !! pid) as [b|] eqn:Eb.
  - f_equal. rewrite /set_books. f_equal. apply map_eq => k.
    destruct (decide (pid = k)) as [<-|?].
    + by rewrite lookup_alter_eq Eb lookup_insert_eq.
    + by rewrite lookup_alter_ne // lookup_insert_ne.
  - destruct (product_info_cache_ s !! _); [|done]. f_equal. rewrite /set_books /=. f_equal.
    by rewrite alter_insert_eq.
Qed.

(** The message a body argument denotes, [None] when the parser refuses it. *)
Definition decoded {M} (min : nat) (fields : list Z → nat → option M) (p : pointer) (n : nat)
    : option M :=
  mem ← p; if (n <? min)%nat then None else fields mem n.

Abbreviation i010_of := (decoded 32 (λ mem _, i010_fields mem)).
Abbreviation i081_of := (decoded 26 i081_fields).
Abbreviation i083_of := (decoded 27 i083_fields).

Lemma handle_i010_eq p n h s :
  readable p n →
  handle_i010 p n h s =
  (match i010_of p n with
   | Some m => set_cache s (<[prod_id_s m := m]> (product_info_cache_ s))
   | None => s
   end, Ok tt).
Proof.
  intros Hr. rewrite /handle_i010 /decoded. destruct p as [mem|]; [|done].
  destruct (n <? 32)%nat eqn:En; cbn [mbind option_bind].
  { run_method. rewrite /parse_i010_body En //. }
  bool_to_prop. have Hp := parse_i010_eq mem n MessageI010_uninit Hr En.
  rewrite /parses in Hp.
  destruct (i010_fields mem) as [m|]; [by rewrite Hp|]. by destruct Hp as [out ->].
Qed.

Lemma handle_i081_eq p n h s :
  readable p n →
  handle_i081 p n h s =
  (match i081_of p n with
   | Some m => book_effect s (i081_prod_id m) (λ b, apply_update b m)
   | None => s
   end, Ok tt).
Proof.
  intros Hr. rewrite /handle_i081 /decoded. destruct p as [mem|]; [|done].
  destruct (n <? 26)%nat eqn:En; cbn [mbind option_bind].
  { run_method. rewrite /parse_i081_body En //. }
  bool_to_prop. have Hp := parse_i081_eq mem n MessageI081_uninit Hr En.
  rewrite /parses in Hp. destruct (i081_fields mem n) as [m|].
  - rewrite Hp. apply order_book_call.
  - by destruct Hp as [out ->].
Qed.

Lemma handle_i083_eq p n h s :
  readable p n →
  handle_i083 p n h s =
  (match i083_of p n with
   | Some m => book_effect s (i083_prod_id m) (λ b, apply_snapshot b m)
   | None => s
   end, Ok tt).
Proof.
  intros Hr. rewrite /handle_i083 /decoded. destruct p as [mem|]; [|done].
  destruct (n <? 27)%nat eqn:En; cbn [mbind option_bind].
  { run_method. rewrite /parse_i083_body En //. }
  bool_to_prop. have Hp := parse_i083_eq mem n MessageI083_uninit Hr En.
  rewrite /parses in Hp. destruct (i083_fields mem n) as [m|].
  - rewrite Hp. apply order_book_call.
  - by destruct Hp as [out ->].
Qed.

Lemma decoded_Some {M} min (fields : list Z → nat → option M) p n m :
  decoded min fields p n = Some m →
  ∃ mem, p = Some mem ∧ (min ≤ n)%nat ∧ fields mem n = Some m.
Proof.
  rewrite /decoded. destruct p as [mem|]; [|done]. simpl. case_bool; [done|].
  bool_to_prop. eauto.
Qed.

(** *** The invariant *)

Lemma book_effect_ok s pid f :
  sdk_ok s → length pid = 20%nat →
  (∀ b, book_ok b → book_ok (f b) ∧ product_id_ (f b) = product_id_ b
                    ∧ decimal_locator_ (f b) = decimal_locator_ b) →
  sdk_ok (book_effect s pid f).
Proof.
  intros (Hc & Hb & Hq) Hl Hf. rewrite /book_effect.
  destruct (order_books_ s !! pid) as [b|] eqn:Eb.
  - split_and!; [done| |done]. apply map_Forall_insert_2; [|done].
    apply Hb in Eb as (E & ? & Hok & Hd & Hi). destruct (Hf b Hok) as (? & Ep & Hdl).
    by rewrite /book_entry_ok Ep Hdl.
  - destruct (product_info_cache_ s !! _) as [info|] eqn:Ei; [|done].
    split_and!; [done| |done]. apply map_Forall_insert_2; [|done].
    destruct (Hf (OrderBook_new pid (decimal_locator info))) as (? & E & Hdl);
      [apply (reset_ok (OrderBook_new pid (decimal_locator info)))|].
    apply Hc in Ei as Hm. destruct Hm as (_ & _ & _ & Hd & _).
    rewrite /book_entry_ok E Hdl Ei /=. split_and!; eauto; lia.
Qed.

Lemma sdk_ok_channels s m :
  sdk_ok s → map_Forall channel_entry_ok m → sdk_ok (set_channels s m).
Proof. by intros (? & ? & ?) ?. Qed.

Lemma accept_ok s h : sdk_ok s → valid_header h → sdk_ok (accept s h).
Proof. intros Hs Hv. apply sdk_ok_channels; [done|]. apply track_ok; [done|apply Hs]. Qed.

Lemma cache_insert_ok s m :
  sdk_ok s → i010_ok m →
  sdk_ok (set_cache s (<[prod_id_s m := m]> (product_info_cache_ s))).
Proof.
  intros (Hc & Hb & Hq) Hm. split_and!; [by apply map_Forall_insert_2| |done].
  intros k b Hk. apply Hb in Hk as (? & ? & ? & ? & Hi).
  split_and!; try done; [lia..|]. simpl. rewrite lookup_insert_is_Some'. by right.
Qed.

Lemma reset_books_ok s c :
  sdk_ok s → 0 ≤ c < 10 ^ 4 →
  sdk_ok (set_channels (set_books s (reset <$> order_books_ s))
            (<[c := 0]> (channel_sequences_ s))).
Proof.
  intros (Hc & Hb & Hq) Hr. split_and!; [done| |by apply map_Forall_insert_2].
  intros k b. simpl. rewrite lookup_fmap => /fmap_Some [b' [Hk ->]].
  apply Hb in Hk as (<- & ? & ? & ? & ?). have := reset_ok b'. by rewrite /book_entry_ok.
Qed.

Lemma handle_i002_eq h s :
  wf_header h →
  handle_i002 h s =
  match bcd_field (channel_id_bcd h) with
  | Ok c => (set_channels (set_books s (reset <$> order_books_ s))
               (<[c := 0]> (channel_sequences_ s)), Ok tt)
  | Throw e => (s, Throw e)
  | Undefined => (s, Undefined)
  end.
Proof.
  intros Hwf. rewrite /handle_i002. run_method. rewrite getChannelId_eq //.
  by destruct (bcd_field _).
Qed.

Lemma exec_ok c s : sdk_ok s → call_ok c → sdk_ok (exec c s).1.
Proof.
  intros Hs Hc. destruct c as [|raw n|p n h|p n h|p n h|h|h]; simpl in Hc |- *.
  - done.
  - destruct (process_message_cases s raw n) as [(r & -> & _)|H]; [apply Hs|done|done|].
    destruct H as (h & body & term & _ & _ & _ & _ & Hv & _ & ->). by apply accept_ok.
  - destruct Hc as [Hr _]. rewrite handle_i010_eq //=. case_match eqn:E; [|done].
    apply decoded_Some in E as (mem & -> & Hn & E). simpl in Hr.
    apply cache_insert_ok; [done|]. eapply i010_fields_ok; [|done]. lia.
  - destruct Hc as [Hr _]. rewrite handle_i081_eq //=. case_match eqn:E; [|done].
    apply decoded_Some in E as (mem & -> & Hn & E). simpl in Hr.
    apply book_effect_ok; [done| |].
    + eapply i081_fields_ok; [|done]. lia.
    + intros b Hb. split; [by apply apply_update_ok|apply apply_update_identity].
  - destruct Hc as [Hr _]. rewrite handle_i083_eq //=. case_match eqn:E; [|done].
    apply decoded_Some in E as (mem & -> & Hn & E). simpl in Hr.
    apply book_effect_ok; [done| |].
    + eapply i083_fields_ok; [|done]. lia.
    + intros b Hb. split; [by apply apply_snapshot_ok|]. rewrite apply_snapshot_update.
      apply (apply_update_identity (reset b)).
  - rewrite /handle_i001. run_method. by destruct (getChannelId h), (getChannelSeq h).
  - rewrite handle_i002_eq //. destruct (bcd_field _) eqn:E; [|done..].
    apply bcd_field_range in E. destruct Hc as (_ & L & _). rewrite L in E.
    by apply reset_books_ok.
Qed.

Lemma sdk_reach_ok s : sdk_reach s → sdk_ok s.
Proof.
  induction 1 as [|s c _ IH Hc]; [|by apply exec_ok].
  split_and!; apply map_Forall_empty.
Qed.

(** *** Streams of headers *)

Lemma seqs_of_cons c h hs :
  seqs_of c (h :: hs) =
  if decide (bcd_val (channel_id_bcd h) = c)
  then bcd_val (channel_seq_bcd h) :: seqs_of c hs else seqs_of c hs.
Proof. rewrite /seqs_of filter_cons. by case_decide. Qed.

Lemma expected_track last q : expected last q = true → track last q = Some q.
Proof. destruct last as [l|]; simpl; [|done]. intros. bool_to_prop. rewrite /track. f_equal. lia. Qed.

Lemma check_stream_spec hs s :
  Forall valid_header hs → map_Forall channel_entry_ok (channel_sequences_ s) →
  ∃ s' vs, check_stream hs s = (s', Ok vs) ∧ length vs = length hs
    ∧ (∀ c, channel_sequences_ s' !! c = foldl track (channel_sequences_ s !! c) (seqs_of c hs))
    ∧ (forallb id vs = true ↔ ∀ c, consecutive (channel_sequences_ s !! c) (seqs_of c hs)).
Proof.
  intros Hv. revert s. induction Hv as [|h hs Hh Hv IH]; intros s Hm.
  { exists s, []. split_and!; done. }
  have Ht := track_ok s h Hh Hm.
  destruct (IH (accept s h)) as (s' & vs & E & Hl & Hc & Hall); [done|].
  exists s', (expected (channel_sequences_ s !! bcd_val (channel_id_bcd h))
                (bcd_val (channel_seq_bcd h)) :: vs).
  split_and!.
  - cbn [check_stream]. run_method. rewrite is_sequence_valid_eq //.
    rewrite -/(accept s h). by rewrite E.
  - by rewrite /= Hl.
  - intros c. rewrite Hc seqs_of_cons. simpl. rewrite lookup_partial_alter.
    by case_decide; [subst|].
  - cbn [forallb]. rewrite andb_true_iff Hall. setoid_rewrite seqs_of_cons. simpl. split.
    + intros [He Hs] c. specialize (Hs c). rewrite lookup_partial_alter in Hs.
      case_decide; [subst|done]. rewrite expected_track // in Hs.
    + intros Hs. have Hh' := Hs (bcd_val (channel_id_bcd h)).
      rewrite decide_True // in Hh'. destruct Hh' as [He Hcs].
      split; [done|]. intros c. specialize (Hs c). rewrite lookup_partial_alter.
      case_decide; [subst|done]. by rewrite expected_track.
Qed.

(** *** Books built from a feed *)





(** *** Sample data *)

Definition sdk0 : TaifexSdk := mkTaifexSdk ∅ ∅ ∅ true.

Lemma sdk0_reach : sdk_reach sdk0.
Proof. apply (sdk_reach_step TaifexSdk_new Initialize sdk_reach_new I). Defined.

(** An I081 with sequence number 42 on channel 7. *)
Definition sample_msg_header : CommonHeader :=
  mkCommonHeader 27 50 65 [9; 0; 1; 2; 3; 4] [0; 7] [0; 0; 0; 0; 66] 1 [0; 57].

Lemma sample_msg_valid : valid_header sample_msg_header.
Proof. by repeat split. Defined.

(** ** Properties *)

(** C1: safety of [process_message]: in every reachable state, for every
    pointer whose [n] bytes are readable, the call neither reads outside the
    message nor leaves any other way than normally or with a [ParsingError];
    it never touches the product cache, the order books or the initialized
    flag; and it changes the state only for an initialized object and a
    well-formed frame (valid header, announced length, right checksum), whose
    effect is to track the sequence number of its channel. *)
Theorem process_message_safe s raw n (Hs : sdk_reach s) (Hr : readable raw n) :
  let '(s', r) := process_message raw n s in
  (r = Ok tt ∨ r = Throw ParsingError)
  ∧ product_info_cache_ s' = product_info_cache_ s ∧ order_books_ s' = order_books_ s
  ∧ initialized_ s' = initialized_ s
  ∧ (s' = s ∨ ∃ h body term, initialized_ s = true ∧ raw = Some (frame h body term)
       ∧ n = (HEADER_SIZE + length body + 3)%nat ∧ announces h body ∧ valid_header h
       ∧ s' = accept s h).
Proof.
  apply sdk_reach_ok in Hs as (_ & _ & Hm).
  destruct (process_message_cases s raw n Hm Hr) as [(r & -> & Hres)|H].
  - by split_and!; [..|left].
  - destruct H as (h & body & term & ? & ? & ? & ? & ? & ? & ->).
    split_and!; [by left|done..|]. right. by exists h, body, term.
Qed.

Lemma process_message_safe_witness :
  let '(s', r) := process_message (Some (frame sample_msg_header sample_i081_body [13; 10])) 61 sdk0 in
  (r = Ok tt ∨ r = Throw ParsingError)
  ∧ product_info_cache_ s' = product_info_cache_ sdk0 ∧ order_books_ s' = order_books_ sdk0
  ∧ initialized_ s' = initialized_ sdk0
  ∧ (s' = sdk0 ∨ ∃ h body term, initialized_ sdk0 = true
       ∧ Some (frame sample_msg_header sample_i081_body [13; 10]) = Some (frame h body term)
       ∧ 61%nat = (HEADER_SIZE + length body + 3)%nat ∧ announces h body ∧ valid_header h
       ∧ s' = accept sdk0 h).
Proof. apply process_message_safe; [apply sdk0_reach|simpl; lia]. Defined.

(** An initialized object accepts every well-formed frame: for any header
    with valid BCD that announces the body, [process_message] on the encoded
    frame returns normally and records exactly the larger of the channel's
    last sequence number and the message's, leaving every other channel
    alone. *)
Theorem process_message_accepts s h body t1 t2 (Hs : sdk_reach s) (Hi : initialized_ s = true)
    (Ha : announces h body) (Hv : valid_header h) :
  let mem := frame h body [t1; t2] in
  process_message (Some mem) (length mem) s = (accept s h, Ok tt)
  ∧ (∀ c, channel_sequences_ (accept s h) !! c =
       if decide (c = bcd_val (channel_id_bcd h))
       then track (channel_sequences_ s !! c) (bcd_val (channel_seq_bcd h))
       else channel_sequences_ s !! c).
Proof.
  intros mem. have Hl : length mem = (HEADER_SIZE + length body + 3)%nat.
  { rewrite /mem /frame length_app header_bytes_length; [apply Ha|]. rewrite length_app /=. lia. }
  split.
  - rewrite Hl. apply process_frame; [done|apply (sdk_reach_ok _ Hs)|done..].
  - intros c. rewrite /= lookup_partial_alter. repeat case_decide; by subst.
Qed.

Lemma process_message_accepts_witness :
  let mem := frame sample_msg_header sample_i081_body [13; 10] in
  process_message (Some mem) (length mem) sdk0 = (accept sdk0 sample_msg_header, Ok tt)
  ∧ (∀ c, channel_sequences_ (accept sdk0 sample_msg_header) !! c =
       if decide (c = bcd_val (channel_id_bcd sample_msg_header))
       then track (channel_sequences_ sdk0 !! c) (bcd_val (channel_seq_bcd sample_msg_header))
       else channel_sequences_ sdk0 !! c).
Proof.
  apply (process_message_accepts sdk0 sample_msg_header sample_i081_body 13 10);
    [apply sdk0_reach|done|by repeat split|apply sample_msg_valid].
Defined.

(** C19: corruption is contained: change any single byte of a well-formed frame
    other than the escape byte and the terminal code, in the header, in the
    body or the checksum itself, and [process_message] leaves the object
    exactly as it was, whatever the corrupted length and sequence fields then
    say. *)
Theorem corrupted_frame_ignored s h body t1 t2 i b (Hs : sdk_reach s)
    (Hwf : wf_header h) (Hi : (1 ≤ i < HEADER_SIZE + length body + 1)%nat)
    (Hb : frame h body [t1; t2] !! i ≠ Some b) :
  let mem := frame h body [t1; t2] in
  (process_message (Some (<[i := b]> mem)) (length mem) s).1 = s.
Proof. apply process_corrupted; [apply (sdk_reach_ok _ Hs)|done..]. Qed.

Lemma corrupted_frame_ignored_witness :
  let mem := frame sample_msg_header sample_i081_body [13; 10] in
  (process_message (Some (<[13%nat := 67]> mem)) (length mem) sdk0).1 = sdk0.
Proof.
  apply (corrupted_frame_ignored sdk0 sample_msg_header sample_i081_body 13 10 13 67);
    [apply sdk0_reach|by repeat split|simpl; lia|by vm_compute].
Defined.

(** C22: sequence tracking over a stream: for any stream of valid headers on
    any mix of channels, [is_sequence_valid] never fails, ends with each
    channel's entry at the largest number seen on that channel (so an old
    message never moves it back and a gap is resynchronised past), and reports
    "valid" for every message exactly when each channel's numbers continue
    without a gap, a repetition or a reordering. *)
Theorem sequence_stream s hs (Hs : sdk_reach s) (Hv : Forall valid_header hs) :
  ∃ s' vs, check_stream hs s = (s', Ok vs) ∧ length vs = length hs
    ∧ (∀ c, channel_sequences_ s' !! c = foldl track (channel_sequences_ s !! c) (seqs_of c hs))
    ∧ (forallb id vs = true ↔ ∀ c, consecutive (channel_sequences_ s !! c) (seqs_of c hs)).
Proof. apply check_stream_spec; [done|apply (sdk_reach_ok _ Hs)]. Qed.

Lemma sequence_stream_witness :
  ∃ s' vs, check_stream [sample_msg_header; sample_msg_header] sdk0 = (s', Ok vs)
    ∧ length vs = 2%nat
    ∧ (∀ c, channel_sequences_ s' !! c = foldl track (channel_sequences_ sdk0 !! c)
              (seqs_of c [sample_msg_header; sample_msg_header]))
    ∧ (forallb id vs = true ↔ ∀ c, consecutive (channel_sequences_ sdk0 !! c)
              (seqs_of c [sample_msg_header; sample_msg_header])).
Proof.
  apply (sequence_stream sdk0 [sample_msg_header; sample_msg_header]); [apply sdk0_reach|].
  repeat constructor; apply sample_msg_valid.
Defined.

(** C6: the state invariant holds after any sequence of calls on a new object,
    including calls that throw: the cache maps each 10-byte identifier to the
    I010 that carries it, every book is stored under its own 20-byte product
    identifier, is well formed, has a one-digit decimal locator and belongs to
    a product whose I010 is cached, and channel numbers and sequence numbers
    stay within their decimal fields. *)
Theorem sdk_invariant s (Hs : sdk_reach s) : sdk_ok s.
Proof. by apply sdk_reach_ok. Qed.

Lemma sdk_invariant_witness :
  sdk_ok (exec (HandleI010 (Some sample_i010_body) 32 sample_msg_header) sdk0).1.
Proof.
  apply sdk_invariant, sdk_reach_step; [apply sdk0_reach|].
  split; [simpl; lia|by repeat split].
Defined.

(** C7: the body handlers refine their specification on every readable body:
    a body the parser refuses changes nothing; an I010 is cached under its own
    identifier; an I081 or I083 updates or rebuilds exactly the book of its
    product, which is created first with the locator of the cached I010 when
    it does not exist, and is dropped when no I010 is known.  None of them
    throws. *)
Theorem handlers_refine p n h s (Hr : readable p n) :
  handle_i010 p n h s =
    (match i010_of p n with
     | Some m => set_cache s (<[prod_id_s m := m]> (product_info_cache_ s))
     | None => s
     end, Ok tt)
  ∧ handle_i081 p n h s =
    (match i081_of p n with
     | Some m => book_effect s (i081_prod_id m) (λ b, apply_update b m)
     | None => s
     end, Ok tt)
  ∧ handle_i083 p n h s =
    (match i083_of p n with
     | Some m => book_effect s (i083_prod_id m) (λ b, apply_snapshot b m)
     | None => s
     end, Ok tt).
Proof. auto using handle_i010_eq, handle_i081_eq, handle_i083_eq. Qed.

Lemma handlers_refine_witness :
  let p := Some sample_i081_body in
  let h := sample_msg_header in
  handle_i010 p 39 h sdk0 =
    (match i010_of p 39%nat with
     | Some m => set_cache sdk0 (<[prod_id_s m := m]> (product_info_cache_ sdk0))
     | None => sdk0
     end, Ok tt)
  ∧ handle_i081 p 39 h sdk0 =
    (match i081_of p 39%nat with
     | Some m => book_effect sdk0 (i081_prod_id m) (λ b, apply_update b m)
     | None => sdk0
     end, Ok tt)
  ∧ handle_i083 p 39 h sdk0 =
    (match i083_of p 39%nat with
     | Some m => book_effect sdk0 (i083_prod_id m) (λ b, apply_snapshot b m)
     | None => sdk0
     end, Ok tt).
Proof. apply (handlers_refine (Some sample_i081_body) 39). simpl. lia. Defined.




(** A sequence reset (I002) with a valid channel empties every book, keeps
    each book's identity, sets its message sequence number and the channel's
    last sequence number to zero and leaves the other channels and the product
    cache alone, so that number 1 is next in sequence on that channel; with a
    malformed channel it throws [ParsingError] before changing anything. *)
Theorem i002_resets s h h' (Hs : sdk_reach s) (Hwf : wf_header h)
    (Hv : valid_header h') (Hc : channel_id_bcd h' = channel_id_bcd h)
    (Hq : bcd_val (channel_seq_bcd h') = 1) :
  let '(s', r) := handle_i002 h s in
  if bcd_ok (channel_id_bcd h) then
    r = Ok tt ∧ product_info_cache_ s' = product_info_cache_ s
    ∧ (∀ k, order_books_ s' !! k = reset <$> order_books_ s !! k)
    ∧ (∀ c, channel_sequences_ s' !! c =
         if decide (c = bcd_val (channel_id_bcd h)) then Some 0 else channel_sequences_ s !! c)
    ∧ (is_sequence_valid h' s').2 = Ok true
  else s' = s ∧ r = Throw ParsingError.
Proof.
  apply sdk_reach_ok in Hs. rewrite handle_i002_eq // /bcd_field.
  destruct (bcd_ok (channel_id_bcd h)) eqn:E; [|done].
  have Hr := bcd_val_bound _ E. destruct Hwf as (_ & L & _). rewrite L in Hr.
  split_and!; [done|done| | |].
  - intros k. by rewrite /= lookup_fmap.
  - intros c. rewrite /= lookup_insert. repeat case_decide; by subst.
  - destruct (reset_books_ok s _ Hs Hr) as (_ & _ & Hm).
    rewrite is_sequence_valid_eq //= Hc Hq lookup_insert_eq //.
Qed.

Lemma i002_resets_witness :
  let '(s', r) := handle_i002 sample_msg_header sdk0 in
  r = Ok tt ∧ product_info_cache_ s' = product_info_cache_ sdk0
  ∧ (∀ k, order_books_ s' !! k = reset <$> order_books_ sdk0 !! k)
  ∧ (∀ c, channel_sequences_ s' !! c =
       if decide (c = bcd_val (channel_id_bcd sample_msg_header)) then Some 0
       else channel_sequences_ sdk0 !! c)
  ∧ (is_sequence_valid (mkCommonHeader 27 50 65 [9; 0; 1; 2; 3; 4] [0; 7] [0; 0; 0; 0; 1] 1 [0; 57]) s').2
    = Ok true.
Proof.
  apply (i002_resets sdk0 sample_msg_header
    (mkCommonHeader 27 50 65 [9; 0; 1; 2; 3; 4] [0; 7] [0; 0; 0; 0; 1] 1 [0; 57]));
    [apply sdk0_reach|by repeat split..].
Defined.

(** A combination product never gets a book: when the identifier of an
    instrument contains the leg separator anywhere but at position 10 (as in
    TXFF3/I3), no sequence of calls creates a book for it, since the part
    before the separator is looked up unpadded in a cache whose keys all have
    ten bytes. *)
Theorem spread_never_booked s pid j c (Hs : sdk_reach s)
    (Hf : list_find (λ c, c = 47) pid = Some (j, c)) (Hj : j ≠ 10%nat) :
  order_books_ s !! pid = None ∧ get_or_create_order_book pid s = (s, Ok None).
Proof.
  apply sdk_reach_ok in Hs as (Hc & Hb & _).
  have Hnone : product_info_cache_ s !! get_base_prod_id_for_i010_lookup pid = None.
  { rewrite /get_base_prod_id_for_i010_lookup Hf.
    destruct (product_info_cache_ s !! take j pid) as [m|] eqn:E; [|done].
    apply Hc in E as [E [Hl _]]. apply list_find_Some in Hf as (Hlook & _).
    apply lookup_lt_Some in Hlook. rewrite -E length_take in Hl. lia. }
  have Hbook : order_books_ s !! pid = None.
  { destruct (order_books_ s !! pid) as [b|] eqn:E; [|done].
    apply Hb in E as (_ & _ & _ & _ & [m Hm]). by rewrite Hnone in Hm. }
  split; [done|]. rewrite /get_or_create_order_book. run_method. by rewrite Hbook Hnone.
Qed.

Lemma spread_never_booked_witness :
  order_books_ sdk0 !! str "TXFF3/I3            " = None
  ∧ get_or_create_order_book (str "TXFF3/I3            ") sdk0 = (sdk0, Ok None).
Proof.
  apply (spread_never_booked sdk0 (str "TXFF3/I3            ") 5 47);
    [apply sdk0_reach|reflexivity|lia].
Defined.
