(* ===== verification/SdkStream.v ===== *)
(** * Streams of packets handed to the SDK

    The components that feed the SDK (the replay program, the network manager)
    call [process_message] once per packet.  This file has the run of a whole
    stream, its safety, its effect when the packets are well-formed frames, and
    the two algebraic facts the feeds rely on: accepting a frame twice is the
    same as once, and the order of frames does not matter to the final state. *)

From S2P Require Import Prelude PackBcd CommonHeader TaifexSdk.

(** ** Definitions *)

(** One call of [process_message] per packet; an exception ends the run. *)
Fixpoint process_messages (packets : list (list Z)) : method TaifexSdk unit :=
  match packets with
  | [] => mret tt
  | p :: packets => process_message (Some p) (length p);; process_messages packets
  end.

(** A packet that is a well-formed frame with header [h]. *)
Definition is_frame (h : CommonHeader) (p : list Z) : Prop :=
  valid_header h ∧ ∃ body t1 t2, announces h body ∧ p = frame h body [t1; t2].

Definition accept_all (s : TaifexSdk) (hs : list CommonHeader) : TaifexSdk := foldl accept s hs.

#[export] Instance header_eq_dec : EqDecision CommonHeader.
Proof. solve_decision. Defined.

(** ** Lemmas *)

Lemma frame_length h body t1 t2 :
  wf_header h → length (frame h body [t1; t2]) = (HEADER_SIZE + length body + 3)%nat.
Proof. intros. rewrite /frame length_app header_bytes_length // length_app /=. lia. Qed.

Lemma process_is_frame s h p :
  initialized_ s = true → map_Forall channel_entry_ok (channel_sequences_ s) → is_frame h p →
  process_message (Some p) (length p) s = (accept s h, Ok tt).
Proof.
  intros Hi Hm (Hv & body & t1 & t2 & Ha & ->). rewrite frame_length; [apply Ha|].
  by apply process_frame.
Qed.

(** What one call keeps: the object stays well formed and initialized, and
    nothing but the channel table changes. *)
Lemma process_message_keeps s p n :
  sdk_ok s → readable p n →
  let '(s', r) := process_message p n s in
  (r = Ok tt ∨ r = Throw ParsingError) ∧ sdk_ok s'
  ∧ initialized_ s' = initialized_ s ∧ product_info_cache_ s' = product_info_cache_ s
  ∧ order_books_ s' = order_books_ s.
Proof.
  intros Hs Hr. pose proof (exec_ok (ProcessMessage p n) s Hs Hr) as Hok. simpl in Hok.
  destruct (process_message_cases s p n) as [(r & E & Hres)|H]; [apply Hs|done|..].
  - rewrite E in Hok |- *. by split_and!.
  - destruct H as (h & body & term & _ & _ & _ & _ & _ & _ & E). rewrite E in Hok |- *.
    by split_and!; [left|..].
Qed.

Lemma process_messages_keeps ps s :
  sdk_ok s →
  let '(s', r) := process_messages ps s in
  (r = Ok tt ∨ r = Throw ParsingError) ∧ sdk_ok s'
  ∧ initialized_ s' = initialized_ s ∧ product_info_cache_ s' = product_info_cache_ s
  ∧ order_books_ s' = order_books_ s.
Proof.
  revert s. induction ps as [|p ps IH]; intros s Hs; [by split_and!; [left|..]|].
  pose proof (process_message_keeps s (Some p) (length p) Hs (Nat.le_refl _)) as H.
  cbn [process_messages]. run_method.
  destruct (process_message _ _ s) as [s1 [[]|e|]]; destruct H as (Hr & Hs1 & H1 & H2 & H3).
  - specialize (IH s1 Hs1). destruct (process_messages ps s1) as [s2 r].
    destruct IH as (? & ? & ? & ? & ?). split_and!; [done|done|congruence..].
  - by split_and!.
  - by destruct Hr.
Qed.

Lemma process_messages_app ps1 ps2 s :
  process_messages (ps1 ++ ps2) s = (process_messages ps1;; process_messages ps2) s.
Proof.
  revert s. induction ps1 as [|p ps1 IH]; intros s; [done|].
  cbn [app process_messages]. run_method.
  destruct (process_message _ _ s) as [s1 [[]|e|]]; [|done..]. rewrite IH. run_method. done.
Qed.

Lemma accept_channels_ok s h :
  valid_header h → map_Forall channel_entry_ok (channel_sequences_ s) →
  map_Forall channel_entry_ok (channel_sequences_ (accept s h)).
Proof. intros Hv Hm. by apply track_ok. Qed.

(** A stream of well-formed frames is accepted as a whole. *)
Lemma process_frames hs ps s :
  initialized_ s = true → map_Forall channel_entry_ok (channel_sequences_ s) →
  Forall2 is_frame hs ps → process_messages ps s = (accept_all s hs, Ok tt).
Proof.
  intros Hi Hm Hf. revert s Hi Hm. induction Hf as [|h p hs ps Hp Hf IH]; intros s Hi Hm; [done|].
  cbn [process_messages]. run_method. rewrite (process_is_frame s h p) //.
  apply IH; [done|]. apply accept_channels_ok; [apply Hp|done].
Qed.

Lemma accept_all_initialized s hs : initialized_ (accept_all s hs) = initialized_ s.
Proof. revert s. induction hs as [|h hs IH]; intros s; [done|]. apply (IH (accept s h)). Qed.

(** *** Frames commute and may be repeated *)

Lemma track_comm o q1 q2 : track (track o q1) q2 = track (track o q2) q1.
Proof. destruct o; rewrite /track; f_equal; lia. Qed.

Lemma track_idem o q : track (track o q) q = track o q.
Proof. destruct o; rewrite /track; f_equal; lia. Qed.

Lemma accept_comm s h1 h2 : accept (accept s h1) h2 = accept (accept s h2) h1.
Proof.
  rewrite /accept /=. f_equal. apply map_eq. intros c. rewrite !lookup_partial_alter.
  generalize (bcd_val (channel_id_bcd h1)) (bcd_val (channel_id_bcd h2)). intros c1 c2.
  repeat case_decide; subst; try done. apply track_comm.
Qed.

Lemma accept_idem s h : accept (accept s h) h = accept s h.
Proof.
  rewrite /accept /=. f_equal. apply map_eq. intros c. rewrite !lookup_partial_alter.
  case_decide; [|done]. rewrite decide_True //. subst. apply track_idem.
Qed.

Lemma accept_all_accept s h hs : accept_all (accept s h) hs = accept (accept_all s hs) h.
Proof.
  revert s. induction hs as [|h' hs IH]; intros s; [done|]. cbn. by rewrite accept_comm -IH.
Qed.

Lemma accept_all_in s h hs : h ∈ hs → accept (accept_all s hs) h = accept_all s hs.
Proof.
  revert s. induction hs as [|h' hs IH]; intros s; [by intros ?%elem_of_nil|].
  intros [<-|Hin]%elem_of_cons; cbn; [|by apply IH].
  by rewrite -[foldl accept _ hs]/(accept_all _ hs) -accept_all_accept accept_idem.
Qed.

#[export] Instance accept_all_perm s : Proper ((≡ₚ) ==> eq) (accept_all s).
Proof.
  intros hs1 hs2 Hp. revert s. induction Hp as [|h hs1 hs2 _ IH|h1 h2 hs|hs1 hs2 hs3 _ IH1 _ IH2];
    intros s; [done|apply (IH (accept s h))| |by rewrite IH1].
  cbn. by rewrite accept_comm.
Qed.

Lemma accept_all_dups s hs : accept_all s (remove_dups hs) = accept_all s hs.
Proof.
  revert s. induction hs as [|h hs IH]; intros s; [done|]. cbn [remove_dups].
  case_decide as Hin; cbn; [|apply IH]. rewrite IH -[foldl accept _ hs]/(accept_all (accept s h) hs).
  rewrite accept_all_accept accept_all_in //.
Qed.

(** The state depends only on which frames were accepted. *)
Lemma accept_all_same s hs1 hs2 :
  (∀ h, h ∈ hs1 ↔ h ∈ hs2) → accept_all s hs1 = accept_all s hs2.
Proof.
  intros H. rewrite -(accept_all_dups s hs1) -(accept_all_dups s hs2).
  apply accept_all_perm, NoDup_Permutation; [apply NoDup_remove_dups..|].
  intros h. by rewrite !elem_of_remove_dups.
Qed.
