(* ===== verification/EndianUtils.v ===== *)
(** * Byte order (networking/endian_utils.h)

    The host's byte order is a class parameter: every definition and theorem
    below holds on little-endian and on big-endian hosts.  [host_bytes] and
    [host_val] are the memory image of an unsigned integer, what [memcpy] from
    and to an integer object copies; [htons] and [htonl] are the POSIX
    functions. *)

From S2P Require Import Prelude.

(** ** Definitions *)

Inductive byte_order : Type := LittleEndian | BigEndian.

Class Host : Type := host_order : byte_order.

(** [n] bytes, least significant first. *)
Fixpoint le_bytes (n : nat) (v : Z) : list Z :=
  match n with O => [] | S n => v `mod` 256 :: le_bytes n (v `div` 256) end.
Fixpoint le_val (l : list Z) : Z :=
  match l with [] => 0 | b :: l => b + 256 * le_val l end.

(** Most significant first. *)
Definition be_bytes (n : nat) (v : Z) : list Z := reverse (le_bytes n v).
Definition be_val (l : list Z) : Z := le_val (reverse l).

Definition bswap (n : nat) (v : Z) : Z := be_val (le_bytes n v).

Section Conversions.
Context `{host : Host}.

Definition host_bytes (n : nat) (v : Z) : list Z :=
  match host_order with LittleEndian => le_bytes n v | BigEndian => be_bytes n v end.
Definition host_val (l : list Z) : Z :=
  match host_order with LittleEndian => le_val l | BigEndian => be_val l end.

Definition htons (v : Z) : Z :=
  match host_order with LittleEndian => bswap 2 v | BigEndian => v end.
Definition htonl (v : Z) : Z :=
  match host_order with LittleEndian => bswap 4 v | BigEndian => v end.
Definition ntohs (v : Z) : Z := htons v.
Definition ntohl (v : Z) : Z := htonl v.

Definition host_to_network_short (val : Z) : Z := htons val.
Definition host_to_network_long (val : Z) : Z := htonl val.
Definition network_to_host_short (val : Z) : Z := ntohs val.
Definition network_to_host_long (val : Z) : Z := ntohl val.

Definition host_to_network_long_long (val : Z) : Z :=
  match host_order with
  | LittleEndian =>
      Z.lor (u64 (Z.shiftl (htonl (u32 (Z.land val (2 ^ 32 - 1)))) 32))
            (htonl (u32 (Z.shiftr val 32)))
  | BigEndian => val
  end.

Definition network_to_host_long_long (val : Z) : Z :=
  match host_order with
  | LittleEndian =>
      Z.lor (u64 (Z.shiftl (ntohl (u32 (Z.land val (2 ^ 32 - 1)))) 32))
            (ntohl (u32 (Z.shiftr val 32)))
  | BigEndian => val
  end.

(** The branches for other compilers.  MSVC: [_byteswap_uint64] reverses the
    bytes, and the host is taken to be little-endian. *)
Definition byteswap_uint64 (val : Z) : Z := bswap 8 val.
Definition host_to_network_long_long_msvc (val : Z) : Z := byteswap_uint64 val.
Definition network_to_host_long_long_msvc (val : Z) : Z := byteswap_uint64 val.

(** Otherwise the byte order is found at run time: the first byte in memory of a
    16-bit [0x0100]. *)
Definition endian_check : Z := default 0 (head (host_bytes 2 256)).
Definition host_to_network_long_long_generic (val : Z) : Z :=
  if endian_check =? 1 then val
  else Z.lor (u64 (Z.shiftl (htonl (u32 (Z.land val (2 ^ 32 - 1)))) 32))
             (htonl (u32 (Z.shiftr val 32))).
Definition network_to_host_long_long_generic (val : Z) : Z :=
  if endian_check =? 1 then val
  else Z.lor (u64 (Z.shiftl (ntohl (u32 (Z.land val (2 ^ 32 - 1)))) 32))
             (ntohl (u32 (Z.shiftr val 32))).

End Conversions.

(** An unsigned value of [n] bytes. *)
Definition fits (n : nat) (v : Z) : Prop := 0 ≤ v < 256 ^ Z.of_nat n.

(** ** Lemmas *)

Lemma pow256_S n : 256 ^ Z.of_nat (S n) = 256 * 256 ^ Z.of_nat n.
Proof. rewrite Nat2Z.inj_succ Z.pow_succ_r; lia. Qed.

Lemma length_le_bytes n v : length (le_bytes n v) = n.
Proof. revert v. induction n; intros; simpl; auto. Qed.

Lemma length_be_bytes n v : length (be_bytes n v) = n.
Proof. by rewrite /be_bytes length_reverse length_le_bytes. Qed.

Lemma le_bytes_byte n v : Forall is_byte (le_bytes n v).
Proof.
  revert v. induction n; intros v; constructor; [|done]. apply Z.mod_pos_bound. lia.
Qed.

Lemma be_bytes_byte n v : Forall is_byte (be_bytes n v).
Proof. apply Forall_reverse, le_bytes_byte. Qed.

Lemma le_val_bytes n v : le_val (le_bytes n v) = v `mod` 256 ^ Z.of_nat n.
Proof.
  revert v. induction n as [|n IH]; intros v; [by rewrite /= Z.mod_1_r|].
  rewrite pow256_S /= IH. have Hp := Z.pow_pos_nonneg 256 (Z.of_nat n).
  rewrite Z.rem_mul_r; lia.
Qed.

Lemma le_bytes_val l : Forall is_byte l → le_bytes (length l) (le_val l) = l.
Proof.
  induction 1 as [|b l Hb Hl IH]; [done|]. cbn [length le_bytes le_val].
  rewrite /is_byte in Hb.
  have -> : (b + 256 * le_val l) `mod` 256 = b.
  { rewrite Z.mul_comm Z.mod_add; [lia|]. apply Z.mod_small. lia. }
  have -> : (b + 256 * le_val l) `div` 256 = le_val l.
  { rewrite Z.mul_comm Z.div_add; [lia|]. rewrite Z.div_small; lia. }
  by rewrite IH.
Qed.

Lemma le_val_range l : Forall is_byte l → fits (length l) (le_val l).
Proof.
  induction 1 as [|b l Hb Hl IH]; [done|]. rewrite /fits in IH |- *. cbn [length le_val].
  rewrite pow256_S. rewrite /is_byte in Hb. lia.
Qed.

Lemma be_val_bytes n v : fits n v → be_val (be_bytes n v) = v.
Proof.
  intros Hv. rewrite /be_val /be_bytes reverse_involutive le_val_bytes. by apply Z.mod_small.
Qed.

Lemma be_bytes_val l : Forall is_byte l → be_bytes (length l) (be_val l) = l.
Proof.
  intros Hl. rewrite /be_bytes /be_val -(length_reverse l) le_bytes_val.
  - by apply Forall_reverse.
  - apply reverse_involutive.
Qed.

Lemma be_val_range l : Forall is_byte l → fits (length l) (be_val l).
Proof. intros. rewrite -(length_reverse l). by apply le_val_range, Forall_reverse. Qed.

Lemma le_val_app l1 l2 : le_val (l1 ++ l2) = le_val l1 + 256 ^ Z.of_nat (length l1) * le_val l2.
Proof.
  induction l1 as [|b l1 IH]; [rewrite /= Z.pow_0_r; lia|].
  cbn [app le_val length]. rewrite IH pow256_S. lia.
Qed.

Lemma be_val_app l1 l2 : be_val (l1 ++ l2) = be_val l1 * 256 ^ Z.of_nat (length l2) + be_val l2.
Proof. rewrite /be_val reverse_app le_val_app length_reverse. lia. Qed.

Lemma le_bytes_app n m v :
  le_bytes (n + m) v = le_bytes n v ++ le_bytes m (v `div` 256 ^ Z.of_nat n).
Proof.
  revert v. induction n as [|n IH]; intros v; [by rewrite /= Z.div_1_r|].
  cbn [Nat.add le_bytes app]. rewrite IH pow256_S Z.div_div //. by apply Z.pow_pos_nonneg; lia.
Qed.

Lemma le_bytes_mod v n : le_bytes n (v `mod` 256 ^ Z.of_nat n) = le_bytes n v.
Proof.
  rewrite -(le_val_bytes n v) -{1}(length_le_bytes n v). apply le_bytes_val, le_bytes_byte.
Qed.

Lemma le_bytes_bswap n v : le_bytes n (bswap n v) = be_bytes n v.
Proof.
  rewrite /bswap /be_val /be_bytes. rewrite -{1}(length_le_bytes n v) -(length_reverse (le_bytes n v)).
  apply le_bytes_val, Forall_reverse, le_bytes_byte.
Qed.

Lemma bswap_range n v : fits n (bswap n v).
Proof. rewrite -{1}(length_le_bytes n v). apply be_val_range, le_bytes_byte. Qed.

Lemma bswap_involutive n v : fits n v → bswap n (bswap n v) = v.
Proof. intros Hv. rewrite {1}/bswap le_bytes_bswap. by apply be_val_bytes. Qed.

(** [(hi << 32) | lo] is an addition. *)
Lemma lor_shift hi lo :
  fits 4 hi → fits 4 lo → Z.lor (u64 (Z.shiftl hi 32)) lo = hi * 2 ^ 32 + lo.
Proof.
  rewrite /fits /u64 => Hh Hl. rewrite Z.shiftl_mul_pow2; [lia|].
  rewrite Z.mod_small; [lia|]. symmetry. apply Z.bits_inj' => i Hi.
  rewrite Z.lor_spec. destruct (Z.lt_ge_cases i 32) as [Hlt|Hge].
  - rewrite Z.mul_pow2_bits_low // orb_false_l.
    rewrite -(Z.mod_pow2_bits_low (hi * 2 ^ 32 + lo) 32); [lia|].
    rewrite Z.add_comm Z.mod_add; [lia|]. by rewrite Z.mod_pow2_bits_low.
  - replace i with (i - 32 + 32) by lia. rewrite -!(Z.div_pow2_bits _ 32 (i - 32)); [lia..|].
    rewrite Z.div_add_l; [lia|]. rewrite Z.div_mul; [lia|]. rewrite (Z.div_small lo); [lia|].
    by rewrite Z.add_0_r Z.bits_0 orb_false_r.
Qed.

Lemma bswap8 v :
  fits 8 v → bswap 8 v = bswap 4 (v `mod` 2 ^ 32) * 2 ^ 32 + bswap 4 (v `div` 2 ^ 32).
Proof.
  intros Hv. rewrite /bswap (le_bytes_app 4 4) be_val_app length_le_bytes.
  by rewrite -(le_bytes_mod v 4).
Qed.

Section Laws.
Context `{host : Host}.

Lemma long_long_eq v :
  fits 8 v →
  host_to_network_long_long v = match host_order with LittleEndian => bswap 8 v | BigEndian => v end.
Proof.
  intros Hv. rewrite /host_to_network_long_long /htonl. destruct host_order; [|done].
  rewrite bswap8 // lor_shift; [apply bswap_range..|].
  have Hs : 0 ≤ Z.shiftr v 32 < 2 ^ 32.
  { rewrite Z.shiftr_div_pow2; [lia|]. rewrite /fits in Hv. split; [apply Z.div_pos; lia|].
    apply Z.div_lt_upper_bound; lia. }
  rewrite (Z.land_ones v 32); [lia|]. rewrite /u32 Z.mod_mod; [lia|].
  rewrite (Z.mod_small (Z.shiftr v 32)) // Z.shiftr_div_pow2; lia.
Qed.

(** A value converted to network order and stored in memory is the big-endian
    image of the original, whatever the host. *)
Lemma host_bytes_htons v : host_bytes 2 (htons v) = be_bytes 2 v.
Proof. rewrite /host_bytes /htons. destruct host_order; [apply le_bytes_bswap|done]. Qed.
Lemma host_bytes_htonl v : host_bytes 4 (htonl v) = be_bytes 4 v.
Proof. rewrite /host_bytes /htonl. destruct host_order; [apply le_bytes_bswap|done]. Qed.

(** Reading it back. *)
Lemma ntohs_host_val l : Forall is_byte l → length l = 2%nat → ntohs (host_val l) = be_val l.
Proof.
  intros Hb Hl. rewrite /ntohs /htons /host_val. destruct host_order; [|done].
  by rewrite /bswap -Hl le_bytes_val.
Qed.
Lemma ntohl_host_val l : Forall is_byte l → length l = 4%nat → ntohl (host_val l) = be_val l.
Proof.
  intros Hb Hl. rewrite /ntohl /htonl /host_val. destruct host_order; [|done].
  by rewrite /bswap -Hl le_bytes_val.
Qed.

(** ** Properties *)

(** Byte-order conversion is correct on either kind of host: for 16-, 32-
    and 64-bit values the conversion to network order followed by a store is
    the big-endian encoding of the value, stays within the width, and the
    conversion back is its inverse; in particular the two-half 64-bit formula
    of the little-endian branch is a full byte swap. *)
Theorem network_order v2 v4 v8 (H2 : fits 2 v2) (H4 : fits 4 v4) (H8 : fits 8 v8) :
  host_bytes 2 (host_to_network_short v2) = be_bytes 2 v2
  ∧ host_bytes 4 (host_to_network_long v4) = be_bytes 4 v4
  ∧ host_bytes 8 (host_to_network_long_long v8) = be_bytes 8 v8
  ∧ fits 2 (host_to_network_short v2) ∧ fits 4 (host_to_network_long v4)
  ∧ fits 8 (host_to_network_long_long v8)
  ∧ network_to_host_short (host_to_network_short v2) = v2
  ∧ network_to_host_long (host_to_network_long v4) = v4
  ∧ network_to_host_long_long (host_to_network_long_long v8) = v8.
Proof.
  have Hfit : fits 8 (host_to_network_long_long v8).
  { rewrite long_long_eq //. destruct host_order; [apply bswap_range|done]. }
  have E : network_to_host_long_long = host_to_network_long_long by [].
  rewrite E (long_long_eq _ Hfit) long_long_eq //. clear Hfit E.
  rewrite /host_to_network_short /host_to_network_long /network_to_host_short
    /network_to_host_long /ntohs /ntohl /htons /htonl /host_bytes.
  destruct host_order; split_and!; try done;
    (apply le_bytes_bswap || apply bswap_range || by apply bswap_involutive).
Qed.

(** The three versions of the 64-bit conversions agree: the one with the check at
    run time on every host and for every value, the one for MSVC on
    little-endian hosts for every 64-bit value; on a big-endian host the latter
    would swap bytes that are in network order already. *)
Theorem long_long_branches v (Hv : fits 8 v) :
  host_to_network_long_long_generic v = host_to_network_long_long v
  ∧ network_to_host_long_long_generic v = network_to_host_long_long v
  ∧ (host_order = LittleEndian →
     host_to_network_long_long_msvc v = host_to_network_long_long v
     ∧ network_to_host_long_long_msvc v = network_to_host_long_long v)
  ∧ (host_order = BigEndian →
     host_to_network_long_long_msvc v = host_to_network_long_long v → be_bytes 8 v = le_bytes 8 v).
Proof.
  have Hl := long_long_eq v Hv. have E : network_to_host_long_long v = host_to_network_long_long v by [].
  split; [|split; [|split]].
  - rewrite /host_to_network_long_long_generic /endian_check /host_bytes /host_to_network_long_long.
    by destruct host_order.
  - rewrite /network_to_host_long_long_generic /endian_check /host_bytes /network_to_host_long_long.
    by destruct host_order.
  - intros Ho. rewrite E Hl Ho. done.
  - intros Ho. rewrite Hl Ho => Es. by rewrite -le_bytes_bswap (Es : bswap 8 v = v).
Qed.

End Laws.

Lemma long_long_branches_witness :
  let host : Host := LittleEndian in
  host_to_network_long_long_generic 72623859790382856 = host_to_network_long_long 72623859790382856
  ∧ host_to_network_long_long_msvc 72623859790382856 = 578437695752307201.
Proof.
  intros host. split; [|vm_compute; reflexivity].
  refine (proj1 (long_long_branches (host := host) 72623859790382856 _)). rewrite /fits. lia.
Defined.

Lemma network_order_witness :
  let host : Host := LittleEndian in
  host_bytes 2 (host_to_network_short 258) = be_bytes 2 258
  ∧ host_bytes 4 (host_to_network_long 16909060) = be_bytes 4 16909060
  ∧ host_bytes 8 (host_to_network_long_long 72623859790382856) = be_bytes 8 72623859790382856
  ∧ fits 2 (host_to_network_short 258) ∧ fits 4 (host_to_network_long 16909060)
  ∧ fits 8 (host_to_network_long_long 72623859790382856)
  ∧ network_to_host_short (host_to_network_short 258) = 258
  ∧ network_to_host_long (host_to_network_long 16909060) = 16909060
  ∧ network_to_host_long_long (host_to_network_long_long 72623859790382856) = 72623859790382856.
Proof.
  intros host. apply (network_order (host := host) 258 16909060 72623859790382856);
    rewrite /fits; lia.
Defined.
