(* ===== verification/RetransmissionProtocol.v ===== *)
(** * The retransmission protocol (networking/retransmission_protocol.cpp)

    The message structs, their [serialize] and [deserialize] methods, the sum
    checksum and the login check code.  A [deserialize] method fills the object
    in place and returns a flag, so its model returns the flag together with
    the object as it is left; [offset] is the in-out parameter of the header
    and footer methods.  The specification is one generic codec, [encode] and
    [decode], which the class [WireMessage] ties to the methods of each message. *)

From S2P Require Import Prelude CppStd MessageFields EndianUtils.

(** ** Definitions *)

Definition calculate_retransmission_checksum (data_segment : list Z) : Z :=
  let sum := foldl (λ sum b, u32 (sum + b)) 0 data_segment in
  u8 (sum `mod` 256).

Record StandardTimeFormat : Type := mkTime { epoch_s : Z; nanosecond : Z }.
Definition TIME_SIZE : nat := 4 + 4.

Record RetransmissionMsgHeader : Type := mkHeader {
  msg_size : Z;
  msg_type : Z;
  msg_seq_num : Z;
  msg_time : StandardTimeFormat;
}.
Definition MSG_HEADER_SIZE : nat := 2 * 2 + 4 + TIME_SIZE.

Record RetransmissionMsgFooter : Type := mkFooter { check_sum : Z }.
Definition FOOTER_SIZE : nat := 1.

(** [data + off], [n] bytes. *)
Definition load (data : pointer) (off n : nat) : result (list Z) :=
  match data with Some mem => readn mem off n | None => Undefined end.

Section Protocol.
Context `{host : Host}.

(** A value converted to network order and appended to the buffer. *)
Definition put_short (buffer : list Z) (v : Z) : list Z :=
  buffer ++ host_bytes 2 (host_to_network_short v).
Definition put_long (buffer : list Z) (v : Z) : list Z :=
  buffer ++ host_bytes 4 (host_to_network_long v).

(** [memcpy] into an integer, then the conversion to host order. *)
Definition get_short (data : pointer) (offset : nat) : result Z :=
  l ← load data offset 2; Ok (network_to_host_short (host_val l)).
Definition get_long (data : pointer) (offset : nat) : result Z :=
  l ← load data offset 4; Ok (network_to_host_long (host_val l)).
Definition get_byte (data : pointer) (offset : nat) : result Z :=
  match data with Some mem => read1 mem offset | None => Undefined end.

Definition StandardTimeFormat_serialize (buffer : list Z) (this : StandardTimeFormat) : list Z :=
  put_long (put_long buffer (epoch_s this)) (nanosecond this).

Definition StandardTimeFormat_deserialize (data : pointer) (offset total_len : nat)
    (this : StandardTimeFormat) : result (bool * StandardTimeFormat * nat) :=
  if (total_len <? offset + TIME_SIZE)%nat then Ok (false, this, offset)
  else
    e ← get_long data offset;
    let offset := (offset + 4)%nat in
    n ← get_long data offset;
    let offset := (offset + 4)%nat in
    Ok (true, mkTime e n, offset).

Definition RetransmissionMsgHeader_serialize (buffer : list Z) (this : RetransmissionMsgHeader)
    : list Z :=
  StandardTimeFormat_serialize
    (put_long (put_short (put_short buffer (msg_size this)) (msg_type this)) (msg_seq_num this))
    (msg_time this).

Definition RetransmissionMsgHeader_deserialize (data : pointer) (offset total_len : nat)
    (this : RetransmissionMsgHeader) : result (bool * RetransmissionMsgHeader * nat) :=
  if (total_len <? offset + MSG_HEADER_SIZE)%nat then Ok (false, this, offset)
  else
    sz ← get_short data offset;
    let offset := (offset + 2)%nat in
    ty ← get_short data offset;
    let offset := (offset + 2)%nat in
    sq ← get_long data offset;
    let offset := (offset + 4)%nat in
    '(ok, tm, offset) ← StandardTimeFormat_deserialize data offset total_len (msg_time this);
    if negb ok then Ok (false, mkHeader sz ty sq tm, offset)
    else Ok (true, mkHeader sz ty sq tm, offset).

Definition RetransmissionMsgFooter_serialize (buffer : list Z) (this : RetransmissionMsgFooter)
    : list Z :=
  buffer ++ [check_sum this].

Definition RetransmissionMsgFooter_deserialize (data : pointer) (offset total_len : nat)
    (msg_start_for_checksum : pointer) (len_for_checksum : nat)
    (this : RetransmissionMsgFooter) : result (bool * RetransmissionMsgFooter * nat) :=
  if (total_len <? offset + FOOTER_SIZE)%nat then Ok (false, this, offset)
  else
    received_checksum ← get_byte data offset;
    let offset := (offset + FOOTER_SIZE)%nat in
    match msg_start_for_checksum with
    | None => Ok (false, this, offset)
    | Some start =>
        if (len_for_checksum =? 0)%nat then Ok (false, this, offset)
        else
          checksum_data ← readn start 0 len_for_checksum;
          let calculated := calculate_retransmission_checksum checksum_data in
          if negb (calculated =? received_checksum) then Ok (false, this, offset)
          else Ok (true, mkFooter received_checksum, offset)
    end.

(** [static_cast<uint8_t>((|mult_op * password| / 100) % 100)]; a product
    outside [long long] is a signed overflow. *)
Definition calculate_check_code (mult_op : Z) (password_str : list Z) : result Z :=
  if (length password_str =? 0)%nat then Ok 0
  else
    match stoll password_str with
    | Throw e =>
        if is_a e std_invalid_argument then Ok 0
        else if is_a e std_out_of_range then Ok 0
        else Throw e
    | Undefined => Undefined
    | Ok password_val =>
        let product := mult_op * password_val in
        if (product <? INT64_MIN) || (product >? INT64_MAX) then Undefined
        else if product <? 0 then
          if product =? INT64_MIN then Undefined
          else Ok (u8 (Z.rem (Z.quot (- product) 100) 100))
        else Ok (u8 (Z.rem (Z.quot product 100) 100))
    end.

(** The end of every [serialize] method: checksum of the [len] bytes written
    since [initial], then the footer. *)
Definition finish (buffer : list Z) (initial len : nat) : result (list Z) :=
  checksum_data ← readn buffer initial len;
  Ok (RetransmissionMsgFooter_serialize buffer
        (mkFooter (calculate_retransmission_checksum checksum_data))).

(** A copy of the header with type and size set. *)
Definition stamped (h : RetransmissionMsgHeader) (size ty : Z) : RetransmissionMsgHeader :=
  mkHeader size ty (msg_seq_num h) (msg_time h).

(** *** LoginRequest020 *)

Record LoginRequest020 : Type := mk020 {
  m020_header : RetransmissionMsgHeader;
  multiplication_operator : Z;
  check_code : Z;
  session_id : Z;
  m020_footer : RetransmissionMsgFooter;
}.
Definition LOGIN_REQUEST_020_PAYLOAD_SIZE : Z := 2 + 1 + 2.
Definition LOGIN_REQUEST_020_MSG_SIZE_FIELD_VALUE : Z :=
  (Z.of_nat MSG_HEADER_SIZE - 2) + LOGIN_REQUEST_020_PAYLOAD_SIZE.

Definition LoginRequest020_serialize (buffer : list Z) (password_str : list Z)
    (this : LoginRequest020) : result (list Z) :=
  let header_to_serialize :=
    stamped (m020_header this) LOGIN_REQUEST_020_MSG_SIZE_FIELD_VALUE 20 in
  let initial_buffer_size := length buffer in
  let buffer := RetransmissionMsgHeader_serialize buffer header_to_serialize in
  let buffer := put_short buffer (multiplication_operator this) in
  let buffer := buffer ++ [check_code this] in
  let buffer := put_short buffer (session_id this) in
  finish buffer initial_buffer_size (2 + Z.to_nat LOGIN_REQUEST_020_MSG_SIZE_FIELD_VALUE).

Definition LoginRequest020_deserialize (data : pointer) (len : nat) (password_str : list Z)
    (this : LoginRequest020) : result (bool * LoginRequest020) :=
  let '(mk020 header mo cc si footer) := this in
  '(ok, header, offset) ← RetransmissionMsgHeader_deserialize data 0 len header;
  if negb ok then Ok (false, mk020 header mo cc si footer)
  else if negb (msg_type header =? 20) then Ok (false, mk020 header mo cc si footer)
  else if negb (msg_size header =? LOGIN_REQUEST_020_MSG_SIZE_FIELD_VALUE) then
    Ok (false, mk020 header mo cc si footer)
  else
    let expected_full_msg_len := (2 + Z.to_nat (msg_size header) + FOOTER_SIZE)%nat in
    if (len <? expected_full_msg_len)%nat then Ok (false, mk020 header mo cc si footer)
    else if (len <? offset + Z.to_nat LOGIN_REQUEST_020_PAYLOAD_SIZE)%nat then
      Ok (false, mk020 header mo cc si footer)
    else
      mo ← get_short data offset;
      let offset := (offset + 2)%nat in
      cc ← get_byte data offset;
      let offset := (offset + 1)%nat in
      si ← get_short data offset;
      let offset := (offset + 2)%nat in
      '(ok, footer, offset) ← RetransmissionMsgFooter_deserialize data offset len data
                                (2 + Z.to_nat (msg_size header)) footer;
      if negb ok then Ok (false, mk020 header mo cc si footer)
      else Ok ((offset =? expected_full_msg_len)%nat, mk020 header mo cc si footer).

(** *** LoginResponse030 *)

Record LoginResponse030 : Type := mk030 {
  m030_header : RetransmissionMsgHeader;
  m030_channel_id : Z;
  m030_footer : RetransmissionMsgFooter;
}.
Definition LOGIN_RESPONSE_030_MSG_SIZE_FIELD_VALUE : Z := (Z.of_nat MSG_HEADER_SIZE - 2) + 2.

Definition LoginResponse030_serialize (buffer : list Z) (this : LoginResponse030)
    : result (list Z) :=
  let mutable_header := stamped (m030_header this) LOGIN_RESPONSE_030_MSG_SIZE_FIELD_VALUE 30 in
  let initial_buffer_size := length buffer in
  let buffer := RetransmissionMsgHeader_serialize buffer mutable_header in
  let buffer := put_short buffer (m030_channel_id this) in
  finish buffer initial_buffer_size (2 + Z.to_nat (msg_size mutable_header)).

Definition LoginResponse030_deserialize (data : pointer) (len : nat)
    (this : LoginResponse030) : result (bool * LoginResponse030) :=
  let '(mk030 header ci footer) := this in
  '(ok, header, offset) ← RetransmissionMsgHeader_deserialize data 0 len header;
  if negb ok then Ok (false, mk030 header ci footer)
  else if negb (msg_type header =? 30) then Ok (false, mk030 header ci footer)
  else if negb (msg_size header =? LOGIN_RESPONSE_030_MSG_SIZE_FIELD_VALUE) then
    Ok (false, mk030 header ci footer)
  else
    let expected_full_msg_len := (2 + Z.to_nat (msg_size header) + FOOTER_SIZE)%nat in
    if (len <? expected_full_msg_len)%nat then Ok (false, mk030 header ci footer)
    else if (len <? offset + 2)%nat then Ok (false, mk030 header ci footer)
    else
      ci ← get_short data offset;
      let offset := (offset + 2)%nat in
      '(ok, footer, offset) ← RetransmissionMsgFooter_deserialize data offset len data
                                (2 + Z.to_nat (msg_size header)) footer;
      if negb ok then Ok (false, mk030 header ci footer)
      else Ok ((offset =? expected_full_msg_len)%nat, mk030 header ci footer).

(** *** ErrorNotification010 *)

Record ErrorNotification010 : Type := mk010 {
  m010_header : RetransmissionMsgHeader;
  m010_status_code : Z;
  m010_footer : RetransmissionMsgFooter;
}.
Definition ERROR_NOTIFICATION_010_MSG_SIZE_FIELD_VALUE : Z := Z.of_nat MSG_HEADER_SIZE - 2 + 1.

Definition ErrorNotification010_serialize (buffer : list Z) (this : ErrorNotification010)
    : result (list Z) :=
  let mutable_header := stamped (m010_header this) ERROR_NOTIFICATION_010_MSG_SIZE_FIELD_VALUE 10 in
  let initial_buffer_size := length buffer in
  let buffer := RetransmissionMsgHeader_serialize buffer mutable_header in
  let buffer := buffer ++ [m010_status_code this] in
  finish buffer initial_buffer_size (2 + Z.to_nat (msg_size mutable_header)).

Definition ErrorNotification010_deserialize (data : pointer) (len : nat)
    (this : ErrorNotification010) : result (bool * ErrorNotification010) :=
  let '(mk010 header sc footer) := this in
  '(ok, header, offset) ← RetransmissionMsgHeader_deserialize data 0 len header;
  if negb ok then Ok (false, mk010 header sc footer)
  else if negb (msg_type header =? 10) then Ok (false, mk010 header sc footer)
  else if negb (msg_size header =? ERROR_NOTIFICATION_010_MSG_SIZE_FIELD_VALUE) then
    Ok (false, mk010 header sc footer)
  else
    let expected_full_msg_len := (2 + Z.to_nat (msg_size header) + FOOTER_SIZE)%nat in
    if (len <? expected_full_msg_len)%nat then Ok (false, mk010 header sc footer)
    else if (len <? offset + 1)%nat then Ok (false, mk010 header sc footer)
    else
      sc ← get_byte data offset;
      let offset := (offset + 1)%nat in
      '(ok, footer, offset) ← RetransmissionMsgFooter_deserialize data offset len data
                                (2 + Z.to_nat (msg_size header)) footer;
      if negb ok then Ok (false, mk010 header sc footer)
      else Ok ((offset =? expected_full_msg_len)%nat, mk010 header sc footer).

(** *** The messages without payload *)

Record RetransmissionStart050 : Type := mk050 {
  m050_header : RetransmissionMsgHeader;
  m050_footer : RetransmissionMsgFooter;
}.
Definition RETRANSMISSION_START_050_MSG_SIZE_FIELD_VALUE : Z := Z.of_nat MSG_HEADER_SIZE - 2 + 0.

Definition RetransmissionStart050_serialize (buffer : list Z) (this : RetransmissionStart050)
    : result (list Z) :=
  let mutable_header :=
    stamped (m050_header this) RETRANSMISSION_START_050_MSG_SIZE_FIELD_VALUE 50 in
  let initial_buffer_size := length buffer in
  let buffer := RetransmissionMsgHeader_serialize buffer mutable_header in
  finish buffer initial_buffer_size (2 + Z.to_nat (msg_size mutable_header)).

Definition RetransmissionStart050_deserialize (data : pointer) (len : nat)
    (this : RetransmissionStart050) : result (bool * RetransmissionStart050) :=
  let '(mk050 header footer) := this in
  '(ok, header, offset) ← RetransmissionMsgHeader_deserialize data 0 len header;
  if negb ok then Ok (false, mk050 header footer)
  else if negb (msg_type header =? 50) then Ok (false, mk050 header footer)
  else if negb (msg_size header =? RETRANSMISSION_START_050_MSG_SIZE_FIELD_VALUE) then
    Ok (false, mk050 header footer)
  else
    let expected_full_msg_len := (2 + Z.to_nat (msg_size header) + FOOTER_SIZE)%nat in
    if (len <? expected_full_msg_len)%nat then Ok (false, mk050 header footer)
    else
      '(ok, footer, offset) ← RetransmissionMsgFooter_deserialize data offset len data
                                (2 + Z.to_nat (msg_size header)) footer;
      if negb ok then Ok (false, mk050 header footer)
      else Ok ((offset =? expected_full_msg_len)%nat, mk050 header footer).

Record HeartbeatServer104 : Type := mk104 {
  m104_header : RetransmissionMsgHeader;
  m104_footer : RetransmissionMsgFooter;
}.
Definition HEARTBEAT_SERVER_104_MSG_SIZE_FIELD_VALUE : Z := Z.of_nat MSG_HEADER_SIZE - 2 + 0.

Definition HeartbeatServer104_serialize (buffer : list Z) (this : HeartbeatServer104)
    : result (list Z) :=
  let mutable_header :=
    stamped (m104_header this) HEARTBEAT_SERVER_104_MSG_SIZE_FIELD_VALUE 104 in
  let initial_buffer_size := length buffer in
  let buffer := RetransmissionMsgHeader_serialize buffer mutable_header in
  finish buffer initial_buffer_size (2 + Z.to_nat (msg_size mutable_header)).

Definition HeartbeatServer104_deserialize (data : pointer) (len : nat)
    (this : HeartbeatServer104) : result (bool * HeartbeatServer104) :=
  let '(mk104 header footer) := this in
  '(ok, header, offset) ← RetransmissionMsgHeader_deserialize data 0 len header;
  if negb ok then Ok (false, mk104 header footer)
  else if negb (msg_type header =? 104) then Ok (false, mk104 header footer)
  else if negb (msg_size header =? HEARTBEAT_SERVER_104_MSG_SIZE_FIELD_VALUE) then
    Ok (false, mk104 header footer)
  else
    let expected_full_msg_len := (2 + Z.to_nat (msg_size header) + FOOTER_SIZE)%nat in
    if (len <? expected_full_msg_len)%nat then Ok (false, mk104 header footer)
    else
      '(ok, footer, offset) ← RetransmissionMsgFooter_deserialize data offset len data
                                (2 + Z.to_nat (msg_size header)) footer;
      if negb ok then Ok (false, mk104 header footer)
      else Ok ((offset =? expected_full_msg_len)%nat, mk104 header footer).

Record HeartbeatClient105 : Type := mk105 {
  m105_header : RetransmissionMsgHeader;
  m105_footer : RetransmissionMsgFooter;
}.
Definition HEARTBEAT_CLIENT_105_MSG_SIZE_FIELD_VALUE : Z := Z.of_nat MSG_HEADER_SIZE - 2 + 0.

Definition HeartbeatClient105_serialize (buffer : list Z) (this : HeartbeatClient105)
    : result (list Z) :=
  let mutable_header :=
    stamped (m105_header this) HEARTBEAT_CLIENT_105_MSG_SIZE_FIELD_VALUE 105 in
  let initial_buffer_size := length buffer in
  let buffer := RetransmissionMsgHeader_serialize buffer mutable_header in
  finish buffer initial_buffer_size (2 + Z.to_nat (msg_size mutable_header)).

Definition HeartbeatClient105_deserialize (data : pointer) (len : nat)
    (this : HeartbeatClient105) : result (bool * HeartbeatClient105) :=
  let '(mk105 header footer) := this in
  '(ok, header, offset) ← RetransmissionMsgHeader_deserialize data 0 len header;
  if negb ok then Ok (false, mk105 header footer)
  else if negb (msg_type header =? 105) then Ok (false, mk105 header footer)
  else if negb (msg_size header =? HEARTBEAT_CLIENT_105_MSG_SIZE_FIELD_VALUE) then
    Ok (false, mk105 header footer)
  else
    let expected_full_msg_len := (2 + Z.to_nat (msg_size header) + FOOTER_SIZE)%nat in
    if (len <? expected_full_msg_len)%nat then Ok (false, mk105 header footer)
    else
      '(ok, footer, offset) ← RetransmissionMsgFooter_deserialize data offset len data
                                (2 + Z.to_nat (msg_size header)) footer;
      if negb ok then Ok (false, mk105 header footer)
      else Ok ((offset =? expected_full_msg_len)%nat, mk105 header footer).

(** *** DataRequest101 *)

Record DataRequest101 : Type := mk101 {
  m101_header : RetransmissionMsgHeader;
  m101_channel_id : Z;
  m101_begin_seq_no : Z;
  m101_recover_num : Z;
  m101_footer : RetransmissionMsgFooter;
}.
Definition DATA_REQUEST_101_MSG_SIZE_FIELD_VALUE : Z := Z.of_nat MSG_HEADER_SIZE - 2 + (2 + 4 + 2).

Definition DataRequest101_serialize (buffer : list Z) (this : DataRequest101)
    : result (list Z) :=
  let mutable_header := stamped (m101_header this) DATA_REQUEST_101_MSG_SIZE_FIELD_VALUE 101 in
  let initial_buffer_size := length buffer in
  let buffer := RetransmissionMsgHeader_serialize buffer mutable_header in
  let buffer := put_short buffer (m101_channel_id this) in
  let buffer := put_long buffer (m101_begin_seq_no this) in
  let buffer := put_short buffer (m101_recover_num this) in
  finish buffer initial_buffer_size (2 + Z.to_nat (msg_size mutable_header)).

Definition DataRequest101_deserialize (data : pointer) (len : nat)
    (this : DataRequest101) : result (bool * DataRequest101) :=
  let '(mk101 header ci bs rn footer) := this in
  '(ok, header, offset) ← RetransmissionMsgHeader_deserialize data 0 len header;
  if negb ok then Ok (false, mk101 header ci bs rn footer)
  else if negb (msg_type header =? 101) then Ok (false, mk101 header ci bs rn footer)
  else if negb (msg_size header =? DATA_REQUEST_101_MSG_SIZE_FIELD_VALUE) then
    Ok (false, mk101 header ci bs rn footer)
  else
    let expected_full_msg_len := (2 + Z.to_nat (msg_size header) + FOOTER_SIZE)%nat in
    if (len <? expected_full_msg_len)%nat then Ok (false, mk101 header ci bs rn footer)
    else if (len <? offset + 2)%nat then Ok (false, mk101 header ci bs rn footer)
    else
      ci ← get_short data offset;
      let offset := (offset + 2)%nat in
      if (len <? offset + 4)%nat then Ok (false, mk101 header ci bs rn footer)
      else
        bs ← get_long data offset;
        let offset := (offset + 4)%nat in
        if (len <? offset + 2)%nat then Ok (false, mk101 header ci bs rn footer)
        else
          rn ← get_short data offset;
          let offset := (offset + 2)%nat in
          '(ok, footer, offset) ← RetransmissionMsgFooter_deserialize data offset len data
                                    (2 + Z.to_nat (msg_size header)) footer;
          if negb ok then Ok (false, mk101 header ci bs rn footer)
          else Ok ((offset =? expected_full_msg_len)%nat, mk101 header ci bs rn footer).

(** *** DataResponse102 *)

Record DataResponse102 : Type := mk102 {
  m102_header : RetransmissionMsgHeader;
  m102_channel_id : Z;
  m102_status_code : Z;
  m102_begin_seq_no : Z;
  m102_recover_num : Z;
  m102_footer : RetransmissionMsgFooter;
}.
Definition DATA_RESPONSE_102_FIXED_PAYLOAD_SIZE : Z := 2 + 1 + 4 + 2.

(** [msg_size] is a [uint16_t]: the sum is truncated. *)
Definition DataResponse102_serialize (buffer : list Z) (retrans_data : list Z)
    (this : DataResponse102) : result (list Z) :=
  let mutable_header :=
    stamped (m102_header this)
      (u16 ((Z.of_nat MSG_HEADER_SIZE - 2) + DATA_RESPONSE_102_FIXED_PAYLOAD_SIZE
            + Z.of_nat (length retrans_data))) 102 in
  let initial_buffer_size := length buffer in
  let buffer := RetransmissionMsgHeader_serialize buffer mutable_header in
  let buffer := put_short buffer (m102_channel_id this) in
  let buffer := buffer ++ [m102_status_code this] in
  let buffer := put_long buffer (m102_begin_seq_no this) in
  let buffer := put_short buffer (m102_recover_num this) in
  let buffer := buffer ++ retrans_data in
  finish buffer initial_buffer_size (2 + Z.to_nat (msg_size mutable_header)).

(** The second component of the output is [out_retrans_data]. *)
Definition DataResponse102_deserialize (data : pointer) (len : nat)
    (this : DataResponse102) : result (bool * (DataResponse102 * list Z)) :=
  let out_retrans_data := [] in
  let '(mk102 header ci sc bs rn footer) := this in
  '(ok, header, offset) ← RetransmissionMsgHeader_deserialize data 0 len header;
  if negb ok then Ok (false, (mk102 header ci sc bs rn footer, out_retrans_data))
  else if negb (msg_type header =? 102) then
    Ok (false, (mk102 header ci sc bs rn footer, out_retrans_data))
  else
    let base_msg_size_content :=
      (Z.of_nat MSG_HEADER_SIZE - 2) + DATA_RESPONSE_102_FIXED_PAYLOAD_SIZE in
    if msg_size header <? base_msg_size_content then
      Ok (false, (mk102 header ci sc bs rn footer, out_retrans_data))
    else
      let variable_data_len := Z.to_nat (msg_size header - base_msg_size_content) in
      let expected_full_msg_len := (2 + Z.to_nat (msg_size header) + FOOTER_SIZE)%nat in
      if (len <? expected_full_msg_len)%nat then
        Ok (false, (mk102 header ci sc bs rn footer, out_retrans_data))
      else if (len <? offset + Z.to_nat DATA_RESPONSE_102_FIXED_PAYLOAD_SIZE)%nat then
        Ok (false, (mk102 header ci sc bs rn footer, out_retrans_data))
      else
        ci ← get_short data offset;
        let offset := (offset + 2)%nat in
        sc ← get_byte data offset;
        let offset := (offset + 1)%nat in
        bs ← get_long data offset;
        let offset := (offset + 4)%nat in
        rn ← get_short data offset;
        let offset := (offset + 2)%nat in
        if (len <? offset + variable_data_len)%nat then
          Ok (false, (mk102 header ci sc bs rn footer, out_retrans_data))
        else
          out_retrans_data ← (if (0 <? variable_data_len)%nat
                              then load data offset variable_data_len
                              else Ok out_retrans_data);
          let offset := (offset + variable_data_len)%nat in
          '(ok, footer, offset) ← RetransmissionMsgFooter_deserialize data offset len data
                                    (2 + Z.to_nat (msg_size header)) footer;
          if negb ok then Ok (false, (mk102 header ci sc bs rn footer, out_retrans_data))
          else Ok ((offset =? expected_full_msg_len)%nat,
                   (mk102 header ci sc bs rn footer, out_retrans_data)).

End Protocol.
