(* ===== verification/RetransmissionCodec.v ===== *)
(** * The wire format of the retransmission protocol

    The specification of the seven fixed-size messages is one codec: big-endian
    fields laid out in order, the size field counting from the type field to
    the end, and a trailing sum byte.  [WireMessage] is the interface of a
    message struct; [WireLaws] states that its methods implement the codec, and
    each message discharges it.  The round-trip, soundness and corruption
    theorems are proved once, against the interface.  DataResponse102 carries
    a variable tail and is treated separately. *)

From S2P Require Import Prelude CppStd MessageFields EndianUtils RetransmissionProtocol.

(** ** Definitions *)

(** Big-endian fields of the given widths. *)
Fixpoint enc (ns : list nat) (vs : list Z) : list Z :=
  match ns, vs with
  | n :: ns, v :: vs => be_bytes n v ++ enc ns vs
  | _, _ => []
  end.
Fixpoint dec (ns : list nat) (mem : list Z) : list Z :=
  match ns with
  | [] => []
  | n :: ns => be_val (take n mem) :: dec ns (drop n mem)
  end.
Definition width (ns : list nat) : nat := sum_list ns.

Definition sum_bytes (l : list Z) : Z := foldr Z.add 0 l.

(** A body followed by its checksum byte. *)
Definition sealed (l : list Z) : list Z := l ++ [sum_bytes l `mod` 256].
(** The first [n] bytes are followed by their checksum. *)
Definition sum_ok (mem : list Z) (n : nat) : bool :=
  sum_bytes (take n mem) `mod` 256 =? byte_at mem n.

Definition header_layout : list nat := [2; 2; 4; 4; 4]%nat.
Definition header_fields (h : RetransmissionMsgHeader) : list Z :=
  [msg_size h; msg_type h; msg_seq_num h; epoch_s (msg_time h); nanosecond (msg_time h)].
Definition header_at (mem : list Z) : RetransmissionMsgHeader :=
  mkHeader (be_val (slice mem 0 2)) (be_val (slice mem 2 2)) (be_val (slice mem 4 4))
    (mkTime (be_val (slice mem 8 4)) (be_val (slice mem 12 4))).

(** A fixed-size message: its type code, the widths of its payload fields, its
    parts, and its two methods. *)
Class WireMessage (M : Type) : Type := {
  wm_type : Z;
  wm_layout : list nat;
  wm_header : M → RetransmissionMsgHeader;
  wm_fields : M → list Z;
  wm_footer : M → RetransmissionMsgFooter;
  wm_build : RetransmissionMsgHeader → list Z → RetransmissionMsgFooter → M;
  wm_serialize : list Z → M → result (list Z);
  wm_deserialize : pointer → nat → M → result (bool * M);
}.

Section Codec.
Context {M : Type} `{W : WireMessage M}.

(** Header and payload. *)
Definition body_len : nat := (16 + width wm_layout)%nat.

(** The message as it travels: size and type filled in. *)
Definition canon_header (m : M) : RetransmissionMsgHeader :=
  stamped (wm_header m) (Z.of_nat body_len - 2) wm_type.
Definition body (m : M) : list Z :=
  enc header_layout (header_fields (canon_header m)) ++ enc wm_layout (wm_fields m).
Definition encode (m : M) : list Z := sealed (body m).
Definition canon (m : M) : M :=
  wm_build (canon_header m) (wm_fields m) (mkFooter (sum_bytes (body m) `mod` 256)).

Definition decode (mem : list Z) (len : nat) : option M :=
  if (len <? body_len + 1)%nat then None
  else
    let h := header_at mem in
    if (msg_type h =? wm_type) && (msg_size h =? Z.of_nat body_len - 2) && sum_ok mem body_len
    then Some (wm_build h (dec wm_layout (drop 16 mem)) (mkFooter (byte_at mem body_len)))
    else None.

(** Every field is within its width. *)
Definition msg_ok (m : M) : Prop :=
  Forall2 fits header_layout (header_fields (canon_header m))
  ∧ Forall2 fits wm_layout (wm_fields m).

End Codec.

(** What a message struct promises. *)
Class WireLaws (M : Type) `{W : WireMessage M} : Prop := {
  wl_size : Z.of_nat (body_len (M := M)) < 2 ^ 16;
  wl_header h fs f : length fs = length (wm_layout (M := M)) →
    wm_header (wm_build (M := M) h fs f) = h;
  wl_fields h fs f : length fs = length (wm_layout (M := M)) →
    wm_fields (wm_build (M := M) h fs f) = fs;
  wl_footer h fs f : length fs = length (wm_layout (M := M)) →
    wm_footer (wm_build (M := M) h fs f) = f;
  wl_serialize buffer (m : M) : msg_ok m → wm_serialize buffer m = Ok (buffer ++ encode m);
  wl_deserialize mem len (this : M) : Forall is_byte mem → (len ≤ length mem)%nat →
    parses (wm_deserialize (Some mem) len this) (decode mem len);
}.

(** *** Lists of fields *)

Lemma width_cons n ns : width (n :: ns) = (n + width ns)%nat.
Proof. done. Qed.

Lemma length_enc ns vs : length ns = length vs → length (enc ns vs) = width ns.
Proof.
  revert vs. induction ns as [|n ns IH]; intros [|v vs] Hl; try done. cbn [enc].
  rewrite length_app length_be_bytes IH // -?width_cons //. by injection Hl.
Qed.

Lemma enc_byte ns vs : Forall is_byte (enc ns vs).
Proof.
  revert vs. induction ns as [|n ns IH]; intros [|v vs]; try constructor.
  apply Forall_app. split; [apply be_bytes_byte|apply IH].
Qed.

Lemma dec_enc ns vs rest : Forall2 fits ns vs → dec ns (enc ns vs ++ rest) = vs.
Proof.
  induction 1 as [|n v ns vs Hf H IH]; [done|]. cbn [dec enc]. rewrite -app_assoc.
  rewrite take_app_length' ?length_be_bytes // drop_app_length' ?length_be_bytes //.
  by rewrite be_val_bytes // IH.
Qed.

Lemma length_dec ns mem : length (dec ns mem) = length ns.
Proof. revert mem. induction ns; intros; simpl; auto. Qed.

Lemma enc_dec ns mem :
  Forall is_byte mem → (width ns ≤ length mem)%nat → enc ns (dec ns mem) = take (width ns) mem.
Proof.
  revert mem. induction ns as [|n ns IH]; intros mem Hb Hl; [done|].
  rewrite width_cons in Hl |- *. cbn [dec enc].
  rewrite IH; [by apply Forall_drop|rewrite length_drop; lia|].
  have Hn : length (take n mem) = n by rewrite length_take; lia.
  rewrite -{1}Hn be_bytes_val; [by apply Forall_take|].
  apply take_take_drop.
Qed.

Lemma dec_fits ns mem :
  Forall is_byte mem → (width ns ≤ length mem)%nat → Forall2 fits ns (dec ns mem).
Proof.
  revert mem. induction ns as [|n ns IH]; intros mem Hb Hl; [constructor|].
  rewrite width_cons in Hl. cbn [dec]. constructor.
  - have Hn : length (take n mem) = n by rewrite length_take; lia.
    rewrite -{1}Hn. by apply be_val_range, Forall_take.
  - apply IH; [by apply Forall_drop|]. rewrite length_drop. lia.
Qed.

Lemma header_at_dec mem : header_fields (header_at mem) = dec header_layout mem.
Proof. rewrite /header_fields /= /slice !drop_drop. by rewrite drop_0. Qed.

Lemma header_at_enc h rest :
  Forall2 fits header_layout (header_fields h) →
  header_at (enc header_layout (header_fields h) ++ rest) = h.
Proof.
  intros Hf. have E : header_fields (header_at (enc header_layout (header_fields h) ++ rest))
    = header_fields h by rewrite header_at_dec dec_enc.
  destruct (header_at _) as [? ? ? [? ?]], h as [? ? ? [? ?]].
  rewrite /header_fields in E. simpl in E. by simplify_eq.
Qed.

(** *** Checksums *)

Lemma calculate_checksum_eq l : calculate_retransmission_checksum l = sum_bytes l `mod` 256.
Proof.
  rewrite /calculate_retransmission_checksum /u8.
  have H : ∀ acc, foldl (λ sum b, u32 (sum + b)) acc l `mod` 256 = (acc + sum_bytes l) `mod` 256.
  { induction l as [|b l IH]; intros acc; [by rewrite /= Z.add_0_r|]. cbn [foldl sum_bytes foldr].
    rewrite IH /u32 -/(sum_bytes l).
    have -> : (acc + b) `mod` 2 ^ 32 = acc + b - 256 * (2 ^ 24 * ((acc + b) `div` 2 ^ 32)).
    { have := Z.div_mod (acc + b) (2 ^ 32). lia. }
    rewrite -(Z.mod_add (acc + (b + sum_bytes l)) (- (2 ^ 24 * ((acc + b) `div` 2 ^ 32)))); [lia|].
    f_equal. lia. }
  rewrite H Z.add_0_l. apply Z.mod_small.
  have := Z.mod_pos_bound (sum_bytes l) 256. lia.
Qed.

Lemma sum_bytes_insert l i b b' :
  l !! i = Some b → sum_bytes (<[i := b']> l) = sum_bytes l - b + b'.
Proof.
  revert i. induction l as [|c l IH]; intros [|i] Hi; simplify_eq/=; [lia|]. rewrite IH //. lia.
Qed.

(** Replacing one byte of a sealed message breaks the seal. *)
Lemma sum_ok_insert mem n i b b' :
  (n < length mem)%nat → (i ≤ n)%nat → mem !! i = Some b → is_byte b → is_byte b' → b ≠ b' →
  sum_ok mem n = true → sum_ok (<[i := b']> mem) n = false.
Proof.
  rewrite /sum_ok /byte_at /is_byte => Hn Hi Hb Hrb Hrb' Hne Hok. bool_to_prop. apply Z.eqb_neq.
  destruct (decide (i = n)) as [->|Hin].
  - rewrite take_insert_ge // list_lookup_insert_eq // Hok Hb /=. done.
  - rewrite take_insert_lt; [lia|]. rewrite list_lookup_insert_ne // -Hok.
    rewrite (sum_bytes_insert _ _ b); [rewrite lookup_take_lt //; lia|]. intros E.
    set s := sum_bytes _ in E. have D : (b' - b) `mod` 256 = 0.
    { replace (b' - b) with ((s - b + b') - s) by lia.
      rewrite Zminus_mod E Z.sub_diag //. }
    apply Z.mod_divide in D as [k Hk]; lia.
Qed.

Lemma byte_at_sealed l rest : byte_at (sealed l ++ rest) (length l) = sum_bytes l `mod` 256.
Proof. rewrite /byte_at /sealed -app_assoc lookup_app_r // Nat.sub_diag //. Qed.

Lemma sum_ok_sealed l rest : sum_ok (sealed l ++ rest) (length l) = true.
Proof.
  rewrite /sum_ok byte_at_sealed /sealed -app_assoc take_app_length. apply Z.eqb_refl.
Qed.

Lemma sum_ok_split mem n :
  (n < length mem)%nat → sum_ok mem n = true → mem = sealed (take n mem) ++ drop (n + 1) mem.
Proof.
  rewrite /sum_ok /byte_at => Hn Hok. bool_to_prop.
  destruct (lookup_lt_is_Some_2 mem n Hn) as [b Hb]. rewrite Hb /= in Hok.
  rewrite /sealed Hok -app_assoc. rewrite -{1}(take_drop_middle mem n b Hb) Nat.add_1_r //.
Qed.

(** *** Bytes beyond the message do not matter *)

Lemma slice_app (mem r : list Z) off n :
  (off + n ≤ length mem)%nat → slice (mem ++ r) off n = slice mem off n.
Proof.
  intros Hl. rewrite /slice drop_app_le; [lia|]. rewrite take_app_le // length_drop. lia.
Qed.

Lemma byte_at_app (mem r : list Z) off :
  (off < length mem)%nat → byte_at (mem ++ r) off = byte_at mem off.
Proof. intros Hl. by rewrite /byte_at lookup_app_l. Qed.

Lemma sum_ok_app mem r n : (n < length mem)%nat → sum_ok (mem ++ r) n = sum_ok mem n.
Proof. intros Hl. rewrite /sum_ok byte_at_app // take_app_le //. lia. Qed.

Lemma header_at_app mem r : (16 ≤ length mem)%nat → header_at (mem ++ r) = header_at mem.
Proof. intros Hl. rewrite /header_at !slice_app //; lia. Qed.

Lemma dec_app ns mem r : (width ns ≤ length mem)%nat → dec ns (mem ++ r) = dec ns mem.
Proof.
  revert mem. induction ns as [|n ns IH]; intros mem Hl; [done|].
  rewrite width_cons in Hl. cbn [dec]. rewrite take_app_le; [lia|]. rewrite drop_app_le; [lia|].
  rewrite IH // length_drop. lia.
Qed.

Lemma decode_app {M} `{W : WireMessage M} mem r n :
  (n ≤ length mem)%nat → decode (M := M) (mem ++ r) n = decode mem n.
Proof.
  intros Hl. rewrite /decode. case_bool; [done|]. bool_to_prop.
  rewrite /body_len in Heqb |- *. rewrite header_at_app; [lia|]. rewrite sum_ok_app; [lia|].
  rewrite byte_at_app; [lia|]. rewrite drop_app_le; [lia|]. rewrite dec_app // length_drop. lia.
Qed.

(** *** Theorems against the interface *)

(** Encoding then decoding gives the message back, in a larger buffer too. *)
Definition roundtrips (M : Type) `{W : WireMessage M} : Prop :=
  ∀ (m this : M) buffer rest len,
    msg_ok m → Forall is_byte rest →
    (length (encode m) ≤ len ≤ length (encode m ++ rest))%nat →
    wm_serialize buffer m = Ok (buffer ++ encode m)
    ∧ wm_deserialize (Some (encode m ++ rest)) len this = Ok (true, canon m).

(** On any readable bytes the method returns; it returns true only for the
    encoding of the message it delivers. *)
Definition accepts_only_encodings (M : Type) `{W : WireMessage M} : Prop :=
  ∀ mem len (this : M), Forall is_byte mem → (len ≤ length mem)%nat →
    (∃ out, wm_deserialize (Some mem) len this = Ok (false, out))
    ∨ ∃ m, wm_deserialize (Some mem) len this = Ok (true, m)
        ∧ msg_ok m ∧ canon m = m ∧ (length (encode m) ≤ len)%nat
        ∧ mem = encode m ++ drop (length (encode m)) mem.

(** No two messages share an encoding: messages that [serialize] to the same
    bytes, and more generally messages whose encodings start the same buffer,
    agree in every field but the three [serialize] computes itself (size, type
    and checksum, which [canon] sets). *)
Definition unambiguous (M : Type) `{W : WireMessage M} : Prop :=
  ∀ m1 m2 : M, msg_ok m1 → msg_ok m2 →
    (∀ buffer, wm_serialize buffer m1 = wm_serialize buffer m2 → canon m1 = canon m2)
    ∧ (∀ rest1 rest2, encode m1 ++ rest1 = encode m2 ++ rest2 → canon m1 = canon m2).

(** A change of one byte is detected. *)
Definition detects_corruption (M : Type) `{W : WireMessage M} : Prop :=
  ∀ (m this : M) rest len i b,
    msg_ok m → Forall is_byte rest → (len ≤ length (encode m ++ rest))%nat →
    (i < length (encode m))%nat → is_byte b → encode m !! i ≠ Some b →
    ∃ out, wm_deserialize (Some (<[i := b]> (encode m ++ rest))) len this = Ok (false, out).

Lemma length_body {M} `{W : WireMessage M} (m : M) :
  msg_ok m → length (body m) = body_len (M := M).
Proof.
  intros [Hh Hf]. apply Forall2_length in Hf. rewrite /body length_app !length_enc //.
Qed.

Section Generic.
Context (M : Type) `{L : WireLaws M}.

Lemma length_encode (m : M) : msg_ok m → length (encode m) = (body_len (M := M) + 1)%nat.
Proof. intros. by rewrite /encode /sealed length_app length_body. Qed.

Lemma encode_byte (m : M) : Forall is_byte (encode m).
Proof.
  rewrite /encode /sealed /body. apply Forall_app. split.
  - apply Forall_app. split; apply enc_byte.
  - constructor; [|constructor]. apply Z.mod_pos_bound. lia.
Qed.

Lemma decode_encode (m : M) rest len :
  msg_ok m → (body_len (M := M) < len)%nat → decode (encode m ++ rest) len = Some (canon m).
Proof.
  intros Hm Hl. have Hlb := length_body m Hm. destruct Hm as [Hh Hf].
  have Hsplit : encode m ++ rest =
    enc header_layout (header_fields (canon_header m))
    ++ enc wm_layout (wm_fields m) ++ [sum_bytes (body m) `mod` 256] ++ rest.
  { by rewrite /encode /sealed /body -!app_assoc. }
  have Hdr : header_at (encode m ++ rest) = canon_header m.
  { rewrite Hsplit. by apply header_at_enc. }
  rewrite /decode Hdr (proj2 (Nat.ltb_ge _ _)); [lia|]. rewrite !Z.eqb_refl.
  rewrite -Hlb /encode sum_ok_sealed byte_at_sealed -/(encode m). cbn [andb].
  rewrite Hsplit drop_app_length' ?length_enc // dec_enc //.
Qed.

Lemma decode_sound mem len (m : M) :
  Forall is_byte mem → (len ≤ length mem)%nat → decode mem len = Some m →
  msg_ok m ∧ canon m = m ∧ (length (encode m) ≤ len)%nat
  ∧ mem = encode m ++ drop (length (encode m)) mem.
Proof.
  intros Hb Hl. rewrite /decode. case_bool; [done|]. bool_to_prop.
  destruct (_ && _) eqn:Hc; [|done]. intros [= <-].
  apply andb_prop in Hc as [[Hty Hsz]%andb_prop Hsum]. bool_to_prop.
  set n := body_len (M := M) in Heqb Hsz Hsum *. have Hw : n = (16 + width (wm_layout (M := M)))%nat by [].
  set h := header_at mem in Hty Hsz *. set fs := dec wm_layout (drop 16 mem).
  set m := wm_build h fs (mkFooter (byte_at mem n)).
  have Hfl : length fs = length (wm_layout (M := M)) by apply length_dec.
  have Hd16 : (width (wm_layout (M := M)) ≤ length (drop 16 mem))%nat by rewrite length_drop; lia.
  have Eh : canon_header m = h.
  { rewrite /canon_header wl_header // -/n -Hsz -Hty. by destruct h. }
  have Ef : wm_fields m = fs by apply wl_fields.
  have Eb : body m = take n mem.
  { rewrite /body Eh Ef header_at_dec !enc_dec //; [cbn; lia|by apply Forall_drop|].
    rewrite Hw. apply take_take_drop. }
  have Hok : msg_ok m.
  { rewrite /msg_ok Eh Ef header_at_dec. split; apply dec_fits; try done; [cbn; lia|].
    by apply Forall_drop. }
  split_and!; [done| | |].
  - rewrite /canon Eh Ef Eb. rewrite /sum_ok in Hsum. bool_to_prop. by rewrite Hsum.
  - rewrite length_encode //.
  - rewrite length_encode // /encode Eb. apply sum_ok_split; [lia|done].
Qed.

Lemma wire_roundtrips : roundtrips M.
Proof.
  intros m this buffer rest len Hm Hr Hl. rewrite length_encode // in Hl.
  split; [by apply wl_serialize|].
  pose proof (wl_deserialize (encode m ++ rest) len this) as H.
  rewrite (decode_encode m rest len) // in H; [lia|]. apply H; [|lia].
  apply Forall_app. split; [apply encode_byte|done].
Qed.

Lemma wire_accepts_only_encodings : accepts_only_encodings M.
Proof.
  intros mem len this Hb Hl. pose proof (wl_deserialize mem len this Hb Hl) as H.
  destruct (decode mem len) as [m|] eqn:E; [right|by left].
  exists m. split; [done|]. by eapply decode_sound.
Qed.

Lemma wire_unambiguous : unambiguous M.
Proof.
  intros m1 m2 H1 H2.
  have Hpre rest1 rest2 : encode m1 ++ rest1 = encode m2 ++ rest2 → canon m1 = canon m2.
  { intros E. apply (f_equal (λ l, decode (M := M) l (S (body_len (M := M))))) in E.
    rewrite !decode_encode // in E; [lia..|]. by injection E. }
  split; [|done]. intros buffer. rewrite !wl_serialize //. intros [= E%app_inv_head].
  apply (Hpre [] []). by rewrite E.
Qed.

Lemma wire_detects_corruption : detects_corruption M.
Proof.
  intros m this rest len i b Hm Hr Hl Hi Hb Hne.
  have Hin : (i < length (encode m ++ rest))%nat by rewrite length_app; lia.
  have Hbytes : Forall is_byte (encode m ++ rest).
  { apply Forall_app. split; [apply encode_byte|done]. }
  pose proof (wl_deserialize (<[i:=b]> (encode m ++ rest)) len this) as H.
  have Hnone : decode (M := M) (<[i:=b]> (encode m ++ rest)) len = None.
  { rewrite /decode. case_bool; [done|]. destruct (_ && _) eqn:Hc; [|done].
    apply andb_prop in Hc as [_ Hsum].
    destruct (lookup_lt_is_Some_2 _ _ Hi) as [b0 Hb0].
    have Hb0' : (encode m ++ rest) !! i = Some b0 by rewrite lookup_app_l.
    have Hlen : (body_len (M := M) < length (encode m ++ rest))%nat.
    { rewrite length_app length_encode //. lia. }
    rewrite length_encode // in Hi.
    rewrite (sum_ok_insert _ _ _ b0 b) in Hsum; [..|done]; try done; try lia.
    - rewrite Forall_lookup in Hbytes. by eapply Hbytes.
    - intros ->. done.
    - rewrite -(length_body m) //. apply sum_ok_sealed. }
  rewrite Hnone in H. apply H.
  - by apply Forall_insert.
  - by rewrite length_insert.
Qed.

End Generic.

(** *** The methods implement the codec *)

Lemma be_val_1 mem off : (off < length mem)%nat → be_val (slice mem off 1) = byte_at mem off.
Proof.
  intros Hl. destruct (lookup_lt_is_Some_2 mem off Hl) as [b Hb].
  rewrite /slice /byte_at Hb (drop_S _ _ _ Hb) /= take_0. rewrite /be_val /=. lia.
Qed.

Lemma be_bytes_1 v : fits 1 v → be_bytes 1 v = [v].
Proof. rewrite /fits => Hv. rewrite /be_bytes /= Z.mod_small //. Qed.

Section Methods.
Context `{host : Host}.

Lemma put_short_eq buffer v : put_short buffer v = buffer ++ be_bytes 2 v.
Proof. by rewrite /put_short /host_to_network_short host_bytes_htons. Qed.
Lemma put_long_eq buffer v : put_long buffer v = buffer ++ be_bytes 4 v.
Proof. by rewrite /put_long /host_to_network_long host_bytes_htonl. Qed.

Lemma header_serialize_eq buffer h :
  RetransmissionMsgHeader_serialize buffer h = buffer ++ enc header_layout (header_fields h).
Proof.
  rewrite /RetransmissionMsgHeader_serialize /StandardTimeFormat_serialize.
  rewrite !put_short_eq !put_long_eq /header_layout /header_fields. cbn [enc].
  by rewrite -!app_assoc app_nil_r.
Qed.

Lemma finish_eq b buffer l n :
  b = buffer ++ l → length l = n → finish b (length buffer) n = Ok (buffer ++ sealed l).
Proof.
  intros -> <-. rewrite /finish readn_Ok; [by rewrite length_app|]. cbn [mbind result_bind].
  rewrite drop_app_length take_ge // calculate_checksum_eq.
  by rewrite /RetransmissionMsgFooter_serialize /sealed app_assoc.
Qed.

Lemma get_short_eq mem off :
  Forall is_byte mem → (off + 2 ≤ length mem)%nat →
  get_short (Some mem) off = Ok (be_val (slice mem off 2)).
Proof.
  intros Hb Hl. rewrite /get_short /load readn_Ok //. cbn [mbind result_bind].
  rewrite /network_to_host_short ntohs_host_val //; [by apply Forall_slice|by apply length_slice].
Qed.
Lemma get_long_eq mem off :
  Forall is_byte mem → (off + 4 ≤ length mem)%nat →
  get_long (Some mem) off = Ok (be_val (slice mem off 4)).
Proof.
  intros Hb Hl. rewrite /get_long /load readn_Ok //. cbn [mbind result_bind].
  rewrite /network_to_host_long ntohl_host_val //; [by apply Forall_slice|by apply length_slice].
Qed.
Lemma get_byte_eq mem off :
  (off < length mem)%nat → get_byte (Some mem) off = Ok (byte_at mem off).
Proof. apply read1_at. Qed.

Lemma header_deserialize_eq mem len this :
  Forall is_byte mem → (len ≤ length mem)%nat →
  RetransmissionMsgHeader_deserialize (Some mem) 0 len this =
  if (len <? 16)%nat then Ok (false, this, 0%nat) else Ok (true, header_at mem, 16%nat).
Proof.
  intros Hb Hl. rewrite /RetransmissionMsgHeader_deserialize.
  change (0 + MSG_HEADER_SIZE)%nat with 16%nat. destruct (len <? 16)%nat eqn:E; [done|]. bool_to_prop.
  rewrite !get_short_eq //; [lia..|]. cbn [mbind result_bind].
  rewrite get_long_eq //; [lia|]. cbn [mbind result_bind].
  rewrite /StandardTimeFormat_deserialize (proj2 (Nat.ltb_ge _ _)); [rewrite /TIME_SIZE; lia|].
  rewrite !get_long_eq //; lia.
Qed.

Lemma footer_deserialize_eq mem len n this :
  (n < len)%nat → (len ≤ length mem)%nat → (0 < n)%nat →
  RetransmissionMsgFooter_deserialize (Some mem) n len (Some mem) n this =
  Ok (if sum_ok mem n then (true, mkFooter (byte_at mem n), (n + 1)%nat)
      else (false, this, (n + 1)%nat)).
Proof.
  intros Hn Hl H0. rewrite /RetransmissionMsgFooter_deserialize /FOOTER_SIZE.
  rewrite (proj2 (Nat.ltb_ge _ _)); [lia|]. rewrite get_byte_eq; [lia|]. cbn [mbind result_bind].
  rewrite (proj2 (Nat.eqb_neq _ _)); [lia|]. rewrite readn_Ok; [lia|]. cbn [mbind result_bind].
  rewrite calculate_checksum_eq drop_0 /sum_ok. by destruct (_ =? _).
Qed.

End Methods.

(** Steps through a [deserialize] method on a readable buffer. *)
Ltac deserialize_step :=
  lazymatch goal with
  | |- parses (Ok (false, _)) None => by eexists
  | |- parses (get_short _ _ ≫= _) _ => rewrite get_short_eq //; [lia|]; cbn [mbind result_bind]
  | |- parses (get_long _ _ ≫= _) _ => rewrite get_long_eq //; [lia|]; cbn [mbind result_bind]
  | |- parses (get_byte _ _ ≫= _) _ => rewrite get_byte_eq; [lia|]; cbn [mbind result_bind]
  end.

(** The header, the type, the size [sz] and the overall length. *)
Ltac deserialize_start sz :=
  let n := eval vm_compute in (Z.to_nat sz + 2)%nat in
  rewrite header_deserialize_eq //; cbn [mbind result_bind];
  change (body_len) with n; change (Z.of_nat n - 2) with sz;
  match goal with
  | |- context [(?len <? 16)%nat] =>
      destruct (len <? 16)%nat eqn:?; bool_to_prop;
      [rewrite (proj2 (Nat.ltb_lt len (n + 1))); [lia|]; by eexists|]
  end; cbn [mbind result_bind negb];
  match goal with
  | |- context [negb (msg_type ?h =? ?t)] =>
      destruct (msg_type h =? t) eqn:?; cbn [negb andb]; [|by case_bool; eexists];
      destruct (msg_size h =? sz) eqn:Hsz; cbn [negb andb]; [|by case_bool; eexists];
      apply Z.eqb_eq in Hsz; rewrite Hsz
  end;
  change (2 + Z.to_nat sz)%nat with n; change FOOTER_SIZE with 1%nat;
  match goal with
  | |- context [(?len <? n + 1)%nat] =>
      destruct (len <? n + 1)%nat eqn:?; [by eexists|]; bool_to_prop
  end.

(** A length check implied by the ones before. *)
Ltac length_check :=
  match goal with
  | |- context [if (?len <? ?k)%nat then _ else _] =>
      rewrite (proj2 (Nat.ltb_ge len k)); [lia|]
  end.

(** The footer at offset [n], and the comparison of the decoded fields. *)
Ltac deserialize_end n :=
  match goal with
  | |- context [RetransmissionMsgFooter_deserialize _ ?k] => change k with n
  end;
  rewrite footer_deserialize_eq; [lia..|]; cbn [mbind result_bind];
  destruct (sum_ok _ _); [|by eexists];
  rewrite /parses; cbn [negb Nat.add Nat.eqb dec nth];
  rewrite ?drop_drop -?be_val_1 //; try lia.

Lemma finish_body {M} `{W : WireMessage M} (m : M) buffer b n :
  msg_ok m → b = buffer ++ body m → n = body_len (M := M) →
  finish b (length buffer) n = Ok (buffer ++ encode m).
Proof. intros Hm -> ->. by apply finish_eq; [|apply length_body]. Qed.

(** The elements of a list of known length. *)
Ltac destruct_fields fs :=
  repeat (destruct fs as [|? fs]; try discriminate).

(** The range of each payload field. *)
Ltac split_fits Hf :=
  repeat match type of Hf with
  | Forall2 _ (_ :: _) (_ :: _) => apply Forall2_cons_1 in Hf as [? Hf]
  end.

Section Instances.
Context `{host : Host}.

#[export] Instance wire020 (pw : list Z) : WireMessage LoginRequest020 := {
  wm_type := 20; wm_layout := [2; 1; 2]%nat;
  wm_header := m020_header; wm_fields m := [multiplication_operator m; check_code m; session_id m];
  wm_footer := m020_footer;
  wm_build h fs f := mk020 h (nth 0 fs 0) (nth 1 fs 0) (nth 2 fs 0) f;
  wm_serialize := λ buffer m, LoginRequest020_serialize buffer pw m;
  wm_deserialize := λ data len m, LoginRequest020_deserialize data len pw m;
}.

#[export] Instance laws020 (pw : list Z) : WireLaws LoginRequest020 (W := wire020 pw).
Proof.
  split; [done|by intros h fs f Hl; destruct_fields fs..| |].
  - intros buffer m Hm. cbn [wm_serialize wire020]. rewrite /LoginRequest020_serialize.
    apply finish_body; [done| |done]. destruct Hm as [_ Hf]. cbn [wm_layout wm_fields wire020] in Hf.
    split_fits Hf. rewrite header_serialize_eq ?put_short_eq ?put_long_eq /body.
    cbn [wm_layout wm_fields enc wire020]. rewrite -?app_assoc ?app_nil_r ?be_bytes_1 //.
  - intros mem len [h mo cc si f] Hb Hl. rewrite /decode.
    cbn [wm_type wm_layout wm_build wm_deserialize wire020]. rewrite /LoginRequest020_deserialize.
    change LOGIN_REQUEST_020_MSG_SIZE_FIELD_VALUE with 19.
    change (Z.to_nat LOGIN_REQUEST_020_PAYLOAD_SIZE) with 5%nat.
    deserialize_start 19. length_check. do 3 deserialize_step. deserialize_end 21%nat.
Qed.

#[export] Instance wire030 : WireMessage LoginResponse030 := {
  wm_type := 30; wm_layout := [2%nat];
  wm_header := m030_header; wm_fields m := [m030_channel_id m];
  wm_footer := m030_footer;
  wm_build h fs f := mk030 h (nth 0 fs 0) f;
  wm_serialize := LoginResponse030_serialize;
  wm_deserialize := LoginResponse030_deserialize;
}.

#[export] Instance laws030 : WireLaws LoginResponse030.
Proof.
  split; [done|by intros h fs f Hl; destruct_fields fs..| |].
  - intros buffer m Hm. cbn [wm_serialize wire030]. rewrite /LoginResponse030_serialize.
    apply finish_body; [done| |done]. destruct Hm as [_ Hf]. cbn [wm_layout wm_fields wire030] in Hf.
    split_fits Hf. rewrite header_serialize_eq ?put_short_eq ?put_long_eq /body.
    cbn [wm_layout wm_fields enc wire030]. rewrite -?app_assoc ?app_nil_r ?be_bytes_1 //.
  - intros mem len [h ci f] Hb Hl. rewrite /decode.
    cbn [wm_type wm_layout wm_build wm_deserialize wire030]. rewrite /LoginResponse030_deserialize.
    change LOGIN_RESPONSE_030_MSG_SIZE_FIELD_VALUE with 16.
    deserialize_start 16. length_check. deserialize_step. deserialize_end 18%nat.
Qed.

#[export] Instance wire010 : WireMessage ErrorNotification010 := {
  wm_type := 10; wm_layout := [1%nat];
  wm_header := m010_header; wm_fields m := [m010_status_code m];
  wm_footer := m010_footer;
  wm_build h fs f := mk010 h (nth 0 fs 0) f;
  wm_serialize := ErrorNotification010_serialize;
  wm_deserialize := ErrorNotification010_deserialize;
}.

#[export] Instance laws010 : WireLaws ErrorNotification010.
Proof.
  split; [done|by intros h fs f Hl; destruct_fields fs..| |].
  - intros buffer m Hm. cbn [wm_serialize wire010]. rewrite /ErrorNotification010_serialize.
    apply finish_body; [done| |done]. destruct Hm as [_ Hf]. cbn [wm_layout wm_fields wire010] in Hf.
    split_fits Hf. rewrite header_serialize_eq ?put_short_eq ?put_long_eq /body.
    cbn [wm_layout wm_fields enc wire010]. rewrite -?app_assoc ?app_nil_r ?be_bytes_1 //.
  - intros mem len [h sc f] Hb Hl. rewrite /decode.
    cbn [wm_type wm_layout wm_build wm_deserialize wire010]. rewrite /ErrorNotification010_deserialize.
    change ERROR_NOTIFICATION_010_MSG_SIZE_FIELD_VALUE with 15.
    deserialize_start 15. length_check. deserialize_step. deserialize_end 17%nat.
Qed.

#[export] Instance wire050 : WireMessage RetransmissionStart050 := {
  wm_type := 50; wm_layout := [];
  wm_header := m050_header; wm_fields _ := [];
  wm_footer := m050_footer;
  wm_build h _ f := mk050 h f;
  wm_serialize := RetransmissionStart050_serialize;
  wm_deserialize := RetransmissionStart050_deserialize;
}.

#[export] Instance laws050 : WireLaws RetransmissionStart050.
Proof.
  split; [done|by intros h fs f Hl; destruct_fields fs..| |].
  - intros buffer m Hm. cbn [wm_serialize wire050]. rewrite /RetransmissionStart050_serialize.
    apply finish_body; [done| |done]. destruct Hm as [_ Hf]. cbn [wm_layout wm_fields wire050] in Hf.
    split_fits Hf. rewrite header_serialize_eq ?put_short_eq ?put_long_eq /body.
    cbn [wm_layout wm_fields enc wire050]. rewrite -?app_assoc ?app_nil_r ?be_bytes_1 //.
  - intros mem len [h f] Hb Hl. rewrite /decode.
    cbn [wm_type wm_layout wm_build wm_deserialize wire050]. rewrite /RetransmissionStart050_deserialize.
    change RETRANSMISSION_START_050_MSG_SIZE_FIELD_VALUE with 14.
    deserialize_start 14.  deserialize_end 16%nat.
Qed.

#[export] Instance wire104 : WireMessage HeartbeatServer104 := {
  wm_type := 104; wm_layout := [];
  wm_header := m104_header; wm_fields _ := [];
  wm_footer := m104_footer;
  wm_build h _ f := mk104 h f;
  wm_serialize := HeartbeatServer104_serialize;
  wm_deserialize := HeartbeatServer104_deserialize;
}.

#[export] Instance laws104 : WireLaws HeartbeatServer104.
Proof.
  split; [done|by intros h fs f Hl; destruct_fields fs..| |].
  - intros buffer m Hm. cbn [wm_serialize wire104]. rewrite /HeartbeatServer104_serialize.
    apply finish_body; [done| |done]. destruct Hm as [_ Hf]. cbn [wm_layout wm_fields wire104] in Hf.
    split_fits Hf. rewrite header_serialize_eq ?put_short_eq ?put_long_eq /body.
    cbn [wm_layout wm_fields enc wire104]. rewrite -?app_assoc ?app_nil_r ?be_bytes_1 //.
  - intros mem len [h f] Hb Hl. rewrite /decode.
    cbn [wm_type wm_layout wm_build wm_deserialize wire104]. rewrite /HeartbeatServer104_deserialize.
    change HEARTBEAT_SERVER_104_MSG_SIZE_FIELD_VALUE with 14.
    deserialize_start 14.  deserialize_end 16%nat.
Qed.

#[export] Instance wire105 : WireMessage HeartbeatClient105 := {
  wm_type := 105; wm_layout := [];
  wm_header := m105_header; wm_fields _ := [];
  wm_footer := m105_footer;
  wm_build h _ f := mk105 h f;
  wm_serialize := HeartbeatClient105_serialize;
  wm_deserialize := HeartbeatClient105_deserialize;
}.

#[export] Instance laws105 : WireLaws HeartbeatClient105.
Proof.
  split; [done|by intros h fs f Hl; destruct_fields fs..| |].
  - intros buffer m Hm. cbn [wm_serialize wire105]. rewrite /HeartbeatClient105_serialize.
    apply finish_body; [done| |done]. destruct Hm as [_ Hf]. cbn [wm_layout wm_fields wire105] in Hf.
    split_fits Hf. rewrite header_serialize_eq ?put_short_eq ?put_long_eq /body.
    cbn [wm_layout wm_fields enc wire105]. rewrite -?app_assoc ?app_nil_r ?be_bytes_1 //.
  - intros mem len [h f] Hb Hl. rewrite /decode.
    cbn [wm_type wm_layout wm_build wm_deserialize wire105]. rewrite /HeartbeatClient105_deserialize.
    change HEARTBEAT_CLIENT_105_MSG_SIZE_FIELD_VALUE with 14.
    deserialize_start 14.  deserialize_end 16%nat.
Qed.

#[export] Instance wire101 : WireMessage DataRequest101 := {
  wm_type := 101; wm_layout := [2; 4; 2]%nat;
  wm_header := m101_header; wm_fields m := [m101_channel_id m; m101_begin_seq_no m; m101_recover_num m];
  wm_footer := m101_footer;
  wm_build h fs f := mk101 h (nth 0 fs 0) (nth 1 fs 0) (nth 2 fs 0) f;
  wm_serialize := DataRequest101_serialize;
  wm_deserialize := DataRequest101_deserialize;
}.

#[export] Instance laws101 : WireLaws DataRequest101.
Proof.
  split; [done|by intros h fs f Hl; destruct_fields fs..| |].
  - intros buffer m Hm. cbn [wm_serialize wire101]. rewrite /DataRequest101_serialize.
    apply finish_body; [done| |done]. destruct Hm as [_ Hf]. cbn [wm_layout wm_fields wire101] in Hf.
    split_fits Hf. rewrite header_serialize_eq ?put_short_eq ?put_long_eq /body.
    cbn [wm_layout wm_fields enc wire101]. rewrite -?app_assoc ?app_nil_r ?be_bytes_1 //.
  - intros mem len [h ci bs rn f] Hb Hl. rewrite /decode.
    cbn [wm_type wm_layout wm_build wm_deserialize wire101]. rewrite /DataRequest101_deserialize.
    change DATA_REQUEST_101_MSG_SIZE_FIELD_VALUE with 22.
    deserialize_start 22. length_check. deserialize_step. length_check. deserialize_step. length_check. deserialize_step. deserialize_end 24%nat.
Qed.

End Instances.

(** *** DataResponse102 *)

Definition layout102 : list nat := [2; 1; 4; 2]%nat.
Definition fields102 (m : DataResponse102) : list Z :=
  [m102_channel_id m; m102_status_code m; m102_begin_seq_no m; m102_recover_num m].

Definition header102 (m : DataResponse102) (data : list Z) : RetransmissionMsgHeader :=
  stamped (m102_header m) (23 + Z.of_nat (length data)) 102.
Definition body102 (h : RetransmissionMsgHeader) (fs data : list Z) : list Z :=
  enc header_layout (header_fields h) ++ enc layout102 fs ++ data.
Definition encode102 (m : DataResponse102) (data : list Z) : list Z :=
  sealed (body102 (header102 m data) (fields102 m) data).
Definition canon102 (m : DataResponse102) (data : list Z) : DataResponse102 :=
  mk102 (header102 m data) (m102_channel_id m) (m102_status_code m) (m102_begin_seq_no m)
    (m102_recover_num m)
    (mkFooter (sum_bytes (body102 (header102 m data) (fields102 m) data) `mod` 256)).

Definition msg102_ok (m : DataResponse102) (data : list Z) : Prop :=
  Forall2 fits header_layout (header_fields (header102 m data))
  ∧ Forall2 fits layout102 (fields102 m) ∧ Forall is_byte data.

Definition decode102 (mem : list Z) (len : nat) : option (DataResponse102 * list Z) :=
  let h := header_at mem in
  let n := (2 + Z.to_nat (msg_size h))%nat in
  if (16 <=? len)%nat && (msg_type h =? 102) && (23 <=? msg_size h) && (n <? len)%nat && sum_ok mem n
  then Some (mk102 h (be_val (slice mem 16 2)) (byte_at mem 18) (be_val (slice mem 19 4))
               (be_val (slice mem 23 2)) (mkFooter (byte_at mem n)),
             slice mem 25 (Z.to_nat (msg_size h - 23)))
  else None.

Lemma length_body102 h m data : length (body102 h (fields102 m) data) = (25 + length data)%nat.
Proof. by rewrite /body102 length_app (length_app (enc layout102 _)) !length_enc. Qed.

Lemma encode102_byte m data : Forall is_byte data → Forall is_byte (encode102 m data).
Proof.
  intros Hd. rewrite /encode102 /sealed. apply Forall_app. split.
  - apply Forall_app. split; [apply enc_byte|]. apply Forall_app. split; [apply enc_byte|done].
  - constructor; [|constructor]. apply Z.mod_pos_bound. lia.
Qed.

Lemma fields102_at mem :
  (25 ≤ length mem)%nat →
  dec layout102 (drop 16 mem)
  = [be_val (slice mem 16 2); byte_at mem 18; be_val (slice mem 19 4); be_val (slice mem 23 2)].
Proof. intros Hl. rewrite -(be_val_1 mem 18); [lia|]. by rewrite /= /slice !drop_drop. Qed.

Lemma decode102_encode m data rest len :
  msg102_ok m data → (length (encode102 m data) ≤ len)%nat →
  decode102 (encode102 m data ++ rest) len = Some (canon102 m data, data).
Proof.
  intros (Hh & Hf & Hb) Hl. set b := body102 (header102 m data) (fields102 m) data.
  have Hlb : length b = (25 + length data)%nat by apply length_body102.
  have He : length (encode102 m data) = (25 + length data + 1)%nat.
  { by rewrite /encode102 /sealed length_app Hlb. }
  have Hsplit : encode102 m data ++ rest =
    enc header_layout (header_fields (header102 m data))
    ++ enc layout102 (fields102 m) ++ data ++ [sum_bytes b `mod` 256] ++ rest.
  { by rewrite /encode102 /sealed -/b {1}/b /body102 -!(assoc_L (++)). }
  set mem := encode102 m data ++ rest in Hsplit *.
  have Hlm : (25 ≤ length mem)%nat by rewrite /mem length_app; lia.
  have Hdr : header_at mem = header102 m data by rewrite Hsplit; apply header_at_enc.
  have Hfs := fields102_at mem Hlm.
  rewrite {1}Hsplit drop_app_length' ?length_enc // dec_enc // in Hfs.
  rewrite /decode102 Hdr. cbn [msg_size msg_type header102 stamped].
  replace (2 + Z.to_nat (23 + Z.of_nat (length data)))%nat with (length b) by lia.
  rewrite /mem /encode102 sum_ok_sealed byte_at_sealed -/(encode102 m data) -/mem.
  rewrite (proj2 (Nat.leb_le _ _)); [lia|]. rewrite (proj2 (Z.leb_le _ _)); [lia|].
  rewrite (proj2 (Nat.ltb_lt _ _)); [lia|]. cbn [andb Z.eqb Pos.eqb].
  rewrite /fields102 in Hfs. injection Hfs as <- <- <- <-. do 2 f_equal.
  rewrite /slice Hsplit (assoc_L (++) (enc header_layout _)) drop_app_length'.
  - rewrite length_app !length_enc //.
  - apply take_app_length'. lia.
Qed.

Lemma decode102_sound mem len m data :
  Forall is_byte mem → (len ≤ length mem)%nat → decode102 mem len = Some (m, data) →
  msg102_ok m data ∧ canon102 m data = m ∧ (length (encode102 m data) ≤ len)%nat
  ∧ mem = encode102 m data ++ drop (length (encode102 m data)) mem.
Proof.
  intros Hb Hl. rewrite /decode102. set h := header_at mem.
  set n := (2 + Z.to_nat (msg_size h))%nat. have Hn : n = (2 + Z.to_nat (msg_size h))%nat by [].
  destruct (_ && sum_ok mem n) eqn:Hc; [|done].
  apply andb_prop in Hc as [[[[H16 Hty]%andb_prop Hsz]%andb_prop Hlen]%andb_prop Hsum].
  bool_to_prop. apply Nat.leb_le in H16. intros [= <- <-].
  change (be_val (slice mem 0 2)) with (msg_size h).
  set data := slice mem 25 _. set m := mk102 h _ _ _ _ _.
  have Hdl : length data = Z.to_nat (msg_size h - 23) by apply length_slice; lia.
  have Eh : header102 m data = h.
  { rewrite /header102 /stamped Hdl. destruct h as [s t q ti]. cbn in *. f_equal; lia. }
  have Ef : fields102 m = dec layout102 (drop 16 mem) by rewrite fields102_at //; lia.
  have Eb : body102 (header102 m data) (fields102 m) data = take n mem.
  { rewrite /body102 Eh Ef header_at_dec !enc_dec //;
      [cbn; lia|by apply Forall_drop|rewrite length_drop; cbn; lia|].
    change (width header_layout) with 16%nat. change (width layout102) with 9%nat.
    rewrite (assoc_L (++)) take_take_drop /data /slice take_take_drop. f_equal. lia. }
  have Hle : length (encode102 m data) = (n + 1)%nat.
  { rewrite /encode102 Eb /sealed length_app length_take. cbn [length]. lia. }
  split_and!.
  - split_and!; [|rewrite Ef; apply dec_fits|by apply Forall_slice].
    + rewrite Eh header_at_dec. apply dec_fits; [done|cbn; lia].
    + by apply Forall_drop.
    + rewrite length_drop. cbn. lia.
  - rewrite /canon102 Eh -Eh Eb Eh. rewrite /sum_ok in Hsum. bool_to_prop. by rewrite Hsum.
  - lia.
  - rewrite Hle /encode102 Eb. apply sum_ok_split; [lia|done].
Qed.

Lemma decode102_app mem r n :
  (n ≤ length mem)%nat → decode102 (mem ++ r) n = decode102 mem n.
Proof.
  intros Hl. rewrite /decode102. destruct (16 <=? n)%nat eqn:E16; [|done].
  apply Nat.leb_le in E16. rewrite header_at_app; [lia|]. set h := header_at mem.
  set k := (2 + Z.to_nat (msg_size h))%nat. have Hk : k = (2 + Z.to_nat (msg_size h))%nat by [].
  destruct (msg_type h =? 102), (23 <=? msg_size h) eqn:Esz; try done.
  destruct (k <? n)%nat eqn:Ek; [|done]. bool_to_prop.
  rewrite sum_ok_app; [lia|]. rewrite !slice_app; [lia..|]. by rewrite !byte_at_app; [lia..|].
Qed.

Section Response.
Context `{host : Host}.

Lemma serialize102_eq buffer m data :
  Forall2 fits layout102 (fields102 m) → Z.of_nat (length data) ≤ 65512 →
  DataResponse102_serialize buffer data m = Ok (buffer ++ encode102 m data).
Proof.
  intros Hf Hl. rewrite /DataResponse102_serialize.
  have -> : u16 (Z.of_nat MSG_HEADER_SIZE - 2 + DATA_RESPONSE_102_FIXED_PAYLOAD_SIZE
                 + Z.of_nat (length data)) = 23 + Z.of_nat (length data).
  { change (Z.of_nat MSG_HEADER_SIZE - 2 + DATA_RESPONSE_102_FIXED_PAYLOAD_SIZE) with 23.
    apply Z.mod_small. lia. }
  rewrite -/(header102 m data) header_serialize_eq ?put_short_eq ?put_long_eq.
  apply finish_eq; [|rewrite length_body102 /=; lia].
  rewrite /body102 /layout102 /fields102 in Hf |- *. split_fits Hf. cbn [enc].
  by rewrite -!app_assoc be_bytes_1.
Qed.

(** Whatever the size of the tail, bytes are written. *)
Lemma serialize102_total m data :
  Forall2 fits layout102 (fields102 m) → Forall is_byte data →
  ∃ bytes, DataResponse102_serialize [] data m = Ok bytes ∧ Forall is_byte bytes.
Proof.
  intros Hf Hd. rewrite /DataResponse102_serialize.
  change (Z.of_nat MSG_HEADER_SIZE - 2 + DATA_RESPONSE_102_FIXED_PAYLOAD_SIZE) with 23.
  set h := stamped _ _ _. rewrite header_serialize_eq ?put_short_eq ?put_long_eq /finish.
  match goal with |- context [readn ?b _ _] => have -> : b = body102 h (fields102 m) data end.
  { rewrite /body102 /layout102 /fields102 in Hf |- *. split_fits Hf. cbn [enc].
    by rewrite -!app_assoc be_bytes_1. }
  have Hu : u16 (23 + Z.of_nat (length data)) ≤ 23 + Z.of_nat (length data).
  { apply Z.mod_le; lia. }
  rewrite readn_Ok; [rewrite length_body102 /=; lia|]. eexists. split; [done|].
  apply Forall_app. split.
  - apply Forall_app. split; [apply enc_byte|]. apply Forall_app. split; [apply enc_byte|done].
  - constructor; [|constructor]. apply Z.mod_pos_bound. lia.
Qed.

Lemma deserialize102_eq mem len this :
  Forall is_byte mem → (len ≤ length mem)%nat →
  parses (DataResponse102_deserialize (Some mem) len this) (decode102 mem len).
Proof.
  intros Hb Hl. destruct this as [h0 ci sc bs rn f]. rewrite /DataResponse102_deserialize /decode102.
  rewrite header_deserialize_eq //. set h := header_at mem.
  change (Z.of_nat MSG_HEADER_SIZE - 2 + DATA_RESPONSE_102_FIXED_PAYLOAD_SIZE) with 23.
  change (Z.to_nat DATA_RESPONSE_102_FIXED_PAYLOAD_SIZE) with 9%nat. change FOOTER_SIZE with 1%nat.
  destruct (len <? 16)%nat eqn:E16.
  { bool_to_prop. rewrite (proj2 (Nat.leb_gt _ _)); [lia|]. by eexists. }
  bool_to_prop. rewrite (proj2 (Nat.leb_le _ _)); [lia|]. cbn [mbind result_bind negb andb].
  destruct (msg_type h =? 102); cbn [negb andb]; [|by eexists].
  rewrite Z.leb_antisym. destruct (msg_size h <? 23) eqn:Esz; cbn [negb andb]; [by eexists|].
  bool_to_prop. set n := (2 + Z.to_nat (msg_size h))%nat.
  have Hn : n = (2 + Z.to_nat (msg_size h))%nat by [].
  destruct (len <? n + 1)%nat eqn:El; bool_to_prop.
  { rewrite (proj2 (Nat.ltb_ge _ _)); [lia|]. by eexists. }
  rewrite (proj2 (Nat.ltb_lt n len)); [lia|]. cbn [andb].
  length_check. do 4 deserialize_step. length_check.
  have -> : (if (0 <? Z.to_nat (msg_size h - 23))%nat
             then load (Some mem) (16 + 2 + 1 + 4 + 2) (Z.to_nat (msg_size h - 23)) else Ok [])
    = Ok (slice mem 25 (Z.to_nat (msg_size h - 23))).
  { case_bool; [by rewrite /load readn_Ok; [lia|]|]. bool_to_prop.
    by replace (Z.to_nat (msg_size h - 23)) with 0%nat by lia. }
  cbn [mbind result_bind].
  replace (16 + 2 + 1 + 4 + 2 + Z.to_nat (msg_size h - 23))%nat with n by lia.
  rewrite footer_deserialize_eq; [lia..|]. cbn [mbind result_bind].
  destruct (sum_ok mem n); [|by eexists]. cbn [negb]. by rewrite Nat.eqb_refl.
Qed.

End Response.

(** *** The check code *)

Lemma check_code_digits mult pw :
  all_digits pw → pw ≠ [] → (length pw ≤ 18)%nat → 0 ≤ mult < 2 ^ 16 →
  calculate_check_code mult pw =
  if mult * digits_val pw >? INT64_MAX then Undefined
  else Ok (((mult * digits_val pw) `div` 100) `mod` 100).
Proof.
  intros Hd Hne Hl Hm. rewrite /calculate_check_code.
  destruct pw as [|c pw]; [done|]. rewrite stoll_digits //. cbn [length Nat.eqb].
  have Hv := digits_val_bound _ Hd. set v := digits_val (c :: pw) in Hv *.
  have H0 : 0 ≤ mult * v by lia.
  rewrite (proj2 (Z.ltb_ge (mult * v) INT64_MIN)); [rewrite /INT64_MIN; lia|]. cbn [orb].
  case_bool; [done|]. rewrite (proj2 (Z.ltb_ge _ _)) //.
  rewrite Z.quot_div_nonneg // Z.rem_mod_nonneg //; [by apply Z.div_pos|].
  rewrite /u8 Z.mod_small //. have := Z.mod_pos_bound ((mult * v) `div` 100) 100. lia.
Qed.

(** ** Properties *)

Section Properties.
Context `{host : Host}.

(** C29: round trip of the retransmission protocol: for each of the seven
    fixed-size messages, on little- and big-endian hosts, [serialize] appends
    exactly the big-endian encoding of the message (type and size field filled
    in, sum byte at the end) to any buffer, and [deserialize] on those bytes,
    followed by anything, returns true and the same message. *)
Theorem protocol_roundtrip pw :
  roundtrips LoginRequest020 (W := wire020 pw) ∧ roundtrips LoginResponse030
  ∧ roundtrips ErrorNotification010 ∧ roundtrips RetransmissionStart050
  ∧ roundtrips HeartbeatServer104 ∧ roundtrips HeartbeatClient105
  ∧ roundtrips DataRequest101.
Proof. split_and!; apply wire_roundtrips; apply _. Qed.

(** C30: soundness of [deserialize]: on any readable bytes each of the seven
    methods returns (no read outside the buffer, no exception), and it returns
    true only when the buffer starts with the encoding of the very message it
    delivers, with every field within its width; and two messages of a type
    never share an encoding: when they serialize to the same bytes, or their
    encodings start the same buffer, they agree in every field but the size,
    the type and the checksum, which [serialize] computes itself. *)
Theorem protocol_sound pw :
  (accepts_only_encodings LoginRequest020 (W := wire020 pw)
   ∧ accepts_only_encodings LoginResponse030
   ∧ accepts_only_encodings ErrorNotification010 ∧ accepts_only_encodings RetransmissionStart050
   ∧ accepts_only_encodings HeartbeatServer104 ∧ accepts_only_encodings HeartbeatClient105
   ∧ accepts_only_encodings DataRequest101)
  ∧ (unambiguous LoginRequest020 (W := wire020 pw) ∧ unambiguous LoginResponse030
   ∧ unambiguous ErrorNotification010 ∧ unambiguous RetransmissionStart050
   ∧ unambiguous HeartbeatServer104 ∧ unambiguous HeartbeatClient105
   ∧ unambiguous DataRequest101).
Proof.
  split; split_and!; first [apply wire_accepts_only_encodings|apply wire_unambiguous]; apply _.
Qed.

(** Error detection: if any single byte of an encoded fixed-size message
    (size, type, any field or the checksum) is replaced by another value,
    [deserialize] returns false. *)
Theorem protocol_detects_corruption pw :
  detects_corruption LoginRequest020 (W := wire020 pw) ∧ detects_corruption LoginResponse030
  ∧ detects_corruption ErrorNotification010 ∧ detects_corruption RetransmissionStart050
  ∧ detects_corruption HeartbeatServer104 ∧ detects_corruption HeartbeatClient105
  ∧ detects_corruption DataRequest101.
Proof. split_and!; apply wire_detects_corruption; apply _. Qed.

(** DataResponse102 with its variable tail: when the fields are within
    their widths (so the tail has at most 65512 bytes), [serialize] appends
    the encoding and [deserialize] gives back the message and exactly the
    tail; and on any readable bytes [deserialize] returns, true only for the
    encoding of the message and tail it delivers. *)
Theorem data_response_codec m data this buffer rest len mem n
    (Hm : msg102_ok m data) (Hrest : Forall is_byte rest)
    (Hl : (length (encode102 m data) ≤ len ≤ length (encode102 m data ++ rest))%nat)
    (Hmem : Forall is_byte mem) (Hn : (n ≤ length mem)%nat) :
  DataResponse102_serialize buffer data m = Ok (buffer ++ encode102 m data)
  ∧ DataResponse102_deserialize (Some (encode102 m data ++ rest)) len this
    = Ok (true, (canon102 m data, data))
  ∧ ((∃ out, DataResponse102_deserialize (Some mem) n this = Ok (false, out))
     ∨ ∃ m' data', DataResponse102_deserialize (Some mem) n this = Ok (true, (m', data'))
         ∧ msg102_ok m' data' ∧ canon102 m' data' = m'
         ∧ mem = encode102 m' data' ++ drop (length (encode102 m' data')) mem).
Proof.
  split_and!.
  - destruct Hm as (Hh & Hf & _). apply serialize102_eq; [done|].
    apply Forall2_cons_1 in Hh as [Hs _]. rewrite /fits /= in Hs. lia.
  - pose proof (deserialize102_eq (encode102 m data ++ rest) len this) as H.
    rewrite decode102_encode // in H; [lia|]. apply H; [|lia].
    apply Forall_app. split; [|done]. apply encode102_byte, Hm.
  - pose proof (deserialize102_eq mem n this Hmem Hn) as H.
    destruct (decode102 mem n) as [[m' data']|] eqn:E; [right|by left].
    exists m', data'. split; [done|]. by destruct (decode102_sound _ _ _ _ Hmem Hn E) as (?&?&?&?).
Qed.

(** Bound of DataResponse102: a tail of more than 65512 bytes cannot be
    sent. [serialize] writes bytes all the same, with the size field truncated
    to 16 bits, and no [deserialize] of those bytes delivers that tail. *)
Theorem data_response_truncates m data (Hf : Forall2 fits layout102 (fields102 m))
    (Hb : Forall is_byte data) (Hdata : 65512 < Z.of_nat (length data)) :
  ∃ bytes, DataResponse102_serialize [] data m = Ok bytes
    ∧ ∀ len this m', (len ≤ length bytes)%nat →
        DataResponse102_deserialize (Some bytes) len this ≠ Ok (true, (m', data)).
Proof.
  destruct (serialize102_total m data Hf Hb) as (bytes & Es & Hbb).
  exists bytes. split; [done|]. intros len this m' Hl E.
  pose proof (deserialize102_eq bytes len this Hbb Hl) as H.
  destruct (decode102 bytes len) as [[m1 d1]|] eqn:Ed; rewrite /= E in H; [|by destruct H].
  injection H as -> ->. destruct (decode102_sound _ _ _ _ Hbb Hl Ed) as ((Hh & _) & _).
  apply Forall2_cons_1 in Hh as [Hh _]. rewrite /fits /= in Hh. lia.
Qed.

End Properties.

(** The login check code: for a numeric password of up to 18 digits the
    code is the documented [(operator * password) / 100 % 100], below 100,
    exactly as long as the product fits 64 bits; beyond, the multiplication is
    a signed overflow.  With the operator 168 the client uses, 16 digits are
    always safe.  An empty or non-numeric password gives code 0. *)
Theorem check_code_spec mult pw (Hd : all_digits pw) (Hne : pw ≠ [])
    (Hl : (length pw ≤ 18)%nat) (Hm : 0 ≤ mult < 2 ^ 16) :
  (mult * digits_val pw ≤ INT64_MAX →
     calculate_check_code mult pw = Ok (((mult * digits_val pw) `div` 100) `mod` 100)
     ∧ 0 ≤ ((mult * digits_val pw) `div` 100) `mod` 100 < 100)
  ∧ (INT64_MAX < mult * digits_val pw → calculate_check_code mult pw = Undefined)
  ∧ ((length pw ≤ 16)%nat → calculate_check_code 168 pw ≠ Undefined)
  ∧ calculate_check_code mult [] = Ok 0 ∧ calculate_check_code mult (str "secret") = Ok 0.
Proof.
  rewrite (check_code_digits mult pw) // (check_code_digits 168 pw) //.
  split_and!; try done.
  - intros Hp. split; [|apply Z.mod_pos_bound; lia]. case_bool; [bool_to_prop; lia|done].
  - intros Hp. case_bool; [done|bool_to_prop; lia].
  - intros H16. have Hv := digits_val_bound _ Hd.
    have Hp : pow10 (length pw) ≤ pow10 16 by apply Z.pow_le_mono_r; lia.
    change (pow10 16) with 10000000000000000 in Hp.
    case_bool; [|done]. bool_to_prop. rewrite /INT64_MAX in Heqb. lia.
Qed.

Lemma check_code_spec_witness :
  (168 * digits_val (str "123456") ≤ INT64_MAX →
     calculate_check_code 168 (str "123456") = Ok (((168 * digits_val (str "123456")) `div` 100) `mod` 100)
     ∧ 0 ≤ ((168 * digits_val (str "123456")) `div` 100) `mod` 100 < 100)
  ∧ (INT64_MAX < 168 * digits_val (str "123456") → calculate_check_code 168 (str "123456") = Undefined)
  ∧ ((length (str "123456") ≤ 16)%nat → calculate_check_code 168 (str "123456") ≠ Undefined)
  ∧ calculate_check_code 168 [] = Ok 0 ∧ calculate_check_code 168 (str "secret") = Ok 0.
Proof.
  apply (check_code_spec 168 (str "123456")); [by repeat constructor|done|simpl; lia|lia].
Defined.

Definition sample102 : DataResponse102 :=
  mk102 (mkHeader 0 0 5 (mkTime 1700000000 42)) 7 0 1001 2 (mkFooter 0).

Lemma sample102_ok data :
  Forall is_byte data → Z.of_nat (length data) ≤ 65512 → msg102_ok sample102 data.
Proof.
  intros Hb Hl. split_and!; [..|done]; repeat (constructor; [rewrite /fits /=; lia|]); constructor.
Defined.

Lemma data_response_codec_witness :
  let host : Host := LittleEndian in
  DataResponse102_serialize [] [27; 49] sample102 = Ok ([] ++ encode102 sample102 [27; 49])
  ∧ DataResponse102_deserialize (Some (encode102 sample102 [27; 49] ++ [])) 28 sample102
    = Ok (true, (canon102 sample102 [27; 49], [27; 49]))
  ∧ ((∃ out, DataResponse102_deserialize (Some [1]) 1 sample102 = Ok (false, out))
     ∨ ∃ m' data', DataResponse102_deserialize (Some [1]) 1 sample102 = Ok (true, (m', data'))
         ∧ msg102_ok m' data' ∧ canon102 m' data' = m'
         ∧ [1] = encode102 m' data' ++ drop (length (encode102 m' data')) [1]).
Proof.
  intros host. apply (data_response_codec (host := host) sample102 [27; 49] sample102 [] [] 28 [1] 1).
  - apply sample102_ok; [rewrite /is_byte; repeat constructor; lia|simpl; lia].
  - constructor.
  - split; apply Nat.leb_le; vm_compute; reflexivity.
  - rewrite /is_byte. repeat constructor; lia.
  - simpl. lia.
Defined.

Lemma data_response_truncates_witness :
  let host : Host := LittleEndian in
  let data := replicate (Z.to_nat 65513) 0 in
  ∃ bytes, DataResponse102_serialize [] data sample102 = Ok bytes
    ∧ ∀ len this m', (len ≤ length bytes)%nat →
        DataResponse102_deserialize (Some bytes) len this ≠ Ok (true, (m', data)).
Proof.
  intros host data. apply (data_response_truncates (host := host) sample102 data).
  - repeat (constructor; [rewrite /fits /=; lia|]). constructor.
  - apply Forall_replicate. rewrite /is_byte. lia.
  - rewrite /data length_replicate. lia.
Defined.
