(* ===== verification/RetransmissionClient.v ===== *)
(** * The retransmission client (networking/retransmission_client.cpp)

    The client's state ([client_thread_]: the thread can be joined), with two
    additions for its environment: [trace], what
    it has done to the outside so far (callbacks invoked, bytes handed to the
    socket), and [ticks], the number of answers taken from the environment.
    The operating system is the class [Env]: the answer of [send], [recv],
    [socket], [connect], the clock and the creation of a thread to the n-th
    question; each call returns with its answer ([recv] has a receive timeout; a
    failing [setsockopt], after which [recv] could wait for ever, is not
    modelled).  Here callbacks are recorded in [trace]; NetworkManager.v runs
    them.  One pass of the receive loop is [receive_pass]; the loop itself runs
    until [stop]. *)

From S2P Require Import Prelude CppStd PackBcd CommonHeader MessageFields EndianUtils.
From S2P Require Import MessageI081 TaifexSdk RetransmissionProtocol RetransmissionCodec.

(** ** Definitions *)

(** The answer of [recv]. *)
Inductive recv_result : Type :=
| Received (data : list Z)
| PeerClosed
| WouldBlock
| Interrupted
| RecvError.

Class Env : Type := {
  env_host :: Host;
  env_send : nat → list Z → Z;
  env_recv : nat → recv_result;
  env_socket : nat → Z;
  env_pton : list Z → bool;
  env_connect : nat → list Z → Z → Z;
  env_now : nat → Z;
  env_thread : nat → bool;
}.

Inductive event : Type :=
| MarketData (message : list Z)
| Status (response : DataResponse102) (retrans_data : list Z)
| ErrorNotified (error_msg : ErrorNotification010)
| Disconnected
| LoggedIn
| Sent (bytes : list Z).

(** Which thread makes a call: the client's own, or another. *)
Inductive caller : Type := ClientThread | OtherThread.

(** Which of the five callbacks are set. *)
Record Callbacks : Type := mkCallbacks {
  market_data_callback_ : bool;
  status_callback_ : bool;
  error_callback_ : bool;
  disconnected_callback_ : bool;
  logged_in_callback_ : bool;
}.

Record RetransmissionClient : Type := mkClient {
  server_ip_ : list Z;
  server_port_ : Z;
  session_id_ : Z;
  password_ : list Z;
  callbacks_ : Callbacks;
  socket_fd_ : Z;
  running_ : bool;
  connected_ : bool;
  logged_in_ : bool;
  client_msg_seq_num_ : Z;
  client_thread_ : bool;
  tcp_receive_buffer_ : list Z;
  trace : list event;
  ticks : nat;
}.

Definition RetransmissionClient_new (server_ip : list Z) (server_port session_id : Z)
    (password : list Z) (cbs : Callbacks) : RetransmissionClient :=
  mkClient server_ip server_port session_id password cbs (-1) false false false 0 false [] [] 0.

Section Setters.
Context (c : RetransmissionClient).

Definition set_link (fd : Z) (conn logged : bool) : RetransmissionClient :=
  mkClient (server_ip_ c) (server_port_ c) (session_id_ c) (password_ c) (callbacks_ c) fd
    (running_ c) conn logged (client_msg_seq_num_ c) (client_thread_ c) (tcp_receive_buffer_ c)
    (trace c) (ticks c).
Definition set_running (run thread : bool) : RetransmissionClient :=
  mkClient (server_ip_ c) (server_port_ c) (session_id_ c) (password_ c) (callbacks_ c)
    (socket_fd_ c) run (connected_ c) (logged_in_ c) (client_msg_seq_num_ c) thread
    (tcp_receive_buffer_ c) (trace c) (ticks c).
Definition set_seq_num (n : Z) : RetransmissionClient :=
  mkClient (server_ip_ c) (server_port_ c) (session_id_ c) (password_ c) (callbacks_ c)
    (socket_fd_ c) (running_ c) (connected_ c) (logged_in_ c) n (client_thread_ c)
    (tcp_receive_buffer_ c) (trace c) (ticks c).
Definition set_buffer (b : list Z) : RetransmissionClient :=
  mkClient (server_ip_ c) (server_port_ c) (session_id_ c) (password_ c) (callbacks_ c)
    (socket_fd_ c) (running_ c) (connected_ c) (logged_in_ c) (client_msg_seq_num_ c)
    (client_thread_ c) b (trace c) (ticks c).
Definition emit (e : event) : RetransmissionClient :=
  mkClient (server_ip_ c) (server_port_ c) (session_id_ c) (password_ c) (callbacks_ c)
    (socket_fd_ c) (running_ c) (connected_ c) (logged_in_ c) (client_msg_seq_num_ c)
    (client_thread_ c) (tcp_receive_buffer_ c) (trace c ++ [e]) (ticks c).
Definition tick : RetransmissionClient :=
  mkClient (server_ip_ c) (server_port_ c) (session_id_ c) (password_ c) (callbacks_ c)
    (socket_fd_ c) (running_ c) (connected_ c) (logged_in_ c) (client_msg_seq_num_ c)
    (client_thread_ c) (tcp_receive_buffer_ c) (trace c) (S (ticks c)).

End Setters.

(** [if (cb) cb(...)]. *)
Definition callback (cb : Callbacks → bool) (e : event) : method RetransmissionClient unit :=
  modify (λ c, if cb (callbacks_ c) then emit c e else c).

(** Objects before [deserialize] fills them; the code reads them only after a
    successful call. *)
Definition header_uninit : RetransmissionMsgHeader := mkHeader 0 0 0 (mkTime 0 0).

Section Client.
Context `{env : Env}.

(** A question to the environment. *)
Definition ask {A} (answer : nat → A) : method RetransmissionClient A :=
  c ← get; modify tick;; mret (answer (ticks c)).

(** The socket is closed after an error and the disconnect callback invoked. *)
Definition drop_link : method RetransmissionClient unit :=
  modify (λ c, set_link c (-1) false false);;
  callback disconnected_callback_ Disconnected.

(** [client_msg_seq_num_++]. *)
Definition next_seq_num : method RetransmissionClient Z :=
  c ← get;
  modify (λ c, set_seq_num c (u32 (client_msg_seq_num_ c + 1)));;
  mret (client_msg_seq_num_ c).

(** The clock, split into seconds and nanoseconds. *)
Definition current_time : method RetransmissionClient StandardTimeFormat :=
  ns ← ask env_now;
  mret (mkTime (u32 (ns `div` 1000000000)) (u32 (ns `mod` 1000000000))).

(** The loop of [send_tcp_message]: [rest] is what is left from
    [data_ptr + total_sent] on.  Each pass sends at least one byte, so the
    length of the message is enough fuel. *)
Fixpoint send_loop (fuel : nat) (rest : list Z) : method RetransmissionClient unit :=
  match rest with
  | [] => mret tt
  | _ =>
      match fuel with
      | O => lift Undefined
      | S fuel =>
          sent_this_call ← ask (λ n, env_send n rest);
          if sent_this_call <? 0 then drop_link
          else if sent_this_call =? 0 then drop_link
          else
            modify (λ c, emit c (Sent (take (Z.to_nat sent_this_call) rest)));;
            send_loop fuel (drop (Z.to_nat sent_this_call) rest)
      end
  end.

Definition send_tcp_message (message_bytes : list Z) : method RetransmissionClient unit :=
  c ← get;
  if negb (connected_ c) || (socket_fd_ c <? 0) then mret tt
  else send_loop (length message_bytes) message_bytes.

Definition connect_to_server : method RetransmissionClient bool :=
  c ← get;
  if connected_ c && (0 <=? socket_fd_ c) then mret true
  else
    modify (λ c, set_link c (if 0 <=? socket_fd_ c then -1 else socket_fd_ c) false false);;
    fd ← ask env_socket;
    modify (λ c, set_link c fd false false);;
    if fd <? 0 then mret false
    else if negb (env_pton (server_ip_ c)) then modify (λ c, set_link c (-1) false false);; mret false
    else
      r ← ask (λ n, env_connect n (server_ip_ c) (server_port_ c));
      if r <? 0 then modify (λ c, set_link c (-1) false false);; mret false
      else modify (λ c, set_link c fd true false);; mret true.

Definition perform_login : method RetransmissionClient bool :=
  c ← get;
  if negb (connected_ c) then mret false
  else if logged_in_ c then mret true
  else
    modify (λ c, set_seq_num c 0);;
    time ← current_time;
    seq ← next_seq_num;
    code ← lift (calculate_check_code 168 (password_ c));
    let login_req := mk020 (mkHeader 0 0 seq time) 168 code (session_id_ c) (mkFooter 0) in
    buffer ← lift (LoginRequest020_serialize [] (password_ c) login_req);
    send_tcp_message buffer;;
    mret true.

Definition request_retransmission (channel_id begin_seq_no count : Z)
    : method RetransmissionClient bool :=
  c ← get;
  if negb (logged_in_ c) then mret false
  else
    seq ← next_seq_num;
    time ← current_time;
    let req := mk101 (mkHeader 0 0 seq time) channel_id begin_seq_no count (mkFooter 0) in
    buffer ← lift (DataRequest101_serialize [] req);
    send_tcp_message buffer;;
    mret true.

Definition send_client_heartbeat : method RetransmissionClient bool :=
  c ← get;
  if negb (connected_ c) then mret false
  else
    seq ← next_seq_num;
    time ← current_time;
    let hb_resp := mk105 (mkHeader 0 0 seq time) (mkFooter 0) in
    buffer ← lift (HeartbeatClient105_serialize [] hb_resp);
    send_tcp_message buffer;;
    mret true.

Definition handle_protocol_message (temp_parsed_header : RetransmissionMsgHeader)
    (full_message_data : pointer) (full_message_length : nat) : method RetransmissionClient unit :=
  let h := header_uninit in
  let f := mkFooter 0 in
  let ty := msg_type temp_parsed_header in
  if ty =? 30 then
    lift (LoginResponse030_deserialize full_message_data full_message_length (mk030 h 0 f));;
    mret tt
  else if ty =? 50 then
    r ← lift (RetransmissionStart050_deserialize full_message_data full_message_length (mk050 h f));
    if fst r : bool then
      modify (λ c, set_link c (socket_fd_ c) (connected_ c) true);;
      callback logged_in_callback_ LoggedIn
    else mret tt
  else if ty =? 102 then
    r ← lift (DataResponse102_deserialize full_message_data full_message_length
                (mk102 h 0 0 0 0 f));
    let '(ok, (msg, retransmitted_data_payload)) := r in
    if ok : bool then callback status_callback_ (Status msg retransmitted_data_payload)
    else mret tt
  else if ty =? 104 then
    r ← lift (HeartbeatServer104_deserialize full_message_data full_message_length (mk104 h f));
    if fst r : bool then send_client_heartbeat;; mret tt else mret tt
  else if ty =? 10 then
    r ← lift (ErrorNotification010_deserialize full_message_data full_message_length (mk010 h 0 f));
    let '(ok, msg) := r in
    if ok : bool then
      callback error_callback_ (ErrorNotified msg);;
      modify (λ c, set_link c (socket_fd_ c) (connected_ c) false)
    else mret tt
  else mret tt.

(** Erases the first [n] bytes of the receive buffer. *)
Definition erase_front (n : nat) : method RetransmissionClient unit :=
  modify (λ c, set_buffer c (drop n (tcp_receive_buffer_ c))).

(** The body of the loop of [process_incoming_data], for a buffer that starts with
    [b0]; the result tells whether the loop goes on ([continue]) or is left
    ([break]). *)
Definition process_front (b0 : Z) : method RetransmissionClient bool :=
  c ← get;
  let current_data := Some (tcp_receive_buffer_ c) in
  let current_size := length (tcp_receive_buffer_ c) in
  if b0 =? 27 then
    if (current_size <? HEADER_SIZE)%nat then mret false
    else
      parsed ← lift (CommonHeader_parse current_data current_size CommonHeader_default);
      let '(ok, market_header) := parsed in
      if ok : bool then
        market_body_len ← lift (getBodyLength market_header);
        let full_market_msg_len := (HEADER_SIZE + Z.to_nat market_body_len + 1 + 2)%nat in
        if (full_market_msg_len <=? current_size)%nat then
          callback market_data_callback_
            (MarketData (take full_market_msg_len (tcp_receive_buffer_ c)));;
          erase_front full_market_msg_len;;
          mret true
        else mret false
      else modify (λ c, set_buffer c []);; mret false
  else if (current_size <? 2)%nat then mret false
  else
    msg_size_from_stream ← lift (get_short current_data 0);
    let expected_retrans_msg_len := (2 + Z.to_nat msg_size_from_stream + 1)%nat in
    if (expected_retrans_msg_len <=? current_size)%nat then
      '(ok, retrans_header, _) ←
        lift (RetransmissionMsgHeader_deserialize current_data 0
                expected_retrans_msg_len header_uninit);
      if negb ok then
        erase_front expected_retrans_msg_len;;
        mret true
      else
        handle_protocol_message retrans_header current_data expected_retrans_msg_len;;
        erase_front expected_retrans_msg_len;;
        mret true
    else mret false.

(** The loop.  A turn that does not leave it removes at least three bytes, so
    the buffer length is enough fuel. *)
Fixpoint process_loop (fuel : nat) : method RetransmissionClient unit :=
  c ← get;
  match tcp_receive_buffer_ c with
  | [] => mret tt
  | b0 :: _ =>
      if negb (running_ c) then mret tt
      else
        match fuel with
        | O => lift Undefined
        | S fuel => go ← process_front b0; if go : bool then process_loop fuel else mret tt
        end
  end.

Definition process_incoming_data (data_chunk : list Z) : method RetransmissionClient unit :=
  modify (λ c, set_buffer c (tcp_receive_buffer_ c ++ data_chunk));;
  c ← get;
  process_loop (length (tcp_receive_buffer_ c)).

(** What a pass does with the answer of [recv]; the result tells whether the loop
    goes on.  [Interrupted] is [EINTR] or [EBADF]. *)
Definition received (r : recv_result) : method RetransmissionClient bool :=
  match r with
  | WouldBlock => c ← get; mret (running_ c)
  | Interrupted => c ← get; if negb (running_ c) then mret false else drop_link;; mret true
  | RecvError => drop_link;; mret true
  | PeerClosed => drop_link;; mret true
  | Received data => process_incoming_data data;; mret true
  end.

(** One pass of [receive_loop]; the result tells whether the loop goes on. *)
Definition receive_pass : method RetransmissionClient bool :=
  c ← get;
  if negb (running_ c) then mret false
  else
    go ← (if negb (connected_ c) || (socket_fd_ c <? 0) then
            up ← connect_to_server;
            if negb up then mret false else perform_login;; mret true
          else mret true);
    if negb go then mret true
    else
      c ← get;
      if socket_fd_ c <? 0 then mret true
      else
        r ← ask env_recv;
        received r.

(** [running_.exchange(true)] comes before the thread is created: a failing
    [std::make_unique<std::thread>] leaves the flag set.  The assignment to
    [client_thread_] destroys the old thread object, which terminates the
    program if it can still be joined. *)
Definition start : method RetransmissionClient bool :=
  c ← get;
  if running_ c then mret true
  else
    modify (λ c, set_running c true (client_thread_ c));;
    created ← ask env_thread;
    if negb created then lift (Throw std_system_error)
    else if client_thread_ c then lift Undefined
    else modify (λ c, set_running c true true);; mret true.

(** [who] is the calling thread: [join] on the calling thread itself throws. *)
Definition stop (who : caller) : method RetransmissionClient unit :=
  c ← get;
  if negb (running_ c) then mret tt
  else
    modify (λ c, set_running c false (client_thread_ c));;
    modify (λ c, set_link c (if 0 <=? socket_fd_ c then -1 else socket_fd_ c)
                   (connected_ c) (logged_in_ c));;
    (if client_thread_ c then
       match who with
       | ClientThread => lift (Throw std_system_error)
       | OtherThread => modify (λ c, set_running c (running_ c) false)
       end
     else mret tt);;
    modify (λ c, set_link c (socket_fd_ c) false false).

End Client.

(** *** Specification of the framing *)

(** What the front of the receive buffer holds. *)
Inductive item : Type :=
| Incomplete
| Malformed
| Market (n : nat)
| Protocol (n : nat).

#[export] Instance item_eq_dec : EqDecision item.
Proof. solve_decision. Defined.

Definition next_item (buf : list Z) : item :=
  match buf with
  | [] => Incomplete
  | b0 :: _ =>
      if b0 =? 27 then
        if (length buf <? HEADER_SIZE)%nat then Incomplete
        else
          match bcd_field (slice buf 17 2) with
          | Ok bl =>
              let n := (HEADER_SIZE + Z.to_nat bl + 1 + 2)%nat in
              if (n <=? length buf)%nat then Market n else Incomplete
          | _ => Malformed
          end
      else if (length buf <? 2)%nat then Incomplete
      else
        let n := (2 + Z.to_nat (be_val (slice buf 0 2)) + 1)%nat in
        if (n <=? length buf)%nat then Protocol n else Incomplete
  end.

(** Client invariant: the buffer holds bytes, the counter is 32 bits wide. *)
Definition client_ok (c : RetransmissionClient) : Prop :=
  Forall is_byte (tcp_receive_buffer_ c) ∧ 0 ≤ client_msg_seq_num_ c < 2 ^ 32.

(** A method that neither reads nor writes the receive buffer. *)
Class BufferFree {A} (m : method RetransmissionClient A) : Prop :=
  buffer_free c b : m (set_buffer c b) = (set_buffer (m c).1 b, (m c).2).

(** *** Sample data *)

(** A server that resets the connection when the client sends. *)
Definition failing_env : Env :=
  Build_Env LittleEndian (λ _ _, -1) (λ _, WouldBlock) (λ _, 3) (λ _, true) (λ _ _ _, 0)
    (λ _, 1700000000000000042) (λ _, true).
Definition working_env : Env :=
  Build_Env LittleEndian (λ _ l, Z.of_nat (length l)) (λ _, WouldBlock) (λ _, 3) (λ _, true) (λ _ _ _, 0)
    (λ _, 1700000000000000042) (λ _, true).

Definition all_callbacks : Callbacks := mkCallbacks true true true true true.
Definition sample_client (logged : bool) : RetransmissionClient :=
  mkClient (str "10.0.0.1") 9000 7 (str "1234") all_callbacks 3 true true logged 5 true [] [] 0.

Lemma bytes_check l : forallb (λ b, (0 <=? b) && (b <? 256)) l = true → Forall is_byte l.
Proof.
  intros H. apply Forall_forall. intros b Hb. rewrite forallb_forall in H.
  rewrite list_elem_of_In in Hb. apply H in Hb. apply andb_prop in Hb as [? ?].
  rewrite /is_byte. bool_to_prop. lia.
Defined.

Lemma sample_client_ok b : client_ok (sample_client b).
Proof. split; [constructor|]. simpl. lia. Defined.

Definition sample_start : list Z :=
  Eval vm_compute in encode (W := wire050 (host := LittleEndian)) (mk050 (mkHeader 0 0 2 (mkTime 0 0)) (mkFooter 0)).
Definition sample_frame : list Z :=
  Eval vm_compute in frame sample_msg_header sample_i081_body [13; 10].
