(* ===== verification/ClientFraming.v ===== *)
(** * Stream reassembly of the retransmission client

    [process_incoming_data] cuts the TCP stream into market frames and protocol
    messages.  The loop is shown equal to handling the complete items of the
    buffer one by one ([next_item], [deliver]), so that how TCP cuts the stream
    does not matter. *)

From S2P Require Import Prelude CppStd PackBcd CommonHeader MessageFields EndianUtils.
From S2P Require Import MessageI081 TaifexSdk RetransmissionProtocol RetransmissionCodec.
From S2P Require Import RetransmissionClient.

(** ** Lemmas *)

(** *** Methods that leave the buffer alone *)

Section BufferFree.
Context `{env : Env}.

#[export] Instance bf_ret {A} (a : A) : BufferFree (mret a).
Proof. done. Qed.
#[export] Instance bf_lift {A} (r : result A) : BufferFree (lift r).
Proof. done. Qed.

#[export] Instance bf_bind {A B} (m : method RetransmissionClient A)
    (f : A → method RetransmissionClient B) :
  BufferFree m → (∀ a, BufferFree (f a)) → BufferFree (m ≫= f).
Proof.
  intros Hm Hf c b. rewrite /mbind /method_bind Hm.
  destruct (m c) as [c' [a| |]]; [|done..]. apply Hf.
Qed.

Lemma bf_get {B} (f : RetransmissionClient → method RetransmissionClient B) :
  (∀ c, BufferFree (f c)) → (∀ c b, f (set_buffer c b) = f c) → BufferFree (get ≫= f).
Proof. intros Hf He c b. rewrite /mbind /method_bind /get He. apply Hf. Qed.

Lemma bf_modify f : (∀ c b, f (set_buffer c b) = set_buffer (f c) b) → BufferFree (modify f).
Proof. intros Hf c b. by rewrite /modify Hf. Qed.

#[export] Instance bf_ask {A} (answer : nat → A) : BufferFree (ask answer).
Proof. done. Qed.

#[export] Instance bf_callback cb e : BufferFree (callback cb e).
Proof. apply bf_modify. intros c b. simpl. by destruct (cb _). Qed.

#[export] Instance bf_link fd conn logged : BufferFree (modify (λ c, set_link c fd conn logged)).
Proof. by apply bf_modify. Qed.

#[export] Instance bf_drop_link : BufferFree drop_link.
Proof. apply _. Qed.

#[export] Instance bf_send_loop fuel rest : BufferFree (send_loop fuel rest).
Proof.
  revert rest. induction fuel as [|fuel IH]; intros [|x rest]; try apply _.
  cbn [send_loop]. apply bf_bind; [apply _|]. intros r. do 2 (case_bool; [apply _|]).
  apply bf_bind; [by apply bf_modify|]. intros _. apply IH.
Qed.

#[export] Instance bf_send msg : BufferFree (send_tcp_message msg).
Proof. apply bf_get; [|done]. intros c. case_bool; apply _. Qed.

#[export] Instance bf_next_seq : BufferFree next_seq_num.
Proof. done. Qed.

#[export] Instance bf_time : BufferFree current_time.
Proof. apply _. Qed.

#[export] Instance bf_heartbeat : BufferFree send_client_heartbeat.
Proof. apply bf_get; [|done]. intros c. case_bool; apply _. Qed.

#[export] Instance bf_handle h p n : BufferFree (handle_protocol_message h p n).
Proof.
  rewrite /handle_protocol_message. repeat case_bool; try apply _.
  - apply bf_bind; [apply _|]. intros r. case_bool; [|apply _].
    apply bf_bind; [by apply bf_modify|apply _].
  - apply bf_bind; [apply _|]. intros [ok [msg d]]. case_bool; apply _.
  - apply bf_bind; [apply _|]. intros r. case_bool; apply _.
  - apply bf_bind; [apply _|]. intros [ok msg]. case_bool; [|apply _].
    apply bf_bind; [apply _|]. intros _. by apply bf_modify.
Qed.

End BufferFree.

(** *** What a protocol message does *)

Section Effects.
Context `{env : Env}.

Definition protocol_effect (mem : list Z) (n : nat) : method RetransmissionClient unit :=
  let ty := msg_type (header_at mem) in
  if ty =? 50 then
    match decode (M := RetransmissionStart050) mem n with
    | Some _ =>
        modify (λ c, set_link c (socket_fd_ c) (connected_ c) true);;
        callback logged_in_callback_ LoggedIn
    | None => mret tt
    end
  else if ty =? 102 then
    match decode102 mem n with
    | Some (msg, data) => callback status_callback_ (Status msg data)
    | None => mret tt
    end
  else if ty =? 104 then
    match decode (M := HeartbeatServer104) mem n with
    | Some _ => send_client_heartbeat;; mret tt
    | None => mret tt
    end
  else if ty =? 10 then
    match decode (M := ErrorNotification010) mem n with
    | Some msg =>
        callback error_callback_ (ErrorNotified msg);;
        modify (λ c, set_link c (socket_fd_ c) (connected_ c) false)
    | None => mret tt
    end
  else mret tt.

Lemma handle_eq mem n c :
  Forall is_byte mem → (n ≤ length mem)%nat →
  handle_protocol_message (header_at mem) (Some mem) n c = protocol_effect mem n c.
Proof.
  intros Hb Hl. rewrite /handle_protocol_message /protocol_effect.
  cbv zeta. set h := header_uninit. set f := mkFooter 0.
  destruct (_ =? 30) eqn:E30.
  { bool_to_prop. rewrite E30. cbn [Z.eqb Pos.eqb].
    pose proof (wl_deserialize mem n (mk030 h 0 f) Hb Hl) as H. cbn [wm_deserialize wire030] in H.
    run_method. by destruct (decode mem n); [rewrite H|destruct H as [out ->]]. }
  destruct (_ =? 50).
  { pose proof (wl_deserialize mem n (mk050 h f) Hb Hl) as H. cbn [wm_deserialize wire050] in H.
    run_method. by destruct (decode mem n); [rewrite H|destruct H as [out ->]]. }
  destruct (_ =? 102).
  { pose proof (deserialize102_eq mem n (mk102 h 0 0 0 0 f) Hb Hl) as H.
    run_method. by destruct (decode102 mem n) as [[m d]|]; [rewrite H|destruct H as [[m d] ->]]. }
  destruct (_ =? 104).
  { pose proof (wl_deserialize mem n (mk104 h f) Hb Hl) as H. cbn [wm_deserialize wire104] in H.
    run_method. by destruct (decode mem n); [rewrite H|destruct H as [out ->]]. }
  destruct (_ =? 10); [|done].
  pose proof (wl_deserialize mem n (mk010 h 0 f) Hb Hl) as H. cbn [wm_deserialize wire010] in H.
  run_method. by destruct (decode mem n); [rewrite H|destruct H as [out ->]].
Qed.

Lemma protocol_effect_app mem r n c :
  (16 ≤ n ≤ length mem)%nat → protocol_effect (mem ++ r) n c = protocol_effect mem n c.
Proof.
  intros Hl. rewrite /protocol_effect header_at_app; [lia|].
  rewrite !decode_app; [lia..|]. by rewrite decode102_app; [lia|].
Qed.

End Effects.

(** *** Methods that always return *)

Definition seq_ok (c : RetransmissionClient) : Prop := 0 ≤ client_msg_seq_num_ c < 2 ^ 32.

(** What message handling leaves alone. *)
Definition keeps (c c' : RetransmissionClient) : Prop :=
  tcp_receive_buffer_ c' = tcp_receive_buffer_ c ∧ running_ c' = running_ c
  ∧ callbacks_ c' = callbacks_ c ∧ seq_ok c'.

Class Total {A} (m : method RetransmissionClient A) : Prop :=
  total c : seq_ok c → ∃ c' a, m c = (c', Ok a) ∧ keeps c c'.

Section Total.
Context `{env : Env}.

#[export] Instance total_ret {A} (a : A) : Total (mret a).
Proof. intros c Hc. by exists c, a. Qed.

#[export] Instance total_bind {A B} (m : method RetransmissionClient A)
    (f : A → method RetransmissionClient B) :
  Total m → (∀ a, Total (f a)) → Total (m ≫= f).
Proof.
  intros Hm Hf c Hc. destruct (Hm c Hc) as (c1 & a & E & ? & ? & ? & Hc1).
  destruct (Hf a c1 Hc1) as (c2 & b & E2 & ? & ? & ? & Hc2).
  exists c2, b. rewrite /mbind /method_bind E. split; [done|]. split_and!; [congruence..|done].
Qed.

Lemma total_get {B} (f : RetransmissionClient → method RetransmissionClient B) :
  (∀ c, Total (f c)) → Total (get ≫= f).
Proof. intros Hf c Hc. by apply (Hf c). Qed.

Lemma total_modify f : (∀ c, seq_ok c → keeps c (f c)) → Total (modify f).
Proof. intros Hf c Hc. exists (f c), tt. split; [done|by apply Hf]. Qed.

#[export] Instance total_ask {A} (answer : nat → A) : Total (ask answer).
Proof. intros c Hc. by exists (tick c), (answer (ticks c)). Qed.

#[export] Instance total_callback cb e : Total (callback cb e).
Proof. apply total_modify. intros c Hc. by destruct (cb _). Qed.

#[export] Instance total_drop_link : Total drop_link.
Proof. apply total_bind; [by apply total_modify|apply _]. Qed.

Lemma total_send_loop fuel rest : (length rest ≤ fuel)%nat → Total (send_loop fuel rest).
Proof.
  revert rest. induction fuel as [|fuel IH]; intros [|x rest] Hl; try apply _; [simpl in Hl; lia|].
  cbn [send_loop]. apply total_bind; [apply _|]. intros r.
  destruct (r <? 0) eqn:E1; [apply _|]. destruct (r =? 0) eqn:E2; [apply _|]. bool_to_prop.
  apply total_bind; [by apply total_modify|]. intros _. apply IH.
  rewrite length_drop. simpl in Hl |- *. lia.
Qed.

#[export] Instance total_send msg : Total (send_tcp_message msg).
Proof. apply total_get. intros c. case_bool; [apply _|]. by apply total_send_loop. Qed.

#[export] Instance total_time : Total current_time.
Proof. apply _. Qed.

Lemma u32_fits v : fits 4 (u32 v).
Proof. apply Z.mod_pos_bound. lia. Qed.

(** A message numbered and stamped by the client is within its widths. *)
Lemma stamped_ok sz ty seq ns :
  fits 2 sz → fits 2 ty → fits 4 seq →
  Forall2 fits header_layout
    (header_fields (mkHeader sz ty seq
       (mkTime (u32 (ns `div` 1000000000)) (u32 (ns `mod` 1000000000))))).
Proof. intros. repeat (constructor; [done || apply u32_fits|]). constructor. Qed.

#[export] Instance total_heartbeat : Total send_client_heartbeat.
Proof.
  intros c Hc. rewrite /send_client_heartbeat /next_seq_num /current_time /ask. run_method.
  destruct (negb (connected_ c)); [by exists c, false|]. cbn [ticks tick set_seq_num].
  set m := mk105 _ _. have Hm : msg_ok m.
  { split; [|constructor]. by apply stamped_ok. }
  rewrite (wl_serialize [] m Hm : HeartbeatClient105_serialize [] m = _).
  set c1 := tick _. have Hc1 : seq_ok c1 by apply Z.mod_pos_bound; lia.
  destruct (total_send ([] ++ encode m) c1 Hc1) as (c' & [] & -> & ? & ? & ? & ?).
  by exists c', true.
Qed.

Lemma total_request ch b n :
  fits 2 ch → fits 4 b → fits 2 n → Total (request_retransmission ch b n).
Proof.
  intros Hch Hb Hn c Hc. rewrite /request_retransmission /next_seq_num /current_time /ask. run_method.
  destruct (negb (logged_in_ c)); [by exists c, false|]. cbn [ticks tick set_seq_num].
  set m := mk101 _ _ _ _ _. have Hm : msg_ok m.
  { split; [by apply stamped_ok|]. repeat (constructor; [done|]). constructor. }
  rewrite (wl_serialize [] m Hm : DataRequest101_serialize [] m = _).
  set c1 := tick _. have Hc1 : seq_ok c1 by apply Z.mod_pos_bound; lia.
  destruct (total_send ([] ++ encode m) c1 Hc1) as (c' & [] & -> & ? & ? & ? & ?).
  by exists c', true.
Qed.

#[export] Instance total_effect mem n : Total (protocol_effect mem n).
Proof.
  rewrite /protocol_effect. cbv zeta. destruct (_ =? 50).
  { destruct (decode _ _); [|apply _]. apply total_bind; [by apply total_modify|apply _]. }
  destruct (_ =? 102); [by destruct (decode102 _ _) as [[m d]|]; apply _|].
  destruct (_ =? 104); [by destruct (decode _ _); apply _|].
  destruct (_ =? 10); [|apply _]. destruct (decode _ _); [|apply _].
  apply total_bind; [apply _|]. intros _. by apply total_modify.
Qed.

End Total.

(** *** The receive loop *)

Lemma next_item_size buf it n :
  next_item buf = it → it = Market n ∨ it = Protocol n → (3 ≤ n ≤ length buf)%nat.
Proof.
  rewrite /next_item. destruct buf as [|b0 buf]; [naive_solver|].
  set l := b0 :: buf. destruct (b0 =? 27).
  - case_bool; [naive_solver|]. destruct (bcd_field _) as [bl| |]; [|naive_solver..].
    cbv zeta. destruct (_ <=? _)%nat eqn:E; [|naive_solver]. apply Nat.leb_le in E.
    intros <- [[= <-]|?]; [|done]. rewrite /HEADER_SIZE in E |- *. lia.
  - case_bool; [naive_solver|]. cbv zeta. destruct (_ <=? _)%nat eqn:E; [|naive_solver].
    apply Nat.leb_le in E. intros <- [?|[= <-]]; [done|]. lia.
Qed.

(** More data does not change a decision already made. *)
Lemma next_item_app buf r :
  next_item buf ≠ Incomplete → next_item (buf ++ r) = next_item buf.
Proof.
  destruct buf as [|b0 buf]; [done|]. cbn [app next_item].
  change (b0 :: buf ++ r) with ((b0 :: buf) ++ r). set l := b0 :: buf.
  have Hlen : length (l ++ r) = (length l + length r)%nat by apply length_app.
  destruct (b0 =? 27).
  - destruct (length l <? HEADER_SIZE)%nat eqn:E1; [done|]. bool_to_prop.
    rewrite Hlen (proj2 (Nat.ltb_ge _ _)); [lia|]. unfold HEADER_SIZE in E1.
    rewrite slice_app; [lia|]. destruct (bcd_field _) as [bl| |]; [|done..]. cbv zeta.
    destruct (_ <=? length l)%nat eqn:E2; [|done]. apply Nat.leb_le in E2.
    rewrite (proj2 (Nat.leb_le _ _)) //. lia.
  - destruct (length l <? 2)%nat eqn:E1; [done|]. bool_to_prop.
    rewrite Hlen (proj2 (Nat.ltb_ge _ _)); [lia|]. rewrite slice_app; [lia|]. cbv zeta.
    destruct (_ <=? length l)%nat eqn:E2; [|done]. apply Nat.leb_le in E2.
    rewrite (proj2 (Nat.leb_le _ _)) //. lia.
Qed.

Lemma slice_header h r : wf_header h → slice (header_bytes h ++ r) 17 2 = body_length_bcd h.
Proof.
  intros (H1 & H2 & H3 & H4). destruct h as [e t m it ci cs vn bl]; simpl in *.
  do 7 (destruct it as [|? it]; try done). do 3 (destruct ci as [|? ci]; try done).
  do 6 (destruct cs as [|? cs]; try done). do 3 (destruct bl as [|? bl]; try done).
Qed.

Section Loop.
Context `{env : Env}.

(** The effect of a complete item at the front of [buf]. *)
Definition deliver (it : item) (buf : list Z) : method RetransmissionClient unit :=
  match it with
  | Market n => callback market_data_callback_ (MarketData (take n buf))
  | Protocol n => if (n <? 16)%nat then mret tt else protocol_effect buf n
  | _ => mret tt
  end.
Definition item_size (it : item) : nat :=
  match it with Market n | Protocol n => n | _ => 0%nat end.

Lemma process_front_eq b0 buf c :
  Forall is_byte (tcp_receive_buffer_ c) → tcp_receive_buffer_ c = b0 :: buf →
  process_front b0 c =
  match next_item (tcp_receive_buffer_ c) with
  | Incomplete => (c, Ok false)
  | Malformed => (c, Throw ParsingError)
  | it => (deliver it (tcp_receive_buffer_ c);; erase_front (item_size it);; mret true) c
  end.
Proof.
  intros Hb Ebuf. rewrite Ebuf in Hb |- *. cbn [next_item]. rewrite /process_front. run_method. rewrite Ebuf.
  set l := b0 :: buf in Hb Ebuf *. destruct (b0 =? 27).
  - destruct (length l <? HEADER_SIZE)%nat eqn:E1; [done|]. bool_to_prop.
    destruct (parse_cases l (length l) CommonHeader_default) as [[? _]|H]; [done|lia|].
    destruct H as (h & Hwf & El & ->). rewrite getBodyLength_eq //.
    have -> : slice l 17 2 = body_length_bcd h by rewrite El; apply slice_header.
    destruct (bcd_field_total (body_length_bcd h)) as [[bl ->]| ->]; [|done]. cbv zeta.
    by destruct (_ <=? _)%nat.
  - destruct (length l <? 2)%nat eqn:E1; [done|]. bool_to_prop.
    rewrite get_short_eq //. cbv zeta.
    set n := (2 + Z.to_nat (be_val (slice l 0 2)) + 1)%nat.
    destruct (n <=? length l)%nat eqn:E2; [|done]. apply Nat.leb_le in E2.
    rewrite header_deserialize_eq //. cbn [deliver item_size].
    destruct (n <? 16)%nat; [done|]. cbn [negb]. by rewrite handle_eq.
Qed.

Lemma process_loop_eq fuel c :
  client_ok c → running_ c = true → tcp_receive_buffer_ c ≠ [] →
  process_loop (S fuel) c =
  match next_item (tcp_receive_buffer_ c) with
  | Incomplete => (c, Ok tt)
  | Malformed => (c, Throw ParsingError)
  | it => (deliver it (tcp_receive_buffer_ c);; erase_front (item_size it);; process_loop fuel) c
  end.
Proof.
  intros [Hb Hs] Hrun Hne. cbn [process_loop]. run_method. rewrite Hrun. cbn [negb].
  destruct (tcp_receive_buffer_ c) as [|b0 buf] eqn:Ebuf; [done|]. rewrite -Ebuf in Hb |- *.
  rewrite (process_front_eq b0 buf) //. rewrite Ebuf.
  destruct (next_item (b0 :: buf)) as [| |n|n]; [done..| |]; run_method; cbv zeta;
    by destruct (deliver _ _ c) as [c1 [[]|e|]].
Qed.

Lemma process_loop_idle fuel c :
  (running_ c = false ∨ tcp_receive_buffer_ c = []) → process_loop fuel c = (c, Ok tt).
Proof.
  intros H. destruct fuel; cbn [process_loop]; run_method;
    destruct (tcp_receive_buffer_ c) eqn:E; try done; destruct H as [->|?]; done.
Qed.

#[export] Instance total_deliver it buf : Total (deliver it buf).
Proof. destruct it; simpl; try apply _. case_bool; apply _. Qed.

#[export] Instance bf_effect mem n : BufferFree (protocol_effect mem n).
Proof.
  rewrite /protocol_effect. cbv zeta. destruct (_ =? 50).
  { destruct (decode _ _); [|apply _]. apply bf_bind; [by apply bf_modify|apply _]. }
  destruct (_ =? 102); [by destruct (decode102 _ _) as [[m d]|]; apply _|].
  destruct (_ =? 104); [by destruct (decode _ _); apply _|].
  destruct (_ =? 10); [|apply _]. destruct (decode _ _); [|apply _].
  apply bf_bind; [apply _|]. intros _. by apply bf_modify.
Qed.

#[export] Instance bf_deliver it buf : BufferFree (deliver it buf).
Proof. destruct it; simpl; try apply _. case_bool; apply _. Qed.

Lemma deliver_app it buf r c :
  next_item buf = it → it ≠ Incomplete → deliver it (buf ++ r) c = deliver it buf c.
Proof.
  intros Hit Hne. destruct it as [| |n|n]; [done..| |]; simpl.
  - have Hn := next_item_size _ _ n Hit (or_introl eq_refl). rewrite take_app_le //. lia.
  - have Hn := next_item_size _ _ n Hit (or_intror eq_refl). case_bool; [done|]. bool_to_prop.
    apply protocol_effect_app. lia.
Qed.

(** The client after the first item of the buffer. *)
Lemma deliver_step it c :
  client_ok c → next_item (tcp_receive_buffer_ c) = it → (∃ n, it = Market n ∨ it = Protocol n) →
  ∃ c', (deliver it (tcp_receive_buffer_ c);; erase_front (item_size it)) c = (c', Ok tt)
    ∧ client_ok c' ∧ running_ c' = running_ c ∧ callbacks_ c' = callbacks_ c
    ∧ tcp_receive_buffer_ c' = drop (item_size it) (tcp_receive_buffer_ c)
    ∧ (length (tcp_receive_buffer_ c') < length (tcp_receive_buffer_ c))%nat.
Proof.
  intros [Hb Hs] Hit [n Hn]. have Hsz := next_item_size _ _ n Hit Hn.
  destruct (total (m := deliver it (tcp_receive_buffer_ c)) c Hs) as (c1 & [] & E & Eb & Er & Ec & Hs1).
  exists (set_buffer c1 (drop (item_size it) (tcp_receive_buffer_ c1))).
  split; [by rewrite /mbind /method_bind E|]. rewrite /= Eb. split_and!; try done.
  - split; [by apply Forall_drop|done].
  - rewrite length_drop. destruct Hn as [-> | ->]; simpl; lia.
Qed.

(** The client with more data in its buffer. *)
Definition add (c : RetransmissionClient) (b : list Z) : RetransmissionClient :=
  set_buffer c (tcp_receive_buffer_ c ++ b).

Lemma add_ok c b : client_ok c → Forall is_byte b → client_ok (add c b).
Proof. intros [H1 H2] Hb. split; [by apply Forall_app|done]. Qed.

(** One pass on a complete item. *)
Lemma process_loop_item fuel c c1 it n :
  client_ok c → running_ c = true → next_item (tcp_receive_buffer_ c) = it →
  it = Market n ∨ it = Protocol n →
  (deliver it (tcp_receive_buffer_ c);; erase_front (item_size it)) c = (c1, Ok tt) →
  process_loop (S fuel) c = process_loop fuel c1.
Proof.
  intros Hc Hr Hit Hn E. rewrite process_loop_eq //.
  { intros Hnil. rewrite Hnil in Hit. subst. destruct Hn; done. }
  rewrite Hit. rewrite /mbind /method_bind in E |- *.
  destruct Hn as [-> | ->]; destruct (deliver _ _ c) as [c0 [a| |]]; try done;
    rewrite /erase_front /modify in E |- *; by injection E as <-.
Qed.

(** A pass on a longer buffer does the same to its front. *)
Lemma deliver_step_add it c c1 b n :
  client_ok c → next_item (tcp_receive_buffer_ c) = it → it = Market n ∨ it = Protocol n →
  (deliver it (tcp_receive_buffer_ c);; erase_front (item_size it)) c = (c1, Ok tt) →
  (deliver it (tcp_receive_buffer_ (add c b));; erase_front (item_size it)) (add c b)
  = (add c1 b, Ok tt).
Proof.
  intros [_ Hs] Hit Hn. have Hsz := next_item_size _ _ n Hit Hn.
  rewrite /mbind /method_bind /add. cbn [set_buffer tcp_receive_buffer_].
  rewrite deliver_app //; [by destruct Hn as [-> | ->]|]. rewrite buffer_free.
  destruct (total (m := deliver it (tcp_receive_buffer_ c)) c Hs) as (c0 & [] & -> & Eb & _).
  cbn. intros [= <-]. rewrite /erase_front /modify. cbn. rewrite Eb drop_app_le //.
  destruct Hn as [-> | ->]; simpl; lia.
Qed.

Lemma process_loop_fuel f1 f2 c :
  client_ok c → (length (tcp_receive_buffer_ c) ≤ f1)%nat →
  (length (tcp_receive_buffer_ c) ≤ f2)%nat → process_loop f1 c = process_loop f2 c.
Proof.
  revert f2 c. induction f1 as [|f1 IH]; intros f2 c Hc H1 H2.
  { rewrite !process_loop_idle //; right; apply nil_length_inv; lia. }
  destruct (decide (running_ c = false ∨ tcp_receive_buffer_ c = [])) as [Hi|Hi].
  { by rewrite !process_loop_idle. }
  apply Decidable.not_or in Hi as [Hrun%not_false_is_true Hne].
  destruct f2 as [|f2]; [exfalso; apply Hne, nil_length_inv; lia|].
  destruct (next_item (tcp_receive_buffer_ c)) as [| |n|n] eqn:Eit;
    [by rewrite !process_loop_eq // Eit..| |].
  all: destruct (deliver_step _ c Hc Eit) as (c1 & E & Hc1 & _ & _ & _ & Hlt); [by eauto|].
  all: rewrite !(process_loop_item _ c c1 _ n Hc Hrun Eit) //; auto.
  all: apply IH; [done|lia..].
Qed.

(** The outcome of the loop on [c], compared with the loop on [c] with [b]
    added to its buffer. *)
Definition agrees (c : RetransmissionClient) (b : list Z)
    (out : RetransmissionClient * result unit) : Prop :=
  match out with
  | (c1, Ok _) =>
      client_ok c1 ∧ running_ c1 = running_ c
      ∧ (length (tcp_receive_buffer_ c1) ≤ length (tcp_receive_buffer_ c))%nat
      ∧ ∀ f', (length (tcp_receive_buffer_ (add c b)) ≤ f')%nat →
          process_loop f' (add c b) = process_loop f' (add c1 b)
  | (c1, Throw e) =>
      e = ParsingError
      ∧ ∀ f', (length (tcp_receive_buffer_ (add c b)) ≤ f')%nat →
          process_loop f' (add c b) = (add c1 b, Throw e)
  | (_, Undefined) => False
  end.

Lemma process_loop_app_step f c c1 n it b :
  client_ok c → Forall is_byte b → running_ c = true →
  next_item (tcp_receive_buffer_ c) = it → it = Market n ∨ it = Protocol n →
  (deliver it (tcp_receive_buffer_ c);; erase_front (item_size it)) c = (c1, Ok tt) →
  client_ok c1 → running_ c1 = running_ c →
  (length (tcp_receive_buffer_ c1) < length (tcp_receive_buffer_ c))%nat →
  agrees c1 b (process_loop f c1) → agrees c b (process_loop (S f) c).
Proof.
  intros Hc Hb Hrun Hit Hn E Hc1 Hr1 Hlt IH.
  rewrite (process_loop_item f c c1 it n) //.
  have Hstep : ∀ f'', process_loop (S f'') (add c b) = process_loop f'' (add c1 b).
  { intros f''. apply (process_loop_item f'' (add c b) (add c1 b) it n); auto using add_ok.
    - cbn. rewrite next_item_app Hit //. by destruct Hn as [-> | ->].
    - by apply (deliver_step_add it c c1 b n). }
  have Hl : ∀ f', (length (tcp_receive_buffer_ (add c b)) ≤ f')%nat →
    ∃ f'', f' = S f'' ∧ (length (tcp_receive_buffer_ (add c1 b)) ≤ f'')%nat.
  { intros f' Hf'. cbn in Hf' |- *. rewrite !length_app in Hf' |- *.
    exists (f' - 1)%nat. lia. }
  rewrite /agrees in IH |- *. destruct (process_loop f c1) as [c2 [u|e|]]; [..|done].
  - destruct IH as (Hc2 & Hr2 & Hl2 & IH). split_and!; [done|congruence|lia|].
    intros f' (f'' & -> & Hf'')%Hl. rewrite Hstep IH //. apply process_loop_fuel; [by apply add_ok|..];
      cbn in Hf'' |- *; rewrite !length_app in Hf'' |- *; lia.
  - destruct IH as [He IH]. split; [done|]. intros f' (f'' & -> & Hf'')%Hl. by rewrite Hstep IH.
Qed.

(** Processing what is there and then more is processing all at once. *)
Lemma process_loop_app f c b :
  client_ok c → Forall is_byte b → (length (tcp_receive_buffer_ c) ≤ f)%nat →
  agrees c b (process_loop f c).
Proof.
  revert c. induction f as [|f IH]; intros c Hc Hb Hf.
  { rewrite process_loop_idle; [right; apply nil_length_inv; lia|]. by split_and!. }
  destruct (decide (running_ c = false ∨ tcp_receive_buffer_ c = [])) as [Hi|Hi].
  { rewrite process_loop_idle //. }
  apply Decidable.not_or in Hi as [Hrun%not_false_is_true Hne].
  have Hca := add_ok c b Hc Hb.
  have Hnea : tcp_receive_buffer_ (add c b) ≠ [] by intros [? _]%app_nil.
  have Hpos : ∀ f', (length (tcp_receive_buffer_ (add c b)) ≤ f')%nat → ∃ f'', f' = S f''.
  { intros [|f''] Hl; [|by eauto]. exfalso. apply Hnea, nil_length_inv. lia. }
  destruct (next_item (tcp_receive_buffer_ c)) as [| |n|n] eqn:Eit.
  - by rewrite process_loop_eq // Eit.
  - rewrite process_loop_eq // Eit. split; [done|]. intros f' [f'' ->]%Hpos.
    rewrite process_loop_eq //. cbn. rewrite next_item_app Eit //.
  - destruct (deliver_step _ c Hc Eit) as (c1 & E & Hc1 & Hr1 & _ & Hb1 & Hlt); [by eauto|].
    eapply (process_loop_app_step _ _ _ n); eauto. apply IH; [done..|lia].
  - destruct (deliver_step _ c Hc Eit) as (c1 & E & Hc1 & Hr1 & _ & Hb1 & Hlt); [by eauto|].
    eapply (process_loop_app_step _ _ _ n); eauto. apply IH; [done..|lia].
Qed.

End Loop.

(** *** Chunks *)

Section Chunks.
Context `{env : Env}.

(** The chunks [recv] returns, in order. *)
Fixpoint feed (chunks : list (list Z)) : method RetransmissionClient unit :=
  match chunks with
  | [] => mret tt
  | chunk :: chunks => process_incoming_data chunk;; feed chunks
  end.

Lemma process_incoming_eq a c :
  process_incoming_data a c = process_loop (length (tcp_receive_buffer_ (add c a))) (add c a).
Proof. done. Qed.

Lemma add_add c a b : add (add c a) b = add c (a ++ b).
Proof. by rewrite /add /= app_assoc. Qed.

Lemma feed_concat chunk chunks c :
  client_ok c → Forall is_byte chunk → Forall (Forall is_byte) chunks →
  match feed (chunk :: chunks) c with
  | (c1, Ok _) => client_ok c1 ∧ process_incoming_data (chunk ++ concat chunks) c = (c1, Ok tt)
  | (c1, Throw e) =>
      e = ParsingError ∧ ∃ rest, process_incoming_data (chunk ++ concat chunks) c = (add c1 rest, Throw e)
  | (_, Undefined) => False
  end.
Proof.
  revert chunk c. induction chunks as [|x chunks IH]; intros chunk c Hc Hb Hbs.
  - cbn [concat]. rewrite app_nil_r. cbn [feed]. rewrite /mbind /method_bind /mret /method_ret.
    pose proof (process_loop_app _ (add c chunk) [] (add_ok _ _ Hc Hb) (Forall_nil_2 _) (le_n _)) as H.
    rewrite !process_incoming_eq /agrees in H |- *.
    destruct (process_loop _ (add c chunk)) as [c1 [[]|e|]]; [by destruct H| |done].
    destruct H as [-> _]. split; [done|]. exists []. rewrite /add app_nil_r. by destruct c1.
  - inversion Hbs as [|?? Hx Hxs]; subst. set b := concat (x :: chunks).
    have Hbb : Forall is_byte b.
    { apply Forall_app. split; [done|]. by apply Forall_concat. }
    pose proof (process_loop_app _ (add c chunk) b (add_ok _ _ Hc Hb) Hbb (le_n _)) as H.
    cbn [feed]. rewrite {1}/mbind {1}/method_bind.
    rewrite (process_incoming_eq chunk) (process_incoming_eq (chunk ++ b)) -add_add /agrees in H |- *.
    destruct (process_loop _ (add c chunk)) as [c1 [[]|e|]]; [..|done].
    + destruct H as (Hc1 & _ & Hl1 & H). specialize (IH x c1 Hc1 Hx Hxs).
      rewrite H //. rewrite (process_loop_fuel _ (length (tcp_receive_buffer_ (add c1 b)))).
      * by apply add_ok.
      * cbn in Hl1 |- *. rewrite !length_app in Hl1 |- *. lia.
      * done.
      * apply IH.
    + destruct H as [-> H]. split; [done|]. exists b. by rewrite H.
Qed.

End Chunks.

(** *** Market data in the trace *)

Definition is_market (e : event) : option (list Z) :=
  match e with MarketData m => Some m | _ => None end.
Definition markets (t : list event) : list (list Z) := omap is_market t.

Definition is_sent (e : event) : option (list Z) :=
  match e with Sent m => Some m | _ => None end.
(** The bytes handed to the socket. *)
Definition sent_bytes (t : list event) : list Z := concat (omap is_sent t).

(** A method that delivers no market data. *)
Class Quiet {A} (m : method RetransmissionClient A) : Prop :=
  quiet c : markets (trace (m c).1) = markets (trace c).

Section Quiet.
Context `{env : Env}.

#[export] Instance quiet_ret {A} (a : A) : Quiet (mret a).
Proof. done. Qed.
#[export] Instance quiet_lift {A} (r : result A) : Quiet (lift r).
Proof. done. Qed.
#[export] Instance quiet_bind {A B} (m : method RetransmissionClient A)
    (f : A → method RetransmissionClient B) : Quiet m → (∀ a, Quiet (f a)) → Quiet (m ≫= f).
Proof.
  intros Hm Hf c. rewrite /mbind /method_bind. have := Hm c.
  destruct (m c) as [c' [a| |]]; [|done..]. intros <-. apply Hf.
Qed.
Lemma quiet_get {B} (f : RetransmissionClient → method RetransmissionClient B) :
  (∀ c, Quiet (f c)) → Quiet (get ≫= f).
Proof. intros Hf c. apply Hf. Qed.
Lemma quiet_modify f : (∀ c, markets (trace (f c)) = markets (trace c)) → Quiet (modify f).
Proof. done. Qed.
#[export] Instance quiet_ask {A} (answer : nat → A) : Quiet (ask answer).
Proof. done. Qed.

Lemma quiet_emit c e : is_market e = None → markets (trace (emit c e)) = markets (trace c).
Proof. intros He. rewrite /markets /= omap_app /= He app_nil_r //. Qed.

Lemma quiet_callback cb e : is_market e = None → Quiet (callback cb e).
Proof. intros He. apply quiet_modify. intros c. case_bool; [by apply quiet_emit|done]. Qed.

#[export] Instance quiet_drop_link : Quiet drop_link.
Proof. apply quiet_bind; [by apply quiet_modify|]. intros _. by apply quiet_callback. Qed.

#[export] Instance quiet_send_loop fuel rest : Quiet (send_loop fuel rest).
Proof.
  revert rest. induction fuel as [|fuel IH]; intros [|x rest]; try apply _.
  cbn [send_loop]. apply quiet_bind; [apply _|]. intros r. do 2 (case_bool; [apply _|]).
  apply quiet_bind; [|by intros _; apply IH]. apply quiet_modify. intros c. by apply quiet_emit.
Qed.
#[export] Instance quiet_send msg : Quiet (send_tcp_message msg).
Proof. apply quiet_get. intros c. case_bool; apply _. Qed.
#[export] Instance quiet_next_seq : Quiet next_seq_num.
Proof. done. Qed.
#[export] Instance quiet_time : Quiet current_time.
Proof. apply _. Qed.
#[export] Instance quiet_heartbeat : Quiet send_client_heartbeat.
Proof. apply quiet_get. intros c. case_bool; apply _. Qed.

#[export] Instance quiet_effect mem n : Quiet (protocol_effect mem n).
Proof.
  rewrite /protocol_effect. cbv zeta. destruct (_ =? 50).
  { destruct (decode _ _); [|apply _]. apply quiet_bind; [by apply quiet_modify|].
    intros _. by apply quiet_callback. }
  destruct (_ =? 102); [destruct (decode102 _ _) as [[m d]|]; [by apply quiet_callback|apply _]|].
  destruct (_ =? 104); [by destruct (decode _ _); apply _|].
  destruct (_ =? 10); [|apply _]. destruct (decode _ _); [|apply _].
  apply quiet_bind; [by apply quiet_callback|]. intros _. by apply quiet_modify.
Qed.

End Quiet.

(** *** Complete messages *)

(** The bytes of exactly one message. *)
Definition complete (l : list Z) : Prop :=
  next_item l = Market (length l) ∨ next_item l = Protocol (length l).

Lemma market_frame_complete h body t1 t2 :
  esc_code h = 27 → announces h body → complete (frame h body [t1; t2]).
Proof.
  intros He [Hwf Hbl]. left.
  have Hl : length (frame h body [t1; t2]) = (HEADER_SIZE + length body + 1 + 2)%nat.
  { rewrite /frame length_app header_bytes_length // length_app /=. lia. }
  have Hs : slice (frame h body [t1; t2]) 17 2 = body_length_bcd h by apply slice_header.
  have E : ∃ r, frame h body [t1; t2] = 27 :: r by rewrite -He; eexists.
  destruct E as [r E]. rewrite E in Hl Hs |- *. cbn [next_item]. rewrite Hs Hbl.
  rewrite (proj2 (Nat.ltb_ge _ _)); [rewrite Hl; lia|]. cbv zeta.
  rewrite Nat2Z.id -Hl (proj2 (Nat.leb_le _ _)) //.
Qed.

Section Reassembly.
Context `{env : Env}.

(** Each message handled on its own. *)
Fixpoint deliver_all (msgs : list (list Z)) : method RetransmissionClient unit :=
  match msgs with
  | [] => mret tt
  | l :: msgs => deliver (next_item l) l;; deliver_all msgs
  end.

Lemma set_buffer_id c : set_buffer c (tcp_receive_buffer_ c) = c.
Proof. by destruct c. Qed.

(** The loop on a complete message followed by anything. *)
Lemma process_head f l b c c1 :
  seq_ok c → running_ c = true → complete l → Forall is_byte (l ++ b) →
  deliver (next_item l) l c = (c1, Ok tt) →
  process_loop (S f) (set_buffer c (l ++ b)) = process_loop f (set_buffer c1 b).
Proof.
  intros Hs Hr Hl Hb E.
  have Hsz : item_size (next_item l) = length l by destruct Hl as [-> | ->].
  have Hit : next_item (l ++ b) = next_item l.
  { apply next_item_app. by destruct Hl as [-> | ->]. }
  apply (process_loop_item f (set_buffer c (l ++ b)) _ (next_item l) (length l)); try done.
  cbn [tcp_receive_buffer_ set_buffer]. rewrite /mbind /method_bind.
  rewrite deliver_app //; [by destruct Hl as [-> | ->]|]. rewrite buffer_free E.
  rewrite /erase_front /modify. cbn. by rewrite Hsz drop_app_length.
Qed.

Lemma complete_size l : complete l → (3 ≤ length l)%nat.
Proof.
  intros [Hl|Hl]; [have H3 := next_item_size l _ _ Hl (or_introl eq_refl)
                  |have H3 := next_item_size l _ _ Hl (or_intror eq_refl)]; lia.
Qed.

(** A strict prefix of a complete message is incomplete. *)
Lemma incomplete_prefix b r l :
  complete l → b ++ r = l → r ≠ [] → next_item b = Incomplete.
Proof.
  intros Hl <- Hr. destruct (decide (next_item b = Incomplete)) as [|Hne]; [done|exfalso].
  have Hlen : (length b < length (b ++ r))%nat by rewrite length_app; destruct r; [done|cbn; lia].
  rewrite /complete next_item_app // in Hl. destruct Hl as [Hl|Hl];
    [have H3 := next_item_size b _ _ Hl (or_introl eq_refl)|have H3 := next_item_size b _ _ Hl (or_intror eq_refl)];
    lia.
Qed.

Lemma process_incomplete f b c :
  seq_ok c → running_ c = true → Forall is_byte b → next_item b = Incomplete → (length b ≤ f)%nat →
  process_loop f (set_buffer c b) = (set_buffer c b, Ok tt).
Proof.
  intros Hs Hr Hb Hinc Hf. destruct (decide (b = [])) as [->|Hne]; [apply process_loop_idle; by right|].
  destruct f as [|f]; [destruct b; [done|cbn in Hf; lia]|].
  rewrite process_loop_eq //. by cbn; rewrite Hinc.
Qed.

(** Of two ways to cut a sequence, one starts within the other. *)
Lemma cut_head {A} (b r l k : list A) :
  b ++ r = l ++ k → (∃ b', b = l ++ b' ∧ b' ++ r = k) ∨ ∃ r1, b ++ r1 = l ∧ r1 ≠ [].
Proof.
  intros E. destruct (decide (length l ≤ length b)%nat) as [Hge|Hlt].
  - left. have Eb : b = l ++ drop (length l) b.
    { rewrite -{1}(take_drop (length l) b). f_equal.
      rewrite -(take_app_le b r (length l)) // E take_app_length //. }
    exists (drop (length l) b). split; [done|]. rewrite Eb -app_assoc in E. by apply app_inv_head in E.
  - right. exists (drop (length b) l). split.
    + rewrite -{2}(take_drop (length b) l). f_equal.
      have := take_app_length b r. rewrite E take_app_le //; lia.
    + intros Hnil. apply (f_equal length) in Hnil. rewrite length_drop /= in Hnil. lia.
Qed.

(** Of a buffer that holds the start of a stream of complete messages, the
    loop handles the messages that are there in full and keeps the rest. *)
Lemma process_prefix msgs f b r c :
  seq_ok c → running_ c = true → Forall complete msgs → Forall (Forall is_byte) msgs →
  b ++ r = concat msgs → (length b ≤ f)%nat →
  ∃ handled todo rest c', msgs = handled ++ todo ∧ rest ++ r = concat todo
    ∧ next_item rest = Incomplete ∧ deliver_all handled c = (c', Ok tt) ∧ seq_ok c'
    ∧ process_loop f (set_buffer c b) = (set_buffer c' rest, Ok tt).
Proof.
  revert f b c. induction msgs as [|l msgs IH]; intros f b c Hs Hr Hcm Hb Hcut Hf.
  { apply app_nil in Hcut as [-> ->]. exists [], [], [], c. split_and!; try done; try apply Hs.
    apply process_loop_idle. by right. }
  have Hbytes : Forall is_byte (b ++ r) by rewrite Hcut; apply Forall_concat.
  apply Forall_app in Hbytes as [Hbytes _].
  apply Forall_cons in Hcm as [Hl Hcs], Hb as [Hbl Hbs]. have H3 := complete_size l Hl.
  destruct (cut_head b r l (concat msgs) Hcut) as [(b' & -> & Hcut')|(r1 & El & Er)].
  - rewrite length_app in Hf. destruct f as [|f]; [lia|].
    destruct (total (m := deliver (next_item l) l) c Hs) as (c1 & [] & E & _ & Hr1 & _ & Hs1).
    destruct (IH f b' c1 Hs1) as (dn & todo & rest & c' & -> & H1 & H2 & H4 & H5 & H6);
      [congruence|done..|lia|].
    exists (l :: dn), todo, rest, c'. split_and!; try done; try apply H5.
    + by rewrite /= /mbind /method_bind E.
    + by rewrite (process_head f l b' c c1).
  - exists [], (l :: msgs), b, c. have Hinc := incomplete_prefix b r1 l Hl El Er.
    split_and!; try done; try apply Hs. by apply process_incomplete.
Qed.

Lemma incomplete_none msgs :
  Forall complete msgs → next_item (concat msgs) = Incomplete → msgs = [].
Proof.
  intros [|l todo Hl _] H; [done|exfalso]. cbn [concat] in H.
  rewrite next_item_app in H; [by destruct Hl as [-> | ->]|]. by destruct Hl as [Hl|Hl]; rewrite Hl in H.
Qed.

Lemma process_complete f msgs c :
  seq_ok c → running_ c = true → Forall complete msgs → Forall (Forall is_byte) msgs →
  (length (concat msgs) ≤ f)%nat →
  ∃ c', deliver_all msgs c = (c', Ok tt)
    ∧ process_loop f (set_buffer c (concat msgs)) = (set_buffer c' [], Ok tt).
Proof.
  intros Hs Hr Hcm Hb Hf.
  destruct (process_prefix msgs f (concat msgs) [] c) as (dn & todo & rest & c' & -> & H1 & H2 & H3 & _ & H4);
    [done..|by rewrite app_nil_r|done|]. rewrite app_nil_r in H1.
  apply Forall_app in Hcm as [_ Hcm]. subst rest. apply incomplete_none in H2 as ->; [|done].
  exists c'. by rewrite app_nil_r in H4 |- *.
Qed.

Lemma deliver_all_markets msgs c :
  seq_ok c → market_data_callback_ (callbacks_ c) = true → Forall complete msgs →
  markets (trace (deliver_all msgs c).1) =
  markets (trace c) ++ filter (λ l, next_item l = Market (length l)) msgs.
Proof.
  revert c. induction msgs as [|l msgs IH]; intros c Hs Hcb Hcm; [by rewrite /= app_nil_r|].
  inversion Hcm as [|?? Hl Hcs]; subst. cbn [deliver_all]. rewrite /mbind /method_bind filter_cons.
  destruct (total (m := deliver (next_item l) l) c Hs) as (c1 & [] & E & _ & _ & Hc1 & Hs1).
  rewrite E IH //; [congruence|]. destruct Hl as [Hl|Hl]; rewrite Hl in E |- *.
  - rewrite decide_True //. cbn [deliver] in E. rewrite /callback /modify Hcb in E.
    injection E as <-. rewrite /markets /= omap_app /= take_ge // -app_assoc //.
  - case_decide; [done|]. f_equal. cbn [deliver] in E.
    destruct (length l <? 16)%nat; [by injection E as <-|].
    pose proof (quiet_effect l (length l) c) as Hq. by rewrite E in Hq.
Qed.

End Reassembly.

(** ** Properties *)

Section Properties.
Context `{env : Env}.

(** C32: stream reassembly does not depend on how TCP cuts the stream: feeding
    any sequence of chunks to [process_incoming_data] ends in the same state,
    with the same callbacks, replies and leftover buffer, as feeding their
    concatenation at once; the loop always terminates and reads only its
    buffer, and the only exception is the [ParsingError] of a market header
    with a malformed length, raised at the same point of the stream. *)
Theorem chunk_independence chunk chunks c (Hc : client_ok c)
    (Hb : Forall is_byte chunk) (Hbs : Forall (Forall is_byte) chunks) :
  match feed (chunk :: chunks) c with
  | (c1, Ok _) => client_ok c1 ∧ process_incoming_data (chunk ++ concat chunks) c = (c1, Ok tt)
  | (c1, Throw e) =>
      e = ParsingError
      ∧ ∃ rest, process_incoming_data (chunk ++ concat chunks) c = (add c1 rest, Throw e)
  | (_, Undefined) => False
  end.
Proof. by apply feed_concat. Qed.

(** C31: every message is delivered exactly once and in order: when the stream
    is a concatenation of complete messages, retransmitted market frames and
    protocol messages in any mix, cut into chunks in any way, a running client
    with an empty buffer ends with an empty buffer, having handled each
    message as if it had arrived alone; the market-data callback has received
    precisely the market frames of the stream, in stream order. *)
Theorem stream_reassembled chunk chunks msgs c (Hc : client_ok c) (Hrun : running_ c = true)
    (Hempty : tcp_receive_buffer_ c = []) (Hcb : market_data_callback_ (callbacks_ c) = true)
    (Hmsgs : Forall complete msgs) (Hbytes : Forall (Forall is_byte) msgs)
    (Hcut : chunk ++ concat chunks = concat msgs)
    (Hb : Forall is_byte chunk) (Hbs : Forall (Forall is_byte) chunks) :
  ∃ c', feed (chunk :: chunks) c = (set_buffer c' [], Ok tt)
    ∧ deliver_all msgs c = (c', Ok tt)
    ∧ markets (trace c') = markets (trace c) ++ filter (λ l, next_item l = Market (length l)) msgs.
Proof.
  destruct (process_complete (length (concat msgs)) msgs c) as (c' & E & Hp);
    [apply Hc|done..|]. exists c'.
  have Hall : process_incoming_data (chunk ++ concat chunks) c = (set_buffer c' [], Ok tt).
  { rewrite process_incoming_eq /add Hempty Hcut. exact Hp. }
  pose proof (feed_concat chunk chunks c Hc Hb Hbs) as H. rewrite Hall in H. split_and!; [|done|].
  - destruct (feed (chunk :: chunks) c) as [c1 [[]|e|]]; [..|done].
    + by destruct H as [_ [= ->]].
    + by destruct H as (_ & rest & [=]).
  - pose proof (deliver_all_markets msgs c (proj2 Hc) Hcb Hmsgs) as Hmk. by rewrite E in Hmk.
Qed.

End Properties.

Lemma chunk_independence_witness :
  let env := working_env in
  let a := take 30 sample_frame in
  let b := drop 30 sample_frame in
  match feed [a; b] (sample_client true) with
  | (c1, Ok _) => client_ok c1 ∧ process_incoming_data (a ++ concat [b]) (sample_client true) = (c1, Ok tt)
  | (c1, Throw e) =>
      e = ParsingError
      ∧ ∃ rest, process_incoming_data (a ++ concat [b]) (sample_client true) = (add c1 rest, Throw e)
  | (_, Undefined) => False
  end.
Proof.
  intros env a b. apply (chunk_independence (env := env) a [b] (sample_client true)).
  - apply sample_client_ok.
  - by apply bytes_check.
  - constructor; [by apply bytes_check|constructor].
Defined.

Lemma stream_reassembled_witness :
  let env := working_env in
  let a := sample_start ++ take 30 sample_frame in
  let b := drop 30 sample_frame in
  let c := sample_client false in
  ∃ c', feed [a; b] c = (set_buffer c' [], Ok tt)
    ∧ deliver_all [sample_start; sample_frame] c = (c', Ok tt)
    ∧ markets (trace c') = markets (trace c)
        ++ filter (λ l, next_item l = Market (length l)) [sample_start; sample_frame].
Proof.
  intros env a b c.
  apply (stream_reassembled (env := env) a [b] [sample_start; sample_frame] c).
  - apply sample_client_ok.
  - reflexivity.
  - reflexivity.
  - reflexivity.
  - constructor; [right; reflexivity|]. constructor; [left; reflexivity|constructor].
  - repeat (constructor; [by apply bytes_check|]). constructor.
  - reflexivity.
  - by apply bytes_check.
  - constructor; [by apply bytes_check|constructor].
Defined.
