(* ===== verification/ClientLink.v ===== *)
(** * The connection of the retransmission client

    What holds of the link state (socket, connected, logged in, running, thread)
    however the calls of the client interleave, and what a request puts on the
    wire. *)

From S2P Require Import Prelude CppStd PackBcd CommonHeader MessageFields EndianUtils.
From S2P Require Import MessageI081 TaifexSdk RetransmissionProtocol RetransmissionCodec.
From S2P Require Import RetransmissionClient ClientFraming.

(** ** Lemmas *)

(** *** The connection invariant *)

(** A connected client has a socket. *)
Definition link_ok (c : RetransmissionClient) : Prop :=
  client_ok c ∧ (connected_ c = true → 0 ≤ socket_fd_ c).

(** What only the constructor, [start] and [stop] set. *)
Definition flags (c : RetransmissionClient) : bool * bool * (list Z * Z * Z * list Z) :=
  (running_ c, client_thread_ c, (server_ip_ c, server_port_ c, session_id_ c, password_ c)).

(** A method that keeps [link_ok] and does not start or stop the client. *)
Class Safe {A} (m : method RetransmissionClient A) : Prop :=
  safe c : link_ok c → link_ok (m c).1 ∧ flags (m c).1 = flags c.

(** [recv] delivers bytes. *)
Class EnvBytes `{env : Env} : Prop :=
  env_bytes n data : env_recv n = Received data → Forall is_byte data.

Section Safe.
Context `{env : Env}.

#[export] Instance safe_ret {A} (a : A) : Safe (mret a).
Proof. done. Qed.
#[export] Instance safe_lift {A} (r : result A) : Safe (lift r).
Proof. done. Qed.
#[export] Instance safe_bind {A B} (m : method RetransmissionClient A)
    (f : A → method RetransmissionClient B) : Safe m → (∀ a, Safe (f a)) → Safe (m ≫= f).
Proof.
  intros Hm Hf c Hc. rewrite /mbind /method_bind. have := Hm c Hc.
  destruct (m c) as [c' [a| |]]; [|done..]. intros [Hc' <-]. by apply Hf.
Qed.
Lemma safe_get {B} (f : RetransmissionClient → method RetransmissionClient B) :
  (∀ c, Safe (f c)) → Safe (get ≫= f).
Proof. intros Hf c Hc. by apply Hf. Qed.
Lemma safe_modify f : (∀ c, link_ok c → link_ok (f c) ∧ flags (f c) = flags c) → Safe (modify f).
Proof. done. Qed.
Lemma safe_link fd conn logged :
  (conn = true → 0 ≤ fd) → Safe (modify (λ c, set_link c fd conn logged)).
Proof. intros H. apply safe_modify. by intros c [? _]. Qed.
Lemma safe_logged b : Safe (modify (λ c, set_link c (socket_fd_ c) (connected_ c) b)).
Proof. by apply safe_modify. Qed.
#[export] Instance safe_ask {A} (answer : nat → A) : Safe (ask answer).
Proof. done. Qed.
Lemma safe_ask_bind {A B} (answer : nat → A) (f : A → method RetransmissionClient B) :
  (∀ n, Safe (f (answer n))) → Safe (ask answer ≫= f).
Proof. intros Hf c Hc. exact (Hf (ticks c) (tick c) Hc). Qed.
#[export] Instance safe_callback cb e : Safe (callback cb e).
Proof. apply safe_modify. intros c Hc. by case_bool. Qed.
#[export] Instance safe_drop_link : Safe drop_link.
Proof. apply safe_bind; [by apply safe_link|apply _]. Qed.
Lemma safe_seq f : (∀ c, 0 ≤ f c < 2 ^ 32) → Safe (modify (λ c, set_seq_num c (f c))).
Proof.
  intros Hf. apply safe_modify. intros c [[Hb _] Hfd]. split; [|done]. split; [|done].
  split; [done|apply Hf].
Qed.
#[export] Instance safe_next_seq : Safe next_seq_num.
Proof.
  apply safe_get. intros c. apply safe_bind; [|apply _].
  apply safe_seq. intros c'. apply Z.mod_pos_bound. lia.
Qed.
#[export] Instance safe_send_loop fuel rest : Safe (send_loop fuel rest).
Proof.
  revert rest. induction fuel as [|fuel IH]; intros [|x rest]; try apply _.
  cbn [send_loop]. apply safe_bind; [apply _|]. intros r. do 2 (case_bool; [apply _|]).
  apply safe_bind; [by apply safe_modify|]. intros _. apply IH.
Qed.
#[export] Instance safe_send msg : Safe (send_tcp_message msg).
Proof. apply safe_get. intros c. case_bool; apply _. Qed.
#[export] Instance safe_time : Safe current_time.
Proof. apply _. Qed.
#[export] Instance safe_heartbeat : Safe send_client_heartbeat.
Proof. apply safe_get. intros c. case_bool; apply _. Qed.
#[export] Instance safe_request ch b n : Safe (request_retransmission ch b n).
Proof. apply safe_get. intros c. case_bool; apply _. Qed.
#[export] Instance safe_login : Safe perform_login.
Proof.
  apply safe_get. intros c. do 2 (case_bool; [apply _|]).
  apply safe_bind; [by apply safe_seq|apply _].
Qed.
#[export] Instance safe_connect : Safe connect_to_server.
Proof.
  apply safe_get. intros c. case_bool; [apply _|].
  apply safe_bind; [apply safe_modify; by intros c' [? _]|]. intros _.
  apply safe_bind; [apply _|]. intros fd. apply safe_bind; [by apply safe_link|]. intros _.
  destruct (fd <? 0) eqn:Efd; [apply _|]. bool_to_prop.
  case_bool; [apply safe_bind; [by apply safe_link|apply _]|].
  apply safe_bind; [apply _|]. intros r.
  case_bool; (apply safe_bind; [by apply safe_link|apply _]).
Qed.
#[export] Instance safe_handle h p n : Safe (handle_protocol_message h p n).
Proof.
  rewrite /handle_protocol_message. cbv zeta. destruct (_ =? 30); [apply _|].
  destruct (_ =? 50).
  { apply safe_bind; [apply _|]. intros r. destruct (r.1); [|apply _].
    apply safe_bind; [apply safe_logged|apply _]. }
  destruct (_ =? 102); [by apply safe_bind; [apply _|intros [[] [? ?]]; apply _]|].
  destruct (_ =? 104); [by apply safe_bind; [apply _|intros r; destruct (r.1); apply _]|].
  destruct (_ =? 10); [|apply _]. apply safe_bind; [apply _|]. intros [[] msg]; [|apply _].
  apply safe_bind; [apply _|]. intros _. apply safe_logged.
Qed.
Lemma safe_buffer f :
  (∀ l, Forall is_byte l → Forall is_byte (f l)) →
  Safe (modify (λ c, set_buffer c (f (tcp_receive_buffer_ c)))).
Proof.
  intros Hf. apply safe_modify. intros c [[Hb ?] ?]. split; [|done]. split; [|done].
  split; [by apply Hf|done].
Qed.
#[export] Instance safe_erase n : Safe (erase_front n).
Proof. apply safe_buffer. intros l. apply Forall_drop. Qed.
#[export] Instance safe_front b0 : Safe (process_front b0).
Proof.
  apply safe_get. intros c. cbv zeta. destruct (b0 =? 27).
  - case_bool; [apply _|]. apply safe_bind; [apply _|].
    intros [[] h]; [|by apply safe_bind; [apply (safe_buffer (λ _, []))|apply _]].
    apply safe_bind; [apply _|]. intros bl. case_bool; apply _.
  - case_bool; [apply _|]. apply safe_bind; [apply _|]. intros sz. case_bool; [|apply _].
    apply safe_bind; [apply _|]. intros [[[] h] o]; apply _.
Qed.
#[export] Instance safe_process_loop fuel : Safe (process_loop fuel).
Proof.
  induction fuel as [|fuel IH]; cbn [process_loop]; apply safe_get; intros c;
    destruct (tcp_receive_buffer_ c) as [|b0 l]; try apply _; case_bool; try apply _.
  apply safe_bind; [apply _|]. intros go. case_bool; apply _.
Qed.
Lemma safe_incoming data : Forall is_byte data → Safe (process_incoming_data data).
Proof.
  intros Hd. apply safe_bind.
  - apply (safe_buffer (λ l, l ++ data)). intros l Hl. by apply Forall_app.
  - intros _. apply safe_get. apply _.
Qed.
Lemma safe_received r : (∀ data, r = Received data → Forall is_byte data) → Safe (received r).
Proof.
  intros Hr. destruct r as [data| | | |]; cbn [received]; try apply _.
  - pose proof (safe_incoming data (Hr data eq_refl)). apply _.
  - apply safe_get. apply _.
  - apply safe_get. intros c. case_bool; apply _.
Qed.
#[export] Instance safe_pass `{!EnvBytes} : Safe receive_pass.
Proof.
  apply safe_get. intros c. case_bool; [apply _|]. apply safe_bind.
  { case_bool; [|apply _]. apply safe_bind; [apply _|]. intros up. case_bool; apply _. }
  intros go. case_bool; [apply _|]. apply safe_get. intros c'. case_bool; [apply _|].
  apply safe_ask_bind. intros n. apply safe_received. intros data. apply env_bytes.
Qed.

End Safe.

(** *** Calls *)

Inductive client_call : Type :=
| Start
| Stop
| Pass
| Request (channel_id begin_seq_no count : Z)
| Heartbeat.

Section Calls.
Context `{env : Env}.

Definition run_call (k : client_call) : method RetransmissionClient unit :=
  match k with
  | Start => start;; mret tt
  | Stop => stop OtherThread
  | Pass => receive_pass;; mret tt
  | Request ch b n => request_retransmission ch b n;; mret tt
  | Heartbeat => send_client_heartbeat;; mret tt
  end.

(** A pass is made by the client's thread. *)
Inductive client_reach : RetransmissionClient → Prop :=
| client_reach_new ip port id pw cbs : client_reach (RetransmissionClient_new ip port id pw cbs)
| client_reach_step c k :
    client_reach c → (k = Pass → client_thread_ c = true) → client_reach (run_call k c).1.

(** No socket, no connection and no session. *)
Definition link_free (c : RetransmissionClient) : Prop :=
  socket_fd_ c < 0 ∧ connected_ c = false ∧ logged_in_ c = false.

(** Only the thread of a running client can be joined, and without a thread
    there is no link. *)
Definition client_inv (c : RetransmissionClient) : Prop :=
  link_ok c ∧ (client_thread_ c = true → running_ c = true)
  ∧ (client_thread_ c = false → link_free c).

Lemma stopped_threadless c : client_inv c → running_ c = false → client_thread_ c = false.
Proof. intros (_ & Ht & _) Hr. destruct (client_thread_ c); [|done]. by rewrite Ht in Hr. Qed.

(** Without a link, a request and a heartbeat do nothing. *)
Lemma free_request ch b n c :
  link_free c →
  request_retransmission ch b n c = (c, Ok false) ∧ send_client_heartbeat c = (c, Ok false).
Proof.
  intros (_ & Hc & Hl). rewrite /request_retransmission /send_client_heartbeat. run_method. by rewrite Hc Hl.
Qed.

Lemma stopped_pass c : running_ c = false → receive_pass c = (c, Ok false).
Proof. intros Hr. rewrite /receive_pass. run_method. by rewrite Hr. Qed.

(** A method that neither starts nor stops keeps the invariant of a client with
    a thread. *)
Lemma safe_inv {A} (m : method RetransmissionClient A) `{!Safe m} c :
  client_inv c → client_thread_ c = true → client_inv (m c).1.
Proof.
  intros (Hl & Ht & _) Hth. destruct (safe (m := m) c Hl) as [Hl' [= Er Et _ _ _ _]].
  split_and!; [done|rewrite Er; auto|congruence].
Qed.

(** [start] returns, or reports that the thread could not be created: the
    client is then marked as running all the same. *)
Lemma client_start_spec c :
  client_inv c →
  start c =
  if running_ c then (c, Ok true)
  else if env_thread (ticks c) then (set_running (tick c) true true, Ok true)
  else (set_running (tick c) true false, Throw std_system_error).
Proof.
  intros Hi. rewrite /start /ask. run_method. destruct (running_ c) eqn:Hr; [done|].
  rewrite (stopped_threadless c Hi Hr). cbn [ticks set_running].
  by destruct (env_thread (ticks c)).
Qed.

Lemma start_inv c : client_inv c → client_inv (start c).1.
Proof.
  intros Hi. rewrite client_start_spec //. destruct (running_ c) eqn:Hr; [done|].
  have Ht := stopped_threadless c Hi Hr. destruct Hi as (Hl & _ & Hf).
  by destruct (env_thread _); split_and!; try done; intros _; apply (Hf Ht).
Qed.

Lemma stop_keeps c :
  client_inv c → ∃ c', stop OtherThread c = (c', Ok tt) ∧ client_inv c' ∧ running_ c' = false
    ∧ session_id_ c' = session_id_ c ∧ password_ c' = password_ c.
Proof.
  intros Hi. rewrite /stop. run_method. destruct (running_ c) eqn:Hr; cbn; [|by exists c].
  have [[Hok _] _] := Hi. have Hfd : (if 0 <=? socket_fd_ c then -1 else socket_fd_ c) < 0.
  { destruct (0 <=? socket_fd_ c) eqn:E; bool_to_prop; lia. }
  by destruct (client_thread_ c); eexists; (split; [done|]); split_and!; [split|..].
Qed.

Lemma run_call_inv `{!EnvBytes} k c :
  client_inv c → (k = Pass → client_thread_ c = true) → client_inv (run_call k c).1.
Proof.
  intros Hi Hk. destruct k as [| | |ch b n|]; cbn [run_call].
  - have Hst := start_inv c Hi. rewrite /mbind /method_bind. by destruct (start c) as [c' [| |]].
  - by destruct (stop_keeps c Hi) as (c' & -> & ? & _).
  - apply safe_inv; [apply _|done|by apply Hk].
  - destruct (client_thread_ c) eqn:Ht; [by apply safe_inv; [apply _|..]|].
    have [_ [_ Hf]] := Hi. destruct (free_request ch b n c (Hf Ht)) as [E _].
    by rewrite /mbind /method_bind E.
  - destruct (client_thread_ c) eqn:Ht; [by apply safe_inv; [apply _|..]|].
    have [_ [_ Hf]] := Hi. destruct (free_request 0 0 0 c (Hf Ht)) as [_ E].
    by rewrite /mbind /method_bind E.
Qed.

(** *** What a pass can end with *)

(** The login data fit their fields, and the check code can be computed. *)
Definition credentials_ok (session : Z) (pw : list Z) : Prop :=
  fits 2 session ∧ ∃ code, calculate_check_code 168 pw = Ok code ∧ fits 1 code.

(** The check code fits a byte, unless its computation overflows. *)
Lemma check_code_cases mult pw :
  (∃ code, calculate_check_code mult pw = Ok code ∧ fits 1 code) ∨ calculate_check_code mult pw = Undefined.
Proof.
  have Hu : ∀ x, fits 1 (u8 x) by intros x; apply Z.mod_pos_bound; lia.
  rewrite /calculate_check_code. destruct (_ =? _)%nat; [by left; exists 0|].
  destruct (stoll_cases pw) as [[v ->]|[-> | ->]]; [|by left; exists 0..].
  destruct (_ || _); [by right|]. destruct (_ <? 0); [destruct (_ =? _); [by right|]|];
    left; eexists; (split; [done|apply Hu]).
Qed.

Lemma credentials_cases session pw :
  fits 2 session → credentials_ok session pw ∨ calculate_check_code 168 pw = Undefined.
Proof. intros Hs. destruct (check_code_cases 168 pw) as [Hc|Hc]; [by left|by right]. Qed.

Definition login_request (c : RetransmissionClient) (code : Z) (time : StandardTimeFormat)
    : LoginRequest020 :=
  mk020 (mkHeader 0 0 0 time) 168 code (session_id_ c) (mkFooter 0).

Lemma login_sends c code :
  connected_ c = true → logged_in_ c = false → calculate_check_code 168 (password_ c) = Ok code →
  fits 1 code → fits 2 (session_id_ c) →
  let time := mkTime (u32 (env_now (ticks c) `div` 1000000000)) (u32 (env_now (ticks c) `mod` 1000000000)) in
  perform_login c =
  (send_tcp_message (encode (W := wire020 (password_ c)) (login_request c code time));; mret true)
    (set_seq_num (tick (set_seq_num c 0)) 1).
Proof.
  intros Hc Hl Hcode Hf Hs time. rewrite /perform_login /current_time /next_seq_num /ask. run_method.
  rewrite Hc Hl Hcode. cbn -[send_tcp_message encode LoginRequest020_serialize u32].
  rewrite -/time. set m := mk020 _ _ _ _ _. have Hm : msg_ok (W := wire020 (password_ c)) m.
  { split; [by apply stamped_ok|]. repeat (constructor; [done|]). constructor. }
  by rewrite (wl_serialize [] m Hm : LoginRequest020_serialize [] (password_ c) m = _) app_nil_l.
Qed.

Lemma login_result c :
  seq_ok c → credentials_ok (session_id_ c) (password_ c) → ∃ c' b, perform_login c = (c', Ok b).
Proof.
  intros Hq (Hs & code & Hcode & Hf).
  destruct (connected_ c) eqn:Hc; [|by exists c, false; rewrite /perform_login; run_method; rewrite Hc].
  destruct (logged_in_ c) eqn:Hl; [by exists c, true; rewrite /perform_login; run_method; rewrite Hc Hl|].
  rewrite (login_sends c code) //. set c1 := set_seq_num _ 1. have Hc1 : seq_ok c1 by done.
  match goal with |- context [send_tcp_message ?msg] =>
    destruct (total (m := send_tcp_message msg;; mret true) c1 Hc1) as (c2 & b & E & _) end.
  by exists c2, b.
Qed.

(** A login whose check code cannot be computed. *)
Lemma login_overflow c :
  calculate_check_code 168 (password_ c) = Undefined →
  ∃ c' r, perform_login c = (c', r) ∧ ((∃ b, r = Ok b) ∨ r = Undefined).
Proof.
  intros Hu. rewrite /perform_login /current_time /next_seq_num /ask. run_method.
  destruct (negb (connected_ c)); [by eauto 6|]. destruct (logged_in_ c); [by eauto 6|].
  rewrite Hu. eauto 6.
Qed.

Lemma incoming_result data c :
  client_ok c → Forall is_byte data →
  ∃ c' r, process_incoming_data data c = (c', r) ∧ (r = Ok tt ∨ r = Throw ParsingError).
Proof.
  intros Hc Hd. pose proof (feed_concat data [] c Hc Hd (Forall_nil_2 _)) as H.
  cbn [feed concat] in H. rewrite app_nil_r /mbind /method_bind in H.
  destruct (process_incoming_data data c) as [c' [[]|e|]]; [..|done].
  - exists c', (Ok tt). auto.
  - exists c', (Throw e). destruct H as [-> _]. auto.
Qed.

(** The login step of a pass. *)
Lemma connect_login_result c :
  link_ok c → fits 2 (session_id_ c) →
  ∃ c1 r, (up ← connect_to_server; if negb up then mret false else perform_login;; mret true) c = (c1, r)
    ∧ link_ok c1 ∧ ((∃ b, r = Ok b) ∨ r = Undefined ∧ calculate_check_code 168 (password_ c) = Undefined).
Proof.
  intros Hl Hsid. pose proof (safe (m := connect_to_server) c Hl) as [Hl1 [= _ _ _ _ Es Ep]].
  have [c1 [b Ec]] : ∃ c1 b, connect_to_server c = (c1, Ok b).
  { rewrite /connect_to_server /ask. run_method. repeat case_bool; by eauto. }
  rewrite Ec in Hl1 Es Ep. cbn in Hl1, Es, Ep. rewrite (method_bind_Ok _ _ _ _ _ Ec).
  destruct b; cbn [negb]; [|by exists c1, (Ok false); eauto].
  pose proof (safe (m := perform_login) c1 Hl1) as [Hl2 _]. rewrite /mbind /method_bind.
  destruct (credentials_cases (session_id_ c) (password_ c) Hsid) as [Hcr|Hu].
  - destruct (login_result c1) as (c2 & b & El); [apply Hl1|by rewrite Es Ep|].
    rewrite El in Hl2 |- *. exists c2, (Ok true). eauto.
  - destruct (login_overflow c1) as (c2 & r & El & [[b ->]| ->]); [by rewrite Ep|..]; rewrite El in Hl2 |- *;
      eexists _, _; eauto 6.
Qed.

(** A pass returns, or ends with the [ParsingError] of a malformed frame, or
    overflows in the check code of the login. *)
Lemma receive_pass_result `{!EnvBytes} c :
  link_ok c → fits 2 (session_id_ c) →
  ∃ c' r, receive_pass c = (c', r)
    ∧ ((∃ b, r = Ok b) ∨ r = Throw ParsingError
       ∨ r = Undefined ∧ calculate_check_code 168 (password_ c) = Undefined).
Proof.
  intros Hl Hsid. rewrite /receive_pass. run_method. destruct (negb (running_ c)); [by eauto 6|].
  set go := (if _ || _ then _ else _). have [c1 [r1 [E1 [Hl1 Hr1]]]] : ∃ c1 r, go c = (c1, r) ∧ link_ok c1
    ∧ ((∃ b, r = Ok b) ∨ r = Undefined ∧ calculate_check_code 168 (password_ c) = Undefined).
  { rewrite /go. destruct (_ || _); [by apply connect_login_result|by exists c, (Ok true); eauto]. }
  rewrite E1. destruct Hr1 as [[b ->]|[-> Hu]]; [|by eauto 8].
  destruct b; cbn [negb]; [|by eauto 6]. destruct (socket_fd_ c1 <? 0); [by eauto 6|].
  rewrite /ask. run_method. destruct (env_recv _) as [data| | | |] eqn:Er; cbn [received];
    [|by eauto 6|by eauto 6|run_method; destruct (running_ (tick c1)); by eauto 6|by eauto 6].
  run_method. pose proof (incoming_result data (tick c1) (proj1 Hl1) (env_bytes _ _ Er)) as (c2 & r & -> & Hr).
  destruct Hr as [-> | ->]; eauto 8.
Qed.

(** What a send leaves behind: a prefix of the message on the wire, all of it
    unless the link was dropped. *)
Lemma send_loop_spec fuel rest c :
  (length rest ≤ fuel)%nat → connected_ c = true →
  ∃ c' p, send_loop fuel rest c = (c', Ok tt) ∧ p `prefix_of` rest
    ∧ sent_bytes (trace c') = sent_bytes (trace c) ++ p
    ∧ client_msg_seq_num_ c' = client_msg_seq_num_ c
    ∧ (connected_ c' = true → p = rest).
Proof.
  revert rest c. induction fuel as [|fuel IH]; intros [|x rest] c Hf Hc; [|simpl in Hf; lia|..].
  1,2: by exists c, []; rewrite app_nil_r.
  cbn [send_loop]. rewrite /ask. run_method. set r := env_send _ _.
  have Hdrop : ∃ c', drop_link (tick c) = (c', Ok tt) ∧ sent_bytes (trace c') = sent_bytes (trace c)
    ∧ client_msg_seq_num_ c' = client_msg_seq_num_ c ∧ connected_ c' = false.
  { rewrite /drop_link /callback. run_method. eexists. split; [done|]. case_bool; [|done].
    by rewrite /sent_bytes /= omap_app /= app_nil_r. }
  destruct Hdrop as (cd & Ed & Hd1 & Hd2 & Hd3).
  destruct (r <? 0) eqn:E1; [|destruct (r =? 0) eqn:E2].
  1,2: rewrite Ed; exists cd, []; rewrite app_nil_r; split_and!; [done|apply prefix_nil|done..|congruence].
  bool_to_prop. set k := Z.to_nat r. set c1 := emit (tick c) (Sent (take k (x :: rest))).
  destruct (IH (drop k (x :: rest)) c1) as (c' & p & -> & Hp & Hs & Hq & Hk); [|done|].
  { rewrite length_drop. simpl in Hf |- *. lia. }
  exists c', (take k (x :: rest) ++ p). split_and!; [done| | |done|].
  - rewrite -{2}(take_drop k (x :: rest)). by apply prefix_app.
  - rewrite Hs /sent_bytes /c1 /= omap_app concat_app /= app_nil_r -app_assoc //.
  - intros Hc'. rewrite (Hk Hc') take_drop //.
Qed.

End Calls.

(** *** Reaching the server *)

Section Reaching.
Context `{env : Env}.

(** A valid RetransmissionStart050. *)
Definition start_message (l : list Z) : Prop :=
  Forall is_byte l ∧ next_item l = Protocol (length l) ∧ (16 ≤ length l)%nat
  ∧ msg_type (header_at l) = 50 ∧ is_Some (decode (M := RetransmissionStart050) l (length l)).

(** The server refuses connections up to question [N]; from then on it accepts
    them, takes what is sent, and answers with [reply]. *)
Definition reachable_from (N : nat) (ip : list Z) (port : Z) (reply : list Z) : Prop :=
  (∀ n, 0 ≤ env_socket n) ∧ env_pton ip = true
  ∧ (∀ n, env_connect n ip port < 0 ↔ (n < N)%nat)
  ∧ (∀ n l, (N ≤ n)%nat → env_send n l = Z.of_nat (length l))
  ∧ (∀ n, (N ≤ n)%nat → env_recv n = Received reply).

(** [k] passes of the receive loop. *)
Fixpoint passes (k : nat) : method RetransmissionClient unit :=
  match k with O => mret tt | S k => receive_pass;; passes k end.

(** A client that has no connection. *)
Definition seeking (c : RetransmissionClient) : Prop :=
  running_ c = true ∧ connected_ c = false ∧ tcp_receive_buffer_ c = [].

Lemma connect_seeking c N reply :
  seeking c → reachable_from N (server_ip_ c) (server_port_ c) reply →
  connect_to_server c =
  if (S (ticks c) <? N)%nat then (set_link (tick (tick c)) (-1) false false, Ok false)
  else (set_link (tick (tick c)) (env_socket (ticks c)) true false, Ok true).
Proof.
  intros (_ & Hc & _) (Hs & Hp & Hcn & _). rewrite /connect_to_server /ask. run_method. rewrite Hc.
  cbn [andb ticks tick set_link server_ip_ server_port_].
  rewrite (proj2 (Z.ltb_ge _ _)) // Hp. cbn [negb]. destruct (S (ticks c) <? N)%nat eqn:E; bool_to_prop.
  - by rewrite (proj2 (Z.ltb_lt _ _)); [by apply Hcn|].
  - rewrite (proj2 (Z.ltb_ge _ _)) //. apply Z.nlt_ge. intros Hn%Hcn. cbn in Hn. lia.
Qed.

Lemma send_all msg c :
  msg ≠ [] → connected_ c = true → 0 ≤ socket_fd_ c →
  env_send (ticks c) msg = Z.of_nat (length msg) →
  send_tcp_message msg c = (emit (tick c) (Sent msg), Ok tt).
Proof.
  intros Hne Hc Hfd Hs. rewrite /send_tcp_message. run_method. rewrite Hc (proj2 (Z.ltb_ge _ _)) //. cbn.
  destruct msg as [|b msg]; [done|]. change (length (b :: msg)) with (S (length msg)).
  cbn [send_loop]. rewrite /ask. run_method. set l := b :: msg in Hne Hs |- *. rewrite Hs. rewrite (proj2 (Z.ltb_ge _ _)); [lia|].
  rewrite (proj2 (Z.eqb_neq _ _)); [simpl; lia|]. rewrite Nat2Z.id take_ge // drop_ge //.
  by destruct (length msg).
Qed.

Lemma start_effect reply c :
  start_message reply → running_ c = true → tcp_receive_buffer_ c = [] → seq_ok c →
  ∃ c', process_incoming_data reply c = (c', Ok tt) ∧ logged_in_ c' = true
    ∧ connected_ c' = connected_ c.
Proof.
  intros (Hb & Hit & Hlen & Hty & [st Hd]) Hr Hbuf Hq.
  destruct (process_complete (length (concat [reply])) [reply] c) as (c' & E & Hp); [done..| | |done|].
  - constructor; [by right|constructor].
  - by constructor.
  - cbn [concat] in Hp. rewrite app_nil_r in Hp. exists (set_buffer c' []). split_and!.
    + rewrite process_incoming_eq /add Hbuf app_nil_l. exact Hp.
    + revert E. cbn [deliver_all]. rewrite Hit /deliver (proj2 (Nat.ltb_ge _ _)) //.
      rewrite /protocol_effect Hty Hd /callback. run_method. cbn. intros [= <-]. by case_bool.
    + revert E. cbn [deliver_all]. rewrite Hit /deliver (proj2 (Nat.ltb_ge _ _)) //.
      rewrite /protocol_effect Hty Hd /callback. run_method. cbn. intros [= <-]. by case_bool.
Qed.

(** A pass before the server is up changes nothing but the clock. *)
Lemma pass_refused c N reply :
  seeking c → reachable_from N (server_ip_ c) (server_port_ c) reply → (S (ticks c) < N)%nat →
  receive_pass c = (set_link (tick (tick c)) (-1) false false, Ok true).
Proof.
  intros Hk Hu Hlt. have [Hr [Hc _]] := Hk. rewrite /receive_pass. run_method. rewrite Hr Hc. cbn.
  by rewrite (connect_seeking c N reply) // (proj2 (Nat.ltb_lt _ _)).
Qed.

(** A pass once the server is up connects and logs in. *)
Lemma pass_accepted c N reply :
  seeking c → reachable_from N (server_ip_ c) (server_port_ c) reply → (N ≤ S (ticks c))%nat →
  start_message reply → credentials_ok (session_id_ c) (password_ c) →
  ∃ c', receive_pass c = (c', Ok true) ∧ connected_ c' = true ∧ logged_in_ c' = true.
Proof.
  intros Hk Hu Hge Hst (Hsid & code & Hcode & Hf). have [Hr [Hc Hb]] := Hk.
  have [Hsk [_ [_ [Hsend Hrecv]]]] := Hu.
  rewrite /receive_pass. run_method. rewrite Hr Hc. cbn [negb orb].
  rewrite (connect_seeking c N reply) // (proj2 (Nat.ltb_ge _ _)) //. cbn [negb].
  set c1 := set_link _ _ true false. rewrite (login_sends c1 code) //. run_method.
  set msg := encode _. set c2 := set_seq_num _ 1.
  have Hmsg : msg ≠ [] by rewrite /msg /encode; done.
  rewrite send_all //; [apply Hsk|apply Hsend; cbn; lia|]. cbn [negb].
  set c3 := emit _ _. rewrite (proj2 (Z.ltb_ge (socket_fd_ c3) 0)); [apply Hsk|].
  rewrite /ask. run_method. rewrite Hrecv; [cbn; lia|]. cbn [received]. run_method.
  destruct (start_effect reply (tick c3)) as (c4 & -> & Hl & Hcc); [done..|].
  exists c4. split_and!; [done| |done]. by rewrite Hcc.
Qed.

Lemma seeking_connects c N reply :
  seeking c → reachable_from N (server_ip_ c) (server_port_ c) reply →
  start_message reply → credentials_ok (session_id_ c) (password_ c) →
  ∃ k c', (k ≤ S (N - ticks c))%nat ∧ passes k c = (c', Ok tt)
    ∧ connected_ c' = true ∧ logged_in_ c' = true.
Proof.
  remember (N - ticks c)%nat as d eqn:Ed. revert c Ed.
  induction d as [d IH] using lt_wf_ind. intros c Ed Hk Hu Hst Hcr.
  destruct (decide (S (ticks c) < N)%nat) as [Hlt|Hge].
  - have E := pass_refused c N reply Hk Hu Hlt. set c1 := set_link _ _ _ _ in E.
    have [Hr [_ Hb]] := Hk.
    destruct (IH (N - ticks c1)%nat ltac:(cbn; lia) c1 eq_refl) as (k & c' & Hle & Ep & H1 & H2); [done..|].
    exists (S k), c'. split; [cbn in Hle; lia|]. cbn [passes]. run_method. by rewrite E.
  - destruct (pass_accepted c N reply Hk Hu ltac:(lia) Hst Hcr) as (c' & E & H1 & H2).
    exists 1%nat, c'. split; [lia|]. cbn [passes]. run_method. by rewrite E.
Qed.

End Reaching.

(** ** Properties *)

(** The stamp the client puts on a message sent at [ticks c]. *)
Definition stamp `{env : Env} (c : RetransmissionClient) : StandardTimeFormat :=
  mkTime (u32 (env_now (ticks c) `div` 1000000000)) (u32 (env_now (ticks c) `mod` 1000000000)).

Section Properties.
Context `{env : Env}.

(** C33: the connection invariant holds however calls of the application and
    passes of the client's thread follow one another (each taken as a whole),
    whatever the operating system answers, a thread that cannot be created
    included: the receive buffer holds bytes, the message counter is a 32-bit
    number, a connected client has an open socket, a thread that can be joined
    exists only while the client runs, and a client without one has no socket,
    no connection and no session.  [start] on a stopped client returns true with a thread
    started exactly when the thread can be created; otherwise it throws
    [std::system_error] with the client marked as running and no thread, and a
    later [start] returns true without doing anything. *)
Theorem client_invariant `{!EnvBytes} c (Hr : client_reach c) :
  client_inv c
  ∧ (running_ c = false →
     if env_thread (ticks c) then start c = (set_running (tick c) true true, Ok true)
     else let c' := set_running (tick c) true false in
          start c = (c', Throw std_system_error) ∧ start c' = (c', Ok true)).
Proof.
  have Hi : client_inv c.
  { induction Hr as [ip port id pw cbs|c k _ IH Hk]; [|by apply run_call_inv].
    by split; [split; [split|]|]. }
  split; [done|]. intros Hs. rewrite client_start_spec // Hs. by destruct (env_thread (ticks c)).
Qed.

(** C34: a data request is refused exactly when the client is not logged in;
    otherwise the call returns true, uses up the next 32-bit message number,
    and puts on the wire the encoding of a request with that number, the time
    and the three arguments: all of it if the link survives the call, a prefix
    of it (possibly nothing) if the link is lost. *)
Theorem request_sends c ch b n (Hc : client_inv c)
    (Hch : fits 2 ch) (Hbn : fits 4 b) (Hn : fits 2 n) :
  let req := mk101 (mkHeader 0 0 (client_msg_seq_num_ c) (stamp c)) ch b n (mkFooter 0) in
  ∃ c', request_retransmission ch b n c = (c', Ok (logged_in_ c))
    ∧ if logged_in_ c then
        client_msg_seq_num_ c' = u32 (client_msg_seq_num_ c + 1)
        ∧ ∃ p, p `prefix_of` encode req
            ∧ sent_bytes (trace c') = sent_bytes (trace c) ++ p
            ∧ (connected_ c' = true → p = encode req)
      else c' = c.
Proof.
  intros req. destruct Hc as [[[Hbuf Hs] Hlink] _].
  rewrite /request_retransmission /next_seq_num /current_time /ask. run_method.
  destruct (logged_in_ c); cbn [negb]; [|by exists c].
  cbn [ticks tick set_seq_num]. rewrite -/(stamp c) -/req. have Hm : msg_ok req.
  { split; [by apply stamped_ok|]. repeat (constructor; [done|]). constructor. }
  rewrite (wl_serialize [] req Hm : DataRequest101_serialize [] req = _) app_nil_l.
  set c1 := tick _. rewrite /send_tcp_message. run_method.
  destruct (negb (connected_ c1) || (socket_fd_ c1 <? 0)) eqn:Econn.
  - exists c1. split; [done|]. split; [done|]. exists []. rewrite app_nil_r.
    split_and!; [apply prefix_nil|done|]. intros Hconn. exfalso.
    rewrite Hconn /= in Econn. bool_to_prop. specialize (Hlink Hconn). cbn in Econn. lia.
  - bool_to_prop. destruct (send_loop_spec (length (encode req)) (encode req) c1)
      as (c' & p & -> & Hp & Ht & Hq & Hk); [done..|].
    exists c'. split; [done|]. split; [by rewrite Hq|]. by exists p.
Qed.

(** C18: the client gets through: a running client that is not connected and
    has an empty receive buffer keeps trying as long as the server refuses
    connections, and after at most [N + 1] passes of its loop it is connected
    and logged in, if the server accepts connections from question [N] to the
    operating system on.  The conditions: a socket can always be created, the
    server's address is valid, the check code of the password can be computed
    and the session id fits its field, and from question [N] on every [send]
    takes all it is given and every [recv] delivers exactly the bytes of one
    valid RetransmissionStart050.  (A buffer with the rest of an old connection
    is excluded; see [reconnect_keeps_buffer].) *)
Theorem client_gets_through c N reply (Hk : seeking c)
    (Hup : reachable_from N (server_ip_ c) (server_port_ c) reply) (Hst : start_message reply)
    (Hcr : credentials_ok (session_id_ c) (password_ c)) :
  ∃ k c', (k ≤ S N)%nat ∧ passes k c = (c', Ok tt) ∧ connected_ c' = true ∧ logged_in_ c' = true.
Proof.
  destruct (seeking_connects c N reply Hk Hup Hst Hcr) as (k & c' & Hle & H). exists k, c'.
  split; [lia|done].
Qed.

End Properties.

(** A session can be reported after the connection is lost: when the reply
    to a server heartbeat fails, the client drops the link but goes on with
    the messages left in its buffer, so a RetransmissionStart050 behind the
    heartbeat marks it logged in without a connection, and a data request then
    reports success although nothing is sent. *)
Theorem login_after_disconnect :
  let env := failing_env in
  let hb := mk104 (mkHeader 0 0 1 (mkTime 0 0)) (mkFooter 0) in
  let st := mk050 (mkHeader 0 0 2 (mkTime 0 0)) (mkFooter 0) in
  let '(c, r) := process_incoming_data (encode hb ++ encode st) (sample_client false) in
  r = Ok tt ∧ connected_ c = false ∧ logged_in_ c = true
  ∧ trace c = [Disconnected; LoggedIn]
  ∧ (request_retransmission 1 1001 5 c).2 = Ok true
  ∧ sent_bytes (trace (request_retransmission 1 1001 5 c).1) = [].
Proof. vm_compute. done. Qed.

(** Connecting again does not clear the receive buffer, whatever the
    environment answers; so when the old connection was cut within a message,
    the stream of the new one is read from the wrong place: a client that has
    five bytes of a RetransmissionStart050 left does not see the whole one that
    the new connection delivers, and a client with an empty buffer does. *)
Theorem reconnect_keeps_buffer :
  (∀ (env : Env) c, tcp_receive_buffer_ (connect_to_server c).1 = tcp_receive_buffer_ c)
  ∧ (let env := working_env in
     let reconnected buffer :=
       (connect_to_server (set_link (set_buffer (sample_client false) buffer) (-1) false false)).1 in
     logged_in_ (process_incoming_data sample_start (reconnected (take 5 sample_start))).1 = false
     ∧ logged_in_ (process_incoming_data sample_start (reconnected [])).1 = true).
Proof.
  split; [|vm_compute; done]. intros env c. rewrite /connect_to_server /ask. run_method.
  by repeat case_match; simplify_eq/=.
Qed.

(** A protocol message whose size field has the high byte 0x1B is taken for
    market data: of a DataResponse102 with 6889 bytes of data (size 0x1B00), the
    next turn of the loop hands the first 222 bytes on as a market message, and
    removes them from the buffer; the status callback is not invoked. *)
Theorem large_response_misread :
  let env := working_env in
  let m := mk102 (mkHeader 0 0 1 (mkTime 0 0)) 2 0 1 0 (mkFooter 0) in
  match DataResponse102_serialize [] (repeat 0 6889) m with
  | Ok bytes =>
      let '(c, r) := process_front (hd 0 bytes) (set_buffer (sample_client true) bytes) in
      r = Ok true ∧ trace c = [MarketData (take 222 bytes)] ∧ tcp_receive_buffer_ c = drop 222 bytes
  | _ => False
  end.
Proof. vm_compute. done. Qed.

Lemma working_env_bytes : @EnvBytes working_env.
Proof. intros n data E. discriminate E. Defined.

(** An operating system that creates no thread after the first. *)
Definition exhausted_env : Env :=
  Build_Env LittleEndian (λ _ l, Z.of_nat (length l)) (λ _, WouldBlock) (λ _, 3) (λ _, true) (λ _ _ _, 0)
    (λ _, 1700000000000000042) (λ n, (n =? 0)%nat).

(** A client that was started, made a pass, and was stopped. *)
Definition restarted_client : RetransmissionClient :=
  let env := exhausted_env in
  (run_call Stop (run_call Pass (run_call Start
     (RetransmissionClient_new (str "10.0.0.1") 9000 7 (str "1234") all_callbacks)).1).1).1.

Lemma client_invariant_witness :
  let env := exhausted_env in
  let c := restarted_client in
  let c' := set_running (tick c) true false in
  client_inv c ∧ start c = (c', Throw std_system_error) ∧ start c' = (c', Ok true).
Proof.
  intros env c c'. destruct (@client_invariant env (λ n data E, ltac:(discriminate E)) c) as [Hi Hs].
  - repeat (apply client_reach_step; [|by vm_compute]). apply client_reach_new.
  - split; [exact Hi|]. exact (Hs eq_refl).
Defined.

Lemma request_sends_witness :
  let env := working_env in
  let c := sample_client true in
  let req := mk101 (mkHeader 0 0 (client_msg_seq_num_ c) (stamp c)) 1 1001 5 (mkFooter 0) in
  ∃ c', request_retransmission 1 1001 5 c = (c', Ok (logged_in_ c))
    ∧ if logged_in_ c then
        client_msg_seq_num_ c' = u32 (client_msg_seq_num_ c + 1)
        ∧ ∃ p, p `prefix_of` encode req
            ∧ sent_bytes (trace c') = sent_bytes (trace c) ++ p
            ∧ (connected_ c' = true → p = encode req)
      else c' = c.
Proof.
  intros env c. apply (request_sends (env := env) c 1 1001 5); [|rewrite /fits; lia..].
  split; [|done]. split; [apply sample_client_ok|]. simpl. lia.
Defined.

(** A server that refuses the first connections. *)
Definition late_env : Env :=
  Build_Env LittleEndian (λ _ l, Z.of_nat (length l)) (λ _, Received sample_start) (λ _, 3)
    (λ _, true) (λ n _ _, if (n <? 4)%nat then -1 else 0) (λ _, 1700000000000000042) (λ _, true).

Lemma client_gets_through_witness :
  let env := late_env in
  let c := (run_call Start (RetransmissionClient_new (str "10.0.0.1") 9000 7 (str "1234") all_callbacks)).1 in
  ∃ k c', (k ≤ 5)%nat ∧ passes k c = (c', Ok tt) ∧ connected_ c' = true ∧ logged_in_ c' = true.
Proof.
  intros env c. apply (client_gets_through (env := env) c 4 sample_start).
  - by split_and!.
  - split_and!; try done. intros n.
    change (env_connect n _ _) with (if (n <? 4)%nat then -1 else 0).
    destruct (n <? 4)%nat eqn:E; bool_to_prop; lia.
  - split_and!; [by apply bytes_check|reflexivity|vm_compute; lia|reflexivity|by eexists].
  - split; [done|]. exists 73. split; [vm_compute|]; done.
Defined.
