(* ===== verification/Logger.v ===== *)
(** * The logger (logger.cpp)

    The state is the minimum level and what has been written to the two
    standard streams.  A statement [LOG_INFO << a << b;] creates a composer,
    appends to its stream and destroys it, which prints the message; other
    threads may change the level in between, so the three steps are separate
    definitions.  The clock and the time zone are the class [LogEnv].  No other
    component depends on the logger's state. *)

From S2P Require Import Prelude CppStd.

(** ** Definitions *)

Inductive LogLevel : Type := DEBUG | INFO | WARNING | ERROR | NONE.

#[export] Instance LogLevel_eq_dec : EqDecision LogLevel.
Proof. solve_decision. Defined.

Definition level_value (l : LogLevel) : Z :=
  match l with DEBUG => 0 | INFO => 1 | WARNING => 2 | ERROR => 3 | NONE => 4 end.

(** [log_clock]: nanoseconds since the epoch at the n-th reading;
    [log_localtime]: seconds since the epoch as [%Y-%m-%d %H:%M:%S]. *)
Class LogEnv : Type := {
  log_clock : nat → Z;
  log_localtime : Z → list Z;
}.

Record Logger : Type := mkLogger {
  current_min_log_level : LogLevel;
  cout : list Z;
  cerr : list Z;
  log_ticks : nat;
}.

Definition Logger_initial : Logger := mkLogger INFO [] [] 0.

Definition setLogLevel (level : LogLevel) : method Logger unit :=
  modify (λ g, mkLogger level (cout g) (cerr g) (log_ticks g)).

Definition getCurrentLogLevel : method Logger LogLevel :=
  g ← get; mret (current_min_log_level g).

(** What follows the last [c], if there is one ([strrchr]). *)
Fixpoint after_last (c : Z) (s : list Z) : option (list Z) :=
  match s with
  | [] => None
  | b :: s =>
      match after_last c s with
      | Some r => Some r
      | None => if b =? c then Some s else None
      end
  end.

Definition base_file_name (file : list Z) : list Z :=
  match after_last 47 file with
  | Some r => r
  | None => default file (after_last 92 file)
  end.

(** [std::setfill(fill) << std::setw(w) << s]. *)
Definition setw (w : nat) (fill : Z) (s : list Z) : list Z := repeat fill (w - length s) ++ s.

Definition level_tag (level : LogLevel) : list Z :=
  match level with
  | DEBUG => str "[DEBUG]   "
  | INFO => str "[INFO]    "
  | WARNING => str "[WARNING] "
  | ERROR => str "[ERROR]   "
  | NONE => []
  end.

Section Logger.
Context `{env : LogEnv}.

(** The line [logMessage] prints at time [now]. *)
Definition log_line (now : Z) (level : LogLevel) (message file : list Z) (line : Z) : list Z :=
  str "[" ++ log_localtime (Z.quot now 1000000000)
  ++ str "." ++ setw 3 48 (to_string (Z.rem (Z.quot now 1000000) 1000)) ++ str "] "
  ++ level_tag level
  ++ str "[" ++ base_file_name file ++ str ":" ++ to_string line ++ str "] "
  ++ message ++ [10].

Definition logMessage (level : LogLevel) (message file : list Z) (line : Z) : method Logger unit :=
  g ← get;
  if level_value level <? level_value (current_min_log_level g) then mret tt
  else
    let text := log_line (log_clock (log_ticks g)) level message file line in
    modify (λ g,
      if bool_decide (level = ERROR) || bool_decide (level = WARNING)
      then mkLogger (current_min_log_level g) (cout g) (cerr g ++ text) (S (log_ticks g))
      else mkLogger (current_min_log_level g) (cout g ++ text) (cerr g) (S (log_ticks g))).

Record LogMessageStreamComposer : Type := mkComposer {
  _stream : list Z;
  _level : LogLevel;
  _file : list Z;
  _line : Z;
  _is_active : bool;
}.

Definition LogMessageStreamComposer_new (level : LogLevel) (file : list Z) (line : Z)
    : method Logger LogMessageStreamComposer :=
  current ← getCurrentLogLevel;
  mret (mkComposer [] level file line (level_value current <=? level_value level)).

(** [getStream() << text]: the text goes to the composer's stream, or to the
    null stream. *)
Definition getStream_write (text : list Z) (c : LogMessageStreamComposer) : LogMessageStreamComposer :=
  if _is_active c then mkComposer (_stream c ++ text) (_level c) (_file c) (_line c) (_is_active c) else c.

Definition LogMessageStreamComposer_destroy (c : LogMessageStreamComposer) : method Logger unit :=
  if _is_active c && negb (length (_stream c) =? 0)%nat
  then logMessage (_level c) (_stream c) (_file c) (_line c) else mret tt.

(** A statement [LOG_X << t1 << ... << tn;], during which other threads do
    [meanwhile]. *)
Definition log_statement (level : LogLevel) (file : list Z) (line : Z) (texts : list (list Z))
    (meanwhile : method Logger unit) : method Logger unit :=
  c ← LogMessageStreamComposer_new level file line;
  meanwhile;;
  LogMessageStreamComposer_destroy (foldl (λ c t, getStream_write t c) c texts).

End Logger.

(** ** Lemmas *)

Lemma after_last_none c b : c ∉ b → after_last c b = None.
Proof.
  induction b as [|x b IH]; [done|]. intros [Hx Hb]%not_elem_of_cons. cbn.
  by rewrite IH // (proj2 (Z.eqb_neq _ _)).
Qed.

Lemma after_last_app c p b : c ∉ b → after_last c (p ++ c :: b) = Some b.
Proof.
  intros Hb. induction p as [|x p IH]; cbn; [|by rewrite IH]. by rewrite after_last_none // Z.eqb_refl.
Qed.

Lemma writes_active texts c :
  _is_active c = true →
  foldl (λ c t, getStream_write t c) c texts
  = mkComposer (_stream c ++ concat texts) (_level c) (_file c) (_line c) true.
Proof.
  revert c. induction texts as [|t texts IH]; intros c Hc; [destruct c; cbn in *; by rewrite app_nil_r Hc|].
  cbn [foldl concat]. rewrite /getStream_write Hc IH //. cbn. by rewrite -app_assoc.
Qed.

Lemma writes_inactive texts c :
  _is_active c = false → foldl (λ c t, getStream_write t c) c texts = c.
Proof. intros Hc. induction texts as [|t texts IH]; [done|]. cbn. by rewrite /getStream_write Hc. Qed.

(** ** Properties *)

Section Properties.
Context `{env : LogEnv}.

(** A log statement prints its texts, joined, on one line exactly when its
    level is at least the minimum level both when the statement begins and when
    it ends, and there is something to print; warnings and errors go to the
    standard error stream and the rest to standard output, and the other
    stream and the level are untouched. *)
Theorem log_statement_spec level file line texts meanwhile g g1
    (Hm : meanwhile g = (g1, Ok tt)) :
  let text := log_line (log_clock (log_ticks g1)) level (concat texts) file line in
  let printed := (level_value (current_min_log_level g) <=? level_value level)
                 && (level_value (current_min_log_level g1) <=? level_value level)
                 && negb (length (concat texts) =? 0)%nat in
  let to_cerr := bool_decide (level = ERROR ∨ level = WARNING) in
  ∃ g', log_statement level file line texts meanwhile g = (g', Ok tt)
    ∧ current_min_log_level g' = current_min_log_level g1
    ∧ cout g' = cout g1 ++ (if printed && negb to_cerr then text else [])
    ∧ cerr g' = cerr g1 ++ (if printed && to_cerr then text else []).
Proof.
  intros text printed to_cerr.
  rewrite /log_statement /LogMessageStreamComposer_new /getCurrentLogLevel. run_method. rewrite Hm.
  have Hquiet : ∀ h : Logger, ∃ g', (h, Ok tt) = (g', Ok tt)
    ∧ current_min_log_level g' = current_min_log_level h
    ∧ cout g' = cout h ++ [] ∧ cerr g' = cerr h ++ [].
  { intros h. exists h. by rewrite !app_nil_r. }
  rewrite /printed. destruct (_ <=? _) eqn:Ea; cbn [andb]; last first.
  { rewrite writes_inactive //. apply Hquiet. }
  rewrite writes_active //. rewrite /LogMessageStreamComposer_destroy. cbn [_is_active _stream _level _file _line].
  rewrite app_nil_l. destruct (length (concat texts) =? 0)%nat; cbn [andb negb].
  { rewrite !andb_false_r. apply Hquiet. }
  rewrite andb_true_r /logMessage. run_method. rewrite Z.ltb_antisym.
  destruct (level_value (current_min_log_level g1) <=? level_value level); cbn [negb andb]; [|apply Hquiet].
  eexists. split; [done|]. rewrite -/text /to_cerr.
  destruct level; cbn; by rewrite app_nil_r.
Qed.

End Properties.

(** The file name printed is the part after the last slash, or, in a path
    without slashes, the part after the last backslash. *)
Theorem base_file_name_spec p b (Hb : 47 ∉ b) :
  base_file_name (p ++ 47 :: b) = b
  ∧ (47 ∉ p → 92 ∉ b → base_file_name (p ++ 92 :: b) = b)
  ∧ (92 ∉ b → base_file_name b = b).
Proof.
  rewrite /base_file_name after_last_app //. split_and!; [done| |].
  - intros Hp Hb'. rewrite after_last_none; [|by rewrite after_last_app].
    rewrite elem_of_app elem_of_cons. naive_solver.
  - intros Hb'. by rewrite !after_last_none.
Qed.

(** *** Sample data *)

Definition sample_log_env : LogEnv := Build_LogEnv (λ _, 1700000000042000000) (λ _, str "2023-11-14 22:13:20").

Lemma log_statement_spec_witness :
  let env : LogEnv := sample_log_env in
  let g := Logger_initial in
  let g1 := (setLogLevel WARNING g).1 in
  log_line (log_clock (log_ticks g1)) ERROR (concat [str "code "; str "7"]) (str "/src/a.cpp") 12
    = str "[2023-11-14 22:13:20.042] [ERROR]   [a.cpp:12] code 7" ++ [10]
  ∧ ∃ g', log_statement ERROR (str "/src/a.cpp") 12 [str "code "; str "7"] (setLogLevel WARNING) g = (g', Ok tt)
    ∧ current_min_log_level g' = current_min_log_level g1
    ∧ cout g' = cout g1 ++ []
    ∧ cerr g' = cerr g1 ++ log_line (log_clock (log_ticks g1)) ERROR (concat [str "code "; str "7"]) (str "/src/a.cpp") 12.
Proof.
  intros env g g1. split; [vm_compute; reflexivity|].
  exact (log_statement_spec (env := env) ERROR (str "/src/a.cpp") 12 [str "code "; str "7"]
    (setLogLevel WARNING) g g1 eq_refl).
Defined.
