(* ===== verification/FileStream.v ===== *)
(** * [std::ifstream]

    A binary input file stream as the standard describes it: the file its
    buffer is associated with, the read position, and the state bits.  The file
    system is the class [FileSystem]: what opening a path yields.  A file is
    its bytes, so reads fail only at its end; seeking past the end succeeds, as
    [fseek] does.  [gcount] and [badbit] are not needed by the code. *)

From S2P Require Import Prelude.

(** ** Definitions *)

(** The bytes of the file at a path, [None] when it cannot be opened. *)
Class FileSystem : Type := fs_file : list Z → option (list Z).

Record ifstream : Type := mkStream {
  associated : option (list Z);
  position : nat;
  eofbit : bool;
  failbit : bool;
}.

Definition ifstream_new : ifstream := mkStream None 0 false false.

Definition stream_is_open (st : ifstream) : bool := bool_decide (is_Some (associated st)).
Definition good (st : ifstream) : bool := negb (eofbit st) && negb (failbit st).
Definition set_fail (st : ifstream) : ifstream :=
  mkStream (associated st) (position st) (eofbit st) true.

(** [open]: a buffer that is already open, or a path that cannot be opened,
    sets [failbit]; success clears the state. *)
Definition stream_open `{FileSystem} (path : list Z) (st : ifstream) : ifstream :=
  match associated st, fs_file path with
  | None, Some file => mkStream (Some file) 0 false false
  | _, _ => set_fail st
  end.

Definition stream_close (st : ifstream) : ifstream :=
  match associated st with
  | Some _ => mkStream None (position st) (eofbit st) (failbit st)
  | None => set_fail st
  end.

(** The conversion of a [size_t] to [std::streamoff]. *)
Definition streamoff (n : nat) : Z :=
  let z := u64 (Z.of_nat n) in if z <? 2 ^ 63 then z else z - 2 ^ 64.

(** [seekg(off, std::ios::beg)]. *)
Definition seekg (off : Z) (st : ifstream) : ifstream :=
  let st := mkStream (associated st) (position st) false (failbit st) in
  if failbit st then st
  else
    match associated st with
    | Some _ =>
        if off <? 0 then set_fail st
        else mkStream (associated st) (Z.to_nat off) (eofbit st) (failbit st)
    | None => set_fail st
    end.

(** What is left to read. *)
Definition rest_of (st : ifstream) : list Z := drop (position st) (default [] (associated st)).

(** [peek]: [None] is [EOF]. *)
Definition peek (st : ifstream) : ifstream * option Z :=
  if good st then
    match rest_of st with
    | b :: _ => (st, Some b)
    | [] => (mkStream (associated st) (position st) true (failbit st), None)
    end
  else (set_fail st, None).

(** [read(s, n)]: the bytes stored, and the stream; [None] when the stream
    converts to [false] afterwards. *)
Definition stream_read (n : nat) (st : ifstream) : ifstream * option (list Z) :=
  if good st then
    if (n <=? length (rest_of st))%nat then
      (mkStream (associated st) (position st + n) false false, Some (take n (rest_of st)))
    else
      (mkStream (associated st) (position st + length (rest_of st)) true true, None)
  else (set_fail st, None).

(** ** Lemmas *)

(** A stream that can be read, with what is left. *)
Definition reading (st : ifstream) (l : list Z) : Prop :=
  good st = true ∧ is_Some (associated st) ∧ rest_of st = l.

Lemma streamoff_small n : Z.of_nat n < 2 ^ 63 → streamoff n = Z.of_nat n.
Proof.
  intros Hn. rewrite /streamoff /u64 Z.mod_small; [lia|]. by rewrite (proj2 (Z.ltb_lt _ _)).
Qed.

Lemma peek_reading st l :
  reading st l →
  match l with
  | b :: _ => peek st = (st, Some b)
  | [] => (peek st).2 = None ∧ good (peek st).1 = false
          ∧ associated (peek st).1 = associated st ∧ rest_of (peek st).1 = []
  end.
Proof.
  intros (Hg & _ & Hr). rewrite /peek Hg Hr. destruct l; [|done]. by rewrite /rest_of in Hr |- *.
Qed.

Lemma read_reading n st l :
  reading st l →
  if (n <=? length l)%nat then
    (stream_read n st).2 = Some (take n l) ∧ reading (stream_read n st).1 (drop n l)
  else
    (stream_read n st).2 = None ∧ good (stream_read n st).1 = false
    ∧ associated (stream_read n st).1 = associated st ∧ rest_of (stream_read n st).1 = [].
Proof.
  intros (Hg & Ho & Hr). rewrite /stream_read Hg Hr. case_bool; cbn.
  - split; [done|]. split_and!; [done|done|]. by rewrite /rest_of /= -drop_drop -/(rest_of st) Hr.
  - split_and!; [done..|]. rewrite /rest_of in Hr |- *. cbn. rewrite -drop_drop Hr drop_all //.
Qed.

Lemma seekg_reading n st f :
  associated st = Some f → failbit st = false → Z.of_nat n < 2 ^ 63 →
  reading (seekg (streamoff n) st) (drop n f).
Proof.
  intros Hf Hfail Hn. rewrite streamoff_small // /seekg. cbn. rewrite Hfail Hf.
  rewrite (proj2 (Z.ltb_ge _ _)); [lia|]. split_and!; [done|done|]. by rewrite /rest_of /= Nat2Z.id.
Qed.
