(* ===== verification/LogFilePacketSimulator.v ===== *)
(** * The log file packet simulator (utils/log_file_packet_simulator.cpp)

    Reads a PCAP-like capture: a global header, then records of a packet header
    and the captured bytes; the TAIFEX message of a record is what follows the
    first escape byte of the captured bytes.  [capture] is the file format as a
    function from records to bytes. *)

From S2P Require Import Prelude EndianUtils FileStream.

(** ** Definitions *)

Definition DEFAULT_GLOBAL_HEADER_SIZE : nat := 24.
Definition DEFAULT_PACKET_HEADER_SIZE : nat := 16.
Definition TAIFEX_ESC_CODE : Z := 27.
Definition MAX_SANE_PACKET_LENGTH : Z := 70000.
(** The largest size of a [std::vector<char>]. *)
Definition PTRDIFF_MAX : Z := 2 ^ 63 - 1.

Record LogFilePacketSimulator : Type := mkSimulator {
  log_filepath_ : list Z;
  file_stream_ : ifstream;
  is_file_open_ : bool;
  global_header_to_skip_ : nat;
  pcap_packet_header_size_ : nat;
}.

Definition LogFilePacketSimulator_new (filepath : list Z)
    (global_header_size packet_header_size : nat) : LogFilePacketSimulator :=
  mkSimulator filepath ifstream_new false global_header_size packet_header_size.

Definition set_stream (s : LogFilePacketSimulator) (st : ifstream) : LogFilePacketSimulator :=
  mkSimulator (log_filepath_ s) st (is_file_open_ s) (global_header_to_skip_ s)
    (pcap_packet_header_size_ s).
Definition set_file_open (s : LogFilePacketSimulator) (b : bool) : LogFilePacketSimulator :=
  mkSimulator (log_filepath_ s) (file_stream_ s) b (global_header_to_skip_ s)
    (pcap_packet_header_size_ s).

(** A call on [file_stream_]. *)
Definition on_stream {A} (f : ifstream → ifstream * A) : method LogFilePacketSimulator A :=
  λ s, let '(st, a) := f (file_stream_ s) in (set_stream s st, Ok a).

Definition open `{FileSystem} : method LogFilePacketSimulator bool :=
  s ← get;
  if is_file_open_ s then mret true
  else
    on_stream (λ st, (stream_open (log_filepath_ s) st, tt));;
    s ← get;
    if negb (stream_is_open (file_stream_ s)) then
      modify (λ s, set_file_open s false);; mret false
    else
      ok ← (if (0 <? global_header_to_skip_ s)%nat then
              on_stream (λ st, (seekg (streamoff (global_header_to_skip_ s)) st, tt));;
              s ← get;
              if negb (good (file_stream_ s)) then
                on_stream (λ st, (stream_close st, tt));;
                modify (λ s, set_file_open s false);; mret false
              else mret true
            else mret true);
      if negb ok then mret false
      else modify (λ s, set_file_open s true);; mret true.

Definition close : method LogFilePacketSimulator unit :=
  s ← get;
  if is_file_open_ s then
    on_stream (λ st, (stream_close st, tt));;
    modify (λ s, set_file_open s false)
  else mret tt.

(** The destructor. *)
Definition LogFilePacketSimulator_destroy : method LogFilePacketSimulator unit := close.

Definition is_open (s : LogFilePacketSimulator) : bool :=
  is_file_open_ s && stream_is_open (file_stream_ s).

Definition has_next_packet : method LogFilePacketSimulator bool :=
  s ← get;
  if negb (is_open s) || negb (good (file_stream_ s)) then mret false
  else
    c ← on_stream peek;
    mret (bool_decide (is_Some c)).

(** The captured length, in the host's byte order, [None] when the function
    returns false.  The buffer of [pcap_packet_header_size_] bytes is a vector,
    whose constructor throws above the largest size. *)
Definition read_pcap_packet_captured_length `{Host} : method LogFilePacketSimulator (option Z) :=
  s ← get;
  (if PTRDIFF_MAX <? Z.of_nat (pcap_packet_header_size_ s) then lift (Throw std_length_error) else mret tt);;
  local_header_buffer ← on_stream (stream_read (pcap_packet_header_size_ s));
  match local_header_buffer with
  | None => mret None
  | Some local_header_buffer =>
      if (pcap_packet_header_size_ s <? 12)%nat then mret None
      else
        bytes ← lift (readn local_header_buffer 8 4);
        mret (Some (host_val bytes))
  end.

Definition get_next_taifex_packet `{Host} : method LogFilePacketSimulator (list Z) :=
  s ← get;
  if negb (is_open s) then mret []
  else
    more ← has_next_packet;
    if negb more then mret []
    else
      len ← read_pcap_packet_captured_length;
      match len with
      | None => mret []
      | Some captured_data_length =>
          if captured_data_length =? 0 then mret []
          else if MAX_SANE_PACKET_LENGTH <? captured_data_length then close;; mret []
          else
            data ← on_stream (stream_read (Z.to_nat captured_data_length));
            match data with
            | None => mret []
            | Some captured_data_buf =>
                match list_find (λ b, b = TAIFEX_ESC_CODE) captured_data_buf with
                | None => mret []
                | Some (it, _) => mret (drop it captured_data_buf)
                end
            end
      end.

(** *** The file format *)

(** A record: packet header and captured data. *)
Record pcap_record : Type := mkRecord { rec_header : list Z; rec_data : list Z }.

Definition record_bytes (r : pcap_record) : list Z := rec_header r ++ rec_data r.
Definition capture (global : list Z) (rs : list pcap_record) : list Z :=
  global ++ concat (record_bytes <$> rs).

(** The captured length a packet header states. *)
Definition stated_length `{Host} (header : list Z) : Z := host_val (take 4 (drop 8 header)).

(** A record whose header has [hsize] bytes and states the length of its data,
    which is neither empty nor larger than the limit. *)
Definition record_ok `{Host} (hsize : nat) (r : pcap_record) : Prop :=
  length (rec_header r) = hsize ∧ stated_length (rec_header r) = Z.of_nat (length (rec_data r))
  ∧ 0 < Z.of_nat (length (rec_data r)) ≤ MAX_SANE_PACKET_LENGTH.

(** The message of a record: its data from the first escape byte on, empty when
    there is none. *)
Fixpoint message_of (data : list Z) : list Z :=
  match data with
  | [] => []
  | b :: data' => if b =? TAIFEX_ESC_CODE then data else message_of data'
  end.

(** A simulator with an open file of which [l] is left. *)
Definition at_rest (s : LogFilePacketSimulator) (l : list Z) : Prop :=
  is_file_open_ s = true ∧ reading (file_stream_ s) l.

(** [n] calls of [get_next_taifex_packet]. *)
Fixpoint read_packets `{Host} (n : nat) : method LogFilePacketSimulator (list (list Z)) :=
  match n with
  | O => mret []
  | S n =>
      p ← get_next_taifex_packet;
      ps ← read_packets n;
      mret (p :: ps)
  end.

(** What the front of the remaining file holds, for headers of [hsize] bytes. *)
Inductive step_result : Type :=
| Next (packet rest : list Z)
| EndOfFile
| Corrupt
| Oversized.

Definition parse_record `{Host} (hsize : nat) (l : list Z) : step_result :=
  if (length l =? 0)%nat then EndOfFile
  else if PTRDIFF_MAX <? Z.of_nat hsize then Oversized
  else if (length l <? hsize)%nat then EndOfFile
  else
    let data := drop hsize l in
    let n := stated_length (take hsize l) in
    if (hsize <? 12)%nat || (n =? 0) then Next [] data
    else if MAX_SANE_PACKET_LENGTH <? n then Corrupt
    else if (Z.to_nat n <=? length data)%nat then
      Next (message_of (take (Z.to_nat n) data)) (drop (Z.to_nat n) data)
    else EndOfFile.

(** A simulator that has no more packets: its stream has failed or is at its
    end, or the file is closed. *)
Definition exhausted (s : LogFilePacketSimulator) : Prop :=
  is_open s = true ∧ good (file_stream_ s) = false.
Definition closed (s : LogFilePacketSimulator) : Prop := is_open s = false.

Definition same_config (s s' : LogFilePacketSimulator) : Prop :=
  log_filepath_ s' = log_filepath_ s ∧ global_header_to_skip_ s' = global_header_to_skip_ s
  ∧ pcap_packet_header_size_ s' = pcap_packet_header_size_ s.

(** ** Lemmas *)

Lemma list_find_message data :
  match list_find (λ b, b = TAIFEX_ESC_CODE) data with
  | None => message_of data = []
  | Some (i, _) => message_of data = drop i data
  end.
Proof.
  induction data as [|b data IH]; [done|]. cbn [list_find message_of].
  destruct (decide (b = TAIFEX_ESC_CODE)) as [->|Hb]; [done|].
  rewrite (proj2 (Z.eqb_neq _ _)) //. destruct (list_find _ data) as [[i x]|]; exact IH.
Qed.

Lemma message_of_spec data :
  message_of data = [] ∨
  ∃ pre rest, data = pre ++ TAIFEX_ESC_CODE :: rest ∧ TAIFEX_ESC_CODE ∉ pre
    ∧ message_of data = TAIFEX_ESC_CODE :: rest.
Proof.
  induction data as [|b data IH]; [by left|]. cbn [message_of].
  destruct (b =? TAIFEX_ESC_CODE) eqn:E; bool_to_prop.
  - subst b. right. exists [], data. by split_and!; [|apply not_elem_of_nil|].
  - destruct IH as [->|(pre & rest & -> & Hn & ->)]; [by left|]. right.
    exists (b :: pre), rest. split_and!; [done| |done]. by apply not_elem_of_cons.
Qed.

Lemma message_of_prefix pre m :
  TAIFEX_ESC_CODE ∉ pre → message_of (pre ++ TAIFEX_ESC_CODE :: m) = TAIFEX_ESC_CODE :: m.
Proof.
  induction pre as [|b pre IH]; [done|]. intros [Hb Hp]%not_elem_of_cons. cbn [app message_of].
  rewrite (proj2 (Z.eqb_neq _ _)); [congruence|]. by apply IH.
Qed.

Lemma at_rest_open s l : at_rest s l → is_open s = true.
Proof.
  intros (Ho & _ & Hs & _). rewrite /is_open Ho /stream_is_open. by apply bool_decide_eq_true.
Qed.

Lemma has_next_rest s l :
  at_rest s l →
  ∃ s', has_next_packet s = (s', Ok (bool_decide (l ≠ []))) ∧ same_config s s'
    ∧ (if decide (l = []) then exhausted s' else s' = s).
Proof.
  intros Hs. have Ho := at_rest_open _ _ Hs. destruct Hs as [Hf Hr]. have [Hg _] := Hr.
  rewrite /has_next_packet. run_method. rewrite Ho Hg. cbn. rewrite /on_stream.
  pose proof (peek_reading _ _ Hr) as Hp. destruct l as [|b l].
  - destruct Hp as (E1 & E2 & E3 & _). destruct (peek _) as [st o]. cbn in *. subst o.
    eexists. split; [done|]. split; [done|]. split; [|done].
    rewrite /is_open /= Hf /= /stream_is_open E3. by apply bool_decide_eq_true; apply Hr.
  - rewrite Hp. exists s. by destruct s.
Qed.

(** A read on the simulator's stream. *)
Lemma on_read_rest n s l :
  at_rest s l →
  ∃ s', on_stream (stream_read n) s
        = (s', Ok (if (n <=? length l)%nat then Some (take n l) else None)) ∧ same_config s s'
    ∧ (if (n <=? length l)%nat then at_rest s' (drop n l) else exhausted s').
Proof.
  intros [Hf Hr]. rewrite /on_stream. pose proof (read_reading n _ _ Hr) as H.
  destruct (stream_read _ _) as [st o]. cbn in H. destruct (n <=? length l)%nat.
  - destruct H as [-> H]. eexists. split; [done|]. by split.
  - destruct H as (-> & H1 & H2 & _). eexists. split; [done|]. split; [done|]. split; [|done].
    rewrite /is_open /= Hf /= /stream_is_open H2. apply bool_decide_eq_true, Hr.
Qed.

Section Reading.
Context `{host : Host}.

Lemma captured_length_rest s l :
  at_rest s l → Z.of_nat (pcap_packet_header_size_ s) ≤ PTRDIFF_MAX →
  let hsize := pcap_packet_header_size_ s in
  ∃ s', read_pcap_packet_captured_length s
        = (s', Ok (if (length l <? hsize)%nat || (hsize <? 12)%nat then None
                   else Some (stated_length (take hsize l)))) ∧ same_config s s'
    ∧ (if (length l <? hsize)%nat then exhausted s' else at_rest s' (drop hsize l)).
Proof.
  intros Hs Hmax hsize. destruct (on_read_rest hsize s l Hs) as (s' & E & Hc & H).
  exists s'. rewrite /read_pcap_packet_captured_length. run_method. rewrite (proj2 (Z.ltb_ge _ _)) //.
  rewrite -/hsize E.
  rewrite Nat.leb_antisym in E H |- *. destruct (length l <? hsize)%nat eqn:El; cbn [negb orb] in *; [done|].
  bool_to_prop. split; [|done]. destruct (hsize <? 12)%nat eqn:Eh; [done|]. bool_to_prop.
  rewrite readn_Ok //. rewrite length_take. lia.
Qed.

(** [get_next_taifex_packet] on an open file is [parse_record] on what is left. *)
Lemma get_next_rest s l :
  at_rest s l →
  match parse_record (pcap_packet_header_size_ s) l with
  | Next p l' => ∃ s', get_next_taifex_packet s = (s', Ok p) ∧ at_rest s' l' ∧ same_config s s'
  | EndOfFile => ∃ s', get_next_taifex_packet s = (s', Ok []) ∧ exhausted s' ∧ same_config s s'
  | Corrupt => ∃ s', get_next_taifex_packet s = (s', Ok []) ∧ closed s' ∧ same_config s s'
  | Oversized => get_next_taifex_packet s = (s, Throw std_length_error)
  end.
Proof.
  intros Hs. have Ho := at_rest_open _ _ Hs.
  rewrite /get_next_taifex_packet /parse_record. run_method. rewrite Ho. cbn [negb].
  destruct (has_next_rest s l Hs) as (s1 & -> & Hc1 & H1).
  destruct l as [|b l0]; [by exists s1|]. destruct (decide (b :: l0 = [])) as [?|_]; [done|]. subst s1.
  set l := b :: l0 in Hs *.
  rewrite bool_decide_true //. cbn [negb length Nat.eqb].
  destruct (PTRDIFF_MAX <? _) eqn:Emax.
  { rewrite /read_pcap_packet_captured_length. run_method. by rewrite Emax. }
  bool_to_prop. destruct (captured_length_rest s l Hs Emax) as (s2 & -> & Hc2 & H2).
  set hsize := pcap_packet_header_size_ s in H2 *.
  change (S (length l0)) with (length l).
  destruct (length l <? hsize)%nat; cbn [orb]; [by exists s2|].
  destruct (hsize <? 12)%nat; cbn [orb]; [by exists s2|]. set n := stated_length _.
  destruct (n =? 0); [by exists s2|].
  destruct (MAX_SANE_PACKET_LENGTH <? n).
  { rewrite /close. run_method. destruct H2 as [Hf2 Hr2]. rewrite Hf2 /on_stream. cbn.
    eexists. split; [done|]. by split. }
  destruct (on_read_rest (Z.to_nat n) s2 (drop hsize l) H2) as (s3 & -> & Hc3 & H3).
  have Hc : same_config s s3 by destruct Hc2 as (?&?&?), Hc3 as (?&?&?); split_and!; congruence.
  destruct (_ <=? _)%nat; [|by exists s3]. cbn.
  pose proof (list_find_message (take (Z.to_nat n) (drop hsize l))) as Hm.
  destruct (list_find _ _) as [[i x]|]; rewrite Hm; by exists s3.
Qed.

Lemma parse_record_ok hsize r l :
  (12 ≤ hsize)%nat → Z.of_nat hsize ≤ PTRDIFF_MAX → record_ok hsize r →
  parse_record hsize (record_bytes r ++ l) = Next (message_of (rec_data r)) l.
Proof.
  intros Hh Hmax (Hl & Hn & Hd). rewrite /parse_record /record_bytes -app_assoc !length_app Hl.
  rewrite (proj2 (Nat.eqb_neq _ _)); [lia|]. rewrite (proj2 (Z.ltb_ge _ _)) //.
  rewrite (proj2 (Nat.ltb_ge _ _)); [lia|].
  rewrite -Hl take_app_length drop_app_length Hn Hl. cbn [orb].
  rewrite (proj2 (Nat.ltb_ge _ _)); [lia|]. rewrite (proj2 (Z.eqb_neq _ _)); [lia|].
  rewrite (proj2 (Z.ltb_ge _ _)); [lia|]. rewrite Nat2Z.id length_app.
  rewrite (proj2 (Nat.leb_le _ _)); [lia|]. cbn [orb]. by rewrite take_app_length drop_app_length.
Qed.

(** Every call makes progress. *)
Lemma parse_record_shrinks hsize l p l' :
  (0 < hsize)%nat → parse_record hsize l = Next p l' → (length l' < length l)%nat.
Proof.
  intros Hh. rewrite /parse_record. destruct (_ =? _)%nat eqn:E1; [done|]. destruct (PTRDIFF_MAX <? _); [done|].
  destruct (length l <? hsize)%nat eqn:E2; [done|]. bool_to_prop. cbv zeta. case_bool.
  { intros [= _ <-]. rewrite length_drop. lia. }
  case_bool; [done|]. case_bool; [|done]. intros [= _ <-]. rewrite !length_drop. lia.
Qed.

Lemma parse_record_sized hsize l : Z.of_nat hsize ≤ PTRDIFF_MAX → parse_record hsize l ≠ Oversized.
Proof.
  intros Hmax. rewrite /parse_record. case_bool; [done|]. rewrite (proj2 (Z.ltb_ge _ _)) //.
  cbv zeta. by repeat case_bool.
Qed.

(** The shape of a packet. *)
Lemma parse_record_shape hsize l p l' :
  parse_record hsize l = Next p l' →
  p = [] ∨ (∃ m, p = TAIFEX_ESC_CODE :: m) ∧ (∃ pre post, l = pre ++ p ++ post)
           ∧ Z.of_nat (length p) ≤ MAX_SANE_PACKET_LENGTH.
Proof.
  rewrite /parse_record. do 3 (case_bool; [done|]). cbv zeta. case_bool; [intros [= <- _]; by left|].
  destruct (_ <? stated_length _) eqn:En; [done|]. case_bool; [|done]. intros [= <- _].
  set n := Z.to_nat _. set d := drop hsize l.
  destruct (message_of_spec (take n d)) as [->|(pre & m & Ed & _ & Em)]; [by left|]. right.
  rewrite Em. split_and!; [by eexists| |].
  - exists (take hsize l ++ pre), (drop n d).
    transitivity (take hsize l ++ take n d ++ drop n d); [by rewrite !take_drop|].
    by rewrite Ed -!app_assoc.
  - have Hl : (length (take n d) ≤ n)%nat by rewrite length_take; lia.
    rewrite Ed length_app in Hl. bool_to_prop. rewrite /n in Hl. rewrite /MAX_SANE_PACKET_LENGTH in En |- *. lia.
Qed.

Lemma read_packets_records rs tail s :
  (12 ≤ pcap_packet_header_size_ s)%nat → Z.of_nat (pcap_packet_header_size_ s) ≤ PTRDIFF_MAX → Forall (record_ok (pcap_packet_header_size_ s)) rs →
  at_rest s (concat (record_bytes <$> rs) ++ tail) →
  ∃ s', read_packets (length rs) s = (s', Ok (message_of <$> (rec_data <$> rs)))
    ∧ at_rest s' tail ∧ same_config s s'.
Proof.
  revert s. induction rs as [|r rs IH]; intros s Hh Hmax Hok Hs; [by exists s|].
  apply Forall_cons in Hok as [Hr Hok]. cbn [fmap list_fmap concat] in Hs. rewrite -app_assoc in Hs.
  pose proof (get_next_rest s _ Hs) as H. rewrite parse_record_ok // in H.
  destruct H as (s1 & E1 & H1 & Hc1). have [_ [_ Eh]] := Hc1.
  destruct (IH s1) as (s2 & E2 & H2 & Hc2); [by rewrite Eh..|done|].
  exists s2. cbn [length read_packets]. run_method. rewrite E1 E2. split; [done|]. split; [done|].
  destruct Hc1 as (?&?&?), Hc2 as (?&?&?); split_and!; congruence.
Qed.

End Reading.

(** [open] on a file that can be opened. *)
Lemma open_rest `{FileSystem} s file :
  is_file_open_ s = false → associated (file_stream_ s) = None →
  fs_file (log_filepath_ s) = Some file → Z.of_nat (global_header_to_skip_ s) < 2 ^ 63 →
  ∃ s', open s = (s', Ok true) ∧ at_rest s' (drop (global_header_to_skip_ s) file)
    ∧ same_config s s'.
Proof.
  intros Hf Ha Hfs Hn. rewrite /open /on_stream. run_method. rewrite Hf /= /stream_open Ha Hfs. cbn.
  destruct (global_header_to_skip_ s) as [|g] eqn:Eg; cbn -[streamoff seekg].
  - eexists. by split_and!.
  - have Hr := seekg_reading (S g) (mkStream (Some file) 0 false false) file eq_refl eq_refl Hn.
    have [-> _] := Hr. cbn -[streamoff seekg]. eexists. by split_and!.
Qed.

(** ** Properties *)

Section Properties.
Context `{host : Host} `{fs : FileSystem}.

(** C11: reading inverts the file format: on a file made of a global header and
    any list of well-formed records, with a packet header size that a vector can
    have, [open] succeeds and successive calls of
    [get_next_taifex_packet] return the message of every record, in order, with
    whatever follows the records left to read; a tail that is no complete
    record then yields an empty packet and the end of the packets. *)
Theorem capture_roundtrip path global rs tail h (Hh : (12 ≤ h)%nat) (Hmax : Z.of_nat h ≤ PTRDIFF_MAX)
    (Hg : Z.of_nat (length global) < 2 ^ 63) (Hrs : Forall (record_ok h) rs)
    (Hfile : fs_file path = Some (capture global rs ++ tail)) :
  ∃ s1 s2,
    open (LogFilePacketSimulator_new path (length global) h) = (s1, Ok true)
    ∧ read_packets (length rs) s1 = (s2, Ok (message_of <$> (rec_data <$> rs)))
    ∧ at_rest s2 tail
    ∧ (parse_record h tail = EndOfFile →
         ∃ s3, get_next_taifex_packet s2 = (s3, Ok []) ∧ (has_next_packet s3).2 = Ok false).
Proof.
  set s0 := LogFilePacketSimulator_new path (length global) h.
  destruct (open_rest s0 _ eq_refl eq_refl Hfile Hg) as (s1 & E1 & H1 & Hc1).
  rewrite /capture -app_assoc drop_app_length in H1. have [_ [_ Eh1]] := Hc1.
  destruct (read_packets_records rs tail s1) as (s2 & E2 & H2 & Hc2); [by rewrite Eh1..|done|].
  exists s1, s2. split_and!; [done..|]. intros Hend.
  pose proof (get_next_rest s2 tail H2) as H. have [_ [_ Eh2]] := Hc2.
  rewrite Eh2 Eh1 Hend in H. destruct H as (s3 & E3 & [Ho Hgd] & _). exists s3. split; [done|].
  rewrite /has_next_packet. run_method. by rewrite Ho Hgd.
Qed.

(** C39: the type of a packet: in any state of the simulator
    [get_next_taifex_packet] returns, without a stray read, either nothing or a
    message that starts with the escape byte, is a contiguous part of the unread
    file and has at most 70000 bytes; except that it throws [std::length_error],
    and leaves the simulator as it is, exactly when a file is open with bytes
    left to read and the packet header size exceeds the largest size of a
    vector.  (Memory is not limited in the model.) *)
Theorem packet_shape s :
  let more := is_open s && good (file_stream_ s) && bool_decide (rest_of (file_stream_ s) ≠ []) in
  if more && (PTRDIFF_MAX <? Z.of_nat (pcap_packet_header_size_ s))
  then get_next_taifex_packet s = (s, Throw std_length_error)
  else ∃ s' p, get_next_taifex_packet s = (s', Ok p)
    ∧ (p = [] ∨ (∃ m, p = TAIFEX_ESC_CODE :: m)
                ∧ (∃ pre post, rest_of (file_stream_ s) = pre ++ p ++ post)
                ∧ Z.of_nat (length p) ≤ MAX_SANE_PACKET_LENGTH).
Proof.
  intros more. rewrite /more. destruct (is_open s) eqn:Ho; last first.
  { exists s, []. split; [|by left]. rewrite /get_next_taifex_packet. run_method. by rewrite Ho. }
  destruct (good (file_stream_ s)) eqn:Hg; last first.
  { exists s, []. split; [|by left]. rewrite /get_next_taifex_packet /has_next_packet. run_method.
    rewrite Ho. cbn. by rewrite Ho Hg. }
  cbn [andb]. clear more. have Hs : at_rest s (rest_of (file_stream_ s)).
  { apply andb_prop in Ho as [Hf Ho]. by apply bool_decide_eq_true in Ho. }
  pose proof (get_next_rest s _ Hs) as H. set l := rest_of (file_stream_ s) in H |- *.
  destruct (_ && _) eqn:Eb.
  - apply andb_prop in Eb as [El%bool_decide_eq_true Emax]. rewrite /parse_record Emax in H.
    by destruct l.
  - destruct (parse_record _ l) as [p l'| | |] eqn:Ep; [destruct H as (s' & E & _)..|].
    + exists s', p. split; [done|]. by eapply parse_record_shape.
    + exists s', []. by split; [|left].
    + exists s', []. by split; [|left].
    + destruct l as [|b l0]; [done|]. rewrite bool_decide_true // in Eb. cbn [andb] in Eb. bool_to_prop.
      by apply parse_record_sized in Ep.
Qed.

(** A record that states more than 70000 bytes ends the reading: the call
    returns nothing and closes the file, and no later call finds a packet. *)
Theorem corrupt_length_closes s l (Hs : at_rest s l)
    (Hbad : parse_record (pcap_packet_header_size_ s) l = Corrupt) :
  ∃ s', get_next_taifex_packet s = (s', Ok []) ∧ is_open s' = false
    ∧ has_next_packet s' = (s', Ok false) ∧ get_next_taifex_packet s' = (s', Ok []).
Proof.
  pose proof (get_next_rest s l Hs) as H. rewrite Hbad in H. destruct H as (s' & E & Ho & _).
  rewrite /closed in Ho. exists s'. split_and!; [done..| |].
  - rewrite /has_next_packet. run_method. by rewrite Ho.
  - rewrite /get_next_taifex_packet. run_method. by rewrite Ho.
Qed.

(** [open] does not notice a file shorter than the global header: it reports
    success, and the first look for a packet finds the end of the file. *)
Theorem short_file_opens path file g h (Hshort : (length file ≤ g)%nat) (Hg : Z.of_nat g < 2 ^ 63)
    (Hfile : fs_file path = Some file) :
  ∃ s1, open (LogFilePacketSimulator_new path g h) = (s1, Ok true)
    ∧ (has_next_packet s1).2 = Ok false.
Proof.
  destruct (open_rest (LogFilePacketSimulator_new path g h) file eq_refl eq_refl Hfile Hg)
    as (s1 & E1 & H1 & _).
  cbn in H1. rewrite drop_ge // in H1. exists s1. split; [done|].
  destruct (has_next_rest s1 [] H1) as (s2 & -> & _). done.
Qed.

End Properties.

(** *** Sample data *)

(** A capture of two records, the first with no escape byte, and a cut third
    header. *)
Definition sample_records : list pcap_record :=
  [mkRecord (repeat 0 8 ++ [2; 0; 0; 0; 2; 0; 0; 0]) [1; 2];
   mkRecord (repeat 0 8 ++ [4; 0; 0; 0; 4; 0; 0; 0]) [9; 27; 5; 6]].
Definition sample_fs : FileSystem :=
  λ path, if decide (path = str "cap") then Some (capture (repeat 7 24) sample_records ++ [1; 2; 3])
          else None.

Lemma capture_roundtrip_witness :
  let host : Host := LittleEndian in
  let fs : FileSystem := sample_fs in
  ∃ s1 s2,
    open (LogFilePacketSimulator_new (str "cap") 24 16) = (s1, Ok true)
    ∧ read_packets 2 s1 = (s2, Ok [[]; [27; 5; 6]])
    ∧ at_rest s2 [1; 2; 3]
    ∧ (parse_record 16 [1; 2; 3] = EndOfFile →
         ∃ s3, get_next_taifex_packet s2 = (s3, Ok []) ∧ (has_next_packet s3).2 = Ok false).
Proof.
  intros host fs.
  apply (capture_roundtrip (host := host) (fs := fs) (str "cap") (repeat 7 24) sample_records [1; 2; 3] 16).
  - lia.
  - vm_compute. discriminate.
  - simpl. lia.
  - repeat (constructor; [split_and!; vm_compute; congruence|]). constructor.
  - reflexivity.
Defined.

Definition corrupt_simulator : LogFilePacketSimulator :=
  mkSimulator (str "cap") (mkStream (Some (repeat 255 16)) 0 false false) true 0 16.

Lemma corrupt_length_closes_witness :
  let host : Host := LittleEndian in
  ∃ s', get_next_taifex_packet corrupt_simulator = (s', Ok []) ∧ is_open s' = false
    ∧ has_next_packet s' = (s', Ok false) ∧ get_next_taifex_packet s' = (s', Ok []).
Proof.
  intros host. apply (corrupt_length_closes (host := host) corrupt_simulator (repeat 255 16)).
  - split; [reflexivity|]. split_and!; [reflexivity|by eexists|reflexivity].
  - vm_compute. reflexivity.
Defined.
