(* ===== verification/PcapReplay.v ===== *)
(** * The replay program (examples/pcap_replay_example.cpp)

    [main] opens a capture, feeds every message of it to a fresh SDK object and
    closes the file.  The local variables of [main] are the record [Replay].
    The loop carries fuel; what is left of the file bounds its passes, since a
    pass that does not end the loop consumes a record header. *)

From S2P Require Import Prelude PackBcd CommonHeader TaifexSdk SdkStream EndianUtils FileStream.
From S2P Require Import LogFilePacketSimulator MessageI081.

(** ** Definitions *)

Record Replay : Type := mkReplay {
  sdk : TaifexSdk;
  simulator : LogFilePacketSimulator;
  packet_count : Z;
}.

Definition Replay_new (log_filepath : list Z) : Replay :=
  mkReplay TaifexSdk_new
    (LogFilePacketSimulator_new log_filepath DEFAULT_GLOBAL_HEADER_SIZE DEFAULT_PACKET_HEADER_SIZE) 0.

(** Calls on the two objects. *)
Definition on_sdk {A} (m : method TaifexSdk A) : method Replay A :=
  λ r, let '(s, a) := m (sdk r) in (mkReplay s (simulator r) (packet_count r), a).
Definition on_simulator {A} (m : method LogFilePacketSimulator A) : method Replay A :=
  λ r, let '(s, a) := m (simulator r) in (mkReplay (sdk r) s (packet_count r), a).

Section Replay.
Context `{host : Host} `{fs : FileSystem}.

Fixpoint replay_loop (fuel : nat) : method Replay unit :=
  match fuel with
  | O => lift Undefined
  | S fuel =>
      more ← on_simulator has_next_packet;
      if negb more then mret tt
      else
        taifex_packet ← on_simulator get_next_taifex_packet;
        if negb (length taifex_packet =? 0)%nat then
          modify (λ r, mkReplay (sdk r) (simulator r) (packet_count r + 1));;
          on_sdk (process_message (Some taifex_packet) (length taifex_packet));;
          replay_loop fuel
        else
          more ← on_simulator has_next_packet;
          r ← get;
          if negb more && is_open (simulator r) then mret tt
          else if is_open (simulator r) then replay_loop fuel
          else mret tt
  end.

Definition main (argv : list (list Z)) : method Replay Z :=
  if (length argv <? 2)%nat then mret 1
  else
    match argv !! 1%nat with
    | None => lift Undefined
    | Some log_filepath =>
        modify (λ _, Replay_new log_filepath);;
        ok ← on_sdk initialize;
        if negb ok then mret 1
        else
          code ← (ok ← on_simulator open;
                  if negb ok then mret 1
                  else
                    r ← get;
                    replay_loop (S (length (rest_of (file_stream_ (simulator r)))));;
                    on_simulator close;;
                    mret 0);
          on_simulator LogFilePacketSimulator_destroy;;
          mret code
    end.

(** The messages a replay of the bytes [l] hands to the SDK. *)
Fixpoint replayed (fuel hsize : nat) (l : list Z) : list (list Z) :=
  match fuel with
  | O => []
  | S fuel =>
      match parse_record hsize l with
      | Next [] l' => replayed fuel hsize l'
      | Next p l' => p :: replayed fuel hsize l'
      | _ => []
      end
  end.

(** ** Lemmas *)

(** Of the locals after a loop: what the SDK has become, and the count. *)
Definition replay_outcome (ps : list (list Z)) (r : Replay) (o : Replay * result unit) : Prop :=
  let '(s', res) := process_messages ps (sdk r) in
  o.2 = res ∧ sdk o.1 = s'
  ∧ (res = Ok tt → packet_count o.1 = packet_count r + Z.of_nat (length ps)).

Lemma has_next_stopped s :
  closed s ∨ exhausted s → has_next_packet s = (s, Ok false).
Proof.
  rewrite /has_next_packet /closed. run_method. by intros [->|[-> ->]].
Qed.

Lemma at_rest_rest s l : at_rest s l → rest_of (file_stream_ s) = l.
Proof. by intros (_ & _ & _ & H). Qed.

Lemma on_simulator_eq {A} (m : method LogFilePacketSimulator A) r s a :
  m (simulator r) = (s, a) → on_simulator m r = (mkReplay (sdk r) s (packet_count r), a).
Proof. by rewrite /on_simulator => ->. Qed.

Lemma close_closes s : ∃ s', close s = (s', Ok tt) ∧ is_file_open_ s' = false.
Proof. rewrite /close /on_stream. run_method. destruct (is_file_open_ s) eqn:E; by eexists. Qed.

(** The destructor does nothing to a closed simulator. *)
Lemma close_closed s : is_file_open_ s = false → LogFilePacketSimulator_destroy s = (s, Ok tt).
Proof. intros E. rewrite /LogFilePacketSimulator_destroy /close. run_method. by rewrite E. Qed.

(** The loop hands over exactly the messages of the records, and ends. *)
Lemma replay_loop_spec fuel r l :
  at_rest (simulator r) l → (0 < pcap_packet_header_size_ (simulator r))%nat →
  Z.of_nat (pcap_packet_header_size_ (simulator r)) ≤ PTRDIFF_MAX → (length l < fuel)%nat → sdk_ok (sdk r) →
  replay_outcome (replayed fuel (pcap_packet_header_size_ (simulator r)) l) r (replay_loop fuel r).
Proof.
  revert r l. induction fuel as [|fuel IH]; intros r l Hs Hh Hmax Hf Hok; [lia|].
  set hsize := pcap_packet_header_size_ (simulator r) in Hh Hmax |- *.
  cbn [replay_loop replayed]. run_method.
  destruct (has_next_rest _ _ Hs) as (s1 & E1 & _ & H1). rewrite (on_simulator_eq _ _ _ _ E1).
  destruct (decide (l = [])) as [->|Hne]; [by rewrite /replay_outcome /= Z.add_0_r|].
  rewrite bool_decide_true // H1. cbn [negb].
  pose proof (get_next_rest _ _ Hs) as H. rewrite -/hsize in H.
  destruct (parse_record hsize l) as [p l'| | |] eqn:Ep; [..|by apply parse_record_sized in Ep];
    destruct H as (s2 & E2 & H2 & Hc2);
    rewrite (on_simulator_eq _ (mkReplay _ (simulator r) _) _ _ E2);
    cbn [sdk simulator packet_count length Nat.eqb negb].
  - have Hlt := parse_record_shrinks _ _ _ _ Hh Ep. have [_ [_ Eh]] := Hc2.
    destruct p as [|b p]; cbn [length Nat.eqb negb].
    + destruct (has_next_rest _ _ H2) as (s3 & E3 & Hc3 & H3).
      rewrite (on_simulator_eq _ (mkReplay _ s2 _) _ _ E3). cbn [sdk simulator packet_count].
      destruct (decide (l' = [])) as [->|Hne'].
      * rewrite bool_decide_false; [by intros []|]. cbn. destruct H3 as [-> _]. cbn.
        have -> : replayed fuel hsize [] = [] by destruct fuel.
        by rewrite /replay_outcome /= Z.add_0_r.
      * subst s3. rewrite bool_decide_true //. cbn [negb andb simulator].
        rewrite (at_rest_open _ _ H2). set r2 := mkReplay _ s2 _.
        have := IH r2 l' H2. rewrite /= Eh. apply; [done|done|lia|done].
    + set q := b :: p. rewrite /on_sdk. cbn [sdk simulator packet_count].
      rewrite /replay_outcome. cbn [process_messages]. run_method.
      pose proof (process_message_keeps (sdk r) (Some q) (length q) Hok (Nat.le_refl _)) as Hk.
      destruct (process_message _ _ _) as [sd [[]|e|]]; destruct Hk as (Hr & Hsd & _); [|done|].
      * set r2 := mkReplay sd s2 _. have := IH r2 l' H2. rewrite /= Eh.
        move=> /(_ Hh Hmax ltac:(lia) Hsd). rewrite /replay_outcome. cbn [sdk r2 packet_count].
        destruct (process_messages _ sd) as [sd' res]. intros (? & ? & Hcnt). split_and!; [done..|].
        intros Hres. rewrite (Hcnt Hres). cbn [length packet_count r2]. rewrite -/hsize. lia.
      * by destruct Hr.
  - have E3 := has_next_stopped s2 (or_intror H2). destruct H2 as [Ho _].
    rewrite (on_simulator_eq _ (mkReplay _ s2 _) _ _ E3) /= Ho.
    by rewrite /replay_outcome /= Z.add_0_r.
  - have E3 := has_next_stopped s2 (or_introl H2). rewrite /closed in H2.
    rewrite (on_simulator_eq _ (mkReplay _ s2 _) _ _ E3) /= H2.
    by rewrite /replay_outcome /= Z.add_0_r.
Qed.

Lemma replayed_records hsize rs tail fuel :
  (12 ≤ hsize)%nat → Z.of_nat hsize ≤ PTRDIFF_MAX → Forall (record_ok hsize) rs →
  parse_record hsize tail = EndOfFile →
  (length rs < fuel)%nat →
  replayed fuel hsize (concat (record_bytes <$> rs) ++ tail)
  = filter (λ p, p ≠ []) (message_of <$> (rec_data <$> rs)).
Proof.
  intros Hh Hmax Hrs Ht. revert fuel. induction Hrs as [|r rs Hr Hrs IH]; intros [|fuel] Hf; [lia|..|lia|].
  - cbn. by rewrite Ht.
  - cbn [fmap list_fmap concat replayed]. rewrite -app_assoc parse_record_ok //.
    rewrite filter_cons. cbn [length] in Hf. specialize (IH fuel ltac:(lia)).
    destruct (message_of (rec_data r)) as [|b m]; case_decide as Hm; try done.
    by rewrite IH.
Qed.

(** [main] on a file that can be opened. *)
Lemma main_opened prog path argv file r0 :
  fs_file path = Some file →
  let body := drop DEFAULT_GLOBAL_HEADER_SIZE file in
  let ps := replayed (S (length body)) DEFAULT_PACKET_HEADER_SIZE body in
  let '(s', res) := process_messages ps (initialize TaifexSdk_new).1 in
  let '(r', out) := main (prog :: path :: argv) r0 in
  sdk r' = s'
  ∧ match res with
    | Ok _ => out = Ok 0 ∧ packet_count r' = Z.of_nat (length ps) ∧ is_file_open_ (simulator r') = false
    | Throw e => out = Throw e
    | Undefined => False
    end.
Proof.
  intros Hfile body ps. set s0 := (initialize TaifexSdk_new).1.
  have Hs0 : sdk_ok s0 by split_and!; apply map_Forall_empty.
  destruct (open_rest (LogFilePacketSimulator_new path DEFAULT_GLOBAL_HEADER_SIZE
    DEFAULT_PACKET_HEADER_SIZE) file eq_refl eq_refl Hfile) as (s1 & E1 & H1 & Hc1); [done|].
  rewrite -/body in H1. have [_ [_ Eh]] := Hc1.
  set r1 := mkReplay s0 s1 0.
  pose proof (replay_loop_spec (S (length body)) r1 body H1) as Hspec.
  rewrite [pcap_packet_header_size_ (simulator r1)]Eh in Hspec.
  specialize (Hspec ltac:(apply Nat.lt_0_succ) ltac:(by vm_compute) ltac:(lia) Hs0). rewrite /replay_outcome in Hspec.
  cbn [pcap_packet_header_size_ LogFilePacketSimulator_new] in Hspec. rewrite -/ps -/s0 in Hspec.
  change (sdk r1) with s0 in Hspec.
  pose proof (process_messages_keeps ps s0 Hs0) as Hk.
  have -> : main (prog :: path :: argv) r0
          = (replay_loop (S (length body));; on_simulator close;;
             on_simulator LogFilePacketSimulator_destroy;; mret 0) r1.
  { rewrite /main. run_method. cbn [length Nat.ltb Nat.leb lookup list_lookup].
    change (on_sdk initialize (Replay_new path))
      with (mkReplay s0 (simulator (Replay_new path)) 0, Ok true). cbn [negb].
    rewrite (on_simulator_eq open (mkReplay s0 (simulator (Replay_new path)) 0) _ _ E1).
    cbn [negb simulator]. rewrite (at_rest_rest _ _ H1).
    destruct (replay_loop _ _) as [r2 [[]|e|]]; [|done..].
    by destruct (on_simulator close r2) as [r3 [[]|e|]]. }
  run_method. destruct (process_messages ps s0) as [s' res].
  destruct (replay_loop _ r1) as [r2 res2]. cbn in Hspec. destruct Hspec as (-> & <- & Hcnt).
  destruct Hk as (Hres & _). destruct res as [[]|e|]; [|done|by destruct Hres].
  destruct (close_closes (simulator r2)) as (s3 & E3 & H3).
  rewrite (on_simulator_eq _ _ _ _ E3). rewrite (on_simulator_eq _ (mkReplay _ s3 _) _ _ (close_closed s3 H3)).
  cbn. by rewrite Hcnt.
Qed.

(** ** Properties *)

(** C12: termination: whatever the arguments and the contents of the file, the
    replay ends: [main] returns 0 (after closing the file) or 1, or an uncaught
    [ParsingError] of [process_message] ends the program; the loop never runs
    out of passes and never reads outside its buffers. *)
Theorem replay_terminates argv r0 :
  ∃ r' out, main argv r0 = (r', out) ∧ (out = Ok 0 ∨ out = Ok 1 ∨ out = Throw ParsingError)
    ∧ (out = Ok 0 → is_file_open_ (simulator r') = false).
Proof.
  destruct argv as [|prog [|path argv]]; [by exists r0, (Ok 1); split_and!; [|right; left|]..|].
  destruct (fs_file path) as [file|] eqn:Hfile.
  - pose proof (main_opened prog path argv file r0 Hfile) as H. cbv zeta in H.
    set ps := replayed _ _ _ in H. set s0 := (initialize TaifexSdk_new).1 in H.
    have Hs0 : sdk_ok s0 by split_and!; apply map_Forall_empty.
    pose proof (process_messages_keeps ps s0 Hs0) as Hk.
    destruct (process_messages ps s0) as [s' res], (main _ r0) as [r' out].
    exists r', out. destruct H as [_ H]. destruct Hk as [Hres _].
    destruct res as [[]|e|]; [|destruct Hres as [?|[= ->]]; [done|]|done].
    + destruct H as (-> & _ & ?). split_and!; [done|by left|done].
    + rewrite H. split_and!; [done|by right; right|done].
  - eexists _, (Ok 1). split; [|by split; [right; left|]].
    rewrite /main. run_method. cbn.
    rewrite /on_simulator /open /on_stream. run_method. cbn. by rewrite /stream_open /= Hfile.
Qed.

(** A replay is a run of the SDK over the captured messages: for a capture
    of well-formed records whose messages are well-formed frames (records
    without an escape byte are skipped), cut off anywhere in a last incomplete
    record, [main] returns 0, and the SDK has accepted exactly the frames of
    the file, each once and in file order. *)
Theorem replay_accepts_frames prog path argv global rs tail hs ps r0
    (Hg : length global = DEFAULT_GLOBAL_HEADER_SIZE)
    (Hrs : Forall (record_ok DEFAULT_PACKET_HEADER_SIZE) rs)
    (Htail : parse_record DEFAULT_PACKET_HEADER_SIZE tail = EndOfFile)
    (Hps : ps = filter (λ p, p ≠ []) (message_of <$> (rec_data <$> rs)))
    (Hfr : Forall2 is_frame hs ps)
    (Hfile : fs_file path = Some (capture global rs ++ tail)) :
  let '(r', out) := main (prog :: path :: argv) r0 in
  out = Ok 0 ∧ packet_count r' = Z.of_nat (length ps)
  ∧ sdk r' = accept_all (initialize TaifexSdk_new).1 hs.
Proof.
  pose proof (main_opened prog path argv _ r0 Hfile) as H. cbv zeta in H.
  rewrite /capture -app_assoc -Hg drop_app_length replayed_records // -?Hps in H.
  - rewrite /DEFAULT_PACKET_HEADER_SIZE. lia.
  - rewrite length_app. have Hl : (length rs ≤ length (concat (record_bytes <$> rs)))%nat; [|lia].
    clear -Hrs. induction Hrs as [|r rs (Hr & _) _ IH]; [done|].
    cbn [fmap list_fmap concat length]. rewrite length_app {1}/record_bytes length_app Hr.
    rewrite /DEFAULT_PACKET_HEADER_SIZE. lia.
  - rewrite (process_frames hs ps) // in H.
    destruct (main _ r0) as [r' out]. by destruct H as (? & ? & ? & _).
Qed.

End Replay.

(** *** Sample data *)

(** A capture of an Ethernet-style prefix and a frame, a record without a
    message, and a cut record. *)
Definition replay_packet : list Z := frame sample_msg_header sample_i081_body [13; 10].
Definition replay_header (n : Z) : list Z := repeat 0 8 ++ [n; 0; 0; 0; n; 0; 0; 0].
Definition replay_records : list pcap_record :=
  [mkRecord (replay_header 65) ([1; 2; 3; 4] ++ replay_packet); mkRecord (replay_header 3) [5; 6; 7]].
Definition replay_fs : FileSystem :=
  λ _, Some (capture (repeat 0 24) replay_records ++ replay_header 9 ++ [27]).

Lemma replay_accepts_frames_witness :
  let host : Host := LittleEndian in
  let fs : FileSystem := replay_fs in
  let '(r', out) := main [str "replay"; str "cap"] (Replay_new []) in
  out = Ok 0 ∧ packet_count r' = 1
  ∧ sdk r' = accept_all (initialize TaifexSdk_new).1 [sample_msg_header].
Proof.
  intros host fs.
  apply (replay_accepts_frames (host := host) (fs := fs) (str "replay") (str "cap") []
    (repeat 0 24) replay_records (replay_header 9 ++ [27]) [sample_msg_header] [replay_packet]).
  - reflexivity.
  - repeat (constructor; [split_and!; vm_compute; congruence|]). constructor.
  - vm_compute. reflexivity.
  - vm_compute. reflexivity.
  - constructor; [|constructor]. split; [apply sample_msg_valid|].
    exists sample_i081_body, 13, 10. split; [by repeat split|reflexivity].
  - reflexivity.
Defined.
