(* ===== verification/MulticastReceiver.v ===== *)
(** * The multicast receiver (networking/multicast_receiver.cpp)

    A receiver owns a list of subscriptions, each with a socket and a thread.
    The operating system is the class [McastEnv]: the answer to the n-th
    question.  [mc_trace] records the sockets opened and closed and the
    callbacks invoked; [mc_ticks] counts the answers taken.  [start] and [stop]
    are whole calls; the loop of a receiving thread is modelled pass by pass
    ([receive_pass]), and threads interleave between calls and passes.  The
    callback does not call back into the receiver.  The termination of the
    program by [std::terminate] is [Undefined]. *)

From S2P Require Import Prelude.

(** ** Definitions *)

Record MulticastGroupSubscription : Type := mkGroup {
  group_ip : list Z;
  port : Z;
  local_interface_ip : list Z;
}.

(** [errno] after [recvfrom]; [EWOULDBLOCK] is [EAGAIN]. *)
Inductive errno : Type := EAGAIN | EINTR | EBADF | OtherErrno.

Inductive recvfrom_result : Type :=
| Datagram (data : list Z)
| RecvFailed (e : errno).

(** [mc_join] has the group and the local interface, [None] for
    [INADDR_ANY]; [mc_thread]: a thread could be created. *)
Class McastEnv : Type := {
  mc_socket : nat → Z;
  mc_reuseaddr : nat → Z;
  mc_bind : nat → Z → Z;
  mc_join : nat → list Z → option (list Z) → Z;
  mc_rcvtimeo : nat → Z;
  mc_thread : nat → bool;
  mc_recvfrom : nat → recvfrom_result;
}.

(** [receiver_thread]: joinable. *)
Record ActiveSubscription : Type := mkSub {
  config : MulticastGroupSubscription;
  socket_fd : Z;
  receiver_thread : bool;
  thread_running_flag : bool;
}.

Definition ActiveSubscription_new (cfg : MulticastGroupSubscription) : ActiveSubscription :=
  mkSub cfg (-1) false false.

Inductive mc_event : Type :=
| Opened (fd : Z)
| Closed (fd : Z)
| Delivered (data : list Z) (source_group_ip : list Z) (source_group_port : Z).

(** [data_callback_]: a callback is set. *)
Record MulticastReceiver : Type := mkReceiver {
  data_callback_ : bool;
  subscriptions_ : list ActiveSubscription;
  running_ : bool;
  mc_trace : list mc_event;
  mc_ticks : nat;
}.

Definition MulticastReceiver_new (callback : bool) : MulticastReceiver :=
  mkReceiver callback [] false [] 0.

Section Setters.
Context (r : MulticastReceiver).

Definition set_subs (l : list ActiveSubscription) : MulticastReceiver :=
  mkReceiver (data_callback_ r) l (running_ r) (mc_trace r) (mc_ticks r).
Definition set_run (b : bool) : MulticastReceiver :=
  mkReceiver (data_callback_ r) (subscriptions_ r) b (mc_trace r) (mc_ticks r).
Definition record_event (e : mc_event) : MulticastReceiver :=
  mkReceiver (data_callback_ r) (subscriptions_ r) (running_ r) (mc_trace r ++ [e]) (mc_ticks r).
Definition mc_tick : MulticastReceiver :=
  mkReceiver (data_callback_ r) (subscriptions_ r) (running_ r) (mc_trace r) (S (mc_ticks r)).

End Setters.

Definition set_fd (fd : Z) (s : ActiveSubscription) : ActiveSubscription :=
  mkSub (config s) fd (receiver_thread s) (thread_running_flag s).
Definition set_flag (b : bool) (s : ActiveSubscription) : ActiveSubscription :=
  mkSub (config s) (socket_fd s) (receiver_thread s) b.
Definition set_thread (b : bool) (s : ActiveSubscription) : ActiveSubscription :=
  mkSub (config s) (socket_fd s) b (thread_running_flag s).

(** A change of the subscription a pointer designates. *)
Definition update_sub (i : nat) (f : ActiveSubscription → ActiveSubscription)
    : method MulticastReceiver unit :=
  modify (λ r, set_subs r (alter f i (subscriptions_ r))).

Definition add_subscription (group_ip : list Z) (port : Z) (local_interface_ip : list Z)
    : method MulticastReceiver bool :=
  r ← get;
  if running_ r then mret false
  else
    let config := mkGroup group_ip port local_interface_ip in
    modify (λ r, set_subs r (subscriptions_ r ++ [ActiveSubscription_new config]));;
    mret true.

Definition BUFFER_SIZE : nat := Z.to_nat 65535.

Section Receiver.
Context `{env : McastEnv}.

Definition mc_ask {A} (answer : nat → A) : method MulticastReceiver A :=
  r ← get; modify mc_tick;; mret (answer (mc_ticks r)).

(** [close(sub->socket_fd); sub->socket_fd = -1;], then [continue]. *)
Definition abandon (i : nat) (fd : Z) : method MulticastReceiver bool :=
  modify (λ r, record_event r (Closed fd));;
  update_sub i (set_fd (-1));;
  mret false.

(** The body of the loop of [start] for subscription [i]; the result tells
    whether the subscription was started. *)
Definition start_subscription (i : nat) : method MulticastReceiver bool :=
  r ← get;
  match subscriptions_ r !! i with
  | None => lift Undefined
  | Some sub =>
      fd ← mc_ask mc_socket;
      update_sub i (set_fd fd);;
      if fd <? 0 then mret false
      else
        modify (λ r, record_event r (Opened fd));;
        reuse ← mc_ask mc_reuseaddr;
        if reuse <? 0 then abandon i fd
        else
          bound ← mc_ask (λ n, mc_bind n (port (config sub)));
          if bound <? 0 then abandon i fd
          else
            let interface := match local_interface_ip (config sub) with
                             | [] => None | ip => Some ip end in
            joined ← mc_ask (λ n, mc_join n (group_ip (config sub)) interface);
            if joined <? 0 then abandon i fd
            else
              mc_ask mc_rcvtimeo;;
              update_sub i (set_flag true);;
              created ← mc_ask mc_thread;
              if negb created then lift (Throw std_system_error)
              else if receiver_thread sub then lift Undefined
              else update_sub i (set_thread true);; mret true
  end.

Fixpoint start_loop (idx : list nat) (any_started_successfully : bool) : method MulticastReceiver bool :=
  match idx with
  | [] => mret any_started_successfully
  | i :: idx =>
      started ← start_subscription i;
      start_loop idx (any_started_successfully || started)
  end.

Definition start : method MulticastReceiver bool :=
  r ← get;
  if running_ r then mret true
  else if (length (subscriptions_ r) =? 0)%nat then mret false
  else
    modify (λ r, set_run r true);;
    any_started_successfully ← start_loop (seq 0 (length (subscriptions_ r))) false;
    r ← get;
    if negb any_started_successfully && negb (length (subscriptions_ r) =? 0)%nat then
      modify (λ r, set_run r false);; mret false
    else mret true.

(** The body of the loop of [stop]: the thread is joined, the socket closed. *)
Definition stop_subscription (sub : ActiveSubscription) : ActiveSubscription * list mc_event :=
  let sub := set_flag false sub in
  let sub := if receiver_thread sub then set_thread false sub else sub in
  if 0 <=? socket_fd sub then (set_fd (-1) sub, [Closed (socket_fd sub)]) else (sub, []).

Fixpoint stop_loop (subs : list ActiveSubscription) : list ActiveSubscription * list mc_event :=
  match subs with
  | [] => ([], [])
  | sub :: subs =>
      let '(sub', ev) := stop_subscription sub in
      let '(subs', evs) := stop_loop subs in
      (sub' :: subs', ev ++ evs)
  end.

Definition stop : method MulticastReceiver unit :=
  r ← get;
  if negb (running_ r) then mret tt
  else
    modify (λ r, set_run r false);;
    modify (λ r, let '(subs, evs) := stop_loop (subscriptions_ r) in
                 foldl record_event (set_subs r subs) evs);;
    modify (λ r, set_subs r []).

(** One pass of [receive_loop] for subscription [i]; the result tells whether
    the thread goes on.  The check of the socket, which the function makes once
    before its loop, is repeated: the socket of a running thread does not
    change. *)
Definition receive_pass (i : nat) : method MulticastReceiver bool :=
  r ← get;
  match subscriptions_ r !! i with
  | None => lift Undefined
  | Some sub =>
      if socket_fd sub <? 0 then mret false
      else if negb (running_ r && thread_running_flag sub) then mret false
      else
        answer ← mc_ask mc_recvfrom;
        match answer with
        | RecvFailed EAGAIN => mret true
        | RecvFailed e =>
            if negb (running_ r && thread_running_flag sub)
               && match e with EINTR | EBADF => true | _ => false end
            then mret false else mret true
        | Datagram data =>
            let data := take BUFFER_SIZE data in
            if (0 <? length data)%nat && data_callback_ r then
              modify (λ r, record_event r
                        (Delivered data (group_ip (config sub)) (port (config sub))));;
              mret true
            else mret true
        end
  end.

End Receiver.

(** *** Specification vocabulary *)

Definition is_opened (e : mc_event) : option Z := match e with Opened fd => Some fd | _ => None end.
Definition is_closed (e : mc_event) : option Z := match e with Closed fd => Some fd | _ => None end.
Definition opened (t : list mc_event) : list Z := omap is_opened t.
Definition closed_fds (t : list mc_event) : list Z := omap is_closed t.

#[global] Arguments opened : simpl never.
#[global] Arguments closed_fds : simpl never.

(** The socket a subscription holds. *)
Definition live (s : ActiveSubscription) : list Z := if 0 <=? socket_fd s then [socket_fd s] else [].

(** A subscription at rest: no socket, no thread. *)
Definition idle (s : ActiveSubscription) : Prop :=
  socket_fd s < 0 ∧ receiver_thread s = false ∧ thread_running_flag s = false.
(** A thread has a socket and is told to run. *)
Definition sub_ok (s : ActiveSubscription) : Prop :=
  receiver_thread s = true → 0 ≤ socket_fd s ∧ thread_running_flag s = true.
(** A subscription with a running thread. *)
Definition listening (s : ActiveSubscription) : Prop :=
  0 ≤ socket_fd s ∧ receiver_thread s = true ∧ thread_running_flag s = true.

(** Every socket opened is closed, or held by exactly one subscription. *)
Definition ledger (r : MulticastReceiver) : Prop :=
  opened (mc_trace r) ≡ₚ closed_fds (mc_trace r) ++ concat (live <$> subscriptions_ r).

Definition receiver_inv (r : MulticastReceiver) : Prop :=
  ledger r ∧ Forall sub_ok (subscriptions_ r)
  ∧ (running_ r = false → Forall idle (subscriptions_ r)).

Inductive mc_call : Type :=
| AddSubscription (ip : list Z) (p : Z) (iface : list Z)
| McStart
| McStop
| McPass (i : nat).

Definition mc_exec `{env : McastEnv} (k : mc_call) : method MulticastReceiver unit :=
  match k with
  | AddSubscription ip p iface => add_subscription ip p iface;; mret tt
  | McStart => start;; mret tt
  | McStop => stop
  | McPass i => receive_pass i;; mret tt
  end.

Inductive mc_reach `{env : McastEnv} : MulticastReceiver → Prop :=
| mc_reach_new cb : mc_reach (MulticastReceiver_new cb)
| mc_reach_step r k : mc_reach r → mc_reach (mc_exec k r).1.

(** ** Lemmas *)

Lemma opened_app t1 t2 : opened (t1 ++ t2) = opened t1 ++ opened t2.
Proof. apply omap_app. Qed.
Lemma closed_fds_app t1 t2 : closed_fds (t1 ++ t2) = closed_fds t1 ++ closed_fds t2.
Proof. apply omap_app. Qed.

Lemma live_idle s : socket_fd s < 0 → live s = [].
Proof. intros. by rewrite /live (proj2 (Z.leb_gt _ _)). Qed.

Lemma concat_live_idle subs : Forall idle subs → concat (live <$> subs) = [].
Proof. induction 1 as [|s subs (Hs & _) _ IH]; [done|]. by rewrite /= live_idle. Qed.

(** What starting subscription [i] does, as a description of its result: the
    subscription afterwards, the events, and the verdict. *)
Inductive started (sub : ActiveSubscription) : ActiveSubscription → list mc_event → result bool → Prop :=
| started_no_socket fd : fd < 0 → started sub (set_fd fd sub) [] (Ok false)
| started_gave_up fd : 0 ≤ fd → started sub (set_fd (-1) sub) [Opened fd; Closed fd] (Ok false)
| started_no_thread fd : 0 ≤ fd →
    started sub (set_flag true (set_fd fd sub)) [Opened fd] (Throw std_system_error)
| started_ok fd : 0 ≤ fd →
    started sub (set_thread true (set_flag true (set_fd fd sub))) [Opened fd] (Ok true).

(** The receiver with subscription [i] replaced and events and ticks added. *)
Definition after (r : MulticastReceiver) (i : nat) (sub : ActiveSubscription) (evs : list mc_event)
    (k : nat) : MulticastReceiver :=
  mkReceiver (data_callback_ r) (<[i := sub]> (subscriptions_ r)) (running_ r)
    (mc_trace r ++ evs) (mc_ticks r + k).

Lemma receiver_ext r1 r2 :
  data_callback_ r1 = data_callback_ r2 → subscriptions_ r1 = subscriptions_ r2 →
  running_ r1 = running_ r2 → mc_trace r1 = mc_trace r2 → mc_ticks r1 = mc_ticks r2 → r1 = r2.
Proof. destruct r1, r2; simpl; congruence. Qed.

Lemma list_alter_insert {A} (f : A → A) (i : nat) (l : list A) x :
  l !! i = Some x → alter f i l = <[i := f x]> l.
Proof.
  intros Hx. apply list_eq. intros j. destruct (decide (i = j)) as [<-|Hne].
  - rewrite list_lookup_alter_eq Hx list_lookup_insert_eq //. by eapply lookup_lt_Some.
  - by rewrite list_lookup_alter_ne // list_lookup_insert_ne.
Qed.

Lemma list_alter_alter {A} (f g : A → A) (i : nat) (l : list A) :
  alter f i (alter g i l) = alter (f ∘ g) i l.
Proof.
  apply list_eq. intros j. destruct (decide (i = j)) as [<-|Hne].
  - rewrite !list_lookup_alter_eq. by destruct (l !! i).
  - by rewrite !list_lookup_alter_ne.
Qed.

(** Closes the equation of a receiver after a number of updates of one
    subscription with the shape [after]. *)
Ltac collect_updates Hi :=
  f_equal; apply receiver_ext; cbn; rewrite -?app_assoc ?app_nil_r //;
  [by rewrite ?list_alter_alter (list_alter_insert _ _ _ _ Hi)|lia].

Section Start.
Context `{env : McastEnv}.

Lemma start_subscription_spec i r sub :
  subscriptions_ r !! i = Some sub → idle sub →
  ∃ sub' evs res k, start_subscription i r = (after r i sub' evs k, res) ∧ started sub sub' evs res.
Proof.
  intros Hi (_ & Ht & _). rewrite /start_subscription /mc_ask /update_sub /abandon. run_method.
  rewrite Hi. cbn -[Z.ltb]. set fd := mc_socket _. destruct (fd <? 0) eqn:Efd; bool_to_prop.
  { exists (set_fd fd sub), [], (Ok false), 1%nat.
    split; [collect_updates Hi|by apply started_no_socket]. }
  destruct (mc_reuseaddr _ <? 0).
  { exists (set_fd (-1) sub), [Opened fd; Closed fd], (Ok false), 2%nat.
    split; [collect_updates Hi|by apply started_gave_up]. }
  destruct (mc_bind _ _ <? 0).
  { exists (set_fd (-1) sub), [Opened fd; Closed fd], (Ok false), 3%nat.
    split; [collect_updates Hi|by apply started_gave_up]. }
  destruct (mc_join _ _ _ <? 0).
  { exists (set_fd (-1) sub), [Opened fd; Closed fd], (Ok false), 4%nat.
    split; [collect_updates Hi|by apply started_gave_up]. }
  rewrite Ht. destruct (mc_thread _); cbn.
  - exists (set_thread true (set_flag true (set_fd fd sub))), [Opened fd], (Ok true), 6%nat.
    split; [collect_updates Hi|by apply started_ok].
  - exists (set_flag true (set_fd fd sub)), [Opened fd], (Throw std_system_error), 6%nat.
    split; [collect_updates Hi|by apply started_no_thread].
Qed.

Lemma started_facts sub sub' evs res :
  idle sub → started sub sub' evs res →
  sub_ok sub' ∧ opened evs ≡ₚ closed_fds evs ++ live sub' ∧ config sub' = config sub
  ∧ match res with
    | Ok true => listening sub'
    | Ok false => idle sub'
    | Throw e => e = std_system_error
    | Undefined => False
    end.
Proof.
  intros (Hfd & Ht & Hf) [fd H|fd H|fd H|fd H]; rewrite /sub_ok /live /idle /listening /= ?Ht ?Hf.
  - by rewrite (proj2 (Z.leb_gt _ _)).
  - by split_and!.
  - by rewrite (proj2 (Z.leb_le _ _)).
  - by rewrite (proj2 (Z.leb_le _ _)).
Qed.

Lemma after_ledger r i sub sub' evs k :
  ledger r → subscriptions_ r !! i = Some sub → idle sub →
  opened evs ≡ₚ closed_fds evs ++ live sub' → ledger (after r i sub' evs k).
Proof.
  intros Hl Hi (Hfd & _) He. rewrite /ledger in Hl |- *. cbn [after mc_trace subscriptions_].
  destruct (list_elem_of_split_length _ _ _ Hi) as (l1 & l2 & El & ->). rewrite El in Hl |- *.
  rewrite opened_app closed_fds_app Hl He insert_app_r_alt // Nat.sub_diag. cbn [insert list_insert].
  rewrite !fmap_app !fmap_cons !concat_app /= (live_idle sub) // app_nil_l -!app_assoc. f_equiv.
  rewrite (Permutation_app_swap_app (closed_fds evs) (concat (live <$> l1))). f_equiv.
  by rewrite Permutation_app_comm -!app_assoc.
Qed.

(** The loop of [start], from subscription [i] on. *)
Definition start_outcome (i : nat) (any : bool) (r r' : MulticastReceiver) (res : result bool) : Prop :=
  ledger r' ∧ Forall sub_ok (subscriptions_ r') ∧ running_ r' = running_ r
  ∧ data_callback_ r' = data_callback_ r
  ∧ config <$> subscriptions_ r' = config <$> subscriptions_ r
  ∧ match res with
    | Ok b => take i (subscriptions_ r') = take i (subscriptions_ r)
              ∧ Forall (λ s, listening s ∨ idle s) (drop i (subscriptions_ r'))
              ∧ (b = true ↔ any = true ∨ Exists listening (drop i (subscriptions_ r')))
    | Throw e => e = std_system_error
    | Undefined => False
    end.

Lemma start_loop_spec n i any r :
  (i + n)%nat = length (subscriptions_ r) → Forall idle (drop i (subscriptions_ r)) →
  ledger r → Forall sub_ok (subscriptions_ r) →
  let '(r', res) := start_loop (seq i n) any r in start_outcome i any r r' res.
Proof.
  revert i any r. induction n as [|n IH]; intros i any r Hlen Hidle Hl Hok.
  { cbn. rewrite Nat.add_0_r in Hlen. split_and!; try done; rewrite drop_ge -?Hlen //.
    rewrite Exists_nil. naive_solver. }
  destruct (lookup_lt_is_Some_2 (subscriptions_ r) i) as [sub Hi]; [lia|].
  rewrite (drop_S _ sub) // in Hidle. apply Forall_cons in Hidle as [Hs Hidle].
  cbn [seq start_loop]. run_method.
  destruct (start_subscription_spec i r sub Hi Hs) as (sub' & evs & res & k & -> & Hst).
  apply started_facts in Hst as (Hok' & He & Hc & Hres); [|done].
  set r1 := after r i sub' evs k.
  have Hl1 : ledger r1 by eapply after_ledger.
  have Hok1 : Forall sub_ok (subscriptions_ r1) by apply Forall_insert.
  have Hc1 : config <$> subscriptions_ r1 = config <$> subscriptions_ r.
  { cbn. rewrite list_fmap_insert Hc list_insert_id //. by rewrite list_lookup_fmap Hi. }
  have Hlt := lookup_lt_Some _ _ _ Hi.
  destruct res as [b|e|]; [|by split_and!|done].
  specialize (IH (S i) (any || b) r1). cbn in IH. rewrite length_insert in IH.
  specialize (IH ltac:(lia)). rewrite drop_insert_lt in IH; [lia|].
  specialize (IH Hidle Hl1 Hok1). fold (subscriptions_ r1) in IH.
  destruct (start_loop _ _ r1) as [r2 res2]. destruct IH as (H1 & H2 & H3 & H4 & H5 & H6).
  split_and!; [done|done|exact H3|exact H4|by rewrite H5|].
  destruct res2 as [b2|e|]; [|done..]. destruct H6 as (Htk & Hfa & Hb2).
  have Hi2 : subscriptions_ r2 !! i = Some sub'.
  { rewrite -(lookup_take_lt _ (S i)) ?Htk ?lookup_take_lt; [lia..|].
    by apply list_lookup_insert_eq. }
  rewrite (drop_S _ sub' i) //. split_and!.
  - apply (f_equal (take i)) in Htk. rewrite !take_take Nat.min_l in Htk; [lia|].
    rewrite Htk. cbn. rewrite take_insert_ge //.
  - constructor; [|done]. destruct b; [by left|by right].
  - rewrite Hb2 Exists_cons orb_true_iff. destruct b; [naive_solver|].
    have : ¬ listening sub' by intros [? _]; destruct Hres; lia. naive_solver.
Qed.

Lemma start_spec r :
  receiver_inv r → running_ r = false →
  let '(r', res) := start r in
  receiver_inv r' ∧ data_callback_ r' = data_callback_ r
  ∧ config <$> subscriptions_ r' = config <$> subscriptions_ r
  ∧ match res with
    | Ok b => running_ r' = b ∧ Forall (λ s, listening s ∨ idle s) (subscriptions_ r')
              ∧ (b = true ↔ Exists listening (subscriptions_ r'))
    | Throw e => e = std_system_error ∧ running_ r' = true
    | Undefined => False
    end.
Proof.
  intros Hi Hr. have [Hl [Hok Hid]] := Hi. rewrite /start. run_method. rewrite Hr.
  destruct (length (subscriptions_ r) =? 0)%nat eqn:Elen; bool_to_prop.
  { apply nil_length_inv in Elen. do 3 (split; [done|]). rewrite Elen Exists_nil. by split_and!. }
  pose proof (start_loop_spec (length (subscriptions_ r)) 0 false (set_run r true)) as H.
  specialize (H eq_refl (Hid Hr) Hl Hok). cbn [set_run subscriptions_] in H |- *.
  destruct (start_loop _ _ _) as [r1 res1].
  destruct H as (H1 & H2 & H3 & H4 & H5 & H6). cbn in H3.
  destruct res1 as [b|e|]; [|by split_and!; [split; [|split; [|by rewrite H3]]|..]|done].
  destruct H6 as (_ & H6 & H7). rewrite drop_0 in H6 H7.
  destruct b; cbn [negb andb].
  { split_and!; [by split; [|split; [|by rewrite H3]]|done..|]. naive_solver. }
  have Hidle : Forall idle (subscriptions_ r1).
  { rewrite !Forall_forall in H6 |- *. intros s Hs. destruct (H6 s Hs) as [Hls|?]; [|done]. exfalso.
    have : false = true; [|done]. apply H7. right. apply Exists_exists. by exists s. }
  destruct (length (subscriptions_ r1) =? 0)%nat eqn:E1.
  { exfalso. bool_to_prop. apply (f_equal length) in H5. rewrite !length_fmap in H5. cbn in H5. lia. }
  cbn. split_and!; [done..|]. split; [done|]. intros H. apply H7. by right.
Qed.

End Start.

Lemma foldl_record evs r :
  foldl record_event r evs =
  mkReceiver (data_callback_ r) (subscriptions_ r) (running_ r) (mc_trace r ++ evs) (mc_ticks r).
Proof.
  revert r. induction evs as [|e evs IH]; intros r; cbn; [rewrite app_nil_r; by destruct r|].
  by rewrite IH /= -app_assoc.
Qed.

Lemma stop_loop_events subs :
  opened (stop_loop subs).2 = [] ∧ closed_fds (stop_loop subs).2 = concat (live <$> subs).
Proof.
  induction subs as [|s subs [IH1 IH2]]; [done|]. cbn [stop_loop fmap list_fmap concat].
  destruct (stop_subscription s) as [s' ev] eqn:Es, (stop_loop subs) as [subs' evs]. cbn [fst snd] in *.
  rewrite opened_app closed_fds_app IH1 IH2 app_nil_r. revert Es. rewrite /stop_subscription /live.
  cbv zeta. destruct (receiver_thread _); cbn; destruct (0 <=? socket_fd s); by intros [= _ <-].
Qed.

(** After [stop] the receiver holds nothing, and every socket is closed. *)
Lemma stop_spec r :
  receiver_inv r →
  ∃ r', stop r = (r', Ok tt) ∧ receiver_inv r' ∧ running_ r' = false
    ∧ data_callback_ r' = data_callback_ r ∧ mc_ticks r' = mc_ticks r
    ∧ opened (mc_trace r') ≡ₚ closed_fds (mc_trace r')
    ∧ subscriptions_ r' = (if running_ r then [] else subscriptions_ r).
Proof.
  intros Hi. have [Hl [Hok Hid]] := Hi. rewrite /stop. run_method.
  destruct (running_ r) eqn:Hr; cbn [negb].
  - pose proof (stop_loop_events (subscriptions_ r)) as [E1 E2]. cbn [set_run subscriptions_].
    destruct (stop_loop (subscriptions_ r)) as [subs evs]. rewrite foldl_record. cbn in *.
    have Hp : opened (mc_trace r ++ evs) ≡ₚ closed_fds (mc_trace r ++ evs).
    { by rewrite opened_app closed_fds_app E1 E2 app_nil_r. }
    eexists. split; [done|]. split_and!; try done. split_and!; [|by constructor..].
    by rewrite /ledger /= app_nil_r.
  - exists r. split_and!; try done. rewrite /ledger concat_live_idle in Hl; [by apply Hid|].
    by rewrite app_nil_r in Hl.
Qed.

Lemma add_subscription_spec r ip p iface :
  receiver_inv r →
  ∃ r', add_subscription ip p iface r = (r', Ok (negb (running_ r))) ∧ receiver_inv r'
    ∧ running_ r' = running_ r ∧ data_callback_ r' = data_callback_ r
    ∧ subscriptions_ r' = subscriptions_ r ++
        (if running_ r then [] else [ActiveSubscription_new (mkGroup ip p iface)]).
Proof.
  intros Hi. rewrite /add_subscription. run_method. destruct (running_ r) eqn:Hr.
  { exists r. by rewrite app_nil_r. }
  have [Hl [Hok Hid]] := Hi. specialize (Hid Hr). eexists. split; [done|].
  split_and!; [|done..]. split_and!.
  - rewrite /ledger /= fmap_app concat_app /= app_nil_r. exact Hl.
  - apply Forall_app. by split; [|constructor].
  - intros _. apply Forall_app. split; [done|]. constructor; [|done]. by split_and!.
Qed.

(** A pass changes nothing but the trace and the clock, and only by
    deliveries. *)
Lemma receive_pass_spec `{env : McastEnv} i r :
  let '(r', res) := receive_pass i r in
  (∃ ev k, (∀ e, e ∈ ev → ∃ d ip p, e = Delivered d ip p) ∧
     r' = mkReceiver (data_callback_ r) (subscriptions_ r) (running_ r) (mc_trace r ++ ev) (mc_ticks r + k))
  ∧ match res with
    | Ok _ => True
    | Throw _ => False
    | Undefined => subscriptions_ r !! i = None
    end.
Proof.
  have Hnone : ∀ k, ∃ ev k', (∀ e, e ∈ ev → ∃ d ip p, e = Delivered d ip p) ∧
    mkReceiver (data_callback_ r) (subscriptions_ r) (running_ r) (mc_trace r) (mc_ticks r + k)
    = mkReceiver (data_callback_ r) (subscriptions_ r) (running_ r) (mc_trace r ++ ev) (mc_ticks r + k').
  { intros k. exists [], k. rewrite app_nil_r. split; [|done]. by intros e ?%elem_of_nil. }
  have H0 := Hnone 0%nat. have H1 := Hnone 1%nat. rewrite Nat.add_0_r in H0. rewrite Nat.add_1_r in H1.
  have Er : r = mkReceiver (data_callback_ r) (subscriptions_ r) (running_ r) (mc_trace r) (mc_ticks r).
  { by destruct r. }
  rewrite /receive_pass /mc_ask. run_method. destruct (subscriptions_ r !! i) as [sub|] eqn:Hi.
  2: { split; [by rewrite {1}Er|done]. }
  destruct (socket_fd sub <? 0); [by split; [rewrite {1}Er|]|].
  destruct (negb _); [by split; [rewrite {1}Er|]|]. cbn [andb].
  destruct (mc_recvfrom _) as [data|[]]; try by split.
  destruct (_ && _); [|by split]. split; [|done]. cbn.
  eexists [_], 1%nat. rewrite Nat.add_1_r. split; [|done].
  intros e ->%list_elem_of_singleton. by eexists _, _, _.
Qed.

Lemma receive_pass_inv `{env : McastEnv} i r : receiver_inv r → receiver_inv (receive_pass i r).1.
Proof.
  intros (Hl & Hok & Hid). pose proof (receive_pass_spec i r) as H.
  destruct (receive_pass i r) as [r' res]. destruct H as [(ev & k & Hev & ->) _].
  split_and!; [|done..]. rewrite /ledger. cbn. rewrite opened_app closed_fds_app.
  have [-> ->] : opened ev = [] ∧ closed_fds ev = [].
  { clear -Hev. induction ev as [|e ev IH]; [done|].
    destruct (Hev e) as (d & ip & p & ->); [by left|]. apply IH. intros e He. apply Hev. by right. }
  by rewrite !app_nil_r.
Qed.

Lemma mc_exec_inv `{env : McastEnv} k r : receiver_inv r → receiver_inv (mc_exec k r).1.
Proof.
  intros Hi. destruct k as [ip p iface| | |i]; cbn [mc_exec]; rewrite /mbind /method_bind.
  - by destruct (add_subscription_spec r ip p iface Hi) as (r' & -> & ? & _).
  - destruct (running_ r) eqn:Hr.
    + rewrite /start. run_method. by rewrite Hr.
    + pose proof (start_spec r Hi Hr) as H. destruct (start r) as [r' [| |]]; apply H.
  - by destruct (stop_spec r Hi) as (r' & -> & ? & _).
  - pose proof (receive_pass_inv i r Hi) as H. by destruct (receive_pass i r) as [r' [| |]].
Qed.

Lemma mc_reach_inv `{env : McastEnv} r : mc_reach r → receiver_inv r.
Proof.
  induction 1 as [cb|r k _ IH]; [|by apply mc_exec_inv].
  split_and!; [by vm_compute|constructor|constructor].
Qed.

(** ** Properties *)

Section Properties.
Context `{env : McastEnv}.

(** C26: the receiver owns its sockets and threads soundly in every reachable
    state, whatever the operating system answers, also after an exception: each
    socket ever opened has been closed exactly once or is held by exactly one
    subscription, a thread that can be joined has an open socket and a set
    flag, and a stopped receiver holds no socket and no thread. *)
Theorem receiver_invariant r (Hr : mc_reach r) : receiver_inv r.
Proof. by apply mc_reach_inv. Qed.

(** [stop] leaks nothing: from every reachable state it returns with the
    receiver stopped, and the sockets closed so far are, with multiplicity,
    those opened so far; a receiver that was running has lost its
    subscriptions, so that starting it again fails until new ones are added. *)
Theorem receiver_stop_releases r (Hr : mc_reach r) :
  ∃ r', stop r = (r', Ok tt) ∧ running_ r' = false
    ∧ opened (mc_trace r') ≡ₚ closed_fds (mc_trace r')
    ∧ (running_ r = true → subscriptions_ r' = [] ∧ start r' = (r', Ok false)).
Proof.
  apply mc_reach_inv in Hr as Hi.
  destruct (stop_spec r Hi) as (r' & E & _ & Hr' & _ & _ & Hp & Hs). exists r'. split_and!; [done..|].
  intros Hrun. rewrite Hrun in Hs. split; [done|]. rewrite /start. run_method. by rewrite Hr' Hs.
Qed.

(** [start] on a stopped receiver returns true exactly when at least one
    subscription has ended up with a socket in the group and a thread, and the
    receiver then runs; every other subscription has no socket left open.  The
    only exception is [std::system_error], when a thread cannot be created;
    the receiver is then marked running, and [stop] cleans up. *)
Theorem receiver_start_spec r (Hr : mc_reach r) (Hstopped : running_ r = false) :
  let '(r', res) := start r in
  config <$> subscriptions_ r' = config <$> subscriptions_ r
  ∧ match res with
    | Ok b => running_ r' = b ∧ Forall (λ s, listening s ∨ idle s) (subscriptions_ r')
              ∧ (b = true ↔ Exists listening (subscriptions_ r'))
    | Throw e => e = std_system_error ∧ running_ r' = true
    | Undefined => False
    end.
Proof.
  apply mc_reach_inv in Hr as Hi.
  pose proof (start_spec r Hi Hstopped) as H. destruct (start r) as [r' res]. by destruct H as (_ & _ & ?).
Qed.

End Properties.

(** *** Sample data *)

(** Two subscriptions, of which the first cannot be bound. *)
Definition sample_mcast_env : McastEnv :=
  Build_McastEnv (λ n, Z.of_nat (n + 3)) (λ _, 0) (λ _ p, if p =? 1000 then -1 else 0) (λ _ _ _, 0)
    (λ _, 0) (λ _, true) (λ _, Datagram [27; 1]).
Definition sample_receiver : MulticastReceiver :=
  set_subs (MulticastReceiver_new true)
    (ActiveSubscription_new <$> [mkGroup (str "225.0.140.140") 1000 []; mkGroup (str "225.0.140.141") 2000 []]).

Lemma sample_receiver_reach : @mc_reach sample_mcast_env sample_receiver.
Proof.
  pose (env := sample_mcast_env). pose (r0 := MulticastReceiver_new true).
  pose (add1 := AddSubscription (str "225.0.140.140") 1000 []).
  pose (add2 := AddSubscription (str "225.0.140.141") 2000 []).
  exact (mc_reach_step (mc_exec add1 r0).1 add2 (mc_reach_step r0 add1 (mc_reach_new true))).
Defined.

Lemma receiver_invariant_witness :
  let env : McastEnv := sample_mcast_env in receiver_inv (mc_exec McStart sample_receiver).1.
Proof.
  intros env. apply (receiver_invariant (env := env)).
  apply (mc_reach_step (env := env)), sample_receiver_reach.
Defined.

Lemma receiver_stop_releases_witness :
  let env : McastEnv := sample_mcast_env in
  let r := (mc_exec McStart sample_receiver).1 in
  running_ r = true ∧
  ∃ r', stop r = (r', Ok tt) ∧ running_ r' = false
    ∧ opened (mc_trace r') ≡ₚ closed_fds (mc_trace r')
    ∧ (running_ r = true → subscriptions_ r' = [] ∧ start r' = (r', Ok false)).
Proof.
  intros env r. split; [vm_compute; reflexivity|]. apply (receiver_stop_releases (env := env)).
  apply (mc_reach_step (env := env)), sample_receiver_reach.
Defined.

Lemma receiver_start_spec_witness :
  let env : McastEnv := sample_mcast_env in
  let '(r', res) := start sample_receiver in
  config <$> subscriptions_ r' = config <$> subscriptions_ sample_receiver
  ∧ match res with
    | Ok b => running_ r' = b ∧ Forall (λ s, listening s ∨ idle s) (subscriptions_ r')
              ∧ (b = true ↔ Exists listening (subscriptions_ r'))
    | Throw e => e = std_system_error ∧ running_ r' = true
    | Undefined => False
    end.
Proof.
  intros env. apply (receiver_start_spec (env := env)); [apply sample_receiver_reach|reflexivity].
Defined.
