(* ===== verification/NetworkManager.v ===== *)
(** * The network manager (networking/network_manager.cpp)

    The manager owns up to two multicast receivers and a retransmission client
    and hands their packets to the SDK.  Its components are the modelled
    objects themselves, so a call of the manager runs the calls it makes on
    them.  The environment gives each created receiver and client its own
    operating-system answers ([net_mcast], [net_client], by creation number).

    Callbacks: a data request of the application runs the disconnect callback
    where the code does, in the middle of [send_tcp_message]
    ([send_from_application]); the callback may destroy the client whose method
    is on the stack, and nothing touches the client after it.  A pass of the
    client's own thread ([client_pass], [client_step]) runs the callbacks it
    invoked in order after its own work: on that thread a callback that returns
    neither reads nor changes the client ([callback_leaves_client] in
    NetworkEvents.v), and one that does not return ends the program, since the
    thread has no handler.

    Threads: a pass of a receiver's or the client's thread is one step; calls
    and passes are atomic here (PacketThreads.v, ReceiverThreads.v and
    ClientThreads.v cut them into steps). *)

From S2P Require Import Prelude PackBcd CommonHeader CppMap TaifexSdk SdkStream.
From S2P Require Import RetransmissionProtocol MulticastReceiver RetransmissionClient.

(** ** Definitions *)

Record MulticastFeedConfig : Type := mkFeed {
  feed_group_ip : list Z;
  feed_port : Z;
  feed_local_interface_ip : list Z;
  is_primary_for_dual_feed : bool;
}.

Record RetransmissionServerConfig : Type := mkServer {
  server_config_ip : list Z;
  server_config_port : Z;
  server_config_session_id : Z;
  server_config_password : list Z;
}.

Record NetworkManagerConfig : Type := mkConfig {
  multicast_feeds : list MulticastFeedConfig;
  primary_retrans_server : option RetransmissionServerConfig;
  backup_retrans_server : option RetransmissionServerConfig;
  dual_feed_enabled : bool;
  dual_feed_reorder_window_ms : Z;
}.

Definition NetworkManagerConfig_default : NetworkManagerConfig := mkConfig [] None None false 100.

Class NetEnv : Type := {
  net_mcast : nat → McastEnv;
  net_client : nat → Env;
  net_now : nat → Z;
}.

(** [sdk_core_logic_] is the object the pointer designates, [None] for
    [nullptr]; an owned component carries its creation number.  [now_ticks] and
    [created] count the clock readings and the components created so far, and
    [forwarded] lists the packets handed to the SDK. *)
Record NetworkManager : Type := mkManager {
  sdk_core_logic_ : option TaifexSdk;
  config_ : NetworkManagerConfig;
  primary_multicast_receiver_ : option (nat * MulticastReceiver);
  secondary_multicast_receiver_ : option (nat * MulticastReceiver);
  retransmission_client_ : option (nat * RetransmissionClient);
  deduplication_log_ : list (Z * Z);
  running_ : bool;
  retrans_primary_active_ : bool;
  now_ticks : nat;
  created : nat;
  forwarded : list (list Z);
}.

Definition NetworkManager_new (sdk_core_logic : option TaifexSdk) : NetworkManager :=
  mkManager sdk_core_logic NetworkManagerConfig_default None None None [] false true 0 0 [].

Section Setters.
Context (m : NetworkManager).

Definition set_sdk (s : option TaifexSdk) : NetworkManager :=
  mkManager s (config_ m) (primary_multicast_receiver_ m) (secondary_multicast_receiver_ m)
    (retransmission_client_ m) (deduplication_log_ m) (running_ m) (retrans_primary_active_ m)
    (now_ticks m) (created m) (forwarded m).
Definition set_config (c : NetworkManagerConfig) : NetworkManager :=
  mkManager (sdk_core_logic_ m) c (primary_multicast_receiver_ m) (secondary_multicast_receiver_ m)
    (retransmission_client_ m) (deduplication_log_ m) (running_ m) (retrans_primary_active_ m)
    (now_ticks m) (created m) (forwarded m).
(** [true] selects the primary receiver. *)
Definition set_receiver (primary : bool) (r : option (nat * MulticastReceiver)) : NetworkManager :=
  mkManager (sdk_core_logic_ m) (config_ m)
    (if primary then r else primary_multicast_receiver_ m)
    (if primary then secondary_multicast_receiver_ m else r)
    (retransmission_client_ m) (deduplication_log_ m) (running_ m) (retrans_primary_active_ m)
    (now_ticks m) (created m) (forwarded m).
Definition set_client (c : option (nat * RetransmissionClient)) : NetworkManager :=
  mkManager (sdk_core_logic_ m) (config_ m) (primary_multicast_receiver_ m)
    (secondary_multicast_receiver_ m) c (deduplication_log_ m) (running_ m)
    (retrans_primary_active_ m) (now_ticks m) (created m) (forwarded m).
Definition set_log (l : list (Z * Z)) : NetworkManager :=
  mkManager (sdk_core_logic_ m) (config_ m) (primary_multicast_receiver_ m)
    (secondary_multicast_receiver_ m) (retransmission_client_ m) l (running_ m)
    (retrans_primary_active_ m) (now_ticks m) (created m) (forwarded m).
Definition set_nm_running (b : bool) : NetworkManager :=
  mkManager (sdk_core_logic_ m) (config_ m) (primary_multicast_receiver_ m)
    (secondary_multicast_receiver_ m) (retransmission_client_ m) (deduplication_log_ m) b
    (retrans_primary_active_ m) (now_ticks m) (created m) (forwarded m).
Definition set_primary_active (b : bool) : NetworkManager :=
  mkManager (sdk_core_logic_ m) (config_ m) (primary_multicast_receiver_ m)
    (secondary_multicast_receiver_ m) (retransmission_client_ m) (deduplication_log_ m) (running_ m)
    b (now_ticks m) (created m) (forwarded m).
Definition now_tick : NetworkManager :=
  mkManager (sdk_core_logic_ m) (config_ m) (primary_multicast_receiver_ m)
    (secondary_multicast_receiver_ m) (retransmission_client_ m) (deduplication_log_ m) (running_ m)
    (retrans_primary_active_ m) (S (now_ticks m)) (created m) (forwarded m).
Definition count_created : NetworkManager :=
  mkManager (sdk_core_logic_ m) (config_ m) (primary_multicast_receiver_ m)
    (secondary_multicast_receiver_ m) (retransmission_client_ m) (deduplication_log_ m) (running_ m)
    (retrans_primary_active_ m) (now_ticks m) (S (created m)) (forwarded m).

Definition note_forwarded (p : list Z) : NetworkManager :=
  mkManager (sdk_core_logic_ m) (config_ m) (primary_multicast_receiver_ m)
    (secondary_multicast_receiver_ m) (retransmission_client_ m) (deduplication_log_ m) (running_ m)
    (retrans_primary_active_ m) (now_ticks m) (created m) (forwarded m ++ [p]).

Definition receiver_of (primary : bool) : option (nat * MulticastReceiver) :=
  if primary then primary_multicast_receiver_ m else secondary_multicast_receiver_ m.

End Setters.

Definition DEDUPLICATION_WINDOW_SIZE : nat := 100.

Section Manager.
Context `{net : NetEnv}.

(** *** Packets *)

Definition forward_to_sdk (data : pointer) (length : nat) : method NetworkManager unit :=
  λ m,
    match sdk_core_logic_ m with
    | Some s =>
        let '(s', r) := process_message data length s in
        (note_forwarded (set_sdk m (Some s')) (take length (default [] data)), r)
    | None => (m, Ok tt)
    end.

(** [steady_clock::now()]. *)
Definition steady_now : method NetworkManager Z :=
  m ← get; modify now_tick;; mret (net_now (now_ticks m)).

Definition combined_seq_key (channel_id channel_seq : Z) : Z :=
  Z.lor (u64 (Z.shiftl channel_id 32)) channel_seq.

(** The deduplication block: whether the packet goes on to the SDK. *)
Definition deduplicate (key : Z) : method NetworkManager bool :=
  now ← steady_now;
  m ← get;
  match map_get (deduplication_log_ m) key with
  | Some _ => mret false
  | None =>
      modify (λ m, set_log m (map_put Z.ltb (deduplication_log_ m) key now));;
      m ← get;
      (if (DEDUPLICATION_WINDOW_SIZE * length (multicast_feeds (config_ m))
           <? length (deduplication_log_ m))%nat
       then modify (λ m, set_log m (map_erase_begin (deduplication_log_ m)))
       else mret tt);;
      mret true
  end.

Definition process_incoming_packet (data : pointer) (length : nat)
    (is_from_primary_feed is_retransmitted : bool) : method NetworkManager unit :=
  m ← get;
  if negb (running_ m) || bool_decide (sdk_core_logic_ m = None) then mret tt
  else
    parsed ← lift (CommonHeader_parse data length CommonHeader_default);
    let '(ok, header) := parsed in
    if negb ok then mret tt
    else
      channel_id ← lift (getChannelId header);
      channel_seq ← lift (getChannelSeq header);
      let key := combined_seq_key channel_id channel_seq in
      fresh ← (if dual_feed_enabled (config_ m) && negb is_retransmitted then deduplicate key
               else mret true);
      if negb fresh then mret tt else forward_to_sdk data length.

Definition on_primary_multicast_data (data : pointer) (length : nat) : method NetworkManager unit :=
  process_incoming_packet data length true false.
Definition on_secondary_multicast_data (data : pointer) (length : nat) : method NetworkManager unit :=
  process_incoming_packet data length false false.

Definition on_retransmitted_market_data (data : pointer) (length : nat)
    : method NetworkManager unit :=
  m ← get;
  if negb (running_ m) || bool_decide (sdk_core_logic_ m = None) then mret tt
  else process_incoming_packet data length false true.

(** *** Components *)

(** A call on a receiver or on the client through the owning pointer. *)
Definition on_receiver {A} (primary : bool) (f : McastEnv → method MulticastReceiver A)
    : method NetworkManager A :=
  λ m,
    match receiver_of m primary with
    | Some (id, r) =>
        let '(r', a) := f (net_mcast id) r in (set_receiver m primary (Some (id, r')), a)
    | None => (m, Undefined)
    end.

Definition on_client {A} (f : Env → method RetransmissionClient A) : method NetworkManager A :=
  λ m,
    match retransmission_client_ m with
    | Some (id, c) => let '(c', a) := f (net_client id) c in (set_client m (Some (id, c')), a)
    | None => (m, Undefined)
    end.

(** The destructors: [stop], then the members; a thread that can still be
    joined terminates the program. *)
Definition destroy_receiver (r : MulticastReceiver) : result unit :=
  match MulticastReceiver.stop r with
  | (r', Ok _) => if existsb receiver_thread (subscriptions_ r') then Undefined else Ok tt
  | (_, _) => Undefined
  end.
Definition destroy_client (who : caller) (c : RetransmissionClient) : result unit :=
  match RetransmissionClient.stop who c with
  | (c', Ok _) => if client_thread_ c' then Undefined else Ok tt
  | (_, _) => Undefined
  end.

(** [ptr = std::make_unique<MulticastReceiver>(callback)]. *)
Definition make_receiver (primary : bool) : method NetworkManager unit :=
  m ← get;
  modify (λ m, count_created (set_receiver m primary (Some (created m, MulticastReceiver_new true))));;
  match receiver_of m primary with
  | Some (_, old) => lift (destroy_receiver old)
  | None => mret tt
  end.

Definition all_set : Callbacks := mkCallbacks true true true true true.

Definition connect_retransmission_client (who : caller) (use_primary_server : bool)
    : method NetworkManager unit :=
  m ← get;
  let server_config_opt :=
    if use_primary_server then primary_retrans_server (config_ m)
    else backup_retrans_server (config_ m) in
  match server_config_opt with
  | Some server =>
      let client := RetransmissionClient_new (server_config_ip server) (server_config_port server)
                      (server_config_session_id server) (server_config_password server) all_set in
      modify (λ m, count_created (set_client m (Some (created m, client))));;
      (match retransmission_client_ m with
       | Some (_, old) => lift (destroy_client who old)
       | None => mret tt
       end);;
      on_client (λ e, RetransmissionClient.start (env := e));;
      mret tt
  | None => mret tt
  end.

(** One feed of [configure_and_start]: a new receiver with one subscription. *)
Definition setup_feed (primary : bool) (feed : MulticastFeedConfig) : method NetworkManager unit :=
  make_receiver primary;;
  added ← on_receiver primary (λ _, add_subscription (feed_group_ip feed) (feed_port feed)
                                      (feed_local_interface_ip feed));
  if negb added then modify (λ m, set_receiver m primary None) else mret tt.

Definition start_receiver (primary : bool) : method NetworkManager bool :=
  on_receiver primary (λ e, MulticastReceiver.start (env := e)).

(** The receivers of [configure_and_start]. *)
Definition configure_feeds (config : NetworkManagerConfig) : method NetworkManager unit :=
  match multicast_feeds config with
  | [] => mret tt
  | primary_feed_config :: feeds =>
      setup_feed true primary_feed_config;;
      match feeds with
      | secondary_feed_config :: _ =>
          if dual_feed_enabled config then setup_feed false secondary_feed_config else mret tt
      | [] => mret tt
      end
  end.

(** [primary_started] and [secondary_started] of [configure_and_start]. *)
Definition start_primary : method NetworkManager bool :=
  m ← get;
  if bool_decide (is_Some (primary_multicast_receiver_ m)) then
    ok ← start_receiver true;
    if ok : bool then mret true else modify (λ m, set_nm_running m false);; mret false
  else mret false.
Definition start_secondary : method NetworkManager bool :=
  m ← get;
  if running_ m && bool_decide (is_Some (secondary_multicast_receiver_ m)) then start_receiver false
  else mret false.

(** From [running_ = true] to the end of [configure_and_start]. *)
Definition start_components : method NetworkManager bool :=
  modify (λ m, set_nm_running m true);;
  primary_started ← start_primary;
  secondary_started ← start_secondary;
  m ← get;
  if negb primary_started && negb secondary_started
     && negb (bool_decide (is_Some (retransmission_client_ m)))
  then mret (running_ m)
  else if negb (running_ m) then
    (if bool_decide (is_Some (primary_multicast_receiver_ m)) && primary_started
     then on_receiver true (λ _, MulticastReceiver.stop) else mret tt);;
    (if bool_decide (is_Some (secondary_multicast_receiver_ m)) && secondary_started
     then on_receiver false (λ _, MulticastReceiver.stop) else mret tt);;
    (if bool_decide (is_Some (retransmission_client_ m))
     then on_client (λ _, RetransmissionClient.stop OtherThread) else mret tt);;
    mret false
  else mret (running_ m).

Definition configure_and_start (config : NetworkManagerConfig) : method NetworkManager bool :=
  m ← get;
  if running_ m then mret false
  else
    modify (λ m, set_config m config);;
    configure_feeds config;;
    (if bool_decide (is_Some (primary_retrans_server config)) then
       modify (λ m, set_primary_active m true);;
       connect_retransmission_client OtherThread true
     else mret tt);;
    start_components.

Definition stop : method NetworkManager unit :=
  m ← get;
  if negb (running_ m) then mret tt
  else
    modify (λ m, set_nm_running m false);;
    (if bool_decide (is_Some (primary_multicast_receiver_ m))
     then on_receiver true (λ _, MulticastReceiver.stop) else mret tt);;
    (if bool_decide (is_Some (secondary_multicast_receiver_ m))
     then on_receiver false (λ _, MulticastReceiver.stop) else mret tt);;
    (if bool_decide (is_Some (retransmission_client_ m))
     then on_client (λ _, RetransmissionClient.stop OtherThread) else mret tt).

(** The destructor: [stop], then the members in the reverse order of their
    declaration; an exception that leaves a destructor terminates the
    program. *)
Definition destroy_manager (m : NetworkManager) : result unit :=
  match stop m with
  | (m', Ok _) =>
      match retransmission_client_ m' with Some (_, c) => destroy_client OtherThread c | None => Ok tt end;;
      match secondary_multicast_receiver_ m' with Some (_, r) => destroy_receiver r | None => Ok tt end;;
      match primary_multicast_receiver_ m' with Some (_, r) => destroy_receiver r | None => Ok tt end
  | (_, _) => Undefined
  end.

(** *** Callbacks of the client *)

(** Both only log. *)
Definition on_retransmission_status (response : DataResponse102) (retrans_data : list Z)
    : method NetworkManager unit := mret tt.
Definition on_retransmission_error (error_msg : ErrorNotification010) : method NetworkManager unit :=
  mret tt.

Definition on_retransmission_disconnected (who : caller) : method NetworkManager unit :=
  m ← get;
  if retrans_primary_active_ m && bool_decide (is_Some (backup_retrans_server (config_ m))) then
    (if bool_decide (is_Some (retransmission_client_ m))
     then on_client (λ _, RetransmissionClient.stop who) else mret tt);;
    modify (λ m, set_primary_active m false);;
    connect_retransmission_client who false
  else mret tt.

Definition on_event (who : caller) (e : event) : method NetworkManager unit :=
  match e with
  | MarketData data => on_retransmitted_market_data (Some data) (length data)
  | Status response retrans_data => on_retransmission_status response retrans_data
  | ErrorNotified error_msg => on_retransmission_error error_msg
  | Disconnected => on_retransmission_disconnected who
  | LoggedIn | Sent _ => mret tt
  end.

Fixpoint dispatch (who : caller) (es : list event) : method NetworkManager unit :=
  match es with
  | [] => mret tt
  | e :: es => on_event who e;; dispatch who es
  end.

(** A piece of work of the client's own thread with the callbacks it invokes. *)
Definition client_step {A} (f : Env → method RetransmissionClient A) : method NetworkManager A :=
  λ m,
    match retransmission_client_ m with
    | Some (id, c) =>
        let '(c', a) := f (net_client id) c in
        let callbacks := drop (length (trace c)) (trace c') in
        match dispatch ClientThread callbacks (set_client m (Some (id, c'))) with
        | (m', Ok _) => (m', a)
        | (m', Throw e) => (m', Throw e)
        | (m', Undefined) => (m', Undefined)
        end
    | None => (m, Undefined)
    end.

(** *** Requests of the application

    [request_retransmission] and [send_tcp_message] of the client, called by the
    application through the manager: the same statements, on the client the
    manager owns, with the disconnect callback run at its place. *)

(** A send error: the link is dropped and the callback invoked, as the last
    thing the call does. *)
Definition lose_link : method NetworkManager unit :=
  on_client (λ _, modify (λ c, set_link c (-1) false false));;
  c ← on_client (λ _, get);
  if disconnected_callback_ (callbacks_ c) then
    on_client (λ _, modify (λ c, emit c Disconnected));;
    on_retransmission_disconnected OtherThread
  else mret tt.

Fixpoint send_from_application (fuel : nat) (rest : list Z) : method NetworkManager unit :=
  match rest with
  | [] => mret tt
  | _ =>
      match fuel with
      | O => lift Undefined
      | S fuel =>
          sent_this_call ← on_client (λ e, ask (λ n, env_send (Env := e) n rest));
          if sent_this_call <? 0 then lose_link
          else if sent_this_call =? 0 then lose_link
          else
            on_client (λ _, modify (λ c, emit c (Sent (take (Z.to_nat sent_this_call) rest))));;
            send_from_application fuel (drop (Z.to_nat sent_this_call) rest)
      end
  end.

Definition request_from_application (channel_id begin_seq_no count : Z) : method NetworkManager bool :=
  c ← on_client (λ _, get);
  if negb (logged_in_ c) then mret false
  else
    seq ← on_client (λ _, next_seq_num);
    time ← on_client (λ e, current_time (env := e));
    let req := mk101 (mkHeader 0 0 seq time) channel_id begin_seq_no count (mkFooter 0) in
    buffer ← on_client (λ e, lift (DataRequest101_serialize (host := env_host (Env := e)) [] req));
    c ← on_client (λ _, get);
    (if negb (connected_ c) || (socket_fd_ c <? 0) then mret tt
     else send_from_application (length buffer) buffer);;
    mret true.

Definition trigger_retransmission_request (channel_id start_seq_num count : Z)
    : method NetworkManager unit :=
  m ← get;
  if negb (running_ m) then mret tt
  else if bool_decide (is_Some (retransmission_client_ m)) then
    request_from_application channel_id start_seq_num count;;
    mret tt
  else mret tt.

(** *** The threads *)

(** A pass of the client's thread. *)
Definition client_pass : method NetworkManager unit :=
  client_step (λ e, RetransmissionClient.receive_pass (env := e));; mret tt.

Definition on_delivery (primary : bool) (e : mc_event) : method NetworkManager unit :=
  match e with
  | Delivered data _ _ =>
      if primary then on_primary_multicast_data (Some data) (length data)
      else on_secondary_multicast_data (Some data) (length data)
  | _ => mret tt
  end.

Fixpoint deliveries (primary : bool) (es : list mc_event) : method NetworkManager unit :=
  match es with
  | [] => mret tt
  | e :: es => on_delivery primary e;; deliveries primary es
  end.

(** A pass of the thread of subscription [i] of a receiver. *)
Definition receiver_pass (primary : bool) (i : nat) : method NetworkManager unit :=
  λ m,
    match receiver_of m primary with
    | Some (id, r) =>
        let '(r', a) := MulticastReceiver.receive_pass (env := net_mcast id) i r in
        match a with
        | Ok _ => deliveries primary (drop (length (mc_trace r)) (mc_trace r'))
                    (set_receiver m primary (Some (id, r')))
        | Throw e => (set_receiver m primary (Some (id, r')), Throw e)
        | Undefined => (set_receiver m primary (Some (id, r')), Undefined)
        end
    | None => (m, Undefined)
    end.

End Manager.
