(* ===== verification/DedupWindow.v ===== *)
(** * A log of the largest keys

    The network manager keeps the keys of the packets it has seen in a
    [std::map], and drops the smallest key whenever the map exceeds its limit.
    This file shows what such a log knows: after any sequence of keys it holds
    exactly the [W] largest distinct keys ever seen, so that a key counts as
    seen as long as fewer than [W] larger keys have been. *)

From S2P Require Import Prelude CppMap.

(** ** Definitions *)

(** One key against the log, as the code does it: whether the key is new to the
    log, and the log afterwards. *)
Definition log_step {V} (W : nat) (log : list (Z * V)) (k : Z) (v : V) : list (Z * V) * bool :=
  match map_get log k with
  | Some _ => (log, false)
  | None =>
      let log' := map_put Z.ltb log k v in
      (if (W <? length log')%nat then map_erase_begin log' else log', true)
  end.

(** The abstract log is the set of all keys ever seen.  A key is known if it was
    seen and fewer than [W] larger keys were. *)
Definition larger (seen : gset Z) (k : Z) : gset Z := filter (λ x, k < x) seen.
Definition known (W : nat) (seen : gset Z) (k : Z) : bool :=
  bool_decide (k ∈ seen) && (size (larger seen k) <? W)%nat.

(** The concrete log represents the set. *)
Definition log_tracks {V} (W : nat) (log : list (Z * V)) (seen : gset Z) : Prop :=
  map_ok Z.ltb log ∧ ∀ k, k ∈ log.*1 ↔ known W seen k = true.

(** Insertion in a sorted list without repetition. *)
Fixpoint key_insert (k : Z) (s : list Z) : list Z :=
  match s with
  | [] => [k]
  | x :: s' => if k <? x then k :: s else if k =? x then s else x :: key_insert k s'
  end.

(** The [W] last elements. *)
Definition window (W : nat) (s : list Z) : list Z := drop (length s - W) s.

(** ** Lemmas *)

Lemma key_insert_keys {V} (log : list (Z * V)) k v :
  (map_put Z.ltb log k v).*1 = key_insert k log.*1.
Proof.
  induction log as [|[k' v'] log IH]; [done|]. cbn. destruct (k <? k'); [done|].
  destruct (k =? k') eqn:E; bool_to_prop; subst; [done|]. cbn. by rewrite IH.
Qed.

Lemma elem_of_key_insert k s x : x ∈ key_insert k s ↔ x = k ∨ x ∈ s.
Proof.
  induction s as [|y s IH]; cbn; [set_solver|].
  destruct (k <? y); [set_solver|]. destruct (k =? y) eqn:E; bool_to_prop; set_solver.
Qed.

Abbreviation sorted s := (StronglySorted Z.lt s).

Lemma sorted_NoDup s : sorted s → NoDup s.
Proof.
  induction 1 as [|x s Hs IH Hx]; constructor; [|done].
  intros Hin. rewrite Forall_forall in Hx. specialize (Hx x Hin). lia.
Qed.

Lemma key_insert_sorted k s : sorted s → sorted (key_insert k s).
Proof.
  induction 1 as [|x s Hs IH Hx]; cbn; [by repeat constructor|].
  destruct (k <? x) eqn:E1; [|destruct (k =? x) eqn:E2]; bool_to_prop.
  - constructor; [by constructor|]. constructor; [done|]. eapply Forall_impl; [done|]. cbn. lia.
  - by constructor.
  - constructor; [done|]. apply Forall_forall. intros y [->|Hy]%elem_of_key_insert; [lia|].
    rewrite Forall_forall in Hx. by apply Hx.
Qed.

Lemma key_insert_id k s : sorted s → k ∈ s → key_insert k s = s.
Proof.
  induction 1 as [|x s Hs IH Hx]; [by intros ?%elem_of_nil|]. cbn.
  intros [->|Hin]%elem_of_cons; [by rewrite Z.ltb_irrefl Z.eqb_refl|].
  rewrite Forall_forall in Hx. specialize (Hx k Hin).
  rewrite (proj2 (Z.ltb_ge _ _)); [lia|]. rewrite (proj2 (Z.eqb_neq _ _)); [lia|]. by rewrite IH.
Qed.

Lemma length_key_insert k s : k ∉ s → length (key_insert k s) = S (length s).
Proof.
  induction s as [|x s IH]; [done|]. intros [Hx Hs]%not_elem_of_cons. cbn.
  destruct (k <? x); [done|]. rewrite (proj2 (Z.eqb_neq _ _)) //. cbn. by rewrite IH.
Qed.

Lemma key_insert_front k s : (∀ x, x ∈ s → k < x) → key_insert k s = k :: s.
Proof.
  destruct s as [|x s]; [done|]. intros H. cbn.
  by rewrite (proj2 (Z.ltb_lt _ _)); [apply H; left|].
Qed.

Lemma key_insert_app_l k a l x :
  x ∈ a → k ≤ x → key_insert k (a ++ l) = key_insert k a ++ l.
Proof.
  induction a as [|y a IH]; [by intros ?%elem_of_nil|]. intros Hin Hk. cbn.
  destruct (k <? y) eqn:E1; [done|]. destruct (k =? y) eqn:E2; bool_to_prop; [done|]. cbn.
  f_equal. apply IH; [|done]. apply elem_of_cons in Hin as [->|?]; [lia|done].
Qed.

Lemma key_insert_app_r k a l :
  (∀ x, x ∈ a → x < k) → key_insert k (a ++ l) = a ++ key_insert k l.
Proof.
  induction a as [|y a IH]; [done|]. intros H. cbn.
  have Hy : y < k by apply H; left.
  rewrite (proj2 (Z.ltb_ge _ _)); [lia|]. rewrite (proj2 (Z.eqb_neq _ _)); [lia|].
  f_equal. apply IH. intros x Hx. apply H. by right.
Qed.

(** What the code does to the keys of its log. *)
Definition trim (W : nat) (k : Z) (l : list Z) : list Z :=
  if decide (k ∈ l) then l
  else
    let l' := key_insert k l in if (W <? length l')%nat then tail l' else l'.

(** The log is the window of the sorted list of all keys. *)
Lemma window_insert W k s :
  sorted s → window W (key_insert k s) = trim W k (window W s).
Proof.
  intros Hs. rewrite /trim. set a := take (length s - W) s. set l := window W s.
  have Es : s = a ++ l by rewrite /a /l /window take_drop.
  have Hla : length a = (length s - W)%nat by rewrite /a length_take; lia.
  have Hll : length s = (length a + length l)%nat by rewrite -length_app -Es.
  have Hal : ∀ x y, x ∈ a → y ∈ l → x < y.
  { rewrite Es in Hs. by apply StronglySorted_app in Hs as (? & _). }
  have Hsl : sorted l by rewrite Es in Hs; apply StronglySorted_app in Hs as (_ & _ & ?).
  destruct (decide (k ∈ l)) as [Hin|Hnin].
  { rewrite key_insert_id //. rewrite Es. apply elem_of_app. by right. }
  have Hlen := length_key_insert k l Hnin. cbv zeta. rewrite Hlen.
  destruct (decide (Exists (λ x, k ≤ x) a)) as [Hex|Hnex].
  - apply Exists_exists in Hex as (x & Hx & Hkx).
    have Ha : (0 < length a)%nat by destruct a; [by apply elem_of_nil in Hx|simpl; lia].
    rewrite (proj2 (Nat.ltb_lt _ _)); [lia|]. rewrite (key_insert_front k l).
    { intros y Hy. specialize (Hal x y Hx Hy). lia. }
    cbn [tail].
    destruct (decide (k ∈ a)) as [Hka|Hka].
    + rewrite key_insert_id //. rewrite Es. apply elem_of_app. by left.
    + rewrite {1}Es (key_insert_app_l k a l x) // /window.
      rewrite length_app (length_key_insert k a Hka).
      rewrite drop_app_length' //. rewrite (length_key_insert k a Hka). lia.
  - have Hlt : ∀ x, x ∈ a → x < k.
    { intros x Hx. destruct (decide (k ≤ x)) as [Hk|Hk]; [|lia].
      exfalso. apply Hnex, Exists_exists. by exists x. }
    rewrite {1}Es key_insert_app_r // /window length_app Hlen.
    destruct (W <? S (length l))%nat eqn:EW; bool_to_prop.
    + have -> : (length a + S (length l) - W)%nat = (length a + 1)%nat by lia.
      rewrite -drop_drop drop_app_length. by destruct (key_insert k l).
    + have Ha : a = [] by apply nil_length_inv; lia.
      rewrite Ha. cbn. by have -> : (S (length l) - W)%nat = 0%nat by lia.
Qed.

(** The keys of the concrete log after a step. *)
Lemma log_step_keys {V} W (log : list (Z * V)) k v :
  map_ok Z.ltb log →
  map_ok Z.ltb (log_step W log k v).1 ∧ (log_step W log k v).1.*1 = trim W k log.*1
  ∧ (log_step W log k v).2 = bool_decide (k ∉ log.*1).
Proof.
  intros Hok. rewrite /log_step /trim. destruct (map_get log k) as [v'|] eqn:Eg.
  - have Hin : k ∈ log.*1.
    { apply map_get_in in Eg. apply list_elem_of_fmap. by exists (k, v'). }
    rewrite decide_True //. split_and!; [done..|]. symmetry. apply bool_decide_eq_false. tauto.
  - have Hnin : k ∉ log.*1.
    { intros ([k' v'] & -> & Hin)%list_elem_of_fmap. apply (map_get_elem Z.ltb) in Hin; [|done].
      cbn in Eg. congruence. }
    rewrite decide_False // bool_decide_true //. cbv zeta.
    rewrite -(key_insert_keys log k v) length_fmap.
    pose proof (map_put_ok Z.ltb log k v Hok) as Hp. cbn [fst].
    destruct (W <? _)%nat; [|done]. split_and!; [|by destruct (map_put _ _ _ _)|done].
    rewrite /map_erase_begin. destruct (map_put _ _ _ _) as [|[k' v'] m]; [done|].
    by apply map_ok_cons in Hp as [? _].
Qed.

(** *** The set behind the window *)

Lemma size_larger s k : sorted s → size (larger (list_to_set s) k) = length (filter (λ x, k < x) s).
Proof.
  intros Hs. rewrite -(size_list_to_set (C := gset Z)).
  - by apply NoDup_filter, sorted_NoDup.
  - f_equal. apply set_eq. intros x. rewrite elem_of_filter !elem_of_list_to_set list_elem_of_filter //.
Qed.

(** In a sorted list the elements larger than one of them follow it. *)
Lemma filter_larger s1 k s2 : sorted (s1 ++ k :: s2) → filter (λ x, k < x) (s1 ++ k :: s2) = s2.
Proof.
  intros (H1 & _ & H2)%StronglySorted_app. inversion H2 as [|?? H3 H4]; subst.
  rewrite filter_app filter_cons decide_False; [lia|].
  have -> : filter (λ x, k < x) s1 = [].
  { clear -H1. induction s1 as [|x s1 IH]; [done|]. rewrite filter_cons decide_False.
    - have := H1 x k (list_elem_of_here _ _) (list_elem_of_here _ _). lia.
    - apply IH. intros x1 x2 Hx. apply H1. by right. }
  rewrite app_nil_l. clear -H4. induction H4 as [|x s Hx _ IH]; [done|].
  by rewrite filter_cons decide_True // IH.
Qed.

Lemma elem_of_window W s1 k s2 :
  NoDup (s1 ++ k :: s2) → k ∈ window W (s1 ++ k :: s2) ↔ (length s2 < W)%nat.
Proof.
  intros Hnd. rewrite /window length_app. cbn [length].
  set n := (length s1 + S (length s2) - W)%nat. split.
  - intros Hin. destruct (decide (length s1 < n)%nat) as [Hlt|]; [|lia]. exfalso.
    rewrite drop_app_ge in Hin; [lia|].
    destruct (n - length s1)%nat as [|j] eqn:Ej; [lia|]. cbn in Hin. apply elem_of_drop_in in Hin.
    apply NoDup_app in Hnd as (_ & _ & Hnd). by apply NoDup_cons in Hnd as [? _].
  - intros Hlt. rewrite drop_app_le; [lia|]. apply elem_of_app. right. left.
Qed.

Lemma window_known W s k : sorted s → k ∈ window W s ↔ known W (list_to_set s) k = true.
Proof.
  intros Hs. rewrite /known size_larger // andb_true_iff bool_decide_eq_true elem_of_list_to_set.
  rewrite Nat.ltb_lt. have Hiff : k ∈ s → k ∈ window W s ↔ (length (filter (λ x, (k < x)%Z) s) < W)%nat.
  { intros (s1 & s2 & ->)%list_elem_of_split. rewrite filter_larger //.
    by apply elem_of_window, sorted_NoDup. }
  split; [|naive_solver]. intros Hin. have Hks : k ∈ s by eapply elem_of_drop_in.
  split; [done|]. by apply Hiff.
Qed.

(** Every set is the elements of a sorted list. *)
Lemma key_insert_set k s : list_to_set (C := gset Z) (key_insert k s) = {[k]} ∪ list_to_set s.
Proof.
  apply set_eq. intros x. rewrite elem_of_list_to_set elem_of_key_insert elem_of_union.
  by rewrite elem_of_singleton elem_of_list_to_set.
Qed.

Lemma set_sorted (X : gset Z) : ∃ s, sorted s ∧ list_to_set s = X.
Proof.
  induction X as [|x X Hx (s & Hs & <-)] using set_ind_L; [by exists []; split; [constructor|]|].
  exists (key_insert x s). split; [by apply key_insert_sorted|apply key_insert_set].
Qed.

(** ** The window theorem *)

Lemma log_tracks_nil {V} W : log_tracks W ([] : list (Z * V)) ∅.
Proof.
  split; [constructor|]. intros k. rewrite /known bool_decide_false; [set_solver|].
  cbn. split; [by intros ?%elem_of_nil|done].
Qed.

Lemma map_ok_sorted {V} (log : list (Z * V)) : map_ok Z.ltb log → sorted log.*1.
Proof.
  rewrite /map_ok. induction 1 as [|k ks Hs IH Hk]; constructor; [done|].
  eapply Forall_impl; [done|]. intros x. apply Z.ltb_lt.
Qed.

(** A log that tracks a set has the keys of the window of its sorted list. *)
Lemma log_tracks_window {V} W (log : list (Z * V)) s :
  sorted s → log_tracks W log (list_to_set s) ↔ map_ok Z.ltb log ∧ log.*1 = window W s.
Proof.
  intros Hs. split.
  - intros [Hok Hk]. split; [done|]. apply map_ok_sorted in Hok as Hsl.
    have Hsw : sorted (window W s).
    { rewrite -(take_drop (length s - W) s) in Hs. by apply StronglySorted_app_1_r in Hs. }
    apply (StronglySorted_unique_strong Z.lt); [lia|done..|].
    apply NoDup_Permutation; [by apply sorted_NoDup..|]. intros k. by rewrite Hk window_known.
  - intros [Hok Ek]. split; [done|]. intros k. by rewrite Ek window_known.
Qed.

(** A step of the log is the insertion of its key in the set of all keys; the
    key is reported new exactly when it is not known. *)
Lemma log_step_tracks {V} W (log : list (Z * V)) seen k v :
  log_tracks W log seen →
  log_tracks W (log_step W log k v).1 ({[k]} ∪ seen)
  ∧ (log_step W log k v).2 = negb (known W seen k).
Proof.
  intros Ht. destruct (set_sorted seen) as (s & Hs & <-).
  have [Hok Hk] := Ht. apply (log_tracks_window W log s Hs) in Ht as [_ Ek].
  destruct (log_step_keys W log k v Hok) as (Hok' & Ek' & ->). split.
  - rewrite -key_insert_set. apply log_tracks_window; [by apply key_insert_sorted|].
    split; [done|]. by rewrite Ek' Ek window_insert.
  - specialize (Hk k). destruct (known W _ k) eqn:E; cbn.
    + apply bool_decide_eq_false. naive_solver.
    + apply bool_decide_eq_true. naive_solver.
Qed.

(** The log never exceeds its limit. *)
Lemma log_tracks_length {V} W (log : list (Z * V)) seen :
  log_tracks W log seen → (length log ≤ W)%nat.
Proof.
  intros Ht. destruct (set_sorted seen) as (s & Hs & <-).
  apply log_tracks_window in Ht as [_ Ek]; [|done].
  rewrite -(length_fmap fst) Ek /window length_drop. lia.
Qed.
