(* ===== verification/DualFeed.v ===== *)
(** * Duplicate suppression over two feeds

    The packets of both multicast feeds go through [process_incoming_packet],
    which drops those whose key is in its log.  The run of a merged stream is
    shown to implement a specification on the set of all keys ever seen
    ([DedupWindow]), from which follow exactly-once delivery for feeds that are
    not too far apart, and that suppressing duplicates does not change what the
    SDK ends up with. *)

From S2P Require Import Prelude PackBcd CommonHeader CppMap TaifexSdk SdkStream.
From S2P Require Import Checksum EndianUtils MessageI081 DedupWindow MulticastReceiver NetworkManager.

(** ** Definitions *)

(** A packet that arrives on one of the feeds, with the header it carries. *)
Record arrival : Type := mkArrival {
  from_primary : bool;
  arr_header : CommonHeader;
  arr_bytes : list Z;
}.

Definition header_key (h : CommonHeader) : Z :=
  combined_seq_key (bcd_val (channel_id_bcd h)) (bcd_val (channel_seq_bcd h)).
Definition arr_key (a : arrival) : Z := header_key (arr_header a).

(** A packet whose header fields are valid BCD; its body and its checksum may
    be anything. *)
Definition well_headed (a : arrival) : Prop :=
  valid_header (arr_header a) ∧ bcd_ok (body_length_bcd (arr_header a)) = true
  ∧ ∃ rest, arr_bytes a = header_bytes (arr_header a) ++ rest.

Section Feed.
Context `{net : NetEnv}.

(** The callbacks of the two receivers, in the order of arrival. *)
Fixpoint receive_all (arrs : list arrival) : method NetworkManager unit :=
  match arrs with
  | [] => mret tt
  | a :: arrs =>
      (if from_primary a
       then on_primary_multicast_data (Some (arr_bytes a)) (length (arr_bytes a))
       else on_secondary_multicast_data (Some (arr_bytes a)) (length (arr_bytes a)));;
      receive_all arrs
  end.

End Feed.

(** The limit of the log. *)
Definition window_size (m : NetworkManager) : nat :=
  (DEDUPLICATION_WINDOW_SIZE * length (multicast_feeds (config_ m)))%nat.

(** The specification: the packets that reach the SDK, when [seen] are the keys
    that have arrived before. *)
Fixpoint first_copies (W : nat) (seen : gset Z) (arrs : list arrival) : list arrival :=
  match arrs with
  | [] => []
  | a :: arrs =>
      (if known W seen (arr_key a) then [] else [a])
      ++ first_copies W ({[arr_key a]} ∪ seen) arrs
  end.

(** The reference: the first packet of each key. *)
Fixpoint first_occurrences (seen : gset Z) (arrs : list arrival) : list arrival :=
  match arrs with
  | [] => []
  | a :: arrs =>
      (if bool_decide (arr_key a ∈ seen) then [] else [a])
      ++ first_occurrences ({[arr_key a]} ∪ seen) arrs
  end.

(** Whenever a copy arrives, fewer than [W] larger keys have arrived. *)
Fixpoint close_together (W : nat) (seen : gset Z) (arrs : list arrival) : Prop :=
  match arrs with
  | [] => True
  | a :: arrs =>
      (arr_key a ∈ seen → (size (larger seen (arr_key a)) < W)%nat)
      ∧ close_together W ({[arr_key a]} ∪ seen) arrs
  end.

Definition all_keys (arrs : list arrival) : gset Z := list_to_set (arr_key <$> arrs).

(** A manager that receives both feeds. *)
Definition receiving (m : NetworkManager) (s : TaifexSdk) : Prop :=
  running_ m = true ∧ sdk_core_logic_ m = Some s ∧ dual_feed_enabled (config_ m) = true ∧ sdk_ok s.

(** ** Lemmas *)

Lemma process_message_short s p :
  (length p < HEADER_SIZE + 3)%nat → process_message (Some p) (length p) s = (s, Ok tt).
Proof.
  intros Hn. rewrite /process_message. run_method. destruct (negb _); [done|].
  destruct (_ =? 0)%nat; [done|]. rewrite (proj2 (Nat.ltb_lt _ _)) //.
Qed.

Lemma process_message_uninit s p n :
  initialized_ s = false → process_message p n s = (s, Ok tt).
Proof. intros Hi. rewrite /process_message. run_method. by rewrite Hi. Qed.

(** The SDK takes a well-headed packet without an exception. *)
Lemma process_well_headed s a :
  sdk_ok s → well_headed a →
  ∃ s', process_message (Some (arr_bytes a)) (length (arr_bytes a)) s = (s', Ok tt) ∧ sdk_ok s'.
Proof.
  intros Hs ((Hwf & Hc & Hq) & Hbl & rest & Hp).
  pose proof (process_message_keeps s (Some (arr_bytes a)) _ Hs (Nat.le_refl _)) as Hk.
  destruct (process_message _ _ s) as [s' r] eqn:E. destruct Hk as ([-> | ->] & Hs' & _); [by exists s'|].
  exfalso. destruct (initialized_ s) eqn:Hi; last first.
  { by rewrite process_message_uninit in E. }
  have Hlen : (HEADER_SIZE + 3 ≤ length (arr_bytes a))%nat.
  { destruct (decide (HEADER_SIZE + 3 ≤ length (arr_bytes a))%nat); [done|].
    rewrite process_message_short // in E. lia. }
  destruct (split_message (arr_bytes a) _ (conj Hlen (Nat.le_refl _)))
    as (h & body & ck & term & Hwf' & Ea & Ht & El).
  have Eh : h = arr_header a.
  { have H1 := parse_header_bytes h (body ++ [ck] ++ term) HEADER_SIZE CommonHeader_default Hwf' (le_n _).
    have H2 := parse_header_bytes (arr_header a) rest HEADER_SIZE CommonHeader_default Hwf (le_n _).
    rewrite -Ea Hp H2 in H1. by injection H1. }
  subst h. rewrite {1}Ea El process_message_split // in E.
  rewrite /bcd_field Hbl in E. destruct (_ =? _); [|done]. destruct (_ =? ck); [|done].
  rewrite tail_state // ?Hc ?Hq // in E. apply Hs.
Qed.

Section Packets.
Context `{net : NetEnv}.

(** The deduplication block is a step of the log. *)
Lemma deduplicate_eq key m :
  let step := log_step (window_size m) (deduplication_log_ m) key (net_now (now_ticks m)) in
  deduplicate key m = (set_log (now_tick m) step.1, Ok step.2).
Proof.
  cbv zeta. rewrite /deduplicate /steady_now /log_step /window_size. run_method.
  cbn [now_tick deduplication_log_]. destruct (map_get (deduplication_log_ m) key); [by destruct m|].
  cbn [deduplication_log_ set_log config_]. by destruct (_ <? _)%nat.
Qed.

(** The header a packet is parsed to, and its key. *)
Lemma parse_well_headed a out :
  well_headed a →
  CommonHeader_parse (Some (arr_bytes a)) (length (arr_bytes a)) out = Ok (true, arr_header a)
  ∧ getChannelId (arr_header a) = Ok (bcd_val (channel_id_bcd (arr_header a)))
  ∧ getChannelSeq (arr_header a) = Ok (bcd_val (channel_seq_bcd (arr_header a))).
Proof.
  intros (Hv & _ & rest & ->). destruct (getters_valid _ Hv) as (-> & -> & _). split_and!; [|done..].
  apply parse_header_bytes; [apply Hv|]. rewrite length_app header_bytes_length; [apply Hv|]. lia.
Qed.

(** The manager after forwarding [p] to an SDK that becomes [s]. *)
Definition forward (m : NetworkManager) (s : TaifexSdk) (p : list Z) : NetworkManager :=
  note_forwarded (set_sdk m (Some s)) p.

(** A well-headed packet on a feed of a receiving manager: it is dropped, with
    the log kept, if its key is in the log; otherwise it is noted and
    forwarded. *)
Lemma packet_step m s a primary :
  receiving m s → well_headed a →
  let step := log_step (window_size m) (deduplication_log_ m) (arr_key a) (net_now (now_ticks m)) in
  let m1 := set_log (now_tick m) step.1 in
  ∃ s', process_message (Some (arr_bytes a)) (length (arr_bytes a)) s = (s', Ok tt) ∧ sdk_ok s'
    ∧ process_incoming_packet (Some (arr_bytes a)) (length (arr_bytes a)) primary false m
      = (if step.2 then forward m1 s' (arr_bytes a) else m1, Ok tt).
Proof.
  intros (Hr & Hsd & Hd & Hs) Ha. cbv zeta.
  destruct (process_well_headed s a Hs Ha) as (s' & E & Hs'). exists s'. split_and!; [done..|].
  rewrite /process_incoming_packet. run_method. rewrite Hr Hsd bool_decide_false //.
  destruct (parse_well_headed a CommonHeader_default Ha) as (-> & -> & ->). cbn [orb negb].
  rewrite Hd. cbn [andb negb]. rewrite deduplicate_eq -/(header_key _) -/(arr_key a).
  destruct (log_step _ _ _ _) as [log' []]; cbn [fst snd negb]; [|done].
  rewrite /forward_to_sdk. cbn. by rewrite Hsd E take_ge.
Qed.

(** A retransmitted packet is always forwarded and leaves the log alone. *)
Lemma retransmitted_step m s a :
  running_ m = true → sdk_core_logic_ m = Some s → sdk_ok s → well_headed a →
  ∃ s', process_message (Some (arr_bytes a)) (length (arr_bytes a)) s = (s', Ok tt) ∧ sdk_ok s'
    ∧ on_retransmitted_market_data (Some (arr_bytes a)) (length (arr_bytes a)) m
      = (forward m s' (arr_bytes a), Ok tt).
Proof.
  intros Hr Hsd Hs Ha. destruct (process_well_headed s a Hs Ha) as (s' & E & Hs').
  exists s'. split_and!; [done..|]. rewrite /on_retransmitted_market_data /process_incoming_packet.
  run_method. rewrite Hr Hsd bool_decide_false //. cbn [orb negb]. rewrite Hr Hsd bool_decide_false //.
  destruct (parse_well_headed a CommonHeader_default Ha) as (-> & -> & ->). cbn [orb negb].
  rewrite andb_false_r. rewrite /forward_to_sdk. cbn. by rewrite Hsd E take_ge.
Qed.

(** The run of a merged stream implements the specification. *)
Lemma receive_all_spec arrs m s seen :
  receiving m s → log_tracks (window_size m) (deduplication_log_ m) seen →
  Forall well_headed arrs →
  ∃ m' s', receive_all arrs m = (m', Ok tt) ∧ receiving m' s' ∧ config_ m' = config_ m
    ∧ forwarded m' = forwarded m ++ (arr_bytes <$> first_copies (window_size m) seen arrs)
    ∧ process_messages (arr_bytes <$> first_copies (window_size m) seen arrs) s = (s', Ok tt)
    ∧ log_tracks (window_size m) (deduplication_log_ m') (all_keys arrs ∪ seen).
Proof.
  revert m s seen. induction arrs as [|a arrs IH]; intros m s seen Hm Ht Ha.
  { exists m, s. cbn. rewrite app_nil_r /all_keys /= union_empty_l_L. by split_and!. }
  apply Forall_cons in Ha as [Ha Has]. set W := window_size m in Ht |- *.
  destruct (log_step_tracks W _ seen (arr_key a) (net_now (now_ticks m)) Ht) as [Ht' Hfresh].
  destruct (packet_step m s a (from_primary a) Hm Ha) as (s1 & E1 & Hs1 & Hp).
  rewrite -/W in Hp. cbn [receive_all]. run_method.
  have -> : (if from_primary a
       then on_primary_multicast_data (Some (arr_bytes a)) (length (arr_bytes a))
       else on_secondary_multicast_data (Some (arr_bytes a)) (length (arr_bytes a)))
    = process_incoming_packet (Some (arr_bytes a)) (length (arr_bytes a)) (from_primary a) false.
  { by destruct (from_primary a). }
  rewrite Hp. destruct Hm as (Hr & Hsd & Hd & Hs).
  rewrite Hfresh. cbn [first_copies]. destruct (known W seen (arr_key a)); cbn [negb].
  - destruct (IH (set_log (now_tick m) (log_step W (deduplication_log_ m) (arr_key a)
      (net_now (now_ticks m))).1) s ({[arr_key a]} ∪ seen)) as (m' & s' & E & Hm' & Hc & Hf & Hpm & Htr);
      [by split_and!|done..|].
    exists m', s'. split_and!; try done; cbn in Hf |- *; try apply Hm'.
    by rewrite /all_keys /= (union_comm_L {[arr_key a]}) -union_assoc_L.
  - set m1 := forward _ s1 _.
    destruct (IH m1 s1 ({[arr_key a]} ∪ seen)) as (m' & s' & E & Hm' & Hc & Hf & Hpm & Htr);
      [by split_and!|done..|].
    exists m', s'. split_and!; try done; cbn in Hf |- *; try apply Hm'.
    + by rewrite Hf -app_assoc.
    + cbn [process_messages]. run_method. by rewrite E1.
    + by rewrite /all_keys /= (union_comm_L {[arr_key a]}) -union_assoc_L.
Qed.

End Packets.

(** *** The first copies *)

Lemma first_copies_close W seen arrs :
  close_together W seen arrs → first_copies W seen arrs = first_occurrences seen arrs.
Proof.
  revert seen. induction arrs as [|a arrs IH]; intros seen; [done|]. intros [Ha Hs]. cbn.
  rewrite IH //. f_equal. rewrite /known. destruct (bool_decide (arr_key a ∈ seen)) eqn:E; [|done].
  apply bool_decide_eq_true in E. by rewrite (proj2 (Nat.ltb_lt _ _) (Ha E)).
Qed.

(** Every first occurrence has a new key, and every key has one. *)
Lemma first_occurrences_spec seen arrs :
  NoDup (arr_key <$> first_occurrences seen arrs)
  ∧ (∀ a, a ∈ first_occurrences seen arrs → a ∈ arrs ∧ arr_key a ∉ seen)
  ∧ (∀ a, a ∈ arrs → arr_key a ∉ seen →
       ∃ a', a' ∈ first_occurrences seen arrs ∧ arr_key a' = arr_key a).
Proof.
  revert seen. induction arrs as [|a arrs IH]; intros seen; cbn [first_occurrences].
  { split_and!; [constructor|by intros ? ?%elem_of_nil..]. }
  destruct (IH ({[arr_key a]} ∪ seen)) as (H1 & H2 & H3).
  destruct (bool_decide (arr_key a ∈ seen)) eqn:E; cbn [app].
  - apply bool_decide_eq_true in E. split_and!; [done| |].
    + intros b Hb. apply H2 in Hb as [? Hb]. apply not_elem_of_union in Hb as [_ Hb]. split; [by right|done].
    + intros b [->|Hb]%elem_of_cons Hn; [done|]. apply H3; [done|]. apply not_elem_of_union. split; [|done].
      apply not_elem_of_singleton. congruence.
  - apply bool_decide_eq_false in E. split_and!.
    + rewrite fmap_cons. constructor; [|done]. intros (b & Eb & Hb)%list_elem_of_fmap.
      apply H2 in Hb as [_ Hb]. apply Hb, elem_of_union. left. by apply elem_of_singleton.
    + intros b [->|Hb]%elem_of_cons; [by split; [left|]|].
      apply H2 in Hb as [? Hb]. apply not_elem_of_union in Hb as [_ Hb]. split; [by right|done].
    + intros b [->|Hb]%elem_of_cons Hn; [by exists a; split; [left|]|].
      destruct (decide (arr_key b = arr_key a)) as [Ek|Ek]; [by exists a; split; [left|]|].
      destruct (H3 b Hb) as (b' & Hb' & ?).
      { apply not_elem_of_union. split; [by apply not_elem_of_singleton|done]. } exists b'. by split; [right|].
Qed.

(** The first packet of every key is forwarded whatever the window. *)
Lemma first_copies_cover W seen arrs a :
  a ∈ arrs → arr_key a ∉ seen →
  ∃ a', a' ∈ first_copies W seen arrs ∧ arr_key a' = arr_key a.
Proof.
  revert seen. induction arrs as [|b arrs IH]; intros seen; [by intros ?%elem_of_nil|].
  intros Hin Hn. cbn [first_copies]. destruct (decide (arr_key a = arr_key b)) as [Ek|Ek].
  - exists b. split; [|done]. rewrite /known bool_decide_false; [by rewrite -Ek|]. by left.
  - apply elem_of_cons in Hin as [->|Hin]; [done|].
    destruct (IH ({[arr_key b]} ∪ seen)) as (a' & Ha' & ?); [done| |].
    { apply not_elem_of_union. split; [by apply not_elem_of_singleton|done]. }
    exists a'. split; [|done]. apply elem_of_app. by right.
Qed.

Lemma first_copies_sub W seen arrs a : a ∈ first_copies W seen arrs → a ∈ arrs.
Proof.
  revert seen. induction arrs as [|b arrs IH]; intros seen; [done|]. cbn [first_copies].
  intros [Hin|Hin]%elem_of_app; [|right; by eapply IH].
  destruct (known _ _ _); [by apply elem_of_nil in Hin|]. apply list_elem_of_singleton in Hin. subst. by left.
Qed.

(** In the order of arrival: the first packet of every key is among the
    forwarded ones, and these are among the packets that arrived. *)
Lemma first_copies_between W seen arrs :
  first_occurrences seen arrs `sublist_of` first_copies W seen arrs
  ∧ first_copies W seen arrs `sublist_of` arrs.
Proof.
  revert seen. induction arrs as [|a arrs IH]; intros seen; [by split|].
  destruct (IH ({[arr_key a]} ∪ seen)) as [H1 H2]. cbn [first_copies first_occurrences]. rewrite /known.
  destruct (bool_decide (arr_key a ∈ seen)); cbn [andb app]; [|by split; apply sublist_skip].
  destruct (_ <? _)%nat; cbn [app]; split; try done; [by apply sublist_cons|by apply sublist_cons|by apply sublist_skip].
Qed.

Lemma first_copies_single W a : first_copies W ∅ [a] = [a].
Proof. cbn. rewrite /known bool_decide_false //. Qed.

(** Of two copies in a row the second is dropped. *)
Lemma first_copies_pair W a b :
  (0 < W)%nat → arr_key a = arr_key b → first_copies W ∅ [a; b] = [a].
Proof.
  intros HW Ek. cbn [first_copies]. rewrite {1}/known bool_decide_false; [set_solver|].
  cbn [andb app]. f_equal. rewrite /known bool_decide_true; [set_solver|]. cbn [andb].
  rewrite (proj2 (Nat.ltb_lt _ _)) //. have -> : larger ({[arr_key a]} ∪ ∅) (arr_key b) = ∅; [|done].
  apply set_eq. intros x. rewrite /larger elem_of_filter Ek. set_unfold. lia.
Qed.

Lemma is_frame_well_headed a : is_frame (arr_header a) (arr_bytes a) → well_headed a.
Proof.
  intros (Hv & body & t1 & t2 & [Hwf Hbl] & E). split_and!; [done| |by eexists].
  rewrite /bcd_field in Hbl. by destruct (bcd_ok (body_length_bcd (arr_header a))).
Qed.

Lemma frames_headers arrs :
  Forall (λ a, is_frame (arr_header a) (arr_bytes a)) arrs →
  Forall2 is_frame (arr_header <$> arrs) (arr_bytes <$> arrs).
Proof. induction 1; constructor; done. Qed.

(** *** Keys *)

Lemma combined_seq_key_eq c q :
  0 ≤ c < 2 ^ 32 → 0 ≤ q < 2 ^ 32 → combined_seq_key c q = c * 2 ^ 32 + q.
Proof. intros Hc Hq. apply lor_shift; rewrite /fits; lia. Qed.

(** A sequence number of 33 bits on an odd channel loses its top bit. *)
Lemma combined_seq_key_wrap c q :
  0 ≤ c < 2 ^ 32 → Z.odd c = true → 0 ≤ q < 2 ^ 32 →
  combined_seq_key c (2 ^ 32 + q) = combined_seq_key c q.
Proof.
  intros Hc Ho Hq. rewrite /combined_seq_key /u64 Z.shiftl_mul_pow2 // Z.mod_small; [lia|].
  apply Z.bits_inj'. intros i Hi. rewrite !Z.lor_spec.
  destruct (Z.eq_dec i 32) as [->|Hne].
  - rewrite Z.mul_pow2_bits // Z.sub_diag Z.bit0_odd Ho //.
  - f_equal. have -> : 2 ^ 32 + q = Z.lor (2 ^ 32) q.
    { have := lor_shift 1 q. rewrite /fits /u64 Z.shiftl_1_l Z.mod_small //. intros ->; lia. }
    by rewrite Z.lor_spec Z.pow2_bits_false.
Qed.

(** The state after a merged stream of frames. *)
Lemma receive_frames `{net : NetEnv} m s arrs :
  receiving m s → initialized_ s = true → deduplication_log_ m = [] →
  Forall (λ a, is_frame (arr_header a) (arr_bytes a)) arrs →
  (∀ a b, a ∈ arrs → b ∈ arrs → arr_key a = arr_key b → arr_header a = arr_header b) →
  ∃ m' fwd, receive_all arrs m = (m', Ok tt)
    ∧ sdk_core_logic_ m' = Some (accept_all s (arr_header <$> arrs))
    ∧ sdk_ok (accept_all s (arr_header <$> arrs))
    ∧ forwarded m' = forwarded m ++ (arr_bytes <$> fwd)
    ∧ first_occurrences ∅ arrs `sublist_of` fwd ∧ fwd `sublist_of` arrs
    ∧ (∀ h, h ∈ arr_header <$> fwd ↔ h ∈ arr_header <$> arrs).
Proof.
  intros Hm Hi Hlog Hfr Hkey. have Ht : log_tracks (window_size m) (deduplication_log_ m) ∅.
  { rewrite Hlog. apply log_tracks_nil. }
  have Ha : Forall well_headed arrs by eapply Forall_impl; [exact Hfr|apply is_frame_well_headed].
  destruct (receive_all_spec arrs m s ∅ Hm Ht Ha) as (m' & s' & E & (_ & Hs' & _ & Hok) & _ & Hf & Hp & _).
  destruct (first_copies_between (window_size m) ∅ arrs) as [Hocc Hin].
  set fc := first_copies _ _ _ in Hf Hp Hocc Hin.
  have Hsub : ∀ a, a ∈ fc → a ∈ arrs by intros a; apply first_copies_sub.
  rewrite (process_frames (arr_header <$> fc)) // in Hp.
  - apply Hm.
  - apply frames_headers, Forall_forall. intros a Ha'. rewrite Forall_forall in Hfr. by apply Hfr, Hsub.
  - injection Hp as <-. have Hall : ∀ h, h ∈ arr_header <$> fc ↔ h ∈ arr_header <$> arrs.
    { intros h. rewrite !list_elem_of_fmap. split.
      * intros (a & -> & Ha'). exists a. by split; [|apply Hsub].
      * intros (a & -> & Ha'). destruct (first_copies_cover (window_size m) ∅ arrs a Ha') as (b & Hb & Ek);
          [set_solver|]. exists b. split; [|done]. by apply Hkey; [..|apply Hsub|]. }
    have Es : accept_all s (arr_header <$> fc) = accept_all s (arr_header <$> arrs) by apply accept_all_same.
    rewrite -Es. by exists m', fc.
Qed.

(** ** Properties *)

Section Properties.
Context `{net : NetEnv}.

(** C2: duplicate suppression refines a specification on the set of keys ever
    seen: whatever the order in which well-headed packets arrive on the two
    feeds, the packets handed to the SDK are exactly those whose key has not
    been seen yet, or than which at least [window_size] distinct larger keys
    have been seen so far, no matter whether before or after its first copy (so
    a low key can be forwarded twice in a row once a higher channel fills the
    log); the log never exceeds that size and stays a window on the keys seen,
    and the SDK state is that of processing the forwarded packets alone. *)
Theorem dedup_refines m s seen arrs (Hm : receiving m s)
    (Ht : log_tracks (window_size m) (deduplication_log_ m) seen) (Ha : Forall well_headed arrs) :
  ∃ m' s', receive_all arrs m = (m', Ok tt)
    ∧ forwarded m' = forwarded m ++ (arr_bytes <$> first_copies (window_size m) seen arrs)
    ∧ sdk_core_logic_ m' = Some s'
    ∧ process_messages (arr_bytes <$> first_copies (window_size m) seen arrs) s = (s', Ok tt)
    ∧ log_tracks (window_size m) (deduplication_log_ m') (all_keys arrs ∪ seen)
    ∧ (length (deduplication_log_ m') ≤ window_size m)%nat.
Proof.
  destruct (receive_all_spec arrs m s seen Hm Ht Ha) as (m' & s' & E & (_ & Hs' & _) & _ & Hf & Hp & Htr).
  exists m', s'. split_and!; try done; [apply Htr..|by eapply log_tracks_length].
Qed.

(** Exactly once: when the copies of a packet arrive close together (fewer
    than [window_size] larger keys in between), a manager with an empty log
    hands the SDK the first copy of every packet and no other: the forwarded
    keys are distinct, and every key that arrived is among them. *)
Theorem dual_feed_exactly_once m s arrs (Hm : receiving m s) (Hlog : deduplication_log_ m = [])
    (Ha : Forall well_headed arrs) (Hclose : close_together (window_size m) ∅ arrs) :
  ∃ m' fwd, receive_all arrs m = (m', Ok tt)
    ∧ forwarded m' = forwarded m ++ (arr_bytes <$> fwd) ∧ fwd = first_occurrences ∅ arrs
    ∧ NoDup (arr_key <$> fwd)
    ∧ (∀ k, k ∈ arr_key <$> arrs ↔ k ∈ arr_key <$> fwd).
Proof.
  have Ht : log_tracks (window_size m) (deduplication_log_ m) ∅.
  { rewrite Hlog. apply log_tracks_nil. }
  destruct (receive_all_spec arrs m s ∅ Hm Ht Ha) as (m' & s' & E & _ & _ & Hf & _).
  rewrite first_copies_close // in Hf. exists m', (first_occurrences ∅ arrs).
  destruct (first_occurrences_spec ∅ arrs) as (H1 & H2 & H3). split_and!; [done..|].
  intros k. rewrite !list_elem_of_fmap. split.
  - intros (a & -> & Hin). destruct (H3 a Hin) as (a' & ? & ?); [set_solver|]. by exists a'.
  - intros (a & -> & Hin). apply H2 in Hin as [? _]. by exists a.
Qed.

(** C8: suppressing duplicates loses nothing: when the packets are well-formed
    frames and a key belongs to one header only, then, in whatever order and
    with whatever repetitions they arrive and however far the feeds are apart,
    the packets handed to the SDK are some of those that arrived, in the order
    of arrival, the first packet of every key among them, so that every header
    that arrived is handed on, the late ones too; and the SDK ends in the state
    of having accepted every frame that arrived. *)
Theorem dual_feed_same_state m s arrs hs (Hm : receiving m s) (Hi : initialized_ s = true)
    (Hlog : deduplication_log_ m = [])
    (Hfr : Forall (λ a, is_frame (arr_header a) (arr_bytes a)) arrs)
    (Hkey : ∀ a b, a ∈ arrs → b ∈ arrs → arr_key a = arr_key b → arr_header a = arr_header b)
    (Hhs : ∀ h, h ∈ hs ↔ h ∈ arr_header <$> arrs) :
  ∃ m' fwd, receive_all arrs m = (m', Ok tt)
    ∧ forwarded m' = forwarded m ++ (arr_bytes <$> fwd)
    ∧ first_occurrences ∅ arrs `sublist_of` fwd ∧ fwd `sublist_of` arrs
    ∧ (∀ h, h ∈ arr_header <$> fwd ↔ h ∈ arr_header <$> arrs)
    ∧ sdk_core_logic_ m' = Some (accept_all s hs).
Proof.
  destruct (receive_frames m s arrs Hm Hi Hlog Hfr Hkey) as (m' & fwd & E & Hs & _ & Hf & H1 & H2 & H3).
  exists m', fwd. do 5 (split; [done|]). rewrite Hs. f_equal. apply accept_all_same. intros h. by rewrite Hhs.
Qed.

(** C35: a corrupted first copy hides the packet: a packet is noted before its
    checksum is verified, so when the copy that arrives first has a changed
    byte in its body or its checksum, the SDK discards that copy and the
    manager drops the intact one; the message is lost, although the intact copy
    alone would have been accepted. *)
Theorem corrupt_copy_suppresses m s h body t1 t2 i b f1 f2 (Hm : receiving m s)
    (Hi : initialized_ s = true) (Hlog : deduplication_log_ m = [])
    (Hfeeds : multicast_feeds (config_ m) ≠ []) (Hv : valid_header h) (Hann : announces h body)
    (Hpos : (HEADER_SIZE ≤ i < HEADER_SIZE + length body + 1)%nat)
    (Hb : frame h body [t1; t2] !! i ≠ Some b) :
  let good := frame h body [t1; t2] in
  let bad := <[i := b]> good in
  (∃ m1, receive_all [mkArrival f1 h bad; mkArrival f2 h good] m = (m1, Ok tt)
     ∧ forwarded m1 = forwarded m ++ [bad] ∧ sdk_core_logic_ m1 = Some s)
  ∧ ∃ m2, receive_all [mkArrival f2 h good] m = (m2, Ok tt)
     ∧ sdk_core_logic_ m2 = Some (accept s h).
Proof.
  intros good bad. have Ht : log_tracks (window_size m) (deduplication_log_ m) ∅.
  { rewrite Hlog. apply log_tracks_nil. }
  have Hgood : is_frame h good by split; [done|]; exists body, t1, t2.
  have Hw2 : well_headed (mkArrival f2 h good) by apply is_frame_well_headed.
  have Hw1 : well_headed (mkArrival f1 h bad).
  { destruct Hw2 as (H1 & H2 & _). split_and!; [done..|].
    exists (<[(i - HEADER_SIZE)%nat := b]> (drop HEADER_SIZE good)). cbn [arr_bytes arr_header].
    have Hhl := header_bytes_length h (proj1 Hv). rewrite /bad /good /frame insert_app_r_alt; [lia|].
    by rewrite Hhl -Hhl drop_app_length. }
  have Hok : map_Forall channel_entry_ok (channel_sequences_ s) by apply Hm.
  split.
  - destruct (receive_all_spec _ m s ∅ Hm Ht (Forall_cons_2 _ _ _ Hw1 (Forall_cons_2 _ _ _ Hw2 (Forall_nil_2 _))))
      as (m1 & s1 & E & (_ & Hs1 & _) & _ & Hf & Hp & _).
    exists m1. split; [done|].
    have HW : (0 < window_size m)%nat.
    { rewrite /window_size /DEDUPLICATION_WINDOW_SIZE.
      destruct (multicast_feeds (config_ m)); [done|]. cbn [length]. lia. }
    rewrite first_copies_pair // in Hf Hp. split; [exact Hf|]. rewrite Hs1. f_equal.
    cbn [fmap list_fmap arr_bytes process_messages] in Hp.
    pose proof (process_corrupted s h body t1 t2 i b Hok (proj1 Hv)) as Hc. cbv zeta in Hc.
    rewrite -/good -/bad in Hc. have Hlb : length bad = length good by apply length_insert.
    rewrite -Hlb in Hc. rewrite /HEADER_SIZE in Hpos Hc. specialize (Hc ltac:(lia) Hb).
    rewrite /mbind /method_bind in Hp. destruct (process_message _ _ s) as [s2 [[]|e|]];
      cbn in Hc, Hp; [by injection Hp as <-|done..].
  - destruct (receive_all_spec _ m s ∅ Hm Ht (Forall_cons_2 _ _ _ Hw2 (Forall_nil_2 _)))
      as (m2 & s2 & E & (_ & Hs2 & _) & _ & _ & Hp & _).
    exists m2. split; [done|]. rewrite Hs2. f_equal.
    rewrite first_copies_single in Hp. cbn [fmap list_fmap arr_bytes process_messages] in Hp. rewrite /mbind /method_bind in Hp.
    rewrite (process_is_frame s h good) // in Hp. by injection Hp.
Qed.

(** Keys identify packets up to 32-bit sequence numbers: for sequence
    numbers below 2^32 two headers have the same key exactly when channel and
    sequence number agree, and keys order a channel by sequence number; a
    sequence number has ten digits, though, and from 2^32 on, on every
    odd-numbered channel, a packet takes the key of the packet 2^32 before. *)
Theorem key_identifies h1 h2 (Hv1 : valid_header h1) (Hv2 : valid_header h2) :
  let c1 := bcd_val (channel_id_bcd h1) in
  let c2 := bcd_val (channel_id_bcd h2) in
  let q1 := bcd_val (channel_seq_bcd h1) in
  let q2 := bcd_val (channel_seq_bcd h2) in
  (q1 < 2 ^ 32 → q2 < 2 ^ 32 →
     (header_key h1 = header_key h2 ↔ c1 = c2 ∧ q1 = q2)
     ∧ (c1 = c2 → header_key h1 < header_key h2 ↔ q1 < q2))
  ∧ (c1 = c2 → Z.odd c1 = true → q1 < 2 ^ 32 → q2 = 2 ^ 32 + q1 → header_key h2 = header_key h1).
Proof.
  intros c1 c2 q1 q2.
  destruct (getters_valid h1 Hv1) as (_ & _ & [Hc1 Hq1]), (getters_valid h2 Hv2) as (_ & _ & [Hc2 Hq2]).
  rewrite -/c1 -/q1 -/c2 -/q2 in Hc1 Hq1 Hc2 Hq2. rewrite /header_key -/c1 -/q1 -/c2 -/q2. split.
  - intros Hb1 Hb2. rewrite !combined_seq_key_eq; [lia..|]. split; [|lia]. split; [|lia].
    intros He. have : c1 = c2 by nia. lia.
  - intros <- Ho Hb1 ->. apply combined_seq_key_wrap; [lia|done|lia].
Qed.

End Properties.

(** *** Sample data *)

Definition sample_feed : MulticastFeedConfig := mkFeed (str "225.0.140.140") 14000 [] true.
Definition sample_config : NetworkManagerConfig :=
  mkConfig [sample_feed; sample_feed] None None true 100.
Definition sample_manager : NetworkManager :=
  mkManager (Some sdk0) sample_config None None None [] true true 0 0 [].
Definition sample_net : NetEnv :=
  Build_NetEnv (λ _, sample_mcast_env) (λ _, RetransmissionClient.working_env) Z.of_nat.

Definition sample_packet : list Z := frame sample_msg_header sample_i081_body [13; 10].
(** The next sequence number. *)
Definition sample_header2 : CommonHeader :=
  mkCommonHeader 27 50 65 [9; 0; 1; 2; 3; 4] [0; 7] [0; 0; 0; 0; 67] 1 [0; 57].
Definition sample_packet2 : list Z := frame sample_header2 sample_i081_body [13; 10].
(** Both feeds deliver both packets, the secondary one late. *)
Definition sample_arrivals : list arrival :=
  [mkArrival true sample_msg_header sample_packet; mkArrival true sample_header2 sample_packet2;
   mkArrival false sample_msg_header sample_packet; mkArrival false sample_header2 sample_packet2].

Lemma sample_receiving : receiving sample_manager sdk0.
Proof. do 3 (split; [reflexivity|]). split_and!; apply map_Forall_empty. Defined.

Lemma sample_frames : Forall (λ a, is_frame (arr_header a) (arr_bytes a)) sample_arrivals.
Proof.
  repeat (constructor; [split; [by repeat split|]; exists sample_i081_body, 13, 10;
    split; [by repeat split|reflexivity]|]). constructor.
Defined.

Lemma sample_well_headed : Forall well_headed sample_arrivals.
Proof. eapply Forall_impl; [exact sample_frames|]. intros a. apply is_frame_well_headed. Defined.

Lemma sample_log : log_tracks (window_size sample_manager) (deduplication_log_ sample_manager) ∅.
Proof. apply log_tracks_nil. Defined.

Lemma dedup_refines_witness :
  let net : NetEnv := sample_net in
  let m := sample_manager in
  ∃ m' s', receive_all sample_arrivals m = (m', Ok tt)
    ∧ forwarded m' = forwarded m ++ (arr_bytes <$> first_copies (window_size m) ∅ sample_arrivals)
    ∧ sdk_core_logic_ m' = Some s'
    ∧ process_messages (arr_bytes <$> first_copies (window_size m) ∅ sample_arrivals) sdk0 = (s', Ok tt)
    ∧ log_tracks (window_size m) (deduplication_log_ m') (all_keys sample_arrivals ∪ ∅)
    ∧ (length (deduplication_log_ m') ≤ window_size m)%nat.
Proof.
  intros net m.
  exact (dedup_refines (net := net) m sdk0 ∅ sample_arrivals sample_receiving sample_log sample_well_headed).
Defined.

Lemma dual_feed_exactly_once_witness :
  let net : NetEnv := sample_net in
  ∃ m' fwd, receive_all sample_arrivals sample_manager = (m', Ok tt)
    ∧ forwarded m' = forwarded sample_manager ++ (arr_bytes <$> fwd)
    ∧ fwd = first_occurrences ∅ sample_arrivals
    ∧ NoDup (arr_key <$> fwd)
    ∧ (∀ k, k ∈ arr_key <$> sample_arrivals ↔ k ∈ arr_key <$> fwd).
Proof.
  intros net.
  apply (dual_feed_exactly_once (net := net) sample_manager sdk0 sample_arrivals sample_receiving eq_refl
    sample_well_headed).
  repeat (split; [intros _; apply Nat.ltb_lt; vm_compute; reflexivity|]). exact I.
Defined.

Lemma dual_feed_same_state_witness :
  let net : NetEnv := sample_net in
  ∃ m' fwd, receive_all sample_arrivals sample_manager = (m', Ok tt)
    ∧ forwarded m' = [] ++ (arr_bytes <$> fwd)
    ∧ first_occurrences ∅ sample_arrivals `sublist_of` fwd ∧ fwd `sublist_of` sample_arrivals
    ∧ (∀ h, h ∈ arr_header <$> fwd ↔ h ∈ arr_header <$> sample_arrivals)
    ∧ sdk_core_logic_ m' = Some (accept_all sdk0 [sample_msg_header; sample_header2]).
Proof.
  intros net.
  apply (dual_feed_same_state (net := net) sample_manager sdk0 sample_arrivals _ sample_receiving eq_refl
    eq_refl sample_frames).
  - intros a b Ha Hb. revert Ha Hb. rewrite /sample_arrivals !elem_of_cons.
    intros [->|[->|[->|[->|?%elem_of_nil]]]] [->|[->|[->|[->|?%elem_of_nil]]]];
      try done; vm_compute; discriminate.
  - intros h. rewrite /sample_arrivals /= !elem_of_cons elem_of_nil. tauto.
Defined.

Lemma corrupt_copy_suppresses_witness :
  let net : NetEnv := sample_net in
  let bad := <[30%nat := 255]> sample_packet in
  (∃ m1, receive_all [mkArrival true sample_msg_header bad; mkArrival false sample_msg_header sample_packet]
           sample_manager = (m1, Ok tt)
     ∧ forwarded m1 = forwarded sample_manager ++ [bad] ∧ sdk_core_logic_ m1 = Some sdk0)
  ∧ ∃ m2, receive_all [mkArrival false sample_msg_header sample_packet] sample_manager = (m2, Ok tt)
     ∧ sdk_core_logic_ m2 = Some (accept sdk0 sample_msg_header).
Proof.
  intros net bad.
  apply (corrupt_copy_suppresses (net := net) sample_manager sdk0 sample_msg_header sample_i081_body 13 10
    30 255 true false sample_receiving eq_refl eq_refl).
  - discriminate.
  - apply sample_msg_valid.
  - by repeat split.
  - vm_compute. lia.
  - vm_compute. discriminate.
Defined.

Lemma key_identifies_witness :
  header_key sample_msg_header = 7 * 2 ^ 32 + 42 ∧
  let c1 := bcd_val (channel_id_bcd sample_msg_header) in
  let c2 := bcd_val (channel_id_bcd sample_header2) in
  let q1 := bcd_val (channel_seq_bcd sample_msg_header) in
  let q2 := bcd_val (channel_seq_bcd sample_header2) in
  (q1 < 2 ^ 32 → q2 < 2 ^ 32 →
     (header_key sample_msg_header = header_key sample_header2 ↔ c1 = c2 ∧ q1 = q2)
     ∧ (c1 = c2 → header_key sample_msg_header < header_key sample_header2 ↔ q1 < q2))
  ∧ (c1 = c2 → Z.odd c1 = true → q1 < 2 ^ 32 → q2 = 2 ^ 32 + q1 →
     header_key sample_header2 = header_key sample_msg_header).
Proof.
  split; [reflexivity|]. apply key_identifies; [apply sample_msg_valid|by repeat split].
Defined.
