(* ===== verification/NetworkLifecycle.v ===== *)
(** * The life cycle of the network manager

    The invariant that ties the manager to its receivers, its client, its log
    and the SDK, over all interleavings of calls and thread passes; what
    [configure_and_start] and [stop] return and leave behind; and the failover
    to the backup retransmission server. *)

From S2P Require Import Prelude PackBcd CommonHeader CppMap EndianUtils TaifexSdk SdkStream.
From S2P Require Import RetransmissionProtocol MulticastReceiver RetransmissionClient.
From S2P Require Import ClientFraming ClientLink NetworkManager DedupWindow DualFeed.

(** ** Definitions *)

(** Receivers and clients that keep their own invariant, and are stopped or
    without a thread if [still] is set. *)
Definition receiver_good (still : bool) (o : option (nat * MulticastReceiver)) : Prop :=
  match o with
  | Some (_, r) => receiver_inv r ∧ (still = true → MulticastReceiver.running_ r = false)
  | None => True
  end.
Definition client_good (still : bool) (o : option (nat * RetransmissionClient)) : Prop :=
  match o with
  | Some (_, c) => client_inv c ∧ fits 2 (session_id_ c)
                   ∧ (still = true → client_thread_ c = false)
  | None => True
  end.

(** The session id has 16 bits. *)
Definition server_ok (o : option RetransmissionServerConfig) : Prop :=
  match o with
  | Some s => fits 2 (server_config_session_id s)
  | None => True
  end.
Definition config_ok (c : NetworkManagerConfig) : Prop :=
  server_ok (primary_retrans_server c) ∧ server_ok (backup_retrans_server c).

(** What does not involve the components. *)
Definition core_ok (m : NetworkManager) : Prop :=
  (∀ s, sdk_core_logic_ m = Some s → sdk_ok s) ∧ map_ok Z.ltb (deduplication_log_ m)
  ∧ config_ok (config_ m).

(** The invariant: every part keeps its own, the receivers of a stopped manager
    are stopped and its client has no thread. *)
Definition manager_inv (m : NetworkManager) : Prop :=
  let still := negb (running_ m) in
  core_ok m ∧ receiver_good still (primary_multicast_receiver_ m)
  ∧ receiver_good still (secondary_multicast_receiver_ m)
  ∧ client_good still (retransmission_client_ m).

Class NetBytes `{net : NetEnv} : Prop := net_bytes id :: @EnvBytes (net_client id).

(** Calls of the application, and passes of the threads. *)
Inductive manager_call : Type :=
| ConfigureAndStart (config : NetworkManagerConfig)
| Trigger (channel_id start_seq_num count : Z)
| StopAll
| ReceiverPass (primary : bool) (i : nat)
| ClientPass.

Section Exec.
Context `{net : NetEnv}.

Definition manager_exec (k : manager_call) : method NetworkManager unit :=
  match k with
  | ConfigureAndStart config => configure_and_start config;; mret tt
  | Trigger ch q n => trigger_retransmission_request ch q n
  | StopAll => stop
  | ReceiverPass primary i => receiver_pass primary i
  | ClientPass => client_pass
  end.

(** Calls have arguments of their types; a pass is made by a thread that
    exists. *)
Definition enabled (k : manager_call) (m : NetworkManager) : Prop :=
  match k with
  | ConfigureAndStart config => config_ok config
  | Trigger ch q n => fits 2 ch ∧ fits 4 q ∧ fits 2 n
  | StopAll => True
  | ReceiverPass primary i =>
      ∃ id r sub, receiver_of m primary = Some (id, r) ∧ subscriptions_ r !! i = Some sub
        ∧ receiver_thread sub = true
  | ClientPass => ∃ id c, retransmission_client_ m = Some (id, c) ∧ client_thread_ c = true
  end.

(** The program goes on after a call that returns, and after an exception that
    reaches the application; an exception on another thread terminates it. *)
Definition survives (k : manager_call) (r : result unit) : Prop :=
  match r with
  | Ok _ => True
  | Throw _ => match k with ConfigureAndStart _ | Trigger _ _ _ | StopAll => True | _ => False end
  | Undefined => False
  end.

Inductive manager_reach : NetworkManager → Prop :=
| manager_reach_new sdk :
    (∀ s, sdk = Some s → sdk_reach s) → manager_reach (NetworkManager_new sdk)
| manager_reach_step m k :
    manager_reach m → enabled k m → survives k (manager_exec k m).2 →
    manager_reach (manager_exec k m).1.

(** ** Lemmas *)

(** *** Packets *)

(** What handling a packet leaves alone. *)
Definition same_parts (m m' : NetworkManager) : Prop :=
  config_ m' = config_ m ∧ primary_multicast_receiver_ m' = primary_multicast_receiver_ m
  ∧ secondary_multicast_receiver_ m' = secondary_multicast_receiver_ m
  ∧ retransmission_client_ m' = retransmission_client_ m ∧ running_ m' = running_ m
  ∧ retrans_primary_active_ m' = retrans_primary_active_ m ∧ created m' = created m.

(** Packet handlers: only the SDK and the log change, and the only exception is
    [ParsingError]. *)
Definition harmless (h : method NetworkManager unit) : Prop :=
  ∀ m, core_ok m →
    let '(m', r) := h m in
    core_ok m' ∧ same_parts m m' ∧ (r = Ok tt ∨ r = Throw ParsingError).

Lemma same_parts_refl m : same_parts m m.
Proof. by split_and!. Qed.

Lemma harmless_ret : harmless (mret tt).
Proof. intros m Hm. split; [done|]. split; [apply same_parts_refl|by left]. Qed.

Lemma harmless_bind h1 h2 : harmless h1 → harmless h2 → harmless (h1;; h2).
Proof.
  intros H1 H2 m Hm. run_method. specialize (H1 m Hm). destruct (h1 m) as [m1 [[]|e|]];
    destruct H1 as (Hm1 & Hp1 & Hr1); [|done..].
  specialize (H2 m1 Hm1). destruct (h2 m1) as [m2 r]. destruct H2 as (Hm2 & Hp2 & Hr2).
  split; [done|]. split; [|done]. destruct Hp1 as (?&?&?&?&?&?&?), Hp2 as (?&?&?&?&?&?&?).
  split_and!; congruence.
Qed.

Lemma harmless_forward p n : readable p n → harmless (forward_to_sdk p n).
Proof.
  intros Hr m (Hs & Hl & Hc). rewrite /forward_to_sdk. destruct (sdk_core_logic_ m) as [s|] eqn:Es.
  - pose proof (process_message_keeps s p n (Hs s eq_refl) Hr) as H.
    destruct (process_message p n s) as [s' r]. destruct H as (Hres & Hs' & _).
    split; [|by split_and!]. split_and!; [|done..]. by intros s0 [= <-].
  - split; [split_and!; try done; by rewrite Es|]. split; [apply same_parts_refl|by left].
Qed.

Lemma harmless_packet p n primary retrans :
  readable p n → harmless (process_incoming_packet p n primary retrans).
Proof.
  intros Hr m Hm. rewrite /process_incoming_packet. run_method.
  destruct (negb (running_ m) || _); [by apply harmless_ret|].
  destruct p as [mem|]; last first.
  { rewrite /CommonHeader_parse. cbn. by apply harmless_ret. }
  destruct (parse_cases mem n CommonHeader_default Hr) as [[_ ->]|(h & Hwf & _ & ->)];
    [by apply harmless_ret|]. cbn [negb].
  rewrite getChannelId_eq // getChannelSeq_eq //.
  destruct (bcd_field_total (channel_id_bcd h)) as [[c ->]| ->];
    [|by split; [done|]; split; [apply same_parts_refl|right]].
  destruct (bcd_field_total (channel_seq_bcd h)) as [[q ->]| ->];
    [|by split; [done|]; split; [apply same_parts_refl|right]].
  destruct (_ && _); [|by apply harmless_forward].
  rewrite deduplicate_eq. destruct Hm as (Hs & Hl & Hc).
  destruct (log_step_keys (window_size m) (deduplication_log_ m) (combined_seq_key c q)
    (net_now (now_ticks m)) Hl) as (Hl' & _).
  destruct (log_step _ _ _ _) as [log' []]; cbn [fst snd negb] in *.
  - set m1 := set_log _ log'. have Hm1 : core_ok m1 by split_and!.
    pose proof (harmless_forward (Some mem) n Hr m1 Hm1) as H.
    destruct (forward_to_sdk _ _ m1) as [m2 r]. destruct H as (? & (?&?&?&?&?&?&?) & ?).
    by split_and!.
  - split; [by split_and!|]. by split_and!; [..|left].
Qed.

Lemma harmless_deliveries primary es : harmless (deliveries primary es).
Proof.
  induction es as [|e es IH]; [apply harmless_ret|]. apply harmless_bind; [|done].
  destruct e as [| |data ip p]; [apply harmless_ret..|]. destruct primary; apply harmless_packet, Nat.le_refl.
Qed.

(** A harmless handler keeps the invariant. *)
Lemma harmless_inv h m :
  harmless h → manager_inv m → manager_inv (h m).1 ∧ ((h m).2 = Ok tt ∨ (h m).2 = Throw ParsingError)
    ∧ same_parts m (h m).1.
Proof.
  intros Hh (Hm & Hp & Hs & Hc). specialize (Hh m Hm). destruct (h m) as [m' r].
  destruct Hh as (Hm' & Hsp & Hr). split; [|done]. have [_ [E1 [E2 [E3 [E4 _]]]]] := Hsp.
  rewrite /manager_inv. cbn. by rewrite E1 E2 E3 E4.
Qed.

(** *** Components *)

Lemma destroy_receiver_ok r : receiver_inv r → destroy_receiver r = Ok tt.
Proof.
  intros Hi. rewrite /destroy_receiver. destruct (stop_spec r Hi) as (r' & -> & Hi' & Hr' & _).
  destruct (existsb _ _) eqn:E; [|done]. apply existsb_exists in E as (s & Hin & Ht).
  destruct Hi' as (_ & _ & Hid). specialize (Hid Hr'). rewrite Forall_forall in Hid.
  destruct (Hid s) as (_ & Ht' & _); [by apply list_elem_of_In|]. congruence.
Qed.

Lemma destroy_client_ok c : client_inv c → destroy_client OtherThread c = Ok tt.
Proof.
  intros Hi. rewrite /destroy_client.
  destruct (stop_keeps c Hi) as (c' & -> & Hi' & Hr & _). by rewrite stopped_threadless.
Qed.

(** The receiver of a feed before it is started. *)
Definition feed_receiver (feed : MulticastFeedConfig) : MulticastReceiver :=
  mkReceiver true
    [ActiveSubscription_new (mkGroup (feed_group_ip feed) (feed_port feed) (feed_local_interface_ip feed))]
    false [] 0.

Lemma feed_receiver_good id feed : receiver_good true (Some (id, feed_receiver feed)).
Proof.
  split; [|done]. split_and!; [by vm_compute|by repeat constructor|]. intros _. by repeat constructor.
Qed.

Lemma setup_feed_eq primary feed still m :
  receiver_good still (receiver_of m primary) →
  setup_feed primary feed m =
  (set_receiver (count_created m) primary (Some (created m, feed_receiver feed)), Ok tt).
Proof.
  intros Hg. rewrite /setup_feed.
  rewrite (method_bind_Ok _ _ _
    (set_receiver (count_created m) primary (Some (created m, MulticastReceiver_new true))) tt).
  - rewrite /make_receiver. run_method. destruct (receiver_of m primary) as [[id r]|].
    + destruct Hg as [Hi _]. by rewrite destroy_receiver_ok.
    + done.
  - rewrite /on_receiver. run_method. by destruct primary.
Qed.

(** The client of a server after [start]: its thread exists if it could be
    created. *)
Definition server_client (server : RetransmissionServerConfig) (thread : bool) : RetransmissionClient :=
  RetransmissionClient.set_running
    (tick (RetransmissionClient_new (server_config_ip server) (server_config_port server)
             (server_config_session_id server) (server_config_password server) all_set)) true thread.

(** Whether the next client gets a thread. *)
Definition thread_granted (m : NetworkManager) : bool := env_thread (Env := net_client (created m)) 0.

Lemma server_client_good id server thread :
  fits 2 (server_config_session_id server) →
  client_good (negb thread) (Some (id, server_client server thread)).
Proof. intros Hs. by destruct thread; (split; [split; [split; [split|]|]|split]). Qed.

(** The client in place can be destroyed by thread [who]. *)
Definition replaceable (who : caller) (m : NetworkManager) : Prop :=
  match retransmission_client_ m with Some (_, c) => destroy_client who c = Ok tt | None => True end.

Lemma connect_eq who use_primary m :
  replaceable who m →
  connect_retransmission_client who use_primary m =
  match (if use_primary then primary_retrans_server (config_ m) else backup_retrans_server (config_ m)) with
  | Some server =>
      (set_client (count_created m) (Some (created m, server_client server (thread_granted m))),
       if thread_granted m then Ok tt else Throw std_system_error)
  | None => (m, Ok tt)
  end.
Proof.
  intros Hg. rewrite /connect_retransmission_client. run_method.
  destruct (if use_primary then _ else _) as [server|]; [|done].
  rewrite /thread_granted. rewrite /replaceable in Hg.
  destruct (retransmission_client_ m) as [[id c]|]; [rewrite Hg|];
    (cbn; rewrite (client_start_spec (env := net_client (created m))); [by split; [split; [split|]|]|cbn; by destruct (env_thread 0)]).
Qed.

Lemma still_replaceable m : client_good true (retransmission_client_ m) → replaceable OtherThread m.
Proof.
  rewrite /replaceable. destruct (retransmission_client_ m) as [[id c]|]; [|done].
  intros (Hi & _). by apply destroy_client_ok.
Qed.

(** Starting a receiver that is stopped. *)
Lemma start_receiver_spec primary m id r :
  receiver_of m primary = Some (id, r) → receiver_good true (Some (id, r)) →
  ∃ r' res, start_receiver primary m = (set_receiver m primary (Some (id, r')), res)
    ∧ receiver_inv r'
    ∧ match res with
      | Ok b => MulticastReceiver.running_ r' = b
      | Throw e => e = std_system_error
      | Undefined => False
      end.
Proof.
  intros Hr [Hi Hs]. specialize (Hs eq_refl). rewrite /start_receiver /on_receiver Hr.
  pose proof (MulticastReceiver.start_spec (env := net_mcast id) r Hi Hs) as H.
  destruct (MulticastReceiver.start r) as [r' res]. exists r', res. destruct H as (Hi' & _ & _ & H).
  split; [done|]. split; [done|]. destruct res; [by destruct H as (-> & _)|by destruct H|done].
Qed.

Lemma stop_receiver_spec primary m id r :
  receiver_of m primary = Some (id, r) → receiver_inv r →
  ∃ r', on_receiver primary (λ _, MulticastReceiver.stop) m
        = (set_receiver m primary (Some (id, r')), Ok tt)
    ∧ receiver_good true (Some (id, r'))
    ∧ opened (mc_trace r') ≡ₚ closed_fds (mc_trace r').
Proof.
  intros Hr Hi. rewrite /on_receiver Hr. destruct (stop_spec r Hi) as (r' & -> & Hi' & Hs & _ & _ & Hp & _).
  by exists r'.
Qed.

Lemma stop_client_spec m id c :
  retransmission_client_ m = Some (id, c) → client_good false (Some (id, c)) →
  ∃ c', on_client (λ _, RetransmissionClient.stop OtherThread) m = (set_client m (Some (id, c')), Ok tt)
    ∧ client_good true (Some (id, c')) ∧ RetransmissionClient.running_ c' = false.
Proof.
  intros Hc (Hi & Hcr & _). rewrite /on_client Hc.
  destruct (stop_keeps c Hi) as (c' & -> & Hi' & Hr' & Hs & Hp). exists c'. split; [done|].
  split; [|done]. split; [done|]. rewrite Hs. split; [done|]. intros _. by apply stopped_threadless.
Qed.

(** *** Configuration *)

(** What configuring and starting leaves alone. *)
Definition same_data (m m' : NetworkManager) : Prop :=
  sdk_core_logic_ m' = sdk_core_logic_ m ∧ deduplication_log_ m' = deduplication_log_ m
  ∧ forwarded m' = forwarded m.

Lemma configure_feeds_spec config m :
  receiver_good true (primary_multicast_receiver_ m) →
  receiver_good true (secondary_multicast_receiver_ m) →
  ∃ m', configure_feeds config m = (m', Ok tt)
    ∧ receiver_good true (primary_multicast_receiver_ m')
    ∧ receiver_good true (secondary_multicast_receiver_ m')
    ∧ same_data m m' ∧ config_ m' = config_ m ∧ running_ m' = running_ m
    ∧ retransmission_client_ m' = retransmission_client_ m
    ∧ (multicast_feeds config = [] → m' = m).
Proof.
  intros Hp Hs. rewrite /configure_feeds. destruct (multicast_feeds config) as [|f1 feeds].
  { exists m. by split_and!. }
  rewrite (method_bind_Ok _ _ _ _ _ (setup_feed_eq true f1 true m Hp)). set m1 := set_receiver _ _ _.
  have Hp1 : receiver_good true (primary_multicast_receiver_ m1) by apply feed_receiver_good.
  destruct feeds as [|f2 feeds]; [by exists m1; split_and!|].
  destruct (dual_feed_enabled config); [|by exists m1; split_and!].
  rewrite (setup_feed_eq false f2 true m1 Hs). eexists. split; [done|].
  split_and!; try done. apply feed_receiver_good.
Qed.

(** A manager whose receivers are stopped and whose client may already run. *)
Definition configured (m : NetworkManager) : Prop :=
  core_ok m ∧ receiver_good true (primary_multicast_receiver_ m)
  ∧ receiver_good true (secondary_multicast_receiver_ m)
  ∧ client_good false (retransmission_client_ m).

Lemma receiver_good_weaken o : receiver_good true o → receiver_good false o.
Proof. destruct o as [[id r]|]; [|done]. by intros [? _]. Qed.

Lemma client_good_weaken o : client_good true o → client_good false o.
Proof. destruct o as [[id c]|]; [|done]. by intros (? & ? & _). Qed.

(** The start of the primary receiver. *)
Lemma start_primary_spec m :
  configured m →
  ∃ m' res, start_primary (set_nm_running m true) = (m', res)
    ∧ core_ok m' ∧ same_data m m' ∧ config_ m' = config_ m
    ∧ secondary_multicast_receiver_ m' = secondary_multicast_receiver_ m
    ∧ retransmission_client_ m' = retransmission_client_ m
    ∧ receiver_good (negb (running_ m')) (primary_multicast_receiver_ m')
    ∧ match res with
      | Ok b =>
          match primary_multicast_receiver_ m' with
          | Some (_, r) => MulticastReceiver.running_ r = b ∧ running_ m' = b
          | None => b = false ∧ running_ m' = true
          end
      | Throw e => e = std_system_error ∧ running_ m' = true
      | Undefined => False
      end.
Proof.
  intros (Hcore & Hp & _ & _). rewrite /start_primary. run_method.
  cbn [primary_multicast_receiver_ set_nm_running].
  destruct (primary_multicast_receiver_ m) as [[id r]|] eqn:Er; last first.
  { eexists _, _. split; [done|]. cbn. rewrite Er. by split_and!. }
  rewrite bool_decide_true; [by eexists|].
  destruct (start_receiver_spec true (set_nm_running m true) id r Er Hp) as (r' & res & -> & Hi & Hres).
  destruct res as [[]|e|]; [..|done]; eexists _, _; (split; [done|]); cbn; by split_and!.
Qed.

Lemma start_secondary_spec m :
  receiver_good true (secondary_multicast_receiver_ m) →
  ∃ m' res, start_secondary m = (m', res)
    ∧ sdk_core_logic_ m' = sdk_core_logic_ m ∧ deduplication_log_ m' = deduplication_log_ m
    ∧ forwarded m' = forwarded m ∧ config_ m' = config_ m ∧ running_ m' = running_ m
    ∧ primary_multicast_receiver_ m' = primary_multicast_receiver_ m
    ∧ retransmission_client_ m' = retransmission_client_ m
    ∧ receiver_good (negb (running_ m')) (secondary_multicast_receiver_ m')
    ∧ match res with
      | Ok b => running_ m = false → b = false
      | Throw e => e = std_system_error ∧ running_ m = true
      | Undefined => False
      end.
Proof.
  intros Hs. rewrite /start_secondary. run_method. destruct (running_ m) eqn:Hr; cbn [andb].
  2: { eexists _, _. split; [done|]. rewrite Hr. by split_and!. }
  destruct (secondary_multicast_receiver_ m) as [[id r]|] eqn:Er; last first.
  { eexists _, _. split; [done|]. rewrite Hr Er. by split_and!. }
  rewrite bool_decide_true; [by eexists|].
  destruct (start_receiver_spec false m id r Er Hs) as (r' & res & -> & Hi & Hres).
  eexists _, _. split; [done|]. cbn. rewrite Hr. split_and!; try done. by destruct res.
Qed.

(** The client is stopped, if there is one. *)
Definition client_down (m : NetworkManager) : Prop :=
  match retransmission_client_ m with
  | Some (_, c) => RetransmissionClient.running_ c = false
  | None => True
  end.

Lemma start_components_spec m :
  configured m →
  ∃ m' res, start_components m = (m', res)
    ∧ manager_inv m' ∧ same_data m m' ∧ config_ m' = config_ m
    ∧ match res with
      | Ok b => running_ m' = b ∧ (b = false → client_down m')
                ∧ (b = false ↔ ∃ id r, primary_multicast_receiver_ m' = Some (id, r)
                                        ∧ MulticastReceiver.running_ r = false)
      | Throw e => e = std_system_error
      | Undefined => False
      end.
Proof.
  intros Hm. destruct (start_primary_spec m Hm) as (m1 & res1 & E1 & Hc1 & Hd1 & Hcf1 & Es1 & El1 & Hg1 & H1).
  destruct Hm as (_ & _ & Hs & Hcl). rewrite /start_components.
  rewrite (method_bind_Ok _ _ m (set_nm_running m true) tt) //.
  destruct res1 as [b1|e|]; [|rewrite (method_bind_Throw _ _ _ _ _ E1)|done]; last first.
  { destruct H1 as [-> Hr1]. rewrite Hr1 in Hg1. eexists _, _. split; [done|]. split; [|done].
    rewrite /manager_inv Hr1 Es1 El1. do 2 (split; [done|]). split; [by apply receiver_good_weaken|done]. }
  rewrite (method_bind_Ok _ _ _ _ _ E1). rewrite -Es1 in Hs. rewrite -El1 in Hcl.
  destruct (start_secondary_spec m1 Hs)
    as (m2 & res2 & E2 & Ed2 & Elog2 & Ef2 & Ecf2 & Er2 & Ep2 & Ec2 & Hg2 & H2).
  have Hcore2 : core_ok m2 by rewrite /core_ok Ed2 Elog2 Ecf2.
  have Hd2 : same_data m m2 by destruct Hd1 as (?&?&?); split_and!; congruence.
  have Hinv2 : client_good (negb (running_ m1)) (retransmission_client_ m2) → manager_inv m2.
  { intros Hcg. rewrite /manager_inv Er2 Ep2. by rewrite Er2 in Hg2. }
  rewrite -Ec2 in Hcl.
  destruct res2 as [b2|e|]; [|rewrite (method_bind_Throw _ _ _ _ _ E2)|done]; last first.
  { destruct H2 as [-> Hr1]. rewrite Hr1 in Hinv2. eexists _, _. split; [done|].
    split; [by apply Hinv2|]. by split_and!; [apply Hd2..|rewrite Ecf2|]. }
  rewrite (method_bind_Ok _ _ _ _ _ E2). run_method. rewrite Er2.
  destruct (running_ m1) eqn:Hr1; cbn [negb].
  - have Hb : negb b1 && negb b2 && negb (bool_decide (is_Some (retransmission_client_ m2))) = true
      ∨ negb b1 && negb b2 && negb (bool_decide (is_Some (retransmission_client_ m2))) = false.
    { by destruct (_ && _); auto. }
    exists m2, (Ok true). split; [by destruct Hb as [-> | ->]|]. split; [by apply Hinv2|].
    split; [done|]. split; [by rewrite Ecf2|]. split; [by rewrite Er2|]. split; [done|]. split; [done|].
    intros (id & r & Epr & Hrr). rewrite -Ep2 Epr in H1. destruct H1. congruence.
  - destruct (primary_multicast_receiver_ m1) as [[id r]|] eqn:Epr; [|by destruct H1].
    destruct H1 as [Hrr <-]. rewrite (H2 eq_refl). cbn [negb andb]. rewrite andb_false_r.
    destruct (retransmission_client_ m2) as [[ic c]|] eqn:Ecl; last first.
    { rewrite bool_decide_false; [by intros [? [=]]|]. exists m2, (Ok false). split; [done|].
      split; [by apply Hinv2|]. split; [done|]. split; [by rewrite Ecf2|]. split; [by rewrite Er2|].
      split; [by rewrite /client_down Ecl|]. split; [|done]. intros _. by exists id, r. }
    rewrite bool_decide_true; [by eexists|]. cbn [negb]. rewrite andb_false_r.
    destruct (stop_client_spec m2 ic c Ecl Hcl) as (c' & -> & Hcg & Hdown).
    exists (set_client m2 (Some (ic, c'))), (Ok false). split; [done|].
    split; [|by split; [|split; [rewrite /= Ecf2|split; [|split; [|split; [intros _; exists id, r|]]]]]].
    rewrite /manager_inv /= Er2 Ep2. by rewrite Er2 in Hg2.
Qed.

Lemma configure_stopped config m :
  manager_inv m → config_ok config → running_ m = false →
  ∃ m' res, configure_and_start config m = (m', res)
    ∧ manager_inv m' ∧ same_data m m' ∧ config_ m' = config
    ∧ match res with
      | Ok b => running_ m' = b ∧ (b = false → client_down m')
                ∧ (b = false ↔ ∃ id r, primary_multicast_receiver_ m' = Some (id, r)
                                        ∧ MulticastReceiver.running_ r = false)
      | Throw e => e = std_system_error
      | Undefined => False
      end.
Proof.
  intros ((Hsdk & Hlog & _) & Hp & Hs & Hc) Hcfg Hr. rewrite Hr in Hp, Hs, Hc. cbn [negb] in Hp, Hs, Hc.
  rewrite /configure_and_start. rewrite (method_bind_Ok _ _ m m m) // Hr.
  rewrite (method_bind_Ok _ _ m (set_config m config) tt) //.
  destruct (configure_feeds_spec config (set_config m config) Hp Hs)
    as (m1 & E1 & Hp1 & Hs1 & (Ed & El & Ef) & Ec1 & Er1 & Ecl & _).
  rewrite (method_bind_Ok _ _ _ _ _ E1). set conn := (if bool_decide _ then _ else _).
  have [m2 [r2 [E2 [Hm2 [Hd2 [Ec2 Hr2]]]]]] : ∃ m2 r2, conn m1 = (m2, r2) ∧ configured m2 ∧ same_data m m2
    ∧ config_ m2 = config
    ∧ (r2 = Ok tt ∨ r2 = Throw std_system_error ∧ manager_inv m2); last first.
  { destruct Hr2 as [->|[-> Hi2]]; last first.
    { rewrite (method_bind_Throw _ _ _ _ _ E2). by exists m2, (Throw std_system_error). }
    rewrite (method_bind_Ok _ _ _ _ _ E2).
    destruct (start_components_spec m2 Hm2) as (m' & res & -> & Hi & (?&?&?) & Ec & Hres).
    destruct Hd2 as (?&?&?). exists m', res. split; [done|]. split; [done|].
    by split; [split_and!; congruence|split; [congruence|]]. }
  have Hconf : configured m1.
  { split; [|by split_and!; [..|rewrite Ecl; apply client_good_weaken]].
    by rewrite /core_ok Ed El Ec1. }
  have Hcl1 : client_good true (retransmission_client_ m1) by rewrite Ecl.
  rewrite /conn. destruct (primary_retrans_server config) as [server|] eqn:Esv; last first.
  { rewrite bool_decide_false; [by intros [? [=]]|]. exists m1, (Ok tt). by split_and!; [..|left]. }
  rewrite bool_decide_true; [by eexists|].
  rewrite (method_bind_Ok _ _ m1 (set_primary_active m1 true) tt) //.
  rewrite connect_eq; [by apply still_replaceable|]. cbn [config_ set_primary_active]. rewrite Ec1 /= Esv.
  change (thread_granted (set_primary_active m1 true)) with (thread_granted m1).
  have Hg : client_good (negb (thread_granted m1)) (Some (created m1, server_client server (thread_granted m1))).
  { apply server_client_good. destruct Hcfg as [Hcfg _]. by rewrite Esv in Hcfg. }
  destruct Hconf as (Hcore & _). eexists _, _. split; [done|].
  split; [|split; [done|split; [done|]]].
  - split; [exact Hcore|]. split; [exact Hp1|]. split; [exact Hs1|].
    by destruct (thread_granted m1); [|apply client_good_weaken].
  - destruct (thread_granted m1); [by left|right]. split; [done|].
    rewrite /manager_inv. cbn. rewrite Er1 /= Hr. split; [exact Hcore|]. do 2 (split; [done|]). exact Hg.
Qed.

(** *** Stopping *)

(** Every socket the receiver opened is closed, and its threads have ended. *)
Definition receiver_released (o : option (nat * MulticastReceiver)) : Prop :=
  match o with
  | Some (_, r) => MulticastReceiver.running_ r = false
                   ∧ Forall (λ s, receiver_thread s = false) (subscriptions_ r)
                   ∧ opened (mc_trace r) ≡ₚ closed_fds (mc_trace r)
  | None => True
  end.
(** The client has no thread, no socket, no connection and no session. *)
Definition client_detached (o : option (nat * RetransmissionClient)) : Prop :=
  match o with Some (_, c) => client_thread_ c = false ∧ link_free c | None => True end.

Lemma still_receiver_released o : receiver_good true o → receiver_released o.
Proof.
  destruct o as [[id r]|]; [|done]. intros [Hi Hs]. specialize (Hs eq_refl).
  have [Hl [_ Hid]] := Hi. specialize (Hid Hs). split; [done|]. split.
  - eapply Forall_impl; [exact Hid|]. by intros s (_ & ? & _).
  - destruct (stop_spec r Hi) as (r' & E & _ & _ & _ & _ & Hp & _).
    rewrite /MulticastReceiver.stop in E. move: E. run_method. rewrite Hs. cbn. by intros [= <-].
Qed.

Lemma still_client_detached o : client_good true o → client_detached o.
Proof.
  destruct o as [[id c]|]; [|done]. intros ((_ & _ & Hf) & _ & Hs). specialize (Hs eq_refl).
  by split; [|apply Hf].
Qed.

(** The stop of one component in [stop], when it may be absent. *)
Lemma stop_one_receiver primary m :
  receiver_good false (receiver_of m primary) →
  ∃ o, (if bool_decide (is_Some (receiver_of m primary))
        then on_receiver primary (λ _, MulticastReceiver.stop) else mret tt) m
       = (set_receiver m primary o, Ok tt) ∧ receiver_good true o
    ∧ (is_Some o ↔ is_Some (receiver_of m primary)).
Proof.
  intros Hg. destruct (receiver_of m primary) as [[id r]|] eqn:Er.
  - rewrite bool_decide_true; [by eexists|].
    destruct (stop_receiver_spec primary m id r Er (proj1 Hg)) as (r' & -> & Hg' & _).
    exists (Some (id, r')). split; [done|]. by split.
  - rewrite bool_decide_false; [by intros [? [=]]|]. exists None. split; [|done].
    destruct m, primary; cbn in Er |- *; by subst.
Qed.

Lemma stop_one_client m :
  client_good false (retransmission_client_ m) →
  ∃ o, (if bool_decide (is_Some (retransmission_client_ m))
        then on_client (λ _, RetransmissionClient.stop OtherThread) else mret tt) m
       = (set_client m o, Ok tt) ∧ client_good true o ∧ client_down (set_client m o).
Proof.
  intros Hg. destruct (retransmission_client_ m) as [[id c]|] eqn:Ec.
  - rewrite bool_decide_true; [by eexists|].
    destruct (stop_client_spec m id c Ec Hg) as (c' & -> & Hg' & Hd). by exists (Some (id, c')).
  - rewrite bool_decide_false; [by intros [? [=]]|]. exists None. split; [|done].
    destruct m; cbn in Ec |- *; by subst.
Qed.

Lemma manager_stop_spec m :
  manager_inv m →
  ∃ m', stop m = (m', Ok tt) ∧ manager_inv m' ∧ running_ m' = false ∧ same_data m m'
    ∧ config_ m' = config_ m ∧ (if running_ m then client_down m' else m' = m).
Proof.
  intros (Hcore & Hp & Hs & Hc). rewrite /stop. rewrite (method_bind_Ok _ _ m m m) //.
  destruct (running_ m) eqn:Hr; cbn [negb] in *; last first.
  { exists m. rewrite /manager_inv Hr. by split_and!. }
  rewrite (method_bind_Ok _ _ m (set_nm_running m false) tt) //.
  destruct (stop_one_receiver true (set_nm_running m false) Hp) as (op & Ep & Hop & _).
  rewrite (method_bind_Ok _ _ _ _ _ Ep). set m1 := set_receiver _ _ _.
  destruct (stop_one_receiver false m1 Hs) as (os & Es & Hos & _).
  rewrite (method_bind_Ok _ _ _ _ _ Es). set m2 := set_receiver _ _ _.
  destruct (stop_one_client m2 Hc) as (oc & Ec & Hoc & Hd).
  rewrite Ec. eexists. split; [done|]. split; [|by split_and!]. by split_and!.
Qed.

(** A manager can be destroyed at any time. *)
Lemma destroy_manager_ok m : manager_inv m → destroy_manager m = Ok tt.
Proof.
  intros Hm. rewrite /destroy_manager. destruct (manager_stop_spec m Hm) as (m' & -> & Hm' & _).
  destruct Hm' as (_ & Hp & Hs & Hc). rewrite /receiver_good in Hp, Hs. rewrite /client_good in Hc.
  have Ec : match retransmission_client_ m' with Some (_, c) => destroy_client OtherThread c | None => Ok tt end = Ok tt.
  { destruct (retransmission_client_ m') as [[? c]|]; [|done]. apply destroy_client_ok, Hc. }
  have Er : ∀ o, receiver_good (negb (running_ m')) o →
    match o with Some (_, r) => destroy_receiver r | None => Ok tt end = Ok tt.
  { intros [[? r]|] Hr; [|done]. apply destroy_receiver_ok, Hr. }
  by rewrite Ec (Er _ Hs) (Er _ Hp).
Qed.

(** No component has a thread, a socket or a connection. *)
Definition detached (m : NetworkManager) : Prop :=
  receiver_released (primary_multicast_receiver_ m) ∧ receiver_released (secondary_multicast_receiver_ m)
  ∧ client_detached (retransmission_client_ m).

(** Nothing of the manager's components is left active. *)
Definition released (m : NetworkManager) : Prop := detached m ∧ client_down m.

Lemma stopped_detached m : manager_inv m → running_ m = false → detached m.
Proof.
  intros (_ & Hp & Hs & Hc) Hr. rewrite Hr in Hp, Hs, Hc.
  split; [by apply still_receiver_released|]. split; [by apply still_receiver_released|].
  by apply still_client_detached.
Qed.

Lemma stopped_ignores m p n primary retrans :
  running_ m = false → process_incoming_packet p n primary retrans m = (m, Ok tt).
Proof. intros Hr. rewrite /process_incoming_packet. run_method. by rewrite Hr. Qed.

(** ** Properties *)

(** C27: [configure_and_start] on a running manager returns false and changes
    nothing; on a stopped one it stores the configuration, leaves the SDK, the
    log and the forwarded packets alone, and returns whether the manager now
    runs.  It returns false exactly when there is a primary receiver that did
    not start, and then no socket stays open, no thread is left and the client
    is disconnected; so it returns true when there is no data source at all.
    The only exception is the [std::system_error] of a thread that cannot be
    created. *)
Theorem configure_outcome config m (Hm : manager_inv m) (Hc : config_ok config) :
  let '(m', r) := configure_and_start config m in
  if running_ m then m' = m ∧ r = Ok false
  else
    config_ m' = config ∧ same_data m m'
    ∧ match r with
      | Ok b => running_ m' = b ∧ (b = false → released m')
                ∧ (b = false ↔ ∃ id r, primary_multicast_receiver_ m' = Some (id, r)
                                        ∧ MulticastReceiver.running_ r = false)
      | Throw e => e = std_system_error
      | Undefined => False
      end.
Proof.
  destruct (running_ m) eqn:Hr.
  - have -> : configure_and_start config m = (m, Ok false); [|done].
    rewrite /configure_and_start. run_method. by rewrite Hr.
  - destruct (configure_stopped config m Hm Hc Hr) as (m' & res & -> & Hi & Hd & Hcf & Hres).
    split; [done|]. split; [done|]. destruct res as [b|e|]; [|done..]. destruct Hres as (Hb & Hd' & Hiff).
    split; [done|]. split; [|done]. intros ->. split; [by apply stopped_detached|by apply Hd'].
Qed.

(** C28: a call of [stop] into which no step of another thread falls returns,
    and the manager does not run afterwards; if it ran before, everything is
    released: every socket its receivers opened is closed, no thread is left,
    and the client is stopped, without a socket, a connection or a session;
    otherwise nothing is changed (a client whose thread could not be created
    stays marked as running, without thread and connection).  The SDK, the log,
    the forwarded packets and the configuration are kept, packets that still
    arrive are ignored, and stopping again does nothing.  What the client's
    thread can do between the parts of a [stop], up to [std::terminate] and a
    socket that stays open, is the subject of ClientThreads.v. *)
Theorem manager_stop_releases m (Hm : manager_inv m) :
  ∃ m', stop m = (m', Ok tt) ∧ running_ m' = false ∧ detached m'
    ∧ (if running_ m then released m' else m' = m)
    ∧ same_data m m' ∧ config_ m' = config_ m
    ∧ (∀ p n primary retrans, process_incoming_packet p n primary retrans m' = (m', Ok tt))
    ∧ stop m' = (m', Ok tt).
Proof.
  destruct (manager_stop_spec m Hm) as (m' & E & Hi & Hr & Hd & Hc & Hif). exists m'.
  have Hdet := stopped_detached m' Hi Hr. do 3 (split; [done|]).
  split; [by destruct (running_ m); [split|]|]. do 2 (split; [done|]).
  split; [intros; by apply stopped_ignores|]. rewrite /stop. run_method. by rewrite Hr.
Qed.

End Exec.

(** *** Sample data *)

Definition sample_server (ip : list Z) : RetransmissionServerConfig := mkServer ip 9000 7 (str "1234").
Definition full_config : NetworkManagerConfig :=
  mkConfig [sample_feed; sample_feed] (Some (sample_server (str "10.0.0.1")))
    (Some (sample_server (str "10.0.0.2"))) true 100.

Lemma sample_server_ok ip : server_ok (Some (sample_server ip)).
Proof. done. Defined.

Lemma full_config_ok : config_ok full_config.
Proof. split; apply sample_server_ok. Defined.

Lemma new_manager_inv : manager_inv (NetworkManager_new (Some sdk0)).
Proof.
  split; [|done]. split; [|by split; [constructor|]]. intros s [= <-]. by apply sdk_reach_ok, sdk0_reach.
Defined.

(** A manager with two receivers and a client, all started. *)
Definition started_manager : NetworkManager :=
  let net : NetEnv := sample_net in (configure_and_start full_config (NetworkManager_new (Some sdk0))).1.

Lemma started_manager_inv : manager_inv started_manager.
Proof.
  destruct (configure_stopped (net := sample_net) full_config _ new_manager_inv full_config_ok eq_refl)
    as (m' & res & E & Hi & _). rewrite /started_manager E. exact Hi.
Defined.

Lemma configure_outcome_witness :
  let net : NetEnv := sample_net in
  let '(m', r) := configure_and_start full_config (NetworkManager_new (Some sdk0)) in
  config_ m' = full_config ∧ same_data (NetworkManager_new (Some sdk0)) m'
  ∧ match r with
    | Ok b => running_ m' = b ∧ (b = false → released m')
              ∧ (b = false ↔ ∃ id r, primary_multicast_receiver_ m' = Some (id, r)
                                      ∧ MulticastReceiver.running_ r = false)
    | Throw e => e = std_system_error
    | Undefined => False
    end.
Proof.
  intros net.
  exact (configure_outcome (net := net) full_config (NetworkManager_new (Some sdk0)) new_manager_inv full_config_ok).
Defined.

Lemma manager_stop_releases_witness :
  running_ started_manager = true ∧
  let net : NetEnv := sample_net in
  ∃ m', stop started_manager = (m', Ok tt) ∧ running_ m' = false ∧ detached m'
    ∧ (if running_ started_manager then released m' else m' = started_manager)
    ∧ same_data started_manager m' ∧ config_ m' = config_ started_manager
    ∧ (∀ p n primary retrans, process_incoming_packet p n primary retrans m' = (m', Ok tt))
    ∧ stop m' = (m', Ok tt).
Proof.
  split; [vm_compute; reflexivity|]. intros net.
  exact (manager_stop_releases (net := net) started_manager started_manager_inv).
Defined.
