(* ===== verification/NetworkEvents.v ===== *)
(** * The events of the network manager

    What the callbacks of the components make of the manager: the invariant over
    all interleavings of calls and thread passes, the failover to the backup
    retransmission server, and the recovery of lost packets. *)

From S2P Require Import Prelude PackBcd CommonHeader CppMap EndianUtils TaifexSdk SdkStream.
From S2P Require Import RetransmissionProtocol RetransmissionCodec MulticastReceiver RetransmissionClient.
From S2P Require Import ClientFraming ClientLink NetworkManager DedupWindow DualFeed NetworkLifecycle.

(** ** Lemmas *)

(** *** Growing traces *)

(** A method that only adds to the trace. *)
Class Grows {A} (f : method RetransmissionClient A) : Prop :=
  grows c : trace c `prefix_of` trace (f c).1.

Section Grows.
Context `{env : Env}.

#[export] Instance grows_ret {A} (a : A) : Grows (mret a).
Proof. by intros c; reflexivity. Qed.
#[export] Instance grows_lift {A} (r : result A) : Grows (lift r).
Proof. by intros c; reflexivity. Qed.
#[export] Instance grows_bind {A B} (f : method RetransmissionClient A)
    (g : A → method RetransmissionClient B) : Grows f → (∀ a, Grows (g a)) → Grows (f ≫= g).
Proof.
  intros Hf Hg c. rewrite /mbind /method_bind. have := Hf c.
  destruct (f c) as [c' [a| |]]; [|done..]. intros H. etrans; [exact H|apply Hg].
Qed.
Lemma grows_get {B} (f : RetransmissionClient → method RetransmissionClient B) :
  (∀ c, Grows (f c)) → Grows (get ≫= f).
Proof. intros Hf c. apply Hf. Qed.
Lemma grows_modify f : (∀ c, trace c `prefix_of` trace (f c)) → Grows (modify f).
Proof. done. Qed.
#[export] Instance grows_ask {A} (answer : nat → A) : Grows (ask answer).
Proof. by intros c; reflexivity. Qed.
#[export] Instance grows_callback cb e : Grows (callback cb e).
Proof. apply grows_modify. intros c. case_bool; [by apply prefix_app_r|reflexivity]. Qed.
#[export] Instance grows_drop_link : Grows drop_link.
Proof. apply grows_bind; [by apply grows_modify; intros c; reflexivity|apply _]. Qed.
#[export] Instance grows_send_loop fuel rest : Grows (send_loop fuel rest).
Proof.
  revert rest. induction fuel as [|fuel IH]; intros [|x rest]; try apply _.
  cbn [send_loop]. apply grows_bind; [apply _|]. intros r. do 2 (case_bool; [apply _|]).
  apply grows_bind; [apply grows_modify; intros c; by apply prefix_app_r|]. intros _. apply IH.
Qed.
#[export] Instance grows_send msg : Grows (send_tcp_message msg).
Proof. apply grows_get. intros c. case_bool; apply _. Qed.
#[export] Instance grows_next_seq : Grows next_seq_num.
Proof. by intros c; reflexivity. Qed.
#[export] Instance grows_request ch b n : Grows (request_retransmission ch b n).
Proof. apply grows_get. intros c. case_bool; apply _. Qed.
#[export] Instance quiet_request ch b n : Quiet (request_retransmission ch b n).
Proof. apply quiet_get. intros c. case_bool; apply _. Qed.

(** What a quiet method adds contains no market data. *)
Lemma grows_quiet {A} (f : method RetransmissionClient A) `{!Grows f, !Quiet f} c :
  markets (drop (length (trace c)) (trace (f c).1)) = [].
Proof.
  destruct (grows (f := f) c) as [es E]. have Hq := quiet (m := f) c. move: Hq. rewrite E.
  rewrite drop_app_length /markets omap_app. intros Hq. apply (app_inv_head (omap is_market (trace c))).
  by rewrite Hq app_nil_r.
Qed.

End Grows.

Section Events.
Context `{net : NetEnv}.

(** *** Callbacks of the client *)

(** The disconnect callback changes something only when it fails over. *)
Definition fails_over (m : NetworkManager) : bool :=
  retrans_primary_active_ m && bool_decide (is_Some (backup_retrans_server (config_ m))).

(** The manager after a failover to [server]; [thread] tells whether the new
    client's thread could be created. *)
Definition failed_over (m : NetworkManager) (server : RetransmissionServerConfig) (thread : bool)
    : NetworkManager :=
  set_client (count_created (set_primary_active m false)) (Some (created m, server_client server thread)).

Lemma disconnected_stays who m :
  fails_over m = false → on_retransmission_disconnected who m = (m, Ok tt).
Proof. intros H. rewrite /on_retransmission_disconnected. run_method. by rewrite -/(fails_over m) H. Qed.

(** On a thread of the application the failover replaces the client. *)
Lemma disconnected_switches m server :
  client_good false (retransmission_client_ m) → retrans_primary_active_ m = true →
  backup_retrans_server (config_ m) = Some server →
  on_retransmission_disconnected OtherThread m
  = (failed_over m server (thread_granted m), if thread_granted m then Ok tt else Throw std_system_error).
Proof.
  intros Hg Ha Hb. rewrite /on_retransmission_disconnected. rewrite (method_bind_Ok _ _ m m m) //.
  rewrite Ha Hb bool_decide_true; [by eexists|]. cbn [andb].
  destruct (stop_one_client m Hg) as (o & E & Ho & _). rewrite (method_bind_Ok _ _ _ _ _ E).
  rewrite (method_bind_Ok _ _ _ (set_primary_active (set_client m o) false) tt) //.
  rewrite connect_eq; [by apply still_replaceable|]. cbn. by rewrite Hb.
Qed.

(** On the client's own thread it ends in the failed join. *)
Lemma disconnected_joins_itself m id c :
  retransmission_client_ m = Some (id, c) → RetransmissionClient.running_ c = true →
  client_thread_ c = true → fails_over m = true →
  ∃ c', on_retransmission_disconnected ClientThread m = (set_client m (Some (id, c')), Throw std_system_error)
    ∧ client_thread_ c' = true.
Proof.
  intros Hc Hr Ht Hf. rewrite /on_retransmission_disconnected.
  rewrite (method_bind_Ok _ _ m m m) // -/(fails_over m) Hf Hc bool_decide_true; [by eexists|].
  rewrite /on_client. rewrite /mbind /method_bind Hc /RetransmissionClient.stop. run_method.
  rewrite Hr Ht. cbn. by eexists.
Qed.

(** On a client that another thread is stopping already, it destroys the thread
    it runs on. *)
Lemma disconnected_destroys m id c :
  retransmission_client_ m = Some (id, c) → RetransmissionClient.running_ c = false →
  client_thread_ c = true → fails_over m = true →
  (on_retransmission_disconnected ClientThread m).2 = Undefined.
Proof.
  intros Hc Hr Ht Hf. have Est : RetransmissionClient.stop ClientThread c = (c, Ok tt).
  { rewrite /RetransmissionClient.stop. run_method. by rewrite Hr. }
  rewrite /on_retransmission_disconnected /on_client. run_method. rewrite -/(fails_over m) Hf.
  rewrite /fails_over in Hf. apply andb_prop in Hf as [Ha [server Hb]%bool_decide_eq_true].
  rewrite Hc bool_decide_true; [by eexists|]. rewrite Hc Est.
  rewrite /connect_retransmission_client. run_method. cbn [set_primary_active set_client config_ retransmission_client_].
  rewrite Hb. run_method. by rewrite /destroy_client Est Ht.
Qed.

(** So on the client's own thread a callback that returns neither reads nor
    changes the client: running it after the rest of the pass, or in the middle
    of it, makes no difference. *)
Lemma callback_leaves_client e m id c m' :
  retransmission_client_ m = Some (id, c) → client_thread_ c = true →
  on_event ClientThread e m = (m', Ok tt) →
  ∀ o, on_event ClientThread e (set_client m o) = (set_client m' o, Ok tt).
Proof.
  intros Hc Ht E o. destruct e as [data| | | | |]; try by injection E as <-.
  - revert E. cbn [on_event]. rewrite /on_retransmitted_market_data /process_incoming_packet. run_method.
    cbn [running_ sdk_core_logic_ set_client config_]. destruct (_ || _) eqn:E0; [by intros [= <-]|].
    cbn [running_ sdk_core_logic_ set_client config_]. rewrite E0.
    destruct (CommonHeader_parse _ _ _) as [[[] h]|e|]; [|by intros [= <-]|done..]. cbn [negb].
    destruct (getChannelId h) as [ch|e|]; [|done..]. destruct (getChannelSeq h) as [q|e|]; [|done..].
    rewrite andb_false_r. cbn [negb]. rewrite /forward_to_sdk. cbn [sdk_core_logic_ set_client].
    destruct (sdk_core_logic_ m) as [s|]; [|by intros [= <-]].
    destruct (process_message _ _ s) as [s' r]. by intros [= <- ->].
  - cbn [on_event] in E |- *. destruct (fails_over m) eqn:Hf; last first.
    { move: E. rewrite !disconnected_stays //. by intros [= <-]. }
    exfalso. destruct (RetransmissionClient.running_ c) eqn:Hr.
    + destruct (disconnected_joins_itself m id c Hc Hr Ht Hf) as (c' & E' & _). by rewrite E' in E.
    + have := disconnected_destroys m id c Hc Hr Ht Hf. by rewrite E.
Qed.

Lemma failed_over_inv m server thread :
  manager_inv m → running_ m = true → backup_retrans_server (config_ m) = Some server →
  manager_inv (failed_over m server thread).
Proof.
  intros (Hcore & Hp & Hs & _) Hr Hb. rewrite Hr in Hp, Hs. rewrite /manager_inv. cbn. rewrite Hr.
  do 3 (split; [done|]). destruct Hcore as (_ & _ & _ & Hok). rewrite Hb in Hok.
  have Hg := server_client_good (created m) server thread Hok.
  by destruct thread; [|apply client_good_weaken in Hg].
Qed.

(** The events that only concern packets, or nothing at all. *)
Lemma harmless_event who e : e ≠ Disconnected → harmless (on_event who e).
Proof.
  intros He. destruct e as [data| | | | |]; try done; cbn [on_event]; try apply harmless_ret.
  intros m Hm. rewrite /on_retransmitted_market_data. run_method.
  destruct (_ || _); [by apply harmless_ret|]. by apply harmless_packet; [apply Nat.le_refl|].
Qed.

Definition tame {A} (r : result A) : Prop := (∃ a, r = Ok a) ∨ r = Throw ParsingError.

(** A failover on a thread of the application fails when the backup client's
    thread cannot be created. *)
Definition failover_refused (m : NetworkManager) : Prop :=
  fails_over m = true ∧ thread_granted m = false.

(** The callbacks of a data request. *)
Lemma dispatch_other es m :
  manager_inv m → running_ m = true → markets es = [] →
  let '(m', r) := dispatch OtherThread es m in
  manager_inv m' ∧ (r = Ok tt ∨ r = Throw std_system_error ∧ failover_refused m).
Proof.
  revert m. induction es as [|e es IH]; intros m Hm Hr Hq; [by split; [|left]|].
  cbn [dispatch]. have [He|He] : e = Disconnected ∨ e ≠ Disconnected by destruct e; auto.
  2: { have [E Hes] : on_event OtherThread e m = (m, Ok tt) ∧ markets es = [] by revert Hq; destruct e.
    rewrite (method_bind_Ok _ _ _ _ _ E). by apply IH. }
  subst e. cbn [on_event]. destruct (fails_over m) eqn:Ef; last first.
  { rewrite (method_bind_Ok _ _ m m tt); [by apply disconnected_stays|]. exact (IH m Hm Hr Hq). }
  destruct (andb_prop _ _ Ef) as [Ha [server Hb]%bool_decide_eq_true].
  have Hg : client_good false (retransmission_client_ m).
  { destruct Hm as (_ & _ & _ & Hc). by rewrite Hr in Hc. }
  have E := disconnected_switches m server Hg Ha Hb. destruct (thread_granted m) eqn:Et.
  - rewrite (method_bind_Ok _ _ _ _ _ E).
    have := IH (failed_over m server true) (failed_over_inv m server true Hm Hr Hb) Hr Hq.
    destruct (dispatch _ _ _) as [m' r]. intros [? [->|[_ [[=] _]]]]. auto.
  - rewrite (method_bind_Throw _ _ _ _ _ E). split; [by apply failed_over_inv|by right].
Qed.

(** The client's thread runs the callbacks of a client that has a thread. *)
Definition client_runs (m : NetworkManager) : Prop :=
  match retransmission_client_ m with
  | Some (_, c) => client_thread_ c = true
  | None => False
  end.

Lemma dispatch_own es m :
  manager_inv m → client_runs m →
  let '(m', r) := dispatch ClientThread es m in
  manager_inv m' ∧ tame r ∨ r = Throw std_system_error ∧ fails_over m = true.
Proof.
  revert m. induction es as [|e es IH]; intros m Hm Hc; [by left; split; [|left; eexists]|].
  cbn [dispatch]. have [->|He] : e = Disconnected ∨ e ≠ Disconnected by destruct e; auto.
  - cbn [on_event]. destruct (fails_over m) eqn:Ef; last first.
    { rewrite (method_bind_Ok _ _ m m tt); [by apply disconnected_stays|]. rewrite -Ef. by apply IH. }
    rewrite /client_runs in Hc. destruct (retransmission_client_ m) as [[id c]|] eqn:Ec; [|done].
    destruct (disconnected_joins_itself m id c Ec) as (c' & E & _); [|done..|].
    { destruct Hm as (_ & _ & _ & Hg). rewrite Ec in Hg. by apply Hg. }
    rewrite (method_bind_Throw _ _ _ _ _ E). by right.
  - destruct (harmless_inv _ m (harmless_event ClientThread e He) Hm)
      as (Hm' & Hres & (Ecf & _ & _ & Ecl & _ & Ea & _)).
    run_method. destruct (on_event ClientThread e m) as [m1 r1]. cbn [fst snd] in *.
    destruct Hres as [-> | ->]; [|by left; split; [|right]].
    have -> : fails_over m = fails_over m1 by rewrite /fails_over Ecf Ea.
    apply IH; [done|by rewrite /client_runs Ecl].
Qed.

(** *** Calls of the client *)

(** A call that neither starts nor stops the client leaves it good. *)
Lemma safe_call_good {A} (f : method RetransmissionClient A) `{!Safe f} still id c :
  client_good still (Some (id, c)) → client_thread_ c = true →
  client_good still (Some (id, (f c).1)) ∧ client_thread_ (f c).1 = true.
Proof.
  intros (Hi & Hcr & Hs) Ht. pose proof (safe_inv f c Hi Ht) as Hi'.
  destruct (safe (m := f) c (proj1 Hi)) as [_ [= _ Et _ _ Eid Epw]].
  split; [|congruence]. split; [done|]. rewrite Eid Et. by split.
Qed.

Lemma client_in_place m id c : retransmission_client_ m = Some (id, c) → set_client m (Some (id, c)) = m.
Proof. intros E. destruct m; cbn in *. by subst. Qed.

Lemma set_client_inv m o :
  manager_inv m → client_good (negb (running_ m)) o → manager_inv (set_client m o).
Proof. by intros (Hcore & Hp & Hs & _) Ho. Qed.

(** The password of the client in place makes the check code overflow. *)
Definition password_overflows (m : NetworkManager) : Prop :=
  match retransmission_client_ m with
  | Some (_, c) => calculate_check_code 168 (password_ c) = Undefined
  | None => False
  end.

Lemma client_pass_spec `{!NetBytes} m :
  manager_inv m → client_runs m →
  let '(m', r) := client_pass m in
  manager_inv m' ∧ (r = Ok tt ∨ r = Throw ParsingError)
  ∨ r = Throw std_system_error ∧ fails_over m = true
  ∨ r = Undefined ∧ password_overflows m.
Proof.
  intros Hm Hrun. have [_ [_ [_ Hg]]] := Hm. rewrite /client_runs in Hrun. rewrite /password_overflows.
  destruct (retransmission_client_ m) as [[id c]|] eqn:Ec; [|done].
  rewrite /client_pass /client_step. run_method. rewrite Ec.
  pose proof (net_bytes id) as Hb.
  destruct (receive_pass_result (env := net_client id) c) as (c' & r & E & Hres);
    [apply Hg|apply Hg|].
  destruct (safe_call_good (RetransmissionClient.receive_pass (env := net_client id)) _ id c Hg Hrun)
    as [Hg' Hr'].
  rewrite E in Hg' Hr' |- *. cbn [fst] in Hg', Hr'. set m1 := set_client m _.
  pose proof (dispatch_own (drop (length (trace c)) (trace c')) m1) as Hd.
  destruct (dispatch _ _ m1) as [m2 r2].
  destruct Hd as [[Hm2 [[a ->]| ->]]|[-> ?]]; [by apply set_client_inv|done|..]; [|by left; auto|by right; left].
  destruct Hres as [[b ->]|[->|[-> Hu]]]; auto.
Qed.

(** *** Data requests *)

(** A call of the client with its callbacks run at the end. *)
Definition run_callbacks {A} (who : caller) (m : NetworkManager) (id : nat) (c : RetransmissionClient)
    (r : RetransmissionClient * result A) : NetworkManager * result A :=
  match dispatch who (drop (length (trace c)) (trace r.1)) (set_client m (Some (id, r.1))) with
  | (m', Ok _) => (m', r.2)
  | (m', Throw e) => (m', Throw e)
  | (m', Undefined) => (m', Undefined)
  end.

Lemma set_client_twice m o o' : set_client (set_client m o) o' = set_client m o'.
Proof. done. Qed.

Lemma lose_link_eq m id c :
  retransmission_client_ m = Some (id, c) →
  lose_link m = run_callbacks OtherThread m id c (drop_link c).
Proof.
  intros Ec. rewrite /lose_link /on_client /run_callbacks /drop_link /callback. run_method.
  rewrite Ec. cbn [callbacks_ set_link].
  rewrite /mbind /method_bind. cbn [retransmission_client_ set_client get modify callbacks_ set_link].
  destruct (disconnected_callback_ _); cbn [fst snd trace set_link emit]; rewrite !set_client_twice.
  - rewrite drop_app_length. cbn [dispatch on_event retransmission_client_ set_client]. run_method.
    by destruct (on_retransmission_disconnected _ _) as [m' [[]| |]].
  - by rewrite drop_all.
Qed.

(** The request with the callback in its middle is the client's request
    followed by the callbacks. *)
Lemma send_inline fuel rest m id c :
  retransmission_client_ m = Some (id, c) →
  send_from_application fuel rest m
  = run_callbacks OtherThread m id c (send_loop (env := net_client id) fuel rest c).
Proof.
  revert rest m c. induction fuel as [|fuel IH]; intros [|x rest] m c Ec;
    try by rewrite /run_callbacks /= drop_all client_in_place.
  cbn [send_from_application send_loop]. rewrite /ask /on_client. run_method. rewrite Ec.
  set k := env_send _ _. set m1 := set_client m (Some (id, tick c)).
  have Hl : lose_link m1 = run_callbacks OtherThread m id c (drop_link (tick c)).
  { exact (lose_link_eq m1 id (tick c) eq_refl). }
  destruct (k <? 0); [done|]. destruct (k =? 0); [done|].
  cbn [retransmission_client_ set_client m1]. rewrite /mbind /method_bind.
  set l := drop _ _. set c1 := emit (tick c) _. rewrite (IH l (set_client m (Some (id, c1))) c1 eq_refl).
  rewrite /run_callbacks. destruct (grows (f := send_loop (env := net_client id) fuel l) c1) as [es Et].
  rewrite Et drop_app_length. cbn [trace emit c1 tick]. rewrite -app_assoc drop_app_length. done.
Qed.

Lemma request_inline ch q n m id c :
  retransmission_client_ m = Some (id, c) →
  request_from_application ch q n m
  = run_callbacks OtherThread m id c (request_retransmission (env := net_client id) ch q n c).
Proof.
  intros Ec. rewrite /request_from_application /request_retransmission /current_time /next_seq_num /ask /on_client.
  run_method. rewrite Ec. cbn [retransmission_client_ set_client]. rewrite /mbind /method_bind.
  cbn [logged_in_]. destruct (logged_in_ c); cbn [negb]; [|by rewrite /run_callbacks /= drop_all].
  cbn [retransmission_client_ set_client]. run_method. cbn [retransmission_client_ set_client].
  rewrite /mbind /method_bind. cbn [retransmission_client_ set_client client_msg_seq_num_ ticks set_seq_num].
  rewrite !set_client_twice. set c1 := tick _.
  destruct (DataRequest101_serialize _ _) as [buffer|e|];
    [|by rewrite /run_callbacks /= (drop_all (trace c))..].
  rewrite /send_tcp_message. run_method.
  destruct (_ || _); [by rewrite /run_callbacks /= (drop_all (trace c))|].
  rewrite (send_inline _ _ (set_client m (Some (id, c1))) id c1 eq_refl) /run_callbacks set_client_twice.
  change (trace c) with (trace c1). destruct (send_loop _ _ c1) as [c2 [[]|e|]]; cbn [fst snd];
    by destruct (dispatch _ _ _) as [m2 [[]| |]].
Qed.

Lemma trigger_spec ch q n m :
  manager_inv m → fits 2 ch → fits 4 q → fits 2 n →
  let '(m', r) := trigger_retransmission_request ch q n m in
  manager_inv m' ∧ (r = Ok tt ∨ r = Throw std_system_error ∧ failover_refused m).
Proof.
  intros Hm Hch Hq Hn. rewrite /trigger_retransmission_request. run_method.
  destruct (running_ m) eqn:Hr; cbn [negb]; [|by split; [|left]].
  destruct (retransmission_client_ m) as [[id c]|] eqn:Ec; last first.
  { rewrite bool_decide_false; [by intros [? [=]]|]. by split; [|left]. }
  rewrite bool_decide_true; [by eexists|]. rewrite (request_inline ch q n m id c Ec) /run_callbacks.
  have [_ [_ [_ Hg]]] := Hm. rewrite Ec in Hg.
  set req := request_retransmission (env := net_client id) ch q n.
  destruct (total_request (env := net_client id) ch q n Hch Hq Hn c (proj2 (proj1 (proj1 (proj1 Hg)))))
    as (c' & b & E & _). rewrite -/req in E. rewrite E.
  have Hg' : client_good (negb (running_ m)) (Some (id, c')).
  { destruct (client_thread_ c) eqn:Ht.
    - destruct (safe_call_good req _ id c Hg Ht) as [Hg' _]. by rewrite E in Hg'.
    - have [[_ [_ Hf]] _] := Hg.
      destruct (free_request (env := net_client id) ch q n c (Hf Ht)) as (E' & _).
      rewrite -/req E in E'. by injection E' as ->. }
  cbn [fst snd]. set m1 := set_client m _. pose proof (grows_quiet req c) as Hgq. rewrite E in Hgq.
  pose proof (dispatch_other (drop (length (trace c)) (trace c')) m1 (set_client_inv m _ Hm Hg') Hr Hgq) as Hd.
  destruct (dispatch _ _ m1) as [m2 r2]. destruct Hd as [Hm2 [->|[-> Hrf]]]; auto.
Qed.

(** *** Passes of the receivers *)

Lemma receiver_pass_spec primary i m id r sub :
  manager_inv m → receiver_of m primary = Some (id, r) → subscriptions_ r !! i = Some sub →
  let '(m', res) := receiver_pass primary i m in
  manager_inv m' ∧ (res = Ok tt ∨ res = Throw ParsingError).
Proof.
  intros Hm Er Hsub. rewrite /receiver_pass Er.
  have Hg : receiver_good (negb (running_ m)) (Some (id, r)).
  { rewrite -Er. destruct Hm as (_ & Hp & Hs & _). by destruct primary. }
  pose proof (receive_pass_spec (env := net_mcast id) i r) as H.
  pose proof (receive_pass_inv (env := net_mcast id) i r (proj1 Hg)) as Hi.
  destruct (MulticastReceiver.receive_pass i r) as [r' res]. destruct H as ((ev & k & _ & ->) & H).
  destruct res as [b|e|]; [|done|by rewrite H in Hsub]. set m1 := set_receiver _ _ _.
  have Hm1 : manager_inv m1.
  { destruct Hm as (Hcore & Hp & Hs & Hc). split; [done|].
    have Hg1 : receiver_good (negb (running_ m)) (Some (id, mkReceiver (data_callback_ r) (subscriptions_ r)
      (MulticastReceiver.running_ r) (mc_trace r ++ ev) (mc_ticks r + k))) by split; [|apply Hg].
    by destruct primary. }
  destruct (harmless_inv _ m1 (harmless_deliveries primary (drop (length (mc_trace r)) (mc_trace r ++ ev))) Hm1)
    as (Hm2 & Hres & _). cbn. by destruct (deliveries _ _ m1).
Qed.

(** *** All calls *)

(** What a call can end with: starting a thread can fail, a packet or a frame
    can be malformed, a failover on the client's own thread fails, and the check
    code of a login can overflow. *)
Definition outcome (k : manager_call) (m : NetworkManager) (r : result unit) : Prop :=
  match k with
  | ConfigureAndStart _ => r = Ok tt ∨ r = Throw std_system_error
  | Trigger _ _ _ => r = Ok tt ∨ r = Throw std_system_error ∧ failover_refused m
  | StopAll => r = Ok tt
  | ReceiverPass _ _ => r = Ok tt ∨ r = Throw ParsingError
  | ClientPass => (r = Ok tt ∨ r = Throw ParsingError)
                  ∨ r = Throw std_system_error ∧ fails_over m = true
                  ∨ r = Undefined ∧ password_overflows m
  end.

Lemma manager_exec_spec `{!NetBytes} k m :
  manager_inv m → enabled k m →
  outcome k m (manager_exec k m).2
  ∧ (survives k (manager_exec k m).2 → manager_inv (manager_exec k m).1).
Proof.
  intros Hm Hk. destruct k as [config|ch q n| |primary i|]; cbn [manager_exec].
  - run_method. destruct (running_ m) eqn:Hr.
    + have -> : configure_and_start config m = (m, Ok false); [|by split; [left|]].
      rewrite /configure_and_start. run_method. by rewrite Hr.
    + destruct (configure_stopped config m Hm Hk Hr) as (m' & res & -> & Hi & _ & _ & Hres).
      destruct res as [b|e|]; [by split; [left|]| |done]. subst e. by split; [right|].
  - destruct Hk as (?&?&?). pose proof (trigger_spec ch q n m Hm) as Hx.
    destruct (trigger_retransmission_request ch q n m) as [m' r]. by destruct Hx as [? Hx].
  - by destruct (manager_stop_spec m Hm) as (m' & -> & Hi & _).
  - destruct Hk as (id & r & sub & Er & Hs & _).
    pose proof (receiver_pass_spec primary i m id r sub Hm Er Hs) as Hx.
    destruct (receiver_pass primary i m) as [m' res]. by destruct Hx.
  - have Hrun : client_runs m by destruct Hk as (id & c & Ec & Ht); rewrite /client_runs Ec.
    pose proof (client_pass_spec m Hm Hrun) as Hx. destruct (client_pass m) as [m' r]. cbn [fst snd].
    destruct Hx as [[Hi Hx]|[[-> Hx]|[-> Hx]]]; cbn [outcome survives]; (split; [by auto 6|done]).
Qed.

Lemma manager_reach_inv `{!NetBytes} m : manager_reach m → manager_inv m.
Proof.
  induction 1 as [sdk Hsdk|m k _ IH Hk Hs]; [|by apply manager_exec_spec].
  split; [|done]. split_and!; [|by constructor|done..]. intros s Es. by apply sdk_reach_ok, Hsdk.
Qed.

(** *** Losing the connection *)

(** A client with a session, in the manager's hands. *)
Definition in_session (m : NetworkManager) (id : nat) (c : RetransmissionClient) : Prop :=
  retransmission_client_ m = Some (id, c) ∧ RetransmissionClient.running_ c = true
  ∧ connected_ c = true ∧ logged_in_ c = true ∧ disconnected_callback_ (callbacks_ c) = true.

Lemma session_thread m id c : manager_inv m → in_session m id c → client_thread_ c = true.
Proof.
  intros (_ & _ & _ & Hg) (Ec & _ & Hcc & _). rewrite Ec in Hg. destruct Hg as [(_ & _ & Hf) _].
  destruct (client_thread_ c); [done|]. destruct (Hf eq_refl) as (_ & Hn & _). congruence.
Qed.

(** A request whose first [send] fails. *)
Lemma request_drops `{env : Env} c ch q n :
  client_inv c → connected_ c = true → logged_in_ c = true →
  disconnected_callback_ (callbacks_ c) = true → fits 2 ch → fits 4 q → fits 2 n →
  (∀ l, env_send (S (ticks c)) l ≤ 0) →
  ∃ c', request_retransmission ch q n c = (c', Ok true) ∧ trace c' = trace c ++ [Disconnected].
Proof.
  intros ((Hok & Hlink) & _) Hc Hl Hcb Hch Hq Hn Hs. specialize (Hlink Hc).
  rewrite /request_retransmission /next_seq_num /current_time /ask. run_method. rewrite Hl. cbn [negb].
  set req := mk101 _ _ _ _ _. have Hm : msg_ok req.
  { split; [apply stamped_ok; [done..|apply Hok]|]. repeat (constructor; [done|]). constructor. }
  rewrite (wl_serialize [] req Hm : DataRequest101_serialize [] req = _) app_nil_l.
  set c1 := tick _. rewrite /send_tcp_message. run_method.
  change (connected_ c1) with (connected_ c). change (socket_fd_ c1) with (socket_fd_ c).
  rewrite Hc (proj2 (Z.ltb_ge _ _)) //. cbn [negb orb].
  have [b [rest ->]] : ∃ b rest, encode req = b :: rest by eexists _, _; rewrite /encode; done.
  change (length (b :: rest)) with (S (length rest)). cbn [send_loop]. rewrite /ask. run_method.
  have Hneg := Hs (b :: rest). change (ticks c1) with (S (ticks c)).
  have Hdrop : drop_link (tick c1) = (emit (set_link (tick c1) (-1) false false) Disconnected, Ok tt).
  { rewrite /drop_link /callback. run_method. change (callbacks_ _) with (callbacks_ c). by rewrite Hcb. }
  destruct (env_send _ _ <? 0) eqn:E1; [|destruct (_ =? 0) eqn:E2].
  - rewrite Hdrop. by eexists.
  - rewrite Hdrop. by eexists.
  - bool_to_prop. lia.
Qed.

(** A pass in which the server is found to have closed the connection. *)
Lemma pass_drops `{env : Env} c :
  client_inv c → RetransmissionClient.running_ c = true → connected_ c = true →
  disconnected_callback_ (callbacks_ c) = true → env_recv (ticks c) = PeerClosed →
  ∃ c', RetransmissionClient.receive_pass c = (c', Ok true) ∧ trace c' = trace c ++ [Disconnected].
Proof.
  intros ((_ & Hlink) & _) Hr Hc Hcb Hrecv. specialize (Hlink Hc).
  rewrite /RetransmissionClient.receive_pass /ask. run_method.
  rewrite Hr Hc (proj2 (Z.ltb_ge _ _)) //. cbn [negb orb]. rewrite (proj2 (Z.ltb_ge _ _)) // Hrecv.
  rewrite /received /drop_link /callback. run_method. change (callbacks_ _) with (callbacks_ c).
  rewrite Hcb. by eexists.
Qed.

End Events.

(** ** Properties *)

Section Properties.
Context `{net : NetEnv}.

(** C5: the manager's invariant holds in every state that calls of the
    application and passes of the receivers' and the client's threads can
    reach, in any order and for any answers of the operating system (bytes that
    arrive are bytes; a socket, a connection or a thread may fail), each call and
    each pass being taken as a whole: the SDK object and the client keep their
    invariants, the deduplication log is a sorted map, every open socket of a
    receiver belongs to one of its subscriptions, and while the manager is
    stopped no component has a thread, an open socket or a connection (a client
    whose thread could not be created may still be marked as running).  In each
    of these states the destructor, if no thread's step falls into it, stops
    and destroys all components without leaving a thread that would terminate
    the program. *)
Theorem manager_invariant `{!NetBytes} m (Hr : manager_reach m) :
  manager_inv m ∧ (running_ m = false → detached m) ∧ destroy_manager m = Ok tt.
Proof.
  pose proof (manager_reach_inv m Hr) as Hm. split; [done|]. split; [by apply stopped_detached|].
  by apply destroy_manager_ok.
Qed.

(** C17: how every call of the application and every pass of a thread can end,
    from any reachable state and taken as a whole (ClientThreads.v shows what
    else can happen when the steps of [stop] and of the client's thread mix):
    [stop] returns; [trigger_retransmission_request] returns, or throws
    [std::system_error] when it fails over and the backup client's thread
    cannot be created; [configure_and_start] returns or throws
    [std::system_error] for a thread that cannot be created; a pass of a
    receiver's thread returns or ends with the [ParsingError] of a malformed
    packet; a pass of the client's thread may also end with
    [std::system_error], but only if a backup server is configured and the
    primary one is in use.  The only undefined behaviour is the signed overflow
    in the check code of a login, for a password whose product with 168 exceeds
    64 bits. *)
Theorem manager_safe `{!NetBytes} m k (Hr : manager_reach m) (Hk : enabled k m) :
  outcome k m (manager_exec k m).2.
Proof. by apply manager_exec_spec; [apply manager_reach_inv|]. Qed.

(** C15: failover depends on who notices.  When a data request of the
    application finds the connection gone, the disconnect callback, run inside
    the request, stops the client, replaces it by one for the backup server and
    starts that one, and the manager remembers that the primary server is not in
    use; the request returns to the application without touching the destroyed
    client again.  If the new client's thread cannot be created, the request
    throws [std::system_error] and the manager is left with a backup client that
    is marked as running but has no thread.  When the client's own thread finds
    the server gone, the thread tries to join itself and the pass ends with
    [std::system_error], so the manager never reaches the backup server. *)
Theorem failover `{!NetBytes} m id c server ch q n (Hm : manager_inv m) (Hr : running_ m = true)
    (Hc : in_session m id c) (Ha : retrans_primary_active_ m = true)
    (Hb : backup_retrans_server (config_ m) = Some server)
    (Hch : fits 2 ch) (Hq : fits 4 q) (Hn : fits 2 n) :
  ((∀ l, env_send (Env := net_client id) (S (ticks c)) l ≤ 0) →
     trigger_retransmission_request ch q n m
     = if thread_granted m then (failed_over m server true, Ok tt)
       else (failed_over m server false, Throw std_system_error))
  ∧ (env_recv (Env := net_client id) (ticks c) = PeerClosed →
     ∃ m', client_pass m = (m', Throw std_system_error) ∧ retrans_primary_active_ m' = true).
Proof.
  have [_ [_ [_ Hg]]] := Hm. have Ht := session_thread m id c Hm Hc.
  destruct Hc as (Ec & Hrc & Hcc & Hlc & Hcb). rewrite Ec Hr in Hg. split.
  - intros Hs. rewrite /trigger_retransmission_request. run_method.
    rewrite Hr Ec bool_decide_true; [by eexists|]. cbn [negb].
    rewrite (request_inline ch q n m id c Ec) /run_callbacks.
    destruct (request_drops (env := net_client id) c ch q n) as (c' & E & Et); try done; [apply Hg|].
    pose proof (safe_call_good (request_retransmission (env := net_client id) ch q n) _ id c Hg Ht) as [Hg' _].
    rewrite E in Hg' |- *. cbn [fst snd]. rewrite Et drop_app_length. cbn [dispatch on_event]. run_method.
    rewrite (disconnected_switches (set_client m (Some (id, c'))) server Hg' Ha Hb).
    change (thread_granted (set_client m _)) with (thread_granted m). by destruct (thread_granted m).
  - intros Hp. rewrite /client_pass /client_step. run_method. rewrite Ec.
    destruct (pass_drops (env := net_client id) c) as (c' & E & Et); try done; [apply Hg|].
    pose proof (net_bytes id) as Hbytes.
    pose proof (safe_call_good (RetransmissionClient.receive_pass (env := net_client id)) _ id c Hg Ht)
      as [Hg' Ht'].
    rewrite E in Hg' Ht' |- *. rewrite Et drop_app_length. cbn [dispatch on_event]. set m1 := set_client m _.
    destruct (disconnected_joins_itself m1 id c') as (c2 & E2 & _); [done|by apply Hg'|done| |].
    + rewrite /fails_over. cbn. by rewrite Ha Hb bool_decide_true.
    + rewrite (method_bind_Throw _ _ _ _ _ E2). by eexists.
Qed.

End Properties.

(** *** Sample data *)

Lemma sample_net_bytes : @NetBytes sample_net.
Proof. intros id. exact working_env_bytes. Defined.

Lemma new_manager_reach : @manager_reach sample_net (NetworkManager_new (Some sdk0)).
Proof. apply manager_reach_new. intros s [= <-]. exact sdk0_reach. Defined.

Lemma started_manager_reach : @manager_reach sample_net started_manager.
Proof.
  have -> : started_manager = (manager_exec (net := sample_net) (ConfigureAndStart full_config)
    (NetworkManager_new (Some sdk0))).1 by vm_compute.
  apply manager_reach_step; [exact new_manager_reach|exact full_config_ok|]. vm_compute. exact I.
Defined.

Lemma manager_invariant_witness :
  let net : NetEnv := sample_net in
  running_ started_manager = true ∧ manager_inv started_manager
  ∧ (running_ started_manager = false → detached started_manager) ∧ destroy_manager started_manager = Ok tt.
Proof.
  intros net. split; [vm_compute; reflexivity|].
  exact (@manager_invariant sample_net sample_net_bytes started_manager started_manager_reach).
Defined.

Lemma manager_safe_witness :
  let net : NetEnv := sample_net in
  outcome ClientPass started_manager (manager_exec ClientPass started_manager).2.
Proof.
  intros net.
  apply (@manager_safe net sample_net_bytes started_manager ClientPass started_manager_reach).
  vm_compute. by eexists _, _.
Defined.

(** A server that has gone away. *)
Definition dead_net : NetEnv :=
  Build_NetEnv (λ _, sample_mcast_env)
    (λ _, Build_Env LittleEndian (λ _ _, -1) (λ _, PeerClosed) (λ _, 3) (λ _, true) (λ _ _ _, 0) (λ _, 0) (λ _, true))
    Z.of_nat.
(** A manager whose client has a session. *)
Definition session_manager : NetworkManager :=
  mkManager (Some sdk0) full_config None None (Some (0%nat, sample_client true)) [] true true 0 1 [].

Lemma dead_net_bytes : @NetBytes dead_net.
Proof. intros id n data E. discriminate E. Defined.

Lemma session_manager_inv : manager_inv session_manager.
Proof.
  split; [|split; [done|split; [done|]]].
  - split; [|split; [constructor|apply full_config_ok]]. intros s [= <-]. apply sdk_reach_ok, sdk0_reach.
  - split; [|split; [|done]].
    + split; [|split; [done|done]]. split; [apply sample_client_ok|]. intros _. simpl. lia.
    + apply (sample_server_ok (str "10.0.0.1")).
Defined.

Lemma failover_witness :
  let net : NetEnv := dead_net in
  trigger_retransmission_request 1 1001 5 session_manager
    = (failed_over session_manager (sample_server (str "10.0.0.2")) true, Ok tt)
  ∧ ∃ m', client_pass session_manager = (m', Throw std_system_error) ∧ retrans_primary_active_ m' = true.
Proof.
  intros net.
  destruct (@failover net dead_net_bytes session_manager 0 (sample_client true) (sample_server (str "10.0.0.2"))
    1 1001 5 session_manager_inv eq_refl) as [H1 H2]; [by split_and!|done|done|done..|].
  split; [apply H1|apply H2]; done.
Defined.
