(* ===== verification/Recovery.v ===== *)
(** * Recovery of lost packets

    The way of a retransmitted packet through the program: the bytes [recv]
    returns to the client's thread, cut into chunks anywhere, are put together
    to messages; the market frames among them go to the manager's callback,
    which hands them to the SDK without looking at its log. *)

From S2P Require Import Prelude PackBcd CommonHeader CppMap EndianUtils MessageI081 TaifexSdk SdkStream.
From S2P Require Import RetransmissionProtocol RetransmissionCodec MulticastReceiver RetransmissionClient.
From S2P Require Import ClientFraming ClientLink NetworkManager DedupWindow DualFeed NetworkLifecycle NetworkEvents.

(** ** Definitions *)

(** A message to which the client does not reply. *)
Definition silent (l : list Z) : Prop :=
  complete l ∧ (next_item l = Market (length l) ∨ msg_type (header_at l) ≠ 104).

Definition market_messages (msgs : list (list Z)) : list (list Z) :=
  filter (λ l, next_item l = Market (length l)) msgs.

(** A client that waits for data. *)
Definition listening (c : RetransmissionClient) : Prop :=
  RetransmissionClient.running_ c = true ∧ connected_ c = true ∧ 0 ≤ socket_fd_ c
  ∧ market_data_callback_ (callbacks_ c) = true ∧ seq_ok c.

(** The next answers of [recv] are [chunks]. *)
Definition recv_next `{env : Env} (c : RetransmissionClient) (chunks : list (list Z)) : Prop :=
  ∀ i chunk, chunks !! i = Some chunk → env_recv (ticks c + i)%nat = Received chunk.

Section Passes.
Context `{net : NetEnv}.

(** [k] passes of the client's thread. *)
Fixpoint client_passes (k : nat) : method NetworkManager unit :=
  match k with O => mret tt | S k => client_pass;; client_passes k end.

End Passes.

(** ** Lemmas *)

(** *** Messages without a reply *)

(** What such messages leave alone. *)
Definition link_of (c : RetransmissionClient) : bool * bool * Z * nat * Callbacks :=
  (RetransmissionClient.running_ c, connected_ c, socket_fd_ c, ticks c, callbacks_ c).

(** A method that does not talk to the server and does not lose the link. *)
Class Steady {A} (f : method RetransmissionClient A) : Prop :=
  steady c : link_of (f c).1 = link_of c
    ∧ ∃ es, trace (f c).1 = trace c ++ es ∧ Disconnected ∉ es.

Section Steady.
Context `{env : Env}.

#[export] Instance steady_ret {A} (a : A) : Steady (mret a).
Proof. intros c. split; [done|]. exists []. rewrite app_nil_r. split; [done|]. apply not_elem_of_nil. Qed.
#[export] Instance steady_bind {A B} (f : method RetransmissionClient A)
    (g : A → method RetransmissionClient B) : Steady f → (∀ a, Steady (g a)) → Steady (f ≫= g).
Proof.
  intros Hf Hg c. rewrite /mbind /method_bind. have := Hf c.
  destruct (f c) as [c1 [a| |]]; [|done..]. cbn [fst]. intros [E1 (es1 & T1 & N1)].
  destruct (Hg a c1) as [E2 (es2 & T2 & N2)]. split; [congruence|]. exists (es1 ++ es2).
  rewrite T2 T1 app_assoc. split; [done|]. by apply not_elem_of_app.
Qed.
Lemma steady_logged b : Steady (modify (λ c, set_link c (socket_fd_ c) (connected_ c) b)).
Proof. intros c. split; [done|]. exists []. rewrite app_nil_r. split; [done|]. apply not_elem_of_nil. Qed.
Lemma steady_callback cb e : e ≠ Disconnected → Steady (callback cb e).
Proof.
  intros He c. rewrite /callback /modify. cbn [fst]. case_bool.
  - split; [done|]. exists [e]. split; [done|]. intros H%list_elem_of_singleton. by subst.
  - split; [done|]. exists []. rewrite app_nil_r. split; [done|]. apply not_elem_of_nil.
Qed.

Lemma steady_effect mem n : msg_type (header_at mem) ≠ 104 → Steady (protocol_effect mem n).
Proof.
  intros Hty. rewrite /protocol_effect. cbv zeta. destruct (_ =? 50).
  { destruct (decode _ _); [|apply _]. apply steady_bind; [apply steady_logged|].
    intros _. by apply steady_callback. }
  destruct (_ =? 102); [destruct (decode102 _ _) as [[m d]|]; [by apply steady_callback|apply _]|].
  rewrite (proj2 (Z.eqb_neq _ _) Hty). destruct (_ =? 10); [|apply _].
  destruct (decode _ _); [|apply _]. apply steady_bind; [by apply steady_callback|].
  intros _. apply steady_logged.
Qed.

Lemma steady_deliver l : silent l → Steady (deliver (next_item l) l).
Proof.
  intros [[Hl|Hl] Hty]; rewrite Hl; cbn [deliver]; [by apply steady_callback|].
  destruct Hty as [Hty|Hty]; [congruence|]. case_bool; [apply _|by apply steady_effect].
Qed.

Lemma steady_deliver_all msgs : Forall silent msgs → Steady (deliver_all msgs).
Proof.
  induction 1 as [|l msgs Hl _ IH]; [apply _|]. cbn [deliver_all]. pose proof (steady_deliver l Hl). apply _.
Qed.

End Steady.

(** *** One pass *)

Lemma silent_complete msgs : Forall silent msgs → Forall complete msgs.
Proof. intros H. eapply Forall_impl; [exact H|]. by intros l [? _]. Qed.

(** A pass of the client's thread on the next chunk of a stream. *)
Lemma pass_chunk `{env : Env} c x r msgs :
  listening c → env_recv (ticks c) = Received x → Forall silent msgs → Forall (Forall is_byte) msgs →
  (tcp_receive_buffer_ c ++ x) ++ r = concat msgs →
  ∃ handled todo c' es, msgs = handled ++ todo
    ∧ RetransmissionClient.receive_pass c = (c', Ok true) ∧ listening c' ∧ ticks c' = S (ticks c)
    ∧ tcp_receive_buffer_ c' ++ r = concat todo ∧ next_item (tcp_receive_buffer_ c') = Incomplete
    ∧ trace c' = trace c ++ es ∧ Disconnected ∉ es ∧ markets es = market_messages handled.
Proof.
  intros (Hr & Hc & Hfd & Hcb & Hq) Hx Hsil Hb Hcut. have Hcm := silent_complete msgs Hsil.
  destruct (process_prefix msgs (length (tcp_receive_buffer_ c ++ x)) (tcp_receive_buffer_ c ++ x) r (tick c))
    as (handled & todo & rest & c1 & -> & Hrest & Hinc & Hd & Hq1 & Hp); [done..|].
  apply Forall_app in Hsil as [Hsil _]. apply Forall_app in Hcm as [Hcm _].
  destruct (steady_deliver_all handled Hsil (tick c)) as [El (es & Et & Hn)].
  pose proof (deliver_all_markets handled (tick c) Hq Hcb Hcm) as Hm.
  rewrite Hd in El, Et, Hm. cbn [fst] in El, Et, Hm. injection El as Er1 Ec1 Ef1 Ek1 Ecb1.
  exists handled, todo, (set_buffer c1 rest), es. split; [done|]. split.
  { rewrite /RetransmissionClient.receive_pass /ask. run_method.
    rewrite Hr Hc (proj2 (Z.ltb_ge _ _)) //. cbn [negb orb]. rewrite (proj2 (Z.ltb_ge _ _)) // Hx.
    cbn [received]. run_method. rewrite process_incoming_eq. change (add (tick c) x) with (set_buffer (tick c) (tcp_receive_buffer_ c ++ x)).
    cbn [tcp_receive_buffer_ set_buffer]. by rewrite Hp. }
  split; [by split_and!; cbn; [rewrite Er1|rewrite Ec1|rewrite Ef1|rewrite Ecb1|apply Hq1..]|].
  split; [done|]. split; [done|]. split; [done|]. split; [done|]. split; [done|].
  rewrite Et in Hm. cbn [trace tick] in Hm. rewrite /markets omap_app in Hm. by apply app_inv_head in Hm.
Qed.

(** *** The callbacks of a pass *)

Lemma dispatch_frames `{net : NetEnv} who es hs m s :
  running_ m = true → sdk_core_logic_ m = Some s → sdk_ok s → initialized_ s = true →
  Disconnected ∉ es → Forall2 is_frame hs (markets es) →
  ∃ m', dispatch who es m = (m', Ok tt) ∧ sdk_core_logic_ m' = Some (accept_all s hs)
    ∧ sdk_ok (accept_all s hs) ∧ forwarded m' = forwarded m ++ markets es
    ∧ deduplication_log_ m' = deduplication_log_ m ∧ same_parts m m'.
Proof.
  revert hs m s. induction es as [|e es IH]; intros hs m s Hr Hsd Hs Hi Hn Hf.
  { inversion Hf; subst. exists m. rewrite app_nil_r. by split; [|split; [|split; [|split; [|split]]]]. }
  apply not_elem_of_cons in Hn as [He Hn]. cbn [dispatch].
  destruct e as [data| | | | |]; try done;
    try by (rewrite (method_bind_Ok _ _ m m tt); [done|]; apply IH).
  cbn [markets omap list_omap is_market] in Hf.
  apply Forall2_cons_inv_r in Hf as (h & hs' & Hfr & Hf & ->).
  destruct (retransmitted_step m s (mkArrival false h data) Hr Hsd Hs) as (s' & E & Hs' & Ep).
  { by apply is_frame_well_headed. }
  cbn [arr_bytes] in E, Ep. rewrite (process_is_frame s h data) // in E; [apply Hs|]. injection E as <-.
  cbn [on_event]. rewrite (method_bind_Ok _ _ _ _ _ Ep).
  destruct (IH hs' (forward m (accept s h) data) (accept s h)) as (m' & Ed & H1 & H2 & H3 & H4 & H5); [done..|].
  exists m'. do 3 (split; [done|]). rewrite H3. cbn [forwarded forward note_forwarded set_sdk].
  rewrite -app_assoc. do 2 (split; [done|]). exact H5.
Qed.

(** *** The whole stream *)

Lemma recv_next_tail `{env : Env} c c' x chunks :
  recv_next c (x :: chunks) → ticks c' = S (ticks c) → recv_next c' chunks.
Proof.
  intros H Ht i chunk Hi. rewrite Ht. have := H (S i) chunk Hi. by rewrite Nat.add_succ_r.
Qed.

Lemma market_messages_app l1 l2 :
  market_messages (l1 ++ l2) = market_messages l1 ++ market_messages l2.
Proof. apply filter_app. Qed.

Section Recover.
Context `{net : NetEnv}.

(** A running manager whose client waits for data. *)
Definition awaiting (m : NetworkManager) (s : TaifexSdk) (id : nat) (c : RetransmissionClient) : Prop :=
  running_ m = true ∧ sdk_core_logic_ m = Some s ∧ sdk_ok s ∧ initialized_ s = true
  ∧ retransmission_client_ m = Some (id, c) ∧ listening c.

Lemma client_passes_spec chunks m s id c msgs hs :
  awaiting m s id c → recv_next (env := net_client id) c chunks →
  Forall silent msgs → Forall (Forall is_byte) msgs →
  tcp_receive_buffer_ c ++ concat chunks = concat msgs → next_item (tcp_receive_buffer_ c) = Incomplete →
  Forall2 is_frame hs (market_messages msgs) →
  ∃ m', client_passes (length chunks) m = (m', Ok tt) ∧ sdk_core_logic_ m' = Some (accept_all s hs)
    ∧ forwarded m' = forwarded m ++ market_messages msgs
    ∧ deduplication_log_ m' = deduplication_log_ m.
Proof.
  revert m s c msgs hs. induction chunks as [|x chunks IH]; intros m s c msgs hs Hw Hrecv Hsil Hb Hcut Hinc Hf.
  { cbn [concat] in Hcut. rewrite app_nil_r in Hcut. rewrite Hcut in Hinc.
    apply incomplete_none in Hinc as ->; [|by apply silent_complete].
    inversion Hf; subst. exists m. destruct Hw as (_ & -> & _). by rewrite app_nil_r. }
  destruct Hw as (Hr & Hsd & Hs & Hi & Ec & Hl). cbn [concat] in Hcut. rewrite app_assoc in Hcut.
  have Hx : env_recv (Env := net_client id) (ticks c) = Received x.
  { have := Hrecv 0%nat x eq_refl. by rewrite Nat.add_0_r. }
  destruct (pass_chunk (env := net_client id) c x (concat chunks) msgs Hl Hx Hsil Hb Hcut)
    as (handled & todo & c' & es & -> & E & Hl' & Ht & Hcut' & Hinc' & Et & Hn & Hm).
  apply Forall_app in Hsil as [_ Hsil]. apply Forall_app in Hb as [_ Hb].
  rewrite market_messages_app in Hf |- *. apply Forall2_app_inv_r in Hf as (hs1 & hs2 & Hf1 & Hf2 & ->).
  rewrite -Hm in Hf1. set m1 := set_client m (Some (id, c')).
  destruct (dispatch_frames ClientThread es hs1 m1 s) as (m2 & Ed & H1 & H2 & H3 & H4 & Hsp); [done..|].
  have Ep : client_pass m = (m2, Ok tt).
  { rewrite /client_pass /client_step. run_method. by rewrite Ec E Et drop_app_length Ed. }
  destruct Hsp as (_ & _ & _ & Ecl & Er & _). cbn [length client_passes].
  rewrite (method_bind_Ok _ _ _ _ _ Ep).
  destruct (IH m2 (accept_all s hs1) c' todo hs2) as (m' & E' & H1' & H3' & H4'); try done.
  - split; [by rewrite Er|]. do 2 (split; [done|]). by rewrite accept_all_initialized Ecl.
  - by eapply recv_next_tail.
  - exists m'. split; [done|]. rewrite H1' H3' H4' H3 H4 Hm app_assoc /accept_all foldl_app. done.
Qed.


(** ** Properties *)

(** C4: what the retransmission server sends reaches the SDK: when the next
    answers of [recv] are any chunks of a stream of complete messages to which
    the client does not reply, each pass of the client's thread returns, and
    after the last one the SDK has been handed exactly the market frames of the
    stream, once each and in order, and is in the state of having accepted
    them; the deduplication log is not consulted and does not change, so a
    packet that was seen before, or noted and then found corrupt, is still
    recovered. *)
Theorem recovery_delivers m s id c chunks msgs hs (Hm : awaiting m s id c)
    (Hempty : tcp_receive_buffer_ c = []) (Hrecv : recv_next (env := net_client id) c chunks)
    (Hsil : Forall silent msgs) (Hb : Forall (Forall is_byte) msgs)
    (Hcut : concat chunks = concat msgs) (Hf : Forall2 is_frame hs (market_messages msgs)) :
  ∃ m', client_passes (length chunks) m = (m', Ok tt) ∧ sdk_core_logic_ m' = Some (accept_all s hs)
    ∧ forwarded m' = forwarded m ++ market_messages msgs
    ∧ deduplication_log_ m' = deduplication_log_ m.
Proof. apply (client_passes_spec chunks m s id c msgs hs); rewrite ?Hempty //. Qed.


End Recover.

(** *** Sample data *)

(** A server that sends the sample packet in two pieces, the first one together
    with a message of its own. *)
Definition sample_chunks : list (list Z) :=
  [sample_start ++ take 30 sample_packet; drop 30 sample_packet].
Definition recovery_net : NetEnv :=
  Build_NetEnv (λ _, sample_mcast_env)
    (λ _, Build_Env LittleEndian (λ _ l, Z.of_nat (length l))
            (λ n, match sample_chunks !! n with Some chunk => Received chunk | None => WouldBlock end)
            (λ _, 3) (λ _, true) (λ _ _ _, 0) (λ _, 0) (λ _, true))
    Z.of_nat.

Lemma session_awaiting : awaiting session_manager sdk0 0 (sample_client true).
Proof.
  do 2 (split; [reflexivity|]). split; [apply sdk_reach_ok, sdk0_reach|]. do 2 (split; [reflexivity|]).
  by split_and!.
Defined.

Lemma sample_recv_next : recv_next (env := net_client (NetEnv := recovery_net) 0) (sample_client true) sample_chunks.
Proof. intros i chunk E. cbn. by rewrite E. Defined.

Lemma sample_silent : Forall silent [sample_start; sample_packet].
Proof.
  constructor; [split; [right; reflexivity|right; vm_compute; discriminate]|].
  constructor; [split; [left; reflexivity|left; reflexivity]|constructor].
Defined.

Lemma sample_msg_bytes : Forall (Forall is_byte) [sample_start; sample_packet].
Proof. repeat (constructor; [by apply bytes_check|]). constructor. Defined.

Lemma sample_is_frame : is_frame sample_msg_header sample_packet.
Proof. split; [apply sample_msg_valid|]. exists sample_i081_body, 13, 10. split; [by repeat split|reflexivity]. Defined.

Lemma recovery_delivers_witness :
  let net : NetEnv := recovery_net in
  ∃ m', client_passes 2 session_manager = (m', Ok tt)
    ∧ sdk_core_logic_ m' = Some (accept_all sdk0 [sample_msg_header])
    ∧ forwarded m' = [] ++ market_messages [sample_start; sample_packet]
    ∧ deduplication_log_ m' = deduplication_log_ session_manager.
Proof.
  intros net.
  apply (recovery_delivers (net := net) session_manager sdk0 0 (sample_client true) sample_chunks
    [sample_start; sample_packet] [sample_msg_header] session_awaiting eq_refl sample_recv_next
    sample_silent sample_msg_bytes); [reflexivity|].
  constructor; [exact sample_is_frame|constructor].
Defined.

