(* ===== verification/PacketThreads.v ===== *)
(** * Packet handlers of several threads

    The two receivers and the client call into the network manager from threads
    of their own, and [process_incoming_packet] takes no lock.  Here a handler
    is cut into the accesses it makes to what the threads share (the running
    flag, the deduplication log, the SDK object), and threads interleave
    between any two of them.  Each access is atomic: a data race inside
    [std::map] or inside [process_message] is outside the model, so what is
    shown to go wrong goes wrong even then.  [handler_atomic] ties the steps to
    [process_incoming_packet]. *)

From S2P Require Import Prelude PackBcd CommonHeader CppMap EndianUtils MessageI081 TaifexSdk SdkStream.
From S2P Require Import MulticastReceiver RetransmissionClient NetworkManager DedupWindow DualFeed NetworkLifecycle.

(** ** Definitions *)

(** A packet with the way it came; the header is only there for the statements
    below. *)
Record packet : Type := mkPacket {
  pkt_retransmitted : bool;
  pkt_header : CommonHeader;
  pkt_bytes : list Z;
}.

(** Where a handler is: before its checks, before [find], before [operator[]],
    before the pruning, before [forward_to_sdk], and after its return. *)
Inductive handler : Type :=
| Entered (p : packet)
| Looking (p : packet) (key now : Z)
| Noting (p : packet) (key now : Z)
| Pruning (p : packet)
| Forwarding (p : packet)
| Returned.

(** A thread: its handler, and the packets it will receive. *)
Record thread : Type := mkThread { current : handler; pending : list packet }.

#[export] Instance packet_eq_dec : EqDecision packet.
Proof. solve_decision. Defined.
#[export] Instance handler_eq_dec : EqDecision handler.
Proof. solve_decision. Defined.

Record system : Type := mkSystem { shared : NetworkManager; threads : list thread }.

Section Steps.
Context `{net : NetEnv}.

(** The next step of a handler. *)
Definition handler_step (h : handler) : method NetworkManager handler :=
  match h with
  | Entered p =>
      m ← get;
      if negb (running_ m) || bool_decide (sdk_core_logic_ m = None) then mret Returned
      else
        parsed ← lift (CommonHeader_parse (Some (pkt_bytes p)) (length (pkt_bytes p)) CommonHeader_default);
        let '(ok, header) := parsed in
        if negb ok then mret Returned
        else
          channel_id ← lift (getChannelId header);
          channel_seq ← lift (getChannelSeq header);
          let key := combined_seq_key channel_id channel_seq in
          if dual_feed_enabled (config_ m) && negb (pkt_retransmitted p) then
            now ← steady_now; mret (Looking p key now)
          else mret (Forwarding p)
  | Looking p key now =>
      m ← get;
      match map_get (deduplication_log_ m) key with
      | Some _ => mret Returned
      | None => mret (Noting p key now)
      end
  | Noting p key now =>
      modify (λ m, set_log m (map_put Z.ltb (deduplication_log_ m) key now));; mret (Pruning p)
  | Pruning p =>
      m ← get;
      (if (DEDUPLICATION_WINDOW_SIZE * length (multicast_feeds (config_ m))
           <? length (deduplication_log_ m))%nat
       then modify (λ m, set_log m (map_erase_begin (deduplication_log_ m)))
       else mret tt);;
      mret (Forwarding p)
  | Forwarding p => forward_to_sdk (Some (pkt_bytes p)) (length (pkt_bytes p));; mret Returned
  | Returned => mret Returned
  end.

(** [n] steps of one handler. *)
Fixpoint handler_run (n : nat) (h : handler) : method NetworkManager handler :=
  match n with O => mret h | S n => h' ← handler_step h; handler_run n h' end.

(** The next step of thread [i]: the next step of its handler, or the next
    packet. *)
Definition thread_step (i : nat) : method system unit :=
  λ s,
    match threads s !! i with
    | Some t =>
        match current t, pending t with
        | Returned, [] => (s, Ok tt)
        | Returned, p :: ps =>
            (mkSystem (shared s) (<[i := mkThread (Entered p) ps]> (threads s)), Ok tt)
        | h, ps =>
            match handler_step h (shared s) with
            | (m, Ok h') => (mkSystem m (<[i := mkThread h' ps]> (threads s)), Ok tt)
            | (m, Throw e) => (mkSystem m (threads s), Throw e)
            | (m, Undefined) => (mkSystem m (threads s), Undefined)
            end
        end
    | None => (s, Ok tt)
    end.

(** The threads make their steps in the order of [schedule]. *)
Fixpoint run_schedule (schedule : list nat) : method system unit :=
  match schedule with
  | [] => mret tt
  | i :: schedule => thread_step i;; run_schedule schedule
  end.

End Steps.

(** A system at its start, and one that has nothing left to do. *)
Definition start_system (m : NetworkManager) (arrs : list (list packet)) : system :=
  mkSystem m (mkThread Returned <$> arrs).
Definition quiescent (s : system) : Prop :=
  Forall (λ t, current t = Returned ∧ pending t = []) (threads s).


(** The threads between [operator[]] and the pruning. *)
Definition noted_now (t : thread) : nat := match current t with Pruning _ => 1 | _ => 0 end.
Definition noted (s : system) : nat := sum_list_with noted_now (threads s).

(** ** Lemmas *)

Section Atomic.
Context `{net : NetEnv}.

(** The log after the pruning. *)
Definition pruned (m : NetworkManager) : NetworkManager :=
  if (window_size m <? length (deduplication_log_ m))%nat
  then set_log m (map_erase_begin (deduplication_log_ m)) else m.

Lemma looking_eq p key now m :
  handler_step (Looking p key now) m =
  (m, Ok (if map_get (deduplication_log_ m) key then Returned else Noting p key now)).
Proof. cbn [handler_step]. run_method. by destruct (map_get _ _). Qed.

Lemma pruning_eq p m : handler_step (Pruning p) m = (pruned m, Ok (Forwarding p)).
Proof. cbn [handler_step]. run_method. rewrite /pruned /window_size. by destruct (_ <? _)%nat. Qed.

Lemma returned_run n m : handler_run n Returned m = (m, Ok Returned).
Proof. induction n as [|n IH]; [done|]. exact IH. Qed.

(** What is left to do from each point on. *)
Definition to_handler (r : NetworkManager * result unit) : NetworkManager * result handler :=
  (r.1, match r.2 with Ok _ => Ok Returned | Throw e => Throw e | Undefined => Undefined end).

Lemma forwarding_run n p m :
  handler_run (S n) (Forwarding p) m
  = to_handler (forward_to_sdk (Some (pkt_bytes p)) (length (pkt_bytes p)) m).
Proof.
  cbn [handler_run handler_step]. run_method. rewrite /to_handler.
  destruct (forward_to_sdk _ _ m) as [m' [u|e|]]; cbn; [apply returned_run|done..].
Qed.

Lemma noting_run p key now m :
  handler_run 3 (Noting p key now) m
  = to_handler (forward_to_sdk (Some (pkt_bytes p)) (length (pkt_bytes p))
      (pruned (set_log m (map_put Z.ltb (deduplication_log_ m) key now)))).
Proof.
  set m1 := set_log _ _. rewrite -(forwarding_run 0). cbn [handler_run].
  rewrite (method_bind_Ok _ _ m m1 (Pruning p)) //.
  by rewrite (method_bind_Ok _ _ _ _ _ (pruning_eq p m1)).
Qed.

Lemma deduplicate_unfold key m :
  deduplicate key m =
  (match map_get (deduplication_log_ m) key with
   | Some _ => now_tick m
   | None => pruned (set_log (now_tick m)
               (map_put Z.ltb (deduplication_log_ m) key (net_now (now_ticks m))))
   end, Ok (negb (bool_decide (is_Some (map_get (deduplication_log_ m) key))))).
Proof.
  rewrite /deduplicate /steady_now /pruned /window_size. run_method. cbn [now_tick deduplication_log_].
  destruct (map_get _ _); [by rewrite bool_decide_true|]. rewrite bool_decide_false; [by intros [? [=]]|].
  cbn [deduplication_log_ set_log config_]. by destruct (_ <? _)%nat.
Qed.

(** A handler whose steps are not interleaved with others is
    [process_incoming_packet]. *)
Lemma handler_atomic p primary m :
  handler_run 5 (Entered p) m =
  to_handler (process_incoming_packet (Some (pkt_bytes p)) (length (pkt_bytes p)) primary
                (pkt_retransmitted p) m).
Proof.
  cbn [handler_run handler_step]. rewrite /process_incoming_packet. run_method.
  destruct (negb (running_ m) || _); [done|].
  destruct (CommonHeader_parse _ _ _) as [[[] h]| |]; [|done..]. cbn [negb].
  destruct (getChannelId h) as [c| |]; [|done..]. destruct (getChannelSeq h) as [q| |]; [|done..].
  set key := combined_seq_key c q. destruct (_ && _); last first.
  { by pose proof (forwarding_run 3 p m) as H. }
  rewrite deduplicate_unfold.
  pose proof (looking_eq p key (net_now (now_ticks m)) (now_tick m)) as El. cbn [now_tick deduplication_log_] in El.
  rewrite /steady_now. run_method. rewrite El.
  destruct (map_get (deduplication_log_ m) key) as [v|].
  - rewrite bool_decide_true; [by eexists|]. done.
  - rewrite bool_decide_false; [by intros [? [=]]|]. cbn [negb].
    by pose proof (noting_run p key (net_now (now_ticks m)) (now_tick m)) as H.
Qed.

End Atomic.

(** *** Changing one thread *)




(** *** The invariant of interleaved handlers *)

Definition pkt_key (p : packet) : Z := header_key (pkt_header p).






Section Invariant.
Context `{net : NetEnv}.
Context (universe : list packet) (base : list (list Z)) (s0 : TaifexSdk).
Context (Hframes : ∀ p, p ∈ universe → is_frame (pkt_header p) (pkt_bytes p)).
Context (Hkeys : ∀ p q, p ∈ universe → q ∈ universe → pkt_key p = pkt_key q → pkt_header p = pkt_header q).
Context (Hinit : initialized_ s0 = true).



(** *** Steps of handlers on frames *)

Lemma entered_step p m s :
  running_ m = true → sdk_core_logic_ m = Some s → is_frame (pkt_header p) (pkt_bytes p) →
  handler_step (Entered p) m =
  if dual_feed_enabled (config_ m) && negb (pkt_retransmitted p)
  then (now_tick m, Ok (Looking p (pkt_key p) (net_now (now_ticks m))))
  else (m, Ok (Forwarding p)).
Proof.
  intros Hr Hs Hf. cbn [handler_step]. run_method. rewrite Hr Hs bool_decide_false //. cbn [negb orb].
  have Hw : well_headed (mkArrival true (pkt_header p) (pkt_bytes p)) by apply is_frame_well_headed.
  destruct (parse_well_headed _ CommonHeader_default Hw) as (Ep & Ec & Eq).
  cbn [arr_bytes arr_header] in Ep, Ec, Eq. rewrite Ep Ec Eq. cbn [negb].
  destruct (_ && _); [|done]. rewrite /steady_now. run_method. done.
Qed.

Lemma forwarding_step p m s :
  sdk_core_logic_ m = Some s → sdk_ok s → initialized_ s = true → is_frame (pkt_header p) (pkt_bytes p) →
  handler_step (Forwarding p) m = (forward m (accept s (pkt_header p)) (pkt_bytes p), Ok Returned)
  ∧ sdk_ok (accept s (pkt_header p)).
Proof.
  intros Hs Hok Hi Hf. have Hm := process_is_frame s _ _ Hi (proj2 (proj2 Hok)) Hf.
  pose proof (process_message_keeps s (Some (pkt_bytes p)) _ Hok (Nat.le_refl _)) as Hk.
  rewrite Hm in Hk. destruct Hk as (_ & Hk & _). split; [|done].
  cbn [handler_step]. rewrite /forward_to_sdk. run_method. by rewrite Hs Hm take_ge.
Qed.










End Invariant.

(** *** Schedules *)

Section Schedules.
Context `{net : NetEnv}.
Context (universe : list packet) (base : list (list Z)) (s0 : TaifexSdk).
Context (Hframes : ∀ p, p ∈ universe → is_frame (pkt_header p) (pkt_bytes p)).
Context (Hkeys : ∀ p q, p ∈ universe → q ∈ universe → pkt_key p = pkt_key q → pkt_header p = pkt_header q).
Context (Hinit : initialized_ s0 = true).





End Schedules.


(** *** The size of the log *)

Section LogSize.
Context `{net : NetEnv}.

Lemma length_map_put (log : list (Z * Z)) k v : (length (map_put Z.ltb log k v) ≤ S (length log))%nat.
Proof.
  induction log as [|[k' v'] log IH]; cbn; [lia|]. destruct (k <? k'); [cbn; lia|].
  destruct (k =? k'); cbn; lia.
Qed.

Lemma length_pruned m W :
  (length (deduplication_log_ m) ≤ window_size m + S W)%nat →
  (length (deduplication_log_ (pruned m)) ≤ window_size m + W)%nat.
Proof.
  intros Hl. rewrite /pruned. destruct (_ <? _)%nat eqn:E; bool_to_prop; [|lia].
  cbn [deduplication_log_ set_log]. rewrite /map_erase_begin.
  destruct (deduplication_log_ m); cbn in *; lia.
Qed.

Definition log_bounded (m : NetworkManager) (n : nat) : Prop :=
  (length (deduplication_log_ m) ≤ window_size m + n)%nat.

(** What a step does to the log, whatever the bytes of the packet. *)
Lemma handler_step_log h ps m n :
  log_bounded m (n + noted_now (mkThread h ps)) →
  let '(m', r) := handler_step h m in
  window_size m' = window_size m
  ∧ log_bounded m' (n + match r with Ok h' => noted_now (mkThread h' ps) | _ => noted_now (mkThread h ps) end).
Proof.
  rewrite /log_bounded. destruct h as [p|p key now|p key now|p|p|]; cbn [noted_now current]; intros Hl.
  - cbn [handler_step]. run_method. destruct (_ || _); [done|].
    destruct (CommonHeader_parse _ _ _) as [[[] hd]| |]; [|done..]. cbn [negb].
    destruct (getChannelId hd) as [c| |]; [|done..]. destruct (getChannelSeq hd) as [q| |]; [|done..].
    destruct (_ && _); [|done]. rewrite /steady_now. run_method. done.
  - rewrite looking_eq. by destruct (map_get _ _).
  - cbn [handler_step]. run_method. split; [done|]. cbn [deduplication_log_ set_log].
    pose proof (length_map_put (deduplication_log_ m) key now).
    change (window_size (set_log m (map_put Z.ltb (deduplication_log_ m) key now))) with (window_size m).
    cbn [noted_now current]. lia.
  - rewrite pruning_eq. have Ew : window_size (pruned m) = window_size m.
    { rewrite /pruned. by destruct (_ <? _)%nat. }
    split; [done|]. rewrite Ew. apply length_pruned. lia.
  - cbn [handler_step]. rewrite /forward_to_sdk. run_method. destruct (sdk_core_logic_ m) as [s|]; [|done].
    by destruct (process_message _ _ s) as [s' []].
  - done.
Qed.

Lemma thread_step_handler s i h ps :
  threads s !! i = Some (mkThread h ps) → h ≠ Returned →
  thread_step i s =
  match handler_step h (shared s) with
  | (m, Ok h') => (mkSystem m (<[i := mkThread h' ps]> (threads s)), Ok tt)
  | (m, Throw e) => (mkSystem m (threads s), Throw e)
  | (m, Undefined) => (mkSystem m (threads s), Undefined)
  end.
Proof. intros Hi Hh. rewrite /thread_step Hi. by destruct h, ps. Qed.

Lemma thread_step_log s i :
  log_bounded (shared s) (noted s) →
  let s' := (thread_step i s).1 in
  window_size (shared s') = window_size (shared s) ∧ log_bounded (shared s') (noted s').
Proof.
  intros Hl. destruct (threads s !! i) as [[h ps]|] eqn:Hi; [|by rewrite /thread_step Hi].
  have Hsum := λ t', sum_insert noted_now (threads s) i t' _ Hi.
  have Hle : ∃ n, noted s = (n + noted_now (mkThread h ps))%nat.
  { exists (noted s - noted_now (mkThread h ps))%nat. specialize (Hsum (mkThread Returned [])).
    rewrite /noted. change (noted_now (mkThread Returned [])) with 0%nat in Hsum. lia. }
  destruct Hle as [n En].
  have Hins : ∀ m t', noted (mkSystem m (<[i := t']> (threads s))) = (n + noted_now t')%nat.
  { intros m t'. specialize (Hsum t'). rewrite /noted in En |- *. cbn [threads]. lia. }
  destruct (decide (h = Returned)) as [->|Hne].
  - rewrite /thread_step Hi. cbn [current pending]. destruct ps as [|p ps]; [done|].
    cbn [fst]. split; [done|]. rewrite Hins. by rewrite En in Hl.
  - rewrite (thread_step_handler s i h ps Hi Hne).
    pose proof (handler_step_log h ps (shared s) n) as Hh. rewrite -En in Hh. specialize (Hh Hl).
    destruct (handler_step h (shared s)) as [m' [h'|e|]]; cbn [fst shared]; [by rewrite Hins|..];
      rewrite -En // in Hh.
Qed.

Lemma run_schedule_log schedule s :
  log_bounded (shared s) (noted s) →
  let s' := (run_schedule schedule s).1 in
  window_size (shared s') = window_size (shared s) ∧ log_bounded (shared s') (noted s').
Proof.
  revert s. induction schedule as [|i schedule IH]; intros s Hl; [done|].
  cbn [run_schedule]. rewrite /mbind /method_bind. pose proof (thread_step_log s i Hl) as H1. cbv zeta in H1.
  destruct (thread_step i s) as [s1 [[]|e|]]; cbn [fst] in *; [|done..].
  destruct H1 as [E1 H1]. rewrite -E1. by apply IH.
Qed.

Lemma thread_step_threads i s : length (threads (thread_step i s).1) = length (threads s).
Proof.
  rewrite /thread_step. destruct (threads s !! i) as [[h ps]|]; [|done]. cbn [current pending].
  destruct (handler_step h (shared s)) as [m' [h'|e|]] eqn:E;
    destruct h, ps; rewrite ?E //; cbn [fst threads]; by rewrite length_insert.
Qed.

Lemma run_schedule_threads schedule s :
  length (threads (run_schedule schedule s).1) = length (threads s).
Proof.
  revert s. induction schedule as [|i schedule IH]; intros s; [done|].
  cbn [run_schedule]. rewrite /mbind /method_bind. pose proof (thread_step_threads i s) as H1.
  destruct (thread_step i s) as [s1 [[]|e|]]; cbn [fst] in *; [by rewrite IH|done..].
Qed.

Lemma noted_le s : (noted s ≤ length (threads s))%nat.
Proof.
  rewrite /noted. induction (threads s) as [|t ts IH]; [done|]. cbn.
  have : (noted_now t ≤ 1)%nat by rewrite /noted_now; destruct (current t); lia. lia.
Qed.

Lemma quiescent_noted s : quiescent s → noted s = 0%nat.
Proof.
  rewrite /quiescent /noted. induction 1 as [|t ts [Ht _] _ IH]; [done|]. cbn. by rewrite IH /noted_now Ht.
Qed.

End LogSize.

(** *** Two threads *)

Section Race.
Context `{net : NetEnv}.

Lemma step_first m m' h h' ps t :
  h ≠ Returned → handler_step h m = (m', Ok h') →
  thread_step 0 (mkSystem m [mkThread h ps; t]) = (mkSystem m' [mkThread h' ps; t], Ok tt).
Proof. intros Hh E. rewrite (thread_step_handler _ 0 h ps) //. by rewrite E. Qed.

Lemma step_second m m' h h' ps t :
  h ≠ Returned → handler_step h m = (m', Ok h') →
  thread_step 1 (mkSystem m [t; mkThread h ps]) = (mkSystem m' [t; mkThread h' ps], Ok tt).
Proof. intros Hh E. rewrite (thread_step_handler _ 1 h ps) //. by rewrite E. Qed.

Lemma take_first m p t :
  thread_step 0 (mkSystem m [mkThread Returned [p]; t]) = (mkSystem m [mkThread (Entered p) []; t], Ok tt).
Proof. done. Qed.
Lemma take_second m p t :
  thread_step 1 (mkSystem m [t; mkThread Returned [p]]) = (mkSystem m [t; mkThread (Entered p) []], Ok tt).
Proof. done. Qed.

Lemma noting_eq p key now m :
  handler_step (Noting p key now) m
  = (set_log m (map_put Z.ltb (deduplication_log_ m) key now), Ok (Pruning p)).
Proof. done. Qed.

(** Nothing is pruned while the log holds a single entry. *)
Lemma pruned_single m kv :
  multicast_feeds (config_ m) ≠ [] → deduplication_log_ m = [kv] → pruned m = m.
Proof.
  intros Hf Hl. rewrite /pruned Hl. rewrite (proj2 (Nat.ltb_ge _ _)) //.
  rewrite /window_size /DEDUPLICATION_WINDOW_SIZE. destruct (multicast_feeds (config_ m)); [done|].
  cbn [length]. lia.
Qed.

Lemma map_put_twice (k v v' : Z) : map_put Z.ltb [(k, v)] k v' = [(k, v')].
Proof. cbn. by rewrite Z.ltb_irrefl Z.eqb_refl. Qed.

Lemma run_cons i schedule s s' r :
  thread_step i s = (s', Ok tt) → run_schedule schedule s' = r → run_schedule (i :: schedule) s = r.
Proof. intros E <-. cbn [run_schedule]. by rewrite (method_bind_Ok _ _ _ _ _ E). Qed.

End Race.

Ltac sched lem := eapply run_cons; [apply lem; [done|]|].

(** The packet of the first thread up to the deduplication log. *)
Section Copies.
Context `{net : NetEnv}.
Context (m : NetworkManager) (s : TaifexSdk) (p q : packet).
Context (Hm : receiving m s) (Hi : initialized_ s = true) (Hlog : deduplication_log_ m = []).
Context (Hfeeds : multicast_feeds (config_ m) ≠ []).
Context (Hp : is_frame (pkt_header p) (pkt_bytes p)) (Hq : is_frame (pkt_header q) (pkt_bytes q)).
Context (Hpr : pkt_retransmitted p = false) (Hqr : pkt_retransmitted q = false).
Context (Hpq : pkt_header p = pkt_header q).

(** [n] readings of the clock later. *)
Definition later (n : nat) : NetworkManager := Nat.iter n now_tick m.
(** The log has the key of the packet. *)
Definition noted_at (n : nat) (now : Z) : NetworkManager := set_log (later n) [(pkt_key p, now)].

Lemma copy_entered n x :
  x = p ∨ x = q →
  handler_step (Entered x) (later n)
  = (later (S n), Ok (Looking x (pkt_key p) (net_now (now_ticks (later n))))).
Proof.
  destruct Hm as (Hr & Hs & Hd & _). intros Hx.
  have Hsame : running_ (later n) = running_ m ∧ sdk_core_logic_ (later n) = sdk_core_logic_ m
               ∧ config_ (later n) = config_ m by induction n.
  destruct Hsame as (Er & Es & Ec). rewrite (entered_step x (later n) s); [by rewrite Er|by rewrite Es| |].
  - by destruct Hx as [->| ->].
  - rewrite Ec Hd. destruct Hx as [->| ->]; rewrite ?Hpr ?Hqr /pkt_key ?Hpq //.
Qed.

Lemma copy_looking n x now :
  handler_step (Looking x (pkt_key p) now) (later n) = (later n, Ok (Noting x (pkt_key p) now)).
Proof.
  rewrite looking_eq. have -> : deduplication_log_ (later n) = [] by induction n. done.
Qed.

Lemma copy_noting n x now :
  handler_step (Noting x (pkt_key p) now) (later n) = (noted_at n now, Ok (Pruning x)).
Proof. rewrite noting_eq. have -> : deduplication_log_ (later n) = [] by induction n. done. Qed.

Lemma copy_pruning n x now :
  handler_step (Pruning x) (noted_at n now) = (noted_at n now, Ok (Forwarding x)).
Proof.
  rewrite pruning_eq (pruned_single _ (pkt_key p, now)) //. cbn [noted_at set_log config_].
  have -> : config_ (later n) = config_ m by induction n. done.
Qed.

Lemma later_same n : sdk_core_logic_ (later n) = Some s ∧ forwarded (later n) = forwarded m.
Proof. destruct Hm as (_ & <- & _). by induction n. Qed.

(** In lockstep both threads look before either notes. *)
Lemma lockstep_run :
  ∃ sys, run_schedule (mjoin (replicate 6 [0; 1]%nat)) (start_system m [[p]; [q]]) = (sys, Ok tt)
    ∧ quiescent sys ∧ forwarded (shared sys) = forwarded m ++ [pkt_bytes p; pkt_bytes q].
Proof.
  have [_ [_ [_ Hok]]] := Hm. destruct (later_same 2) as [Es Ef]. set t0 := net_now (now_ticks m).
  set t1 := net_now (now_ticks (later 1)).
  destruct (forwarding_step p (noted_at 2 t1) s Es Hok Hi Hp) as [E1 Hok1].
  destruct (forwarding_step q (forward (noted_at 2 t1) (accept s (pkt_header p)) (pkt_bytes p))
    (accept s (pkt_header p)) eq_refl Hok1 Hi Hq) as [E2 _].
  eexists. cbn [replicate mjoin list_join app]. split; [|split].
  - eapply run_cons; [apply take_first|]. eapply run_cons; [apply take_second|].
    sched step_first; [apply (copy_entered 0); by left|]. sched step_second; [apply (copy_entered 1); by right|].
    sched step_first; [apply (copy_looking 2)|]. sched step_second; [apply (copy_looking 2)|].
    sched step_first; [apply (copy_noting 2)|].
    sched step_second; [by rewrite noting_eq /noted_at; cbn [deduplication_log_ set_log]; rewrite map_put_twice|].
    sched step_first; [apply (copy_pruning 2)|]. sched step_second; [apply (copy_pruning 2)|].
    sched step_first; [exact E1|]. sched step_second; [exact E2|]. done.
  - by repeat constructor.
  - transitivity ((forwarded (later 2) ++ [pkt_bytes p]) ++ [pkt_bytes q]); [done|].
    by rewrite -app_assoc Ef.
Qed.

(** One after the other, the second finds the key. *)
Lemma serial_run :
  ∃ sys, run_schedule (replicate 6 0 ++ replicate 6 1)%nat (start_system m [[p]; [q]]) = (sys, Ok tt)
    ∧ quiescent sys ∧ forwarded (shared sys) = forwarded m ++ [pkt_bytes p].
Proof.
  have [Hr [_ [Hd Hok]]] := Hm. destruct (later_same 1) as [Es Ef]. set t0 := net_now (now_ticks m).
  destruct (forwarding_step p (noted_at 1 t0) s Es Hok Hi Hp) as [E1 Hok1].
  set m1 := forward (noted_at 1 t0) (accept s (pkt_header p)) (pkt_bytes p) in E1.
  pose proof (entered_step q m1 (accept s (pkt_header p)) Hr eq_refl Hq) as E2.
  change (config_ m1) with (config_ m) in E2. rewrite Hd Hqr in E2. cbn [negb andb] in E2.
  eexists. cbn [replicate app]. split; [|split].
  - eapply run_cons; [apply take_first|]. sched step_first; [apply (copy_entered 0); by left|].
    sched step_first; [apply (copy_looking 1)|]. sched step_first; [apply (copy_noting 1)|].
    sched step_first; [apply (copy_pruning 1)|]. sched step_first; [exact E1|].
    eapply run_cons; [apply take_second|]. sched step_second; [exact E2|].
    sched step_second.
    { rewrite looking_eq. cbn [now_tick deduplication_log_ m1 forward note_forwarded set_sdk noted_at set_log].
      rewrite /pkt_key Hpq. cbn [map_get]. rewrite Z.eqb_refl. done. }
    do 3 (eapply run_cons; [done|]). done.
  - by repeat constructor.
  - transitivity (forwarded (later 1) ++ [pkt_bytes p]); [done|]. by rewrite Ef.
Qed.

End Copies.

(** ** Properties *)

Section Properties.
Context `{net : NetEnv}.


(** C38: the log stays small under every interleaving: whatever the packets
    (malformed ones included) and whatever the order of the steps, also when a
    step throws, the log exceeds its limit by no more than the number of
    handlers that have noted a key and not yet pruned; with all threads at rest
    it is within the limit. *)
Theorem interleaving_log_bound m arrs schedule
    (Hl : (length (deduplication_log_ m) ≤ window_size m)%nat) :
  let sys := (run_schedule schedule (start_system m arrs)).1 in
  (length (deduplication_log_ (shared sys)) ≤ window_size m + noted sys)%nat
  ∧ (noted sys ≤ length arrs)%nat
  ∧ (quiescent sys → (length (deduplication_log_ (shared sys)) ≤ window_size m)%nat).
Proof.
  intros sys. have H0 : log_bounded (shared (start_system m arrs)) (noted (start_system m arrs)).
  { rewrite /log_bounded. cbn [start_system shared]. lia. }
  destruct (run_schedule_log schedule _ H0) as [Ew Hb]. fold sys in Ew, Hb. cbn [start_system shared] in Ew.
  rewrite /log_bounded Ew in Hb. split; [done|]. split.
  - have <- : length (threads sys) = length arrs by rewrite /sys run_schedule_threads length_fmap.
    apply noted_le.
  - intros Hq. by rewrite (quiescent_noted _ Hq) Nat.add_0_r in Hb.
Qed.

(** C36: the log is read and written without a lock, so suppression is not exact
    between threads: when the two copies of a frame arrive on the two feeds and
    the threads run in lockstep, both look before either notes, and the SDK is
    given both copies; when one handler runs after the other it is given one. *)
Theorem race_forwards_twice m s p q (Hm : receiving m s) (Hi : initialized_ s = true)
    (Hlog : deduplication_log_ m = []) (Hfeeds : multicast_feeds (config_ m) ≠ [])
    (Hp : is_frame (pkt_header p) (pkt_bytes p)) (Hq : is_frame (pkt_header q) (pkt_bytes q))
    (Hpr : pkt_retransmitted p = false) (Hqr : pkt_retransmitted q = false)
    (Hpq : pkt_header p = pkt_header q) :
  (∃ sys, run_schedule (mjoin (replicate 6 [0; 1]%nat)) (start_system m [[p]; [q]]) = (sys, Ok tt)
     ∧ quiescent sys ∧ forwarded (shared sys) = forwarded m ++ [pkt_bytes p; pkt_bytes q])
  ∧ ∃ sys, run_schedule (replicate 6 0 ++ replicate 6 1)%nat (start_system m [[p]; [q]]) = (sys, Ok tt)
     ∧ quiescent sys ∧ forwarded (shared sys) = forwarded m ++ [pkt_bytes p].
Proof. split; [by eapply lockstep_run|by eapply serial_run]. Qed.

End Properties.

(** *** Sample data *)

Definition sample_copy : packet := mkPacket false sample_msg_header sample_packet.
Definition sample_next : packet := mkPacket false sample_header2 sample_packet2.
Definition sample_feeds : list (list packet) := [[sample_copy; sample_next]; [sample_copy; sample_next]].

Lemma sample_copy_frame : is_frame sample_msg_header sample_packet.
Proof. exact (Forall_inv sample_frames). Qed.



Lemma interleaving_log_bound_witness :
  let net : NetEnv := sample_net in
  let sys := (run_schedule [0; 1; 0; 1; 0; 1; 0; 1]%nat (start_system sample_manager sample_feeds)).1 in
  noted sys = 2%nat ∧
  (length (deduplication_log_ (shared sys)) ≤ window_size sample_manager + noted sys)%nat
  ∧ (noted sys ≤ length sample_feeds)%nat
  ∧ (quiescent sys → (length (deduplication_log_ (shared sys)) ≤ window_size sample_manager)%nat).
Proof.
  intros net sys. split; [vm_compute; reflexivity|].
  apply (interleaving_log_bound (net := net) sample_manager sample_feeds). vm_compute. lia.
Defined.

Lemma race_forwards_twice_witness :
  let net : NetEnv := sample_net in
  (∃ sys, run_schedule (mjoin (replicate 6 [0; 1]%nat)) (start_system sample_manager [[sample_copy]; [sample_copy]])
          = (sys, Ok tt)
     ∧ quiescent sys ∧ forwarded (shared sys) = [sample_packet; sample_packet])
  ∧ ∃ sys, run_schedule (replicate 6 0 ++ replicate 6 1)%nat
             (start_system sample_manager [[sample_copy]; [sample_copy]]) = (sys, Ok tt)
     ∧ quiescent sys ∧ forwarded (shared sys) = [sample_packet].
Proof.
  intros net. apply (race_forwards_twice (net := net) sample_manager sdk0 sample_copy sample_copy
    sample_receiving); try reflexivity; try apply sample_copy_frame. discriminate.
Defined.
