(* ===== verification/ClientThreads.v ===== *)
(** * The client's thread against [stop]

    [stop] of the retransmission client is called while the receive loop runs.
    Here the loop is cut into the points at which it reads or writes what the
    two share: the tests of the running flag, the test of the connection, the
    whole of [connect_to_server] and of [perform_login] (one step each), [recv],
    its answer, and the handling of one message of the receive buffer, which is
    a step of its own after the test of the flag.  [stop] is cut into its four
    parts (the exchange of the flag, the closing of the socket, [join], the last
    assignments), and the two interleave between any of these steps.  The
    operating system answers as in [Env]; [recv] always answers, which needs the
    receive timeout of the socket (that [setsockopt] may fail is tolerated by
    the code and not modelled).  [pass_steps] ties the steps of the loop to
    [receive_pass], [stop_steps] those of the stopping thread to [stop]. *)

From S2P Require Import Prelude CppStd PackBcd CommonHeader EndianUtils RetransmissionProtocol RetransmissionCodec.
From S2P Require Import RetransmissionClient ClientFraming ClientLink TaifexSdk MulticastReceiver NetworkManager NetworkLifecycle NetworkEvents.

Abbreviation running_ := RetransmissionClient.running_.
Abbreviation receive_pass := RetransmissionClient.receive_pass.

(** ** Definitions *)

(** Where the client's thread is in [receive_loop]. *)
Inductive pass_point : Type :=
| AtLoop                       (** before [while (running_)] *)
| AtLink                       (** before the test of the connection *)
| AtRunning                    (** before the second test of [running_] *)
| AtConnect                    (** in the pause before [connect_to_server] *)
| AtLogin                      (** before [perform_login] *)
| AtSocket                     (** before the test of the socket *)
| AtRecv                       (** before [recv] *)
| AtAnswer (r : recv_result)   (** after [recv] *)
| AtBuffer                     (** before the test of [running_] and of the receive buffer *)
| AtFront                      (** after that test, before the message at the front is handled *)
| Left.                        (** the loop has ended *)

(** Where the thread that calls [stop] is. *)
Inductive stop_point : Type := Signalling | Closing | Joining | Finishing | Stopped.

Inductive actor : Type := Loop | Stopper.

Record client_system : Type := mkClientSystem {
  client : RetransmissionClient;
  point : pass_point;
  stopper : stop_point;
}.

Section Steps.
Context `{env : Env}.

(** The next step of the receive loop. *)
Definition pass_step (p : pass_point) : method RetransmissionClient pass_point :=
  c ← get;
  match p with
  | AtLoop => mret (if running_ c then AtLink else Left)
  | AtLink => mret (if negb (connected_ c) || (socket_fd_ c <? 0) then AtRunning else AtSocket)
  | AtRunning => mret (if running_ c then AtConnect else Left)
  | AtConnect => up ← connect_to_server; mret (if up : bool then AtLogin else AtLoop)
  | AtLogin => perform_login;; mret AtSocket
  | AtSocket => mret (if socket_fd_ c <? 0 then AtLoop else AtRecv)
  | AtRecv =>
      if socket_fd_ c <? 0 then mret (AtAnswer Interrupted) else r ← ask env_recv; mret (AtAnswer r)
  | AtAnswer (Received data) =>
      modify (λ c, set_buffer c (tcp_receive_buffer_ c ++ data));; mret AtBuffer
  | AtAnswer r => go ← received r; mret (if go : bool then AtLoop else Left)
  | AtBuffer =>
      match tcp_receive_buffer_ c with
      | [] => mret AtLoop
      | b0 :: _ =>
          if negb (running_ c) then mret AtLoop else mret AtFront
      end
  | AtFront =>
      match tcp_receive_buffer_ c with
      | [] => mret AtLoop
      | b0 :: _ => go ← process_front b0; mret (if go : bool then AtBuffer else AtLoop)
      end
  | Left => mret Left
  end.

Fixpoint pass_run (n : nat) (p : pass_point) : method RetransmissionClient pass_point :=
  match n with O => mret p | S n => p' ← pass_step p; pass_run n p' end.

End Steps.

(** The next step of [stop] on a thread other than the client's; [join] waits
    until the loop has ended. *)
Definition stop_step (s : client_system) : client_system :=
  let c := client s in
  match stopper s with
  | Signalling =>
      if running_ c then mkClientSystem (set_running c false (client_thread_ c)) (point s) Closing
      else mkClientSystem c (point s) Stopped
  | Closing =>
      mkClientSystem (set_link c (if 0 <=? socket_fd_ c then -1 else socket_fd_ c)
                        (connected_ c) (logged_in_ c)) (point s) Joining
  | Joining =>
      if client_thread_ c then
        match point s with
        | Left => mkClientSystem (set_running c (running_ c) false) Left Finishing
        | _ => s
        end
      else mkClientSystem c (point s) Finishing
  | Finishing => mkClientSystem (set_link c (socket_fd_ c) false false) (point s) Stopped
  | Stopped => s
  end.

Section System.
Context `{env : Env}.

Definition system_step (a : actor) : method client_system unit :=
  λ s,
    match a with
    | Loop =>
        match pass_step (point s) (client s) with
        | (c, Ok p) => (mkClientSystem c p (stopper s), Ok tt)
        | (c, Throw e) => (mkClientSystem c (point s) (stopper s), Throw e)
        | (c, Undefined) => (mkClientSystem c (point s) (stopper s), Undefined)
        end
    | Stopper => (stop_step s, Ok tt)
    end.

Fixpoint interleave (actors : list actor) : method client_system unit :=
  match actors with
  | [] => mret tt
  | a :: actors => system_step a;; interleave actors
  end.

End System.

#[export] Instance stop_point_eq_dec : EqDecision stop_point.
Proof. solve_decision. Defined.
#[export] Instance actor_eq_dec : EqDecision actor.
Proof. solve_decision. Defined.

(** How far the loop is from its end once [running_] is false. *)
Definition steps_left (p : pass_point) : nat :=
  match p with
  | Left => 0
  | AtLoop | AtRunning => 1
  | AtBuffer => 2
  | AtAnswer _ | AtFront => 3
  | AtRecv => 4
  | AtSocket => 5
  | AtLogin | AtLink => 6
  | AtConnect => 7
  end.

(** *** What an ending loop still does *)

(** Events that hand something of the server's on, and reports of a lost
    connection. *)
Definition hands_on (e : event) : bool :=
  match e with MarketData _ | Status _ _ | ErrorNotified _ | LoggedIn => true | _ => false end.
Definition reports_loss (e : event) : bool := match e with Disconnected => true | _ => false end.
Definition handed (es : list event) : nat := length (filter (λ e, hands_on e = true) es).
Definition losses (es : list event) : nat := length (filter (λ e, reports_loss e = true) es).

(** A login of the client, or an answer to a server heartbeat. *)
Definition last_message `{env : Env} (c : RetransmissionClient) (msg : list Z) : Prop :=
  (∃ code time, msg = encode (W := wire020 (password_ c)) (login_request c code time))
  ∨ ∃ seq time, msg = encode (mk105 (mkHeader 0 0 seq time) (mkFooter 0)).

(** How many events of each kind the loop may still produce from a point on,
    once [running_] is false; the last number counts messages sent. *)
Record allowance : Type := Allow { may_hand : nat; may_lose : nat; may_send : nat }.

Definition allowed (p : pass_point) (c : RetransmissionClient) : allowance :=
  let link := if socket_fd_ c <? 0 then 0%nat else 1%nat in
  match p with
  | AtFront => Allow 1 1 1
  | AtConnect | AtLogin => Allow 0 1 1
  | AtLink => Allow 0 1 0
  | AtSocket | AtRecv => Allow 0 link 0
  | AtAnswer (PeerClosed | RecvError) => Allow 0 1 0
  | _ => Allow 0 0 0
  end.

(** ** Lemmas *)

(** *** The steps are those of a pass *)

Section PassSteps.
Context `{env : Env}.

Lemma pass_run_add a b p p1 c c1 :
  pass_run a p c = (c1, Ok p1) → pass_run (a + b) p c = pass_run b p1 c1.
Proof.
  revert p c. induction a as [|a IH]; intros p c.
  - by intros [= -> ->].
  - cbn [pass_run Nat.add]. rewrite /mbind /method_bind.
    destruct (pass_step p c) as [c2 [p2|e|]]; [apply IH|done..].
Qed.

Lemma pass_run_S n p c c1 p1 r :
  pass_step p c = (c1, Ok p1) → pass_run n p1 c1 = r → pass_run (S n) p c = r.
Proof. intros E <-. cbn [pass_run]. by rewrite (method_bind_Ok _ _ _ _ _ E). Qed.

(** The result of a pass, as a point of the loop. *)
Definition to_point {A} (f : A → pass_point) (r : RetransmissionClient * result A)
    : RetransmissionClient * result pass_point :=
  (r.1, match r.2 with Ok a => Ok (f a) | Throw e => Throw e | Undefined => Undefined end).
Lemma to_point_bind {A} (m : method RetransmissionClient A) (f : A → pass_point) c :
  (m ≫= λ a, mret (f a)) c = to_point f (m c).
Proof. rewrite /mbind /method_bind. by destruct (m c) as [c1 [| |]]. Qed.
Definition after_pass (go : bool) : pass_point := if go then AtLoop else Left.

Lemma pass_run_1 p c : pass_run 1 p c = pass_step p c.
Proof. cbn [pass_run]. rewrite /mbind /method_bind. by destruct (pass_step p c) as [c1 [| |]]. Qed.

Lemma connect_step c :
  pass_step AtConnect c = to_point (λ up : bool, if up then AtLogin else AtLoop) (connect_to_server c).
Proof. by rewrite -to_point_bind. Qed.
Lemma login_step c : pass_step AtLogin c = to_point (λ _, AtSocket) (perform_login c).
Proof. by rewrite -to_point_bind. Qed.
Lemma answer_step r c :
  (∀ data, r ≠ Received data) → pass_step (AtAnswer r) c = to_point after_pass (received r c).
Proof. intros Hr. rewrite -to_point_bind. destruct r; [by destruct (Hr data)|done..]. Qed.

Lemma front_step b0 l c :
  tcp_receive_buffer_ c = b0 :: l →
  pass_step AtFront c = to_point (λ go : bool, if go then AtBuffer else AtLoop) (process_front b0 c).
Proof. intros El. rewrite -to_point_bind /pass_step. run_method. by rewrite El. Qed.

Lemma buffer_steps fuel c :
  (process_loop fuel c).2 ≠ Undefined →
  ∃ n, pass_run n AtBuffer c = to_point (λ _, AtLoop) (process_loop fuel c).
Proof.
  revert c. induction fuel as [|fuel IH]; intros c; cbn [process_loop]; run_method;
    (destruct (tcp_receive_buffer_ c) as [|b0 l] eqn:El;
       [by exists 1%nat; rewrite pass_run_1 /pass_step; run_method; rewrite El|]);
    (destruct (negb (running_ c)) eqn:Er;
       [by exists 1%nat; rewrite pass_run_1 /pass_step; run_method; rewrite El Er|]); [done|].
  have E1 : pass_step AtBuffer c = (c, Ok AtFront) by rewrite /pass_step; run_method; rewrite El Er.
  have Es := front_step b0 l c El.
  destruct (process_front b0 c) as [c1 [[]|e|]]; intros H;
    try (exists 2%nat; eapply pass_run_S; [exact E1|]; by rewrite pass_run_1 Es).
  destruct (IH c1 H) as [n En]. exists (S (S n)). eapply pass_run_S; [exact E1|].
  eapply pass_run_S; [exact Es|]. exact En.
Qed.

(** From the test of the socket on. *)
Definition pass_tail : method RetransmissionClient bool :=
  c ← get;
  if socket_fd_ c <? 0 then mret true else r ← ask env_recv; received r.

Lemma tail_steps c :
  (pass_tail c).2 ≠ Undefined → ∃ n, pass_run n AtSocket c = to_point after_pass (pass_tail c).
Proof.
  rewrite /pass_tail. run_method. destruct (socket_fd_ c <? 0) eqn:Efd; intros H.
  { exists 1%nat. rewrite pass_run_1 /pass_step. run_method. by rewrite Efd. }
  have E2 : pass_run 2 AtSocket c = (tick c, Ok (AtAnswer (env_recv (ticks c)))).
  { eapply (pass_run_S 1 _ _ c AtRecv); [by rewrite /pass_step; run_method; rewrite Efd|].
    rewrite pass_run_1 /pass_step /ask. run_method. by rewrite Efd. }
  rewrite /ask in H |- *. revert H. run_method. intros H.
  have Hn : ∀ r, env_recv (ticks c) = r → (∀ data, r ≠ Received data) →
    pass_run 3 AtSocket c = to_point after_pass (received r (tick c)).
  { intros r Er Hr. by rewrite (pass_run_add 2 1 _ _ _ _ E2) pass_run_1 Er answer_step. }
  destruct (env_recv (ticks c)) as [data| | | |] eqn:Er; try (exists 3%nat; by apply Hn).
  revert H. cbn [received]. run_method. rewrite process_incoming_eq. set c1 := add (tick c) data.
  set fuel := length (tcp_receive_buffer_ c1). intros H. destruct (buffer_steps fuel c1) as [n En].
  { by destruct (process_loop fuel c1) as [c2 [| |]]. }
  exists (2 + S n)%nat. rewrite (pass_run_add _ _ _ _ _ _ E2). eapply pass_run_S; [done|].
  rewrite -/c1 En. by destruct (process_loop fuel c1) as [c2 [| |]].
Qed.

(** The steps of the loop from its head to its head, or to its end, are
    [receive_pass]. *)
Lemma pass_steps c :
  (receive_pass c).2 ≠ Undefined → ∃ n, pass_run n AtLoop c = to_point after_pass (receive_pass c).
Proof.
  rewrite /RetransmissionClient.receive_pass. run_method. destruct (running_ c) eqn:Er; cbn [negb]; intros H.
  2: { exists 1%nat. rewrite pass_run_1 /pass_step. run_method. by rewrite Er. }
  have E1 : pass_run 1 AtLoop c = (c, Ok AtLink) by rewrite pass_run_1 /pass_step; run_method; rewrite Er.
  destruct (negb (connected_ c) || (socket_fd_ c <? 0)) eqn:El; last first.
  { destruct (tail_steps c H) as [n En]. exists (1 + S n)%nat. rewrite (pass_run_add _ _ _ _ _ _ E1).
    eapply pass_run_S; [|exact En]. rewrite /pass_step. run_method. by rewrite El. }
  have E3 : pass_run 3 AtLoop c = (c, Ok AtConnect).
  { rewrite (pass_run_add 1 2 _ _ _ _ E1). eapply pass_run_S; [by rewrite /pass_step; run_method; rewrite El|].
    rewrite pass_run_1 /pass_step. run_method. by rewrite Er. }
  destruct (connect_to_server c) as [c1 r1] eqn:Ec.
  have E4 := connect_step c. rewrite Ec in E4.
  destruct r1 as [[]|e|]; [|by exists (3 + 1)%nat; rewrite (pass_run_add _ _ _ _ _ _ E3) pass_run_1 E4..|done].
  cbn [negb] in H |- *. destruct (perform_login c1) as [c2 r2] eqn:Ep.
  have E5 := login_step c1. rewrite Ep in E5.
  destruct r2 as [b|e|]; [| |done].
  - destruct (tail_steps c2 H) as [n En]. exists (3 + S (S n))%nat. rewrite (pass_run_add _ _ _ _ _ _ E3).
    eapply pass_run_S; [exact E4|]. eapply pass_run_S; [exact E5|]. exact En.
  - exists (3 + S 1)%nat. rewrite (pass_run_add _ _ _ _ _ _ E3). eapply pass_run_S; [exact E4|].
    by rewrite pass_run_1 E5.
Qed.

End PassSteps.

(** [stop] uninterrupted, once the loop has ended. *)
Lemma stop_steps c p :
  running_ c = true → p = Left ∨ client_thread_ c = false →
  Nat.iter 4 stop_step (mkClientSystem c p Signalling)
  = mkClientSystem (RetransmissionClient.stop OtherThread c).1 p Stopped
  ∧ (RetransmissionClient.stop OtherThread c).2 = Ok tt.
Proof.
  intros Hr Hp. rewrite /RetransmissionClient.stop. run_method. rewrite Hr. cbn [negb].
  cbn [Nat.iter nat_rect stop_step stopper client]. rewrite Hr. cbn [stop_step stopper client point].
  cbn [client_thread_ set_link set_running]. destruct (client_thread_ c) eqn:Et.
  - by destruct Hp as [->|?].
  - done.
Qed.

(** *** The end of the loop *)

(** A method that starts and stops nothing and keeps the login data. *)
Class Lasting {A} (m : method RetransmissionClient A) : Prop :=
  lasting c : flags (m c).1 = flags c ∧ (seq_ok c → seq_ok (m c).1).

Section Lasting.
Context `{env : Env}.

#[export] Instance lasting_ret {A} (a : A) : Lasting (mret a).
Proof. done. Qed.
#[export] Instance lasting_lift {A} (r : result A) : Lasting (lift r).
Proof. done. Qed.
#[export] Instance lasting_bind {A B} (m : method RetransmissionClient A)
    (f : A → method RetransmissionClient B) : Lasting m → (∀ a, Lasting (f a)) → Lasting (m ≫= f).
Proof.
  intros Hm Hf c. rewrite /mbind /method_bind. have := Hm c.
  destruct (m c) as [c' [a| |]]; [|done..]. cbn [fst]. intros [<- Hq].
  destruct (Hf a c') as [E' Hq']. by split; [|auto].
Qed.
Lemma lasting_get {B} (f : RetransmissionClient → method RetransmissionClient B) :
  (∀ c, Lasting (f c)) → Lasting (get ≫= f).
Proof. intros Hf c. by apply Hf. Qed.
Lemma lasting_modify f : (∀ c, flags (f c) = flags c ∧ (seq_ok c → seq_ok (f c))) → Lasting (modify f).
Proof. done. Qed.
#[export] Instance lasting_link fd conn logged : Lasting (modify (λ c, set_link c fd conn logged)).
Proof. by apply lasting_modify. Qed.
#[export] Instance lasting_ask {A} (answer : nat → A) : Lasting (ask answer).
Proof. done. Qed.
#[export] Instance lasting_callback cb e : Lasting (callback cb e).
Proof. apply lasting_modify. intros c. by case_bool. Qed.
#[export] Instance lasting_erase n : Lasting (erase_front n).
Proof. by apply lasting_modify. Qed.
#[export] Instance lasting_drop_link : Lasting drop_link.
Proof. apply _. Qed.
#[export] Instance lasting_next_seq : Lasting next_seq_num.
Proof.
  apply lasting_get. intros c. apply lasting_bind; [|apply _]. apply lasting_modify. intros c'.
  split; [done|]. intros _. apply Z.mod_pos_bound. lia.
Qed.
#[export] Instance lasting_time : Lasting current_time.
Proof. apply _. Qed.
#[export] Instance lasting_send_loop fuel rest : Lasting (send_loop fuel rest).
Proof.
  revert rest. induction fuel as [|fuel IH]; intros [|x rest]; try apply _.
  cbn [send_loop]. apply lasting_bind; [apply _|]. intros r. do 2 (case_bool; [apply _|]).
  apply lasting_bind; [by apply lasting_modify|]. intros _. apply IH.
Qed.
#[export] Instance lasting_send msg : Lasting (send_tcp_message msg).
Proof. apply lasting_get. intros c. case_bool; apply _. Qed.
#[export] Instance lasting_login : Lasting perform_login.
Proof.
  apply lasting_get. intros c. do 2 (case_bool; [apply _|]). apply lasting_bind; [by apply lasting_modify|apply _].
Qed.
#[export] Instance lasting_heartbeat : Lasting send_client_heartbeat.
Proof. apply lasting_get. intros c. case_bool; apply _. Qed.
#[export] Instance lasting_connect : Lasting connect_to_server.
Proof.
  apply lasting_get. intros c. case_bool; [apply _|]. apply lasting_bind; [by apply lasting_modify|]. intros _.
  apply lasting_bind; [apply _|]. intros fd. apply lasting_bind; [apply _|]. intros _.
  repeat (case_bool; [apply _|]). apply lasting_bind; [apply _|]. intros r. case_bool; apply _.
Qed.
#[export] Instance lasting_effect mem n : Lasting (protocol_effect mem n).
Proof.
  rewrite /protocol_effect. cbv zeta. destruct (_ =? 50).
  { destruct (decode _ _); [|apply _]. apply lasting_bind; [by apply lasting_modify|apply _]. }
  destruct (_ =? 102); [by destruct (decode102 _ _) as [[m d]|]; apply _|].
  destruct (_ =? 104); [by destruct (decode _ _); apply _|].
  destruct (_ =? 10); [|apply _]. destruct (decode _ _); [|apply _].
  apply lasting_bind; [apply _|]. intros _. by apply lasting_modify.
Qed.
#[export] Instance lasting_deliver it buf : Lasting (deliver it buf).
Proof. destruct it; simpl; try apply _. case_bool; apply _. Qed.

End Lasting.

Section Ending.
Context `{env : Env}.

(** *** The accounts *)

Lemma handed_app es es' : handed (es ++ es') = (handed es + handed es')%nat.
Proof. by rewrite /handed filter_app length_app. Qed.
Lemma losses_app es es' : losses (es ++ es') = (losses es + losses es')%nat.
Proof. by rewrite /losses filter_app length_app. Qed.
Lemma sent_bytes_app es es' : sent_bytes (es ++ es') = sent_bytes es ++ sent_bytes es'.
Proof. by rewrite /sent_bytes omap_app concat_app. Qed.

(** The events [es] are paid from [a], of which [a'] is left. *)
Definition paid (c : RetransmissionClient) (es : list event) (a a' : allowance) : Prop :=
  (handed es + may_hand a' ≤ may_hand a)%nat ∧ (losses es + may_lose a' ≤ may_lose a)%nat
  ∧ (sent_bytes es = [] ∧ (may_send a' ≤ may_send a)%nat
     ∨ may_send a' = 0%nat ∧ (1 ≤ may_send a)%nat ∧ ∃ msg, last_message c msg ∧ sent_bytes es `prefix_of` msg).

(** From [c] to [c'] the client has done what it may do. *)
Definition spends (c c' : RetransmissionClient) (a a' : allowance) : Prop :=
  session_id_ c' = session_id_ c ∧ password_ c' = password_ c
  ∧ ∃ es, trace c' = trace c ++ es ∧ paid c es a a'.

Lemma spends_nothing c c' a a' :
  session_id_ c' = session_id_ c → password_ c' = password_ c → trace c' = trace c →
  (may_hand a' ≤ may_hand a)%nat → (may_lose a' ≤ may_lose a)%nat → (may_send a' ≤ may_send a)%nat →
  spends c c' a a'.
Proof.
  intros Es Ep Et ???. split; [done|]. split; [done|]. exists []. rewrite app_nil_r. split; [done|].
  split; [done|]. split; [done|]. by left.
Qed.

Lemma last_message_same c c' msg :
  session_id_ c' = session_id_ c → password_ c' = password_ c → last_message c' msg → last_message c msg.
Proof. intros Es Ep. by rewrite /last_message /login_request Es Ep. Qed.

Lemma spends_trans c1 c2 c3 a1 a2 a3 :
  spends c1 c2 a1 a2 → spends c2 c3 a2 a3 → spends c1 c3 a1 a3.
Proof.
  intros (Es & Ep & es & Et & Hh & Hl & Hs) (Es' & Ep' & es' & Et' & Hh' & Hl' & Hs').
  split; [congruence|]. split; [congruence|]. exists (es ++ es'). rewrite Et' Et app_assoc. split; [done|].
  rewrite /paid handed_app losses_app sent_bytes_app. split; [lia|]. split; [lia|].
  destruct Hs as [[E Hle]|(H0 & H1 & msg & Hm & Hp)], Hs' as [[E' Hle']|(H0' & H1' & msg' & Hm' & Hp')].
  - left. rewrite E E'. split; [done|lia].
  - right. split; [done|]. split; [lia|]. exists msg'. rewrite E. split; [by eapply last_message_same|done].
  - right. split; [lia|]. split; [done|]. exists msg. by rewrite E' app_nil_r.
  - lia.
Qed.

Lemma lasting_login_data {A} (m : method RetransmissionClient A) `{!Lasting m} c :
  session_id_ (m c).1 = session_id_ c ∧ password_ (m c).1 = password_ c.
Proof. by destruct (lasting (m := m) c) as [[= _ _ _ _ -> ->] _]. Qed.

(** *** The methods of the loop *)

Lemma connect_result c : ∃ c' b, connect_to_server c = (c', Ok b) ∧ trace c' = trace c.
Proof. rewrite /connect_to_server /ask. run_method. repeat case_bool; by eauto. Qed.

Lemma drop_link_result c :
  ∃ c' es, drop_link c = (c', Ok tt) ∧ trace c' = trace c ++ es ∧ handed es = 0%nat
    ∧ (losses es ≤ 1)%nat ∧ sent_bytes es = [] ∧ socket_fd_ c' < 0.
Proof.
  rewrite /drop_link /callback. run_method. case_bool.
  - exists (emit (set_link c (-1) false false) Disconnected), [Disconnected]. by split_and!; try done; cbn; lia.
  - exists (set_link c (-1) false false), []. rewrite app_nil_r. by split_and!; try done; cbn; lia.
Qed.

(** A send reports at most one loss, and then the socket is gone. *)
Lemma send_loop_result fuel rest c :
  (length rest ≤ fuel)%nat →
  ∃ c' es, send_loop fuel rest c = (c', Ok tt) ∧ trace c' = trace c ++ es ∧ handed es = 0%nat
    ∧ (losses es + (if (socket_fd_ c' <? 0)%Z then 0 else 1) ≤ 1)%nat ∧ sent_bytes es `prefix_of` rest.
Proof.
  revert rest c. induction fuel as [|fuel IH]; intros [|x rest] c Hf; [|simpl in Hf; lia|..].
  1,2: exists c, []; rewrite app_nil_r; split_and!; try done; case_bool; cbn; lia.
  cbn [send_loop]. rewrite /ask. run_method. set k := env_send _ _.
  destruct (drop_link_result (tick c)) as (cd & ed & Ed & Ht & Hh & Hl & Hs & Hfd).
  have Hdrop : ∃ c' es, drop_link (tick c) = (c', Ok tt) ∧ trace c' = trace c ++ es ∧ handed es = 0%nat
    ∧ (losses es + (if (socket_fd_ c' <? 0)%Z then 0 else 1) ≤ 1)%nat ∧ sent_bytes es `prefix_of` x :: rest.
  { exists cd, ed. rewrite (proj2 (Z.ltb_lt _ _) Hfd) Hs. split_and!; try done; [lia|apply prefix_nil]. }
  destruct (k <? 0) eqn:E1; [done|]. destruct (k =? 0) eqn:E2; [done|]. bool_to_prop.
  set j := Z.to_nat k. set c1 := emit (tick c) (Sent (take j (x :: rest))).
  destruct (IH (drop j (x :: rest)) c1) as (c' & es & -> & Ht' & Hh' & Hl' & Hp).
  { rewrite length_drop. simpl in Hf |- *. lia. }
  exists c', (Sent (take j (x :: rest)) :: es). split_and!; try done.
  - rewrite Ht'. cbn [trace emit c1 tick]. by rewrite -app_assoc.
  - rewrite -{2}(take_drop j (x :: rest)). rewrite /sent_bytes /=. by apply prefix_app.
Qed.

Lemma send_result msg c :
  ∃ c' es, send_tcp_message msg c = (c', Ok tt) ∧ trace c' = trace c ++ es ∧ handed es = 0%nat
    ∧ (losses es + (if (socket_fd_ c' <? 0)%Z then 0 else 1) ≤ 1)%nat ∧ sent_bytes es `prefix_of` msg.
Proof.
  rewrite /send_tcp_message. run_method. destruct (_ || _); [|by apply send_loop_result].
  exists c, []. rewrite app_nil_r. split_and!; try done; [case_bool; cbn; lia|apply prefix_nil].
Qed.

(** What stays true of a client that has been told to stop. *)
Definition ending (c : RetransmissionClient) : Prop :=
  running_ c = false ∧ seq_ok c ∧ credentials_ok (session_id_ c) (password_ c).

Lemma lasting_ending {A} (m : method RetransmissionClient A) `{!Lasting m} c : ending c → ending (m c).1.
Proof.
  intros (Hr & Hq & Hcr). destruct (lasting (m := m) c) as [[= Er _ _ _ Es Ep] Hq'].
  split; [by rewrite Er|]. split; [by apply Hq'|]. by rewrite Es Ep.
Qed.

Lemma login_spends c :
  ending c → ∃ c' b, perform_login c = (c', Ok b) ∧ spends c c' (allowed AtLogin c) (allowed AtSocket c').
Proof.
  intros (_ & Hq & Hs & code & Hcode & Hf).
  pose proof (lasting_login_data perform_login c) as [Es Ep].
  have Hsame : ∀ b, perform_login c = (c, Ok b) →
    ∃ c' b, perform_login c = (c', Ok b) ∧ spends c c' (allowed AtLogin c) (allowed AtSocket c').
  { intros b E. exists c, b. split; [done|]. apply spends_nothing; try done; cbn; [case_bool; lia|lia]. }
  destruct (connected_ c) eqn:Hc; [|by apply (Hsame false); rewrite /perform_login; run_method; rewrite Hc].
  destruct (logged_in_ c) eqn:Hl; [by apply (Hsame true); rewrite /perform_login; run_method; rewrite Hc Hl|].
  rewrite (login_sends c code) // in Es Ep |- *. set msg := encode _ in Es Ep |- *.
  set c1 := set_seq_num _ 1 in Es Ep |- *.
  destruct (send_result msg c1) as (c' & es & E & Ht & Hh & Hlo & Hp).
  rewrite (method_bind_Ok _ _ _ _ _ E) in Es, Ep |- *. exists c', true. split; [done|].
  split; [done|]. split; [done|]. exists es. split; [done|]. split; [cbn; lia|]. split; [done|].
  right. split; [done|]. split; [done|]. exists msg. split; [left; by eexists _, _|done].
Qed.

(** *** The message at the front *)

(** The callbacks of one message, or the answer to a heartbeat. *)
Definition one_message (c c' : RetransmissionClient) : Prop :=
  ∃ es, trace c' = trace c ++ es ∧ (handed es ≤ 1)%nat ∧ (losses es ≤ 1)%nat
    ∧ ∃ msg, last_message c msg ∧ sent_bytes es `prefix_of` msg.

Lemma one_silent c c' es :
  trace c' = trace c ++ es → (handed es ≤ 1)%nat → losses es = 0%nat → sent_bytes es = [] → one_message c c'.
Proof.
  intros Et Hh Hl Hs. exists es. rewrite Hl Hs. split; [done|]. split; [done|]. split; [lia|].
  exists (encode (mk105 (mkHeader 0 0 0 (mkTime 0 0)) (mkFooter 0))). split; [right; by eexists _, _|apply prefix_nil].
Qed.
Lemma one_none c c' : trace c' = trace c → one_message c c'.
Proof. intros Et. apply (one_silent c c' []); [by rewrite app_nil_r|cbn; lia|done..]. Qed.
Lemma one_callback cb e c :
  losses [e] = 0%nat → sent_bytes [e] = [] → one_message c (callback cb e c).1.
Proof.
  intros Hl Hs. rewrite /callback /modify. cbn [fst]. case_bool; [|by apply one_none].
  apply (one_silent c _ [e]); [done| |done..]. rewrite /handed filter_cons. by case_decide; cbn; lia.
Qed.

Lemma one_heartbeat c : seq_ok c → one_message c (send_client_heartbeat c).1.
Proof.
  intros Hq. rewrite /send_client_heartbeat /next_seq_num /current_time /ask. run_method.
  destruct (negb (connected_ c)); [by apply one_none|]. cbn [ticks tick set_seq_num].
  set m := mk105 _ _. have Hm : msg_ok m by split; [|constructor]; apply stamped_ok.
  rewrite (wl_serialize [] m Hm : HeartbeatClient105_serialize [] m = _) app_nil_l.
  set c1 := tick _. destruct (send_result (encode m) c1) as (c' & es & -> & Ht & Hh & Hl & Hp).
  exists es. rewrite Hh. split; [done|]. split; [lia|]. split; [lia|]. exists (encode m).
  split; [right; by eexists _, _|done].
Qed.

Lemma one_effect mem n c : seq_ok c → one_message c (protocol_effect mem n c).1.
Proof.
  intros Hq. rewrite /protocol_effect. cbv zeta. destruct (_ =? 50).
  { destruct (decode _ _); [|by apply one_none]. run_method.
    exact (one_callback logged_in_callback_ LoggedIn (set_link c (socket_fd_ c) (connected_ c) true) eq_refl eq_refl). }
  destruct (_ =? 102); [by destruct (decode102 _ _) as [[m d]|]; [apply one_callback|apply one_none]|].
  destruct (_ =? 104).
  { destruct (decode _ _); [|by apply one_none]. have := one_heartbeat c Hq.
    rewrite /mbind /method_bind. by destruct (send_client_heartbeat c) as [c1 [| |]]. }
  destruct (_ =? 10); [|by apply one_none]. destruct (decode _ _) as [msg|]; [|by apply one_none].
  exact (one_callback error_callback_ (ErrorNotified msg) c eq_refl eq_refl).
Qed.

Lemma one_deliver it buf c : seq_ok c → one_message c (deliver it buf c).1.
Proof.
  intros Hq. destruct it as [| |n|n]; cbn [deliver]; try by apply one_none.
  - by apply one_callback.
  - case_bool; [by apply one_none|by apply one_effect].
Qed.

(** What the loop may find at the front of its buffer: bytes that are not a
    market frame with an invalid length field. *)
Definition front_ok (c : RetransmissionClient) : Prop :=
  Forall is_byte (tcp_receive_buffer_ c) ∧ next_item (tcp_receive_buffer_ c) ≠ Malformed.

Lemma front_spends b0 l c :
  ending c → front_ok c → tcp_receive_buffer_ c = b0 :: l →
  ∃ c' go, process_front b0 c = (c', Ok go) ∧ ending c' ∧ flags c' = flags c
    ∧ spends c c' (Allow 1 1 1) (Allow 0 0 0).
Proof.
  intros He [Hb Hm] El. rewrite (process_front_eq b0 l) //. set buf := tcp_receive_buffer_ c in Hm |- *.
  have Hdel : ∀ it, ∃ c' go, (deliver it buf;; erase_front (item_size it);; mret true) c = (c', Ok go)
    ∧ ending c' ∧ flags c' = flags c ∧ spends c c' (Allow 1 1 1) (Allow 0 0 0).
  { intros it. have [_ [Hq _]] := He. destruct (total (m := deliver it buf) c Hq) as (c1 & [] & E & _).
    pose proof (lasting_ending (deliver it buf) c He) as He1.
    pose proof (lasting (m := deliver it buf) c) as [Ef _].
    have Ho := one_deliver it buf c Hq. rewrite E in He1 Ef Ho. cbn [fst] in *.
    have [= _ _ _ _ Es Ep] := Ef.
    rewrite (method_bind_Ok _ _ _ _ _ E). destruct Ho as (es & Et & Hh & Hl & Hms).
    eexists _, true. do 5 (split; [done|]). exists es. split; [done|].
    split; [cbn; lia|]. split; [cbn; lia|]. by right. }
  destruct (next_item buf) as [| |n|n]; [|done|apply Hdel..].
  exists c, false. do 3 (split; [done|]). by apply spends_nothing; cbn; try lia.
Qed.

(** *** The steps *)

Lemma received_ends r c :
  (∀ data, r ≠ Received data) → ending c →
  ∃ c' go, received r c = (c', Ok go) ∧ ending c' ∧ flags c' = flags c
    ∧ spends c c' (allowed (AtAnswer r) c) (Allow 0 0 0).
Proof.
  intros Hr He. have [Hrun _] := He. pose proof (lasting_ending drop_link c He) as H1.
  pose proof (lasting (m := drop_link) c) as [Ef _].
  destruct (drop_link_result c) as (c' & es & Ed & Et & Hh & Hl & Hs & _).
  rewrite Ed in H1 Ef. cbn [fst] in H1, Ef. have [= _ _ _ _ Es Ep] := Ef.
  have Hd : spends c c' (Allow 0 1 0) (Allow 0 0 0).
  { split; [done|]. split; [done|]. exists es. split; [done|]. split; [cbn; lia|]. split; [cbn; lia|]. by left. }
  have Hid : spends c c (Allow 0 0 0) (Allow 0 0 0) by apply spends_nothing.
  destruct r as [data| | | |]; cbn [received allowed]; run_method.
  - by destruct (Hr data).
  - rewrite Ed. by exists c', true.
  - by exists c, (running_ c).
  - rewrite Hrun. cbn [negb]. by exists c, false.
  - rewrite Ed. by exists c', true.
Qed.

(** A step that brings the end closer. *)
Definition closer (p : pass_point) (c : RetransmissionClient) : Prop :=
  ∃ c' p', pass_step p c = (c', Ok p') ∧ ending c' ∧ flags c' = flags c ∧ p' ≠ AtFront
    ∧ spends c c' (allowed p c) (allowed p' c')
    ∧ (steps_left p' ≤ pred (steps_left p))%nat.

(** A step of the allowance of which nothing is used. *)
Definition lowers (a a' : allowance) : bool :=
  (may_hand a' <=? may_hand a)%nat && (may_lose a' <=? may_lose a)%nat && (may_send a' <=? may_send a)%nat.

Lemma lowers_spends c c' a a' :
  session_id_ c' = session_id_ c → password_ c' = password_ c → trace c' = trace c →
  lowers a a' = true → spends c c' a a'.
Proof.
  intros Es Ep Et [[H1 H2]%andb_prop H3]%andb_prop. by apply spends_nothing; try done; apply Nat.leb_le.
Qed.

Lemma closer_stay p p' c :
  ending c → pass_step p c = (c, Ok p') → p' ≠ AtFront → lowers (allowed p c) (allowed p' c) = true →
  (steps_left p' ≤ pred (steps_left p))%nat → closer p c.
Proof.
  intros He E Hp Ha Hle. exists c, p'. do 4 (split; [done|]). split; [by apply lowers_spends|done].
Qed.

Lemma closer_connect c : ending c → closer AtConnect c.
Proof.
  intros He. destruct (connect_result c) as (c' & up & Ec & Et).
  pose proof (lasting_ending connect_to_server c He) as H1.
  pose proof (lasting (m := connect_to_server) c) as [Ef _]. rewrite Ec in H1 Ef. cbn [fst] in H1, Ef.
  exists c', (if up then AtLogin else AtLoop). rewrite connect_step Ec. split; [done|].
  do 2 (split; [done|]). have [= _ _ _ _ Es Ep] := Ef.
  split; [by destruct up|]. split; [by destruct up; apply lowers_spends|]. destruct up; cbn; lia.
Qed.

Lemma closer_login c : ending c → closer AtLogin c.
Proof.
  intros He. destruct (login_spends c He) as (c' & b & Ep & Hsp).
  pose proof (lasting_ending perform_login c He) as H1.
  pose proof (lasting (m := perform_login) c) as [Ef _]. rewrite Ep in H1 Ef.
  exists c', AtSocket. by rewrite login_step Ep.
Qed.

Lemma closer_answer r c : ending c → closer (AtAnswer r) c.
Proof.
  intros He. have Hr : (∃ data, r = Received data) ∨ ∀ data, r ≠ Received data.
  { destruct r; [left; by eexists|by right..]. }
  destruct Hr as [[data ->]|Hr].
  - exists (set_buffer c (tcp_receive_buffer_ c ++ data)), AtBuffer. do 4 (split; [done|]).
    split; [by apply lowers_spends|cbn; lia].
  - destruct (received_ends r c Hr He) as (c' & go & E & H1 & Ef & H2). exists c', (after_pass go). rewrite answer_step // E.
    do 3 (split; [done|]). destruct go; (split; [done|]); (split; [done|cbn; lia]).
Qed.

Lemma closer_front c : ending c → front_ok c → closer AtFront c.
Proof.
  intros He Hf. destruct (tcp_receive_buffer_ c) as [|b0 l] eqn:El.
  - apply (closer_stay _ AtLoop); [done| |done|done|cbn; lia]. rewrite /pass_step. run_method. by rewrite El.
  - destruct (front_spends b0 l c He Hf El) as (c' & go & E & H1 & Ef & H2). exists c', (if go then AtBuffer else AtLoop). rewrite (front_step b0 l) // E.
    do 3 (split; [done|]). destruct go; (split; [done|]); (split; [done|cbn; lia]).
Qed.

(** Every step of the loop does. *)
Lemma ending_step p c : ending c → (p = AtFront → front_ok c) → closer p c.
Proof.
  intros He Hf. have [Hrun _] := He. destruct p as [| | | | | | |r| | |].
  - apply (closer_stay _ Left); [done| |done..]. rewrite /pass_step. run_method. by rewrite Hrun.
  - destruct (negb (connected_ c) || (socket_fd_ c <? 0)) eqn:El;
      [apply (closer_stay _ AtRunning)|apply (closer_stay _ AtSocket)]; try done; try (cbn; lia);
      try (rewrite /pass_step; run_method; by rewrite El). cbn. by case_bool.
  - apply (closer_stay _ Left); [done| |done..]. rewrite /pass_step. run_method. by rewrite Hrun.
  - by apply closer_connect.
  - by apply closer_login.
  - destruct (socket_fd_ c <? 0) eqn:El; [apply (closer_stay _ AtLoop)|apply (closer_stay _ AtRecv)];
      try done; try (cbn; lia); try (rewrite /pass_step; run_method; by rewrite El); cbn; by rewrite El.
  - destruct (socket_fd_ c <? 0) eqn:El.
    + apply (closer_stay _ (AtAnswer Interrupted)); [done| |done| |done].
      * rewrite /pass_step. run_method. by rewrite El.
      * done.
    + exists (tick c), (AtAnswer (env_recv (ticks c))).
      split; [rewrite /pass_step /ask; run_method; by rewrite El|]. do 3 (split; [done|]).
      split; [|done]. apply lowers_spends; try done. cbn. rewrite El. by destruct (env_recv _).
  - by apply closer_answer.
  - apply (closer_stay _ AtLoop); [done| |done|done|cbn; lia]. rewrite /pass_step. run_method.
    destruct (tcp_receive_buffer_ c); [done|]. by rewrite Hrun.
  - by apply closer_front; [|apply Hf].
  - by apply (closer_stay _ Left).
Qed.

(** *** The end of [stop] *)

(** The system after the exchange of the flag. *)
Definition told (s : client_system) : Prop :=
  ending (client s) ∧ (point s = AtFront → front_ok (client s))
  ∧ match stopper s with
    | Signalling => False
    | Closing | Joining => client_thread_ (client s) = true
    | Finishing => point s = Left ∧ client_thread_ (client s) = false
    | Stopped => point s = Left ∧ client_thread_ (client s) = false
                 ∧ connected_ (client s) = false ∧ logged_in_ (client s) = false
    end.

(** The steps of [stop] left, once the loop has ended. *)
Definition stop_left (p : stop_point) : nat :=
  match p with Signalling => 4 | Closing => 3 | Joining => 2 | Finishing => 1 | Stopped => 0 end.

(** What the system may still do. *)
Definition left_to_do (s : client_system) : allowance := allowed (point s) (client s).
Definition proceeds (s s' : client_system) : Prop :=
  spends (client s) (client s') (left_to_do s) (left_to_do s').

Lemma lowers_refl a : lowers a a = true.
Proof. by rewrite /lowers !Nat.leb_refl. Qed.
Lemma proceeds_refl s : proceeds s s.
Proof. by apply lowers_spends; [..|apply lowers_refl]. Qed.

(** Closing the socket takes nothing but possibilities away. *)
Lemma allowed_closed p c c' :
  socket_fd_ c' = socket_fd_ c ∨ socket_fd_ c' < 0 → lowers (allowed p c) (allowed p c') = true.
Proof.
  intros H. have Hl : ((if (socket_fd_ c' <? 0)%Z then 0 else 1) ≤ (if (socket_fd_ c <? 0)%Z then 0 else 1))%nat.
  { destruct H as [->|H]; [done|]. rewrite (proj2 (Z.ltb_lt _ _) H). lia. }
  destruct p as [| | | | | | |[]| | |]; try done; rewrite /lowers; cbn [allowed may_hand may_lose may_send];
    by rewrite (proj2 (Nat.leb_le _ _) Hl).
Qed.

Lemma told_loop s :
  told s →
  ∃ s', system_step Loop s = (s', Ok tt) ∧ told s' ∧ proceeds s s' ∧ stopper s' = stopper s
    ∧ (steps_left (point s') ≤ pred (steps_left (point s)))%nat.
Proof.
  intros (He & Hf & Hs). destruct (decide (stopper s = Finishing ∨ stopper s = Stopped)) as [Hd|Hd].
  - have Hp : point s = Left by destruct Hd as [E|E]; rewrite E in Hs; apply Hs.
    exists s. cbn [system_step]. rewrite Hp. split; [destruct s; cbn in Hp; by subst|].
    split; [done|]. split; [apply proceeds_refl|]. by split.
  - destruct (ending_step (point s) (client s) He Hf) as (c' & p' & E & He' & Ef & Hp' & Hsp & Hle).
    exists (mkClientSystem c' p' (stopper s)). cbn [system_step]. rewrite E. split; [done|].
    split; [|done]. split; [done|]. split; [done|]. cbn [stopper client point]. injection Ef as _ Et _ _ _ _.
    destruct (stopper s); [done|by rewrite Et..|naive_solver|naive_solver].
Qed.

Lemma told_stop s :
  told s →
  told (stop_step s) ∧ proceeds s (stop_step s)
  ∧ point (stop_step s) = point s ∧ (stop_left (stopper (stop_step s)) ≤ stop_left (stopper s))%nat
  ∧ (point s = Left → (stop_left (stopper (stop_step s)) ≤ pred (stop_left (stopper s)))%nat).
Proof.
  destruct s as [c p []]; intros (He & Hf & Hs); cbn [stopper client point] in Hs, Hf; [done|..].
  - split; [by split|]. split; [|cbn; auto with lia]. apply lowers_spends; try done. apply allowed_closed.
    cbn. destruct (0 <=? socket_fd_ c) eqn:E; bool_to_prop; [right|left]; lia || done.
  - cbn [stop_step stopper client point]. rewrite Hs. destruct p;
      (split; [by split|]); (split; [|by cbn; split_and!; auto with lia]); apply lowers_spends; try done; apply lowers_refl.
  - destruct Hs as [-> Ht]. split; [by split|]. split; [|cbn; auto with lia]. by apply lowers_spends.
  - split; [by split|]. split; [apply proceeds_refl|cbn; auto with lia].
Qed.

(** What the accounts come to when nothing is left. *)
Lemma paid_all c p c0 c1 es :
  paid c0 es (allowed p c) (allowed Left c1) → password_ c0 = password_ c → session_id_ c0 = session_id_ c →
  (losses es ≤ 1)%nat ∧ (handed es ≤ match p with AtFront => 1 | _ => 0 end)%nat
  ∧ match p with
    | AtFront | AtConnect | AtLogin => ∃ msg, last_message c msg ∧ sent_bytes es `prefix_of` msg
    | _ => sent_bytes es = []
    end.
Proof.
  intros (Hh & Hl & Hs) Ep Es.
  have Hmsg : (∃ msg, last_message c0 msg ∧ sent_bytes es `prefix_of` msg) ∨ sent_bytes es = [] →
    ∃ msg, last_message c msg ∧ sent_bytes es `prefix_of` msg.
  { intros [(msg & Hm & Hp)| ->]; [exists msg; split; [by eapply last_message_same|done]|].
    exists (encode (mk105 (mkHeader 0 0 0 (mkTime 0 0)) (mkFooter 0))).
    split; [right; by eexists _, _|apply prefix_nil]. }
  have Hlink : ((if (socket_fd_ c <? 0)%Z then 0 else 1) ≤ 1)%nat by case_bool; lia.
  destruct p as [| | | | | | |[]| | |]; cbn in Hh, Hl, Hs; (split; [lia|]); (split; [lia|]);
    try (destruct Hs as [[? _]|(_ & ? & _)]; [done|lia]);
    apply Hmsg; destruct Hs as [[? _]|(_ & _ & ?)]; auto.
Qed.

(** The moves of each side. *)
Definition moves (a : actor) (actors : list actor) : nat := length (filter (a =.) actors).

Lemma told_step a s :
  told s →
  ∃ s1, system_step a s = (s1, Ok tt) ∧ told s1 ∧ proceeds s s1
    ∧ (steps_left (point s1) ≤ steps_left (point s) - moves Loop [a])%nat
    ∧ (point s = Left → point s1 = Left ∧ (stop_left (stopper s1) ≤ stop_left (stopper s) - moves Stopper [a])%nat).
Proof.
  intros Ht. destruct a.
  - change (moves Loop [Loop]) with 1%nat. change (moves Stopper [Loop]) with 0%nat. rewrite Nat.sub_0_r Nat.sub_1_r.
    destruct (told_loop s Ht) as (s1 & E & H1 & Hf & Es & Hle). exists s1. do 4 (split; [done|]).
    intros Hp. rewrite Es. rewrite Hp in Hle. split; [|lia]. destruct (point s1); cbn in Hle; try lia. done.
  - change (moves Loop [Stopper]) with 0%nat. change (moves Stopper [Stopper]) with 1%nat.
    rewrite Nat.sub_0_r Nat.sub_1_r. destruct (told_stop s Ht) as (H1 & Hp & Ep & Hle & Hl).
    exists (stop_step s). do 3 (split; [done|]). rewrite Ep. split; [done|]. intros Hp'. split; [done|]. by apply Hl.
Qed.

Lemma told_interleave actors s :
  told s →
  ∃ s', interleave actors s = (s', Ok tt) ∧ told s' ∧ proceeds s s'
    ∧ (steps_left (point s') ≤ steps_left (point s) - moves Loop actors)%nat
    ∧ (point s = Left → (stop_left (stopper s') ≤ stop_left (stopper s) - moves Stopper actors)%nat).
Proof.
  revert s. induction actors as [|a actors IH]; intros s Ht.
  { exists s. split; [done|]. split; [done|]. split; [apply proceeds_refl|]. cbn. split; [|intros _]; lia. }
  destruct (told_step a s Ht) as (s1 & E & H1 & Hp & Hle & Hl).
  destruct (IH s1 H1) as (s' & E' & H' & Hp' & Hle' & Hl').
  exists s'. cbn [interleave]. rewrite (method_bind_Ok _ _ _ _ _ E). split; [done|]. split; [done|].
  split; [by eapply spends_trans|].
  have Hm : ∀ x, moves x (a :: actors) = (moves x [a] + moves x actors)%nat.
  { intros x. rewrite /moves !filter_cons filter_nil. by case_decide. }
  rewrite !Hm. split; [lia|]. intros Hq. destruct (Hl Hq) as [Hq1 Hl1]. specialize (Hl' Hq1). lia.
Qed.

End Ending.

(** *** [stop] during the pause before a connection attempt *)

Section Leak.
Context `{env : Env}.

(** The server can be reached at the next questions, takes what is sent, and
    says nothing until the receive timeout. *)
Definition silent_server (c : RetransmissionClient) : Prop :=
  0 ≤ env_socket (ticks c) ∧ env_pton (server_ip_ c) = true
  ∧ 0 ≤ env_connect (S (ticks c)) (server_ip_ c) (server_port_ c)
  ∧ (∀ n l, env_send n l = Z.of_nat (length l)) ∧ (∀ n, env_recv n = WouldBlock).

Lemma connect_up c :
  connected_ c = false → silent_server c →
  connect_to_server c = (set_link (tick (tick c)) (env_socket (ticks c)) true false, Ok true).
Proof.
  intros Hc (Hs & Hp & Hcn & _). rewrite /connect_to_server /ask. run_method. rewrite Hc.
  cbn [andb ticks tick set_link server_ip_ server_port_].
  rewrite (proj2 (Z.ltb_ge _ _)) // Hp. cbn [negb]. by rewrite (proj2 (Z.ltb_ge _ _)).
Qed.

Lemma interleave_loop actors s c' p' r :
  pass_step (point s) (client s) = (c', Ok p') → interleave actors (mkClientSystem c' p' (stopper s)) = r →
  interleave (Loop :: actors) s = r.
Proof.
  intros E <-. cbn [interleave]. rewrite (method_bind_Ok _ _ s (mkClientSystem c' p' (stopper s)) tt) //.
  cbn [system_step]. by rewrite E.
Qed.
Lemma interleave_app actors1 actors2 s :
  interleave (actors1 ++ actors2) s
  = match interleave actors1 s with (s1, Ok _) => interleave actors2 s1 | r => r end.
Proof.
  revert s. induction actors1 as [|a actors1 IH]; intros s; [done|]. cbn [interleave app].
  rewrite /mbind /method_bind. destruct (system_step a s) as [s1 [[]|e|]]; [apply IH|done..].
Qed.
Lemma interleave_stop actors s : interleave (Stopper :: actors) s = interleave actors (stop_step s).
Proof. done. Qed.

(** The two parts of [stop] before [join], on a client without a socket. *)
Lemma stop_signal_close c p :
  running_ c = true → socket_fd_ c < 0 →
  stop_step (stop_step (mkClientSystem c p Signalling))
  = mkClientSystem (set_link (set_running c false (client_thread_ c)) (socket_fd_ c) (connected_ c) (logged_in_ c))
      p Joining.
Proof.
  intros Hr Hfd. cbn [stop_step stopper client]. rewrite Hr. cbn [stop_step stopper client point].
  cbn [socket_fd_ set_running connected_ logged_in_]. by rewrite (proj2 (Z.leb_gt _ _)).
Qed.

Lemma leak_run c :
  running_ c = true → client_thread_ c = true → connected_ c = false → socket_fd_ c < 0 →
  credentials_ok (session_id_ c) (password_ c) → silent_server c →
  ∃ c' login,
    interleave [Stopper; Stopper; Loop; Loop; Loop; Loop; Loop; Stopper; Stopper]
      (mkClientSystem c AtConnect Signalling) = (mkClientSystem c' Left Stopped, Ok tt)
    ∧ socket_fd_ c' = env_socket (ticks c) ∧ running_ c' = false
    ∧ client_thread_ c' = false ∧ trace c' = trace c ++ [Sent login] ∧ login ≠ [].
Proof.
  intros Hr Ht Hc Hfd (Hsid & code & Hcode & Hf) Hsrv. have [Hfd' [_ [_ [Hsend Hrecv]]]] := Hsrv.
  rewrite !interleave_stop stop_signal_close //. set c0 := set_link _ _ _ _.
  have Ec := connect_up c0 Hc Hsrv. set c1 := set_link _ _ true false in Ec.
  pose proof (login_sends c1 code eq_refl eq_refl Hcode Hf Hsid) as El. cbv zeta in El.
  set msg := encode _ in El. set c2 := set_seq_num _ 1 in El.
  have Hmsg : msg ≠ [] by rewrite /msg /encode.
  rewrite (method_bind_Ok _ _ _ _ _ (send_all msg c2 Hmsg eq_refl Hfd' (Hsend _ _))) in El.
  set c3 := emit (tick c2) (Sent msg) in El. have Hfd3 : (socket_fd_ c3 <? 0) = false by apply Z.ltb_ge.
  eexists _, msg. split.
  - eapply interleave_loop; [by rewrite connect_step Ec|]. eapply interleave_loop; [by rewrite login_step El|].
    eapply (interleave_loop _ _ c3 AtRecv); [by rewrite /pass_step; run_method; rewrite Hfd3|].
    eapply (interleave_loop _ _ (tick c3) (AtAnswer WouldBlock)).
    { cbn [point client]. rewrite /pass_step /ask. run_method. by rewrite Hfd3 Hrecv. }
    eapply (interleave_loop _ _ (tick c3) Left); [done|].
    rewrite !interleave_stop. cbn [stop_step stopper client point]. change (client_thread_ (tick c3)) with (client_thread_ c).
    rewrite Ht. done.
  - done.
Qed.

End Leak.

(** ** Properties *)

Section Properties.

(** C13: [stop] returns: wherever the client's thread is when [stop] sets the
    running flag to false, whatever the operating system answers afterwards and
    however the steps of the two threads interleave, the receive loop has ended
    after seven more of its steps, without an exception, and [stop] after three
    more of its own; the client is then stopped and its thread joined.
    Meanwhile at most one loss of the connection is reported; a message of the
    server is handed on only if the loop had already tested the flag before the
    message at the front of its buffer, and then only that one; and bytes are
    sent only from there (the answer to one heartbeat, or a part of it) and from
    the pause before a connection attempt on (one login, or a part of it).
    Assumed: every [recv] returns (the receive timeout is set), the check code of
    the password can be computed, and the message the loop is about to handle, if
    it is, is not a market frame with an invalid length field, which would end
    the thread with an exception. *)
Theorem stop_ends_thread `{env : Env} c p actors1 actors2 (Hr : running_ c = true)
    (Ht : client_thread_ c = true) (Hq : seq_ok c) (Hcr : credentials_ok (session_id_ c) (password_ c))
    (Hf : p = AtFront → front_ok c) (H1 : (7 ≤ moves Loop actors1)%nat) (H2 : (3 ≤ moves Stopper actors2)%nat) :
  ∃ c' es, interleave (Stopper :: actors1 ++ actors2) (mkClientSystem c p Signalling)
           = (mkClientSystem c' Left Stopped, Ok tt)
    ∧ running_ c' = false ∧ client_thread_ c' = false ∧ connected_ c' = false ∧ logged_in_ c' = false
    ∧ trace c' = trace c ++ es ∧ (losses es ≤ 1)%nat
    ∧ (handed es ≤ match p with AtFront => 1 | _ => 0 end)%nat
    ∧ match p with
      | AtFront | AtConnect | AtLogin => ∃ msg, last_message c msg ∧ sent_bytes es `prefix_of` msg
      | _ => sent_bytes es = []
      end.
Proof.
  rewrite interleave_stop. set s0 := stop_step _.
  have E0 : s0 = mkClientSystem (set_running c false (client_thread_ c)) p Closing.
  { rewrite /s0. cbn [stop_step stopper client]. by rewrite Hr. }
  have H0 : told s0 by rewrite E0.
  destruct (told_interleave actors1 s0 H0) as (s1 & E1 & T1 & P1 & Hl1 & _).
  have Hp1 : point s1 = Left.
  { have : (steps_left (point s0) ≤ 7)%nat by destruct (point s0); cbn; lia.
    intros H7. have H0' : steps_left (point s1) = 0%nat by lia. by destruct (point s1). }
  destruct (told_interleave actors2 s1 T1) as (s2 & E2 & T2 & P2 & Hl2 & Hst2).
  have Hs2 : stopper s2 = Stopped.
  { specialize (Hst2 Hp1). have [_ [_ Hm]] := T1. destruct (stopper s1), (stopper s2); cbn in Hst2; done || lia. }
  destruct (spends_trans _ _ _ _ _ _ P1 P2) as (_ & _ & es & Et & Hpaid). rewrite E0 in Et Hpaid.
  destruct s2 as [c' p' q']. cbn [stopper client point] in *. subst q'.
  destruct T2 as ([Hr' _] & _ & (Hp' & ? & ? & ?)). cbn [point client] in *. subst p'.
  exists c', es. rewrite interleave_app E1 E2. do 6 (split; [done|]). by apply paid_all in Hpaid.
Qed.

(** C37: a socket survives [stop]: [stop] closes the socket before it joins the
    thread, so when it is called in the pause before a connection attempt, the
    thread still opens a socket and sends a login, provided that the server can
    be reached, takes all that is sent and says nothing until the receive
    timeout ([silent_server]) and that the check code of the password can be
    computed; [stop] then returns with the socket open, and neither another
    [stop] nor the destructor closes it.  A [stop] into which no step of the
    thread falls leaves no running client with a socket. *)
Theorem stop_leaks_socket `{env : Env} c (Hr : running_ c = true) (Ht : client_thread_ c = true)
    (Hc : connected_ c = false) (Hfd : socket_fd_ c < 0)
    (Hcr : credentials_ok (session_id_ c) (password_ c)) (Hs : silent_server c) :
  (∃ c' login,
     interleave [Stopper; Stopper; Loop; Loop; Loop; Loop; Loop; Stopper; Stopper]
       (mkClientSystem c AtConnect Signalling) = (mkClientSystem c' Left Stopped, Ok tt)
     ∧ trace c' = trace c ++ [Sent login] ∧ login ≠ []
     ∧ 0 ≤ socket_fd_ c' ∧ RetransmissionClient.stop OtherThread c' = (c', Ok tt)
     ∧ destroy_client OtherThread c' = Ok tt)
  ∧ ∀ c2, running_ c2 = true →
      ∃ c', RetransmissionClient.stop OtherThread c2 = (c', Ok tt) ∧ socket_fd_ c' < 0.
Proof.
  split.
  - destruct (leak_run c Hr Ht Hc Hfd Hcr Hs) as (c' & login & E & Hfd' & Hr' & Ht' & Etr & Hl).
    have Est : RetransmissionClient.stop OtherThread c' = (c', Ok tt).
    { rewrite /RetransmissionClient.stop. run_method. by rewrite Hr'. }
    exists c', login. split; [done|]. split; [done|]. split; [done|]. split; [rewrite Hfd'; apply Hs|].
    split; [done|]. by rewrite /destroy_client Est Ht'.
  - intros c2 Hr2. have Hneg : (if 0 <=? socket_fd_ c2 then -1 else socket_fd_ c2) < 0.
    { destruct (0 <=? socket_fd_ c2) eqn:E; bool_to_prop; lia. }
    rewrite /RetransmissionClient.stop. run_method. rewrite Hr2. cbn [negb].
    by destruct (client_thread_ c2); eexists.
Qed.

(** C16: stopping the manager can end the program: the manager's [stop] has cleared
    its flag and the client's and closed the socket, and waits in [join]; if
    the client's thread now finds that the server has closed the connection, or
    another error, and a backup server is configured, the disconnect callback
    still fails over, destroying the client together with the thread it runs
    on, which cannot be joined any more ([std::terminate]).  A timeout or an
    interrupted [recv] lets the loop end. *)
Theorem stop_race_terminates `{net : NetEnv} m id c server r
    (Hc : retransmission_client_ m = Some (id, c)) (Hr : running_ c = true)
    (Ht : client_thread_ c = true) (Hcb : disconnected_callback_ (callbacks_ c) = true)
    (Ha : retrans_primary_active_ m = true) (Hb : backup_retrans_server (config_ m) = Some server) :
  let c1 := client (stop_step (stop_step (mkClientSystem c AtRecv Signalling))) in
  let m1 := set_client (set_nm_running m false) (Some (id, c1)) in
  let next := (client_step (λ e, pass_step (env := e) (AtAnswer r)) m1).2 in
  (r = PeerClosed ∨ r = RecvError → next = Undefined)
  ∧ (r = WouldBlock ∨ r = Interrupted → next = Ok Left).
Proof.
  intros c1 m1 next. have [Er1 [Et1 Ecb1]] : running_ c1 = false ∧ client_thread_ c1 = true ∧ callbacks_ c1 = callbacks_ c.
  { rewrite /c1. cbn [stop_step stopper client]. by rewrite Hr. }
  rewrite /next /client_step. cbn [m1 set_client retransmission_client_]. split.
  - intros Hrr. set c2 := emit (set_link c1 (-1) false false) Disconnected.
    have E : pass_step (env := net_client id) (AtAnswer r) c1 = (c2, Ok AtLoop).
    { rewrite answer_step; [by intros ?; destruct Hrr as [->| ->]|].
      destruct Hrr as [->| ->]; rewrite /received /drop_link /callback; run_method;
        by rewrite (_ : callbacks_ (set_link c1 (-1) false false) = callbacks_ c) // Hcb. }
    rewrite E. cbn [trace emit set_link c2]. rewrite drop_app_length. cbn [dispatch on_event].
    have Hf : fails_over (set_client m1 (Some (id, c2))) = true.
    { rewrite /fails_over. cbn. by rewrite Ha Hb bool_decide_true. }
    pose proof (disconnected_destroys (set_client m1 (Some (id, c2))) id c2 eq_refl Er1 Et1 Hf) as Hd.
    rewrite /mbind /method_bind. destruct (on_retransmission_disconnected _ _) as [m2 a]. cbn in Hd. by rewrite Hd.
  - intros Hrr. have E : pass_step (env := net_client id) (AtAnswer r) c1 = (c1, Ok Left).
    { rewrite answer_step; [by intros ?; destruct Hrr as [->| ->]|].
      destruct Hrr as [->| ->]; cbn [received]; run_method; by rewrite Er1. }
    by rewrite E drop_all.
Qed.

End Properties.

(** *** Sample data *)

(** A client that is not connected yet. *)
Definition waiting_client : RetransmissionClient := set_link (sample_client false) (-1) false false.

Lemma sample_credentials : credentials_ok (session_id_ waiting_client) (password_ waiting_client).
Proof. split; [done|]. exists 73. split; [reflexivity|done]. Qed.

Lemma stop_ends_thread_witness :
  let env : Env := RetransmissionClient.working_env in
  ∃ c' es, interleave (Stopper :: [Stopper; Loop; Loop; Loop; Stopper; Loop; Loop; Loop; Loop] ++ [Stopper; Stopper; Stopper])
             (mkClientSystem waiting_client AtConnect Signalling)
           = (mkClientSystem c' Left Stopped, Ok tt)
    ∧ running_ c' = false ∧ client_thread_ c' = false ∧ connected_ c' = false ∧ logged_in_ c' = false
    ∧ trace c' = trace waiting_client ++ es ∧ (losses es ≤ 1)%nat ∧ (handed es ≤ 0)%nat
    ∧ ∃ msg, last_message waiting_client msg ∧ sent_bytes es `prefix_of` msg.
Proof.
  intros env. apply (@stop_ends_thread env waiting_client AtConnect); try reflexivity.
  - apply (sample_client_ok false).
  - apply sample_credentials.
  - discriminate.
Defined.

Lemma stop_leaks_socket_witness :
  let env : Env := RetransmissionClient.working_env in
  (∃ c' login,
     interleave [Stopper; Stopper; Loop; Loop; Loop; Loop; Loop; Stopper; Stopper]
       (mkClientSystem waiting_client AtConnect Signalling) = (mkClientSystem c' Left Stopped, Ok tt)
     ∧ trace c' = trace waiting_client ++ [Sent login] ∧ login ≠ []
     ∧ 0 ≤ socket_fd_ c' ∧ RetransmissionClient.stop OtherThread c' = (c', Ok tt)
     ∧ destroy_client OtherThread c' = Ok tt)
  ∧ ∀ c2, running_ c2 = true →
      ∃ c', RetransmissionClient.stop OtherThread c2 = (c', Ok tt) ∧ socket_fd_ c' < 0.
Proof.
  intros env. apply (@stop_leaks_socket env waiting_client); try reflexivity.
  - apply sample_credentials.
  - split; [vm_compute; discriminate|]. split; [reflexivity|]. split; [vm_compute; discriminate|]. done.
Defined.

Lemma stop_race_terminates_witness :
  let net : NetEnv := dead_net in
  let c1 := client (stop_step (stop_step (mkClientSystem (sample_client true) AtRecv Signalling))) in
  let m1 := set_client (set_nm_running session_manager false) (Some (0%nat, c1)) in
  let next := (client_step (λ e, pass_step (env := e) (AtAnswer PeerClosed)) m1).2 in
  (PeerClosed = PeerClosed ∨ PeerClosed = RecvError → next = Undefined)
  ∧ (PeerClosed = WouldBlock ∨ PeerClosed = Interrupted → next = Ok Left).
Proof.
  intros net. apply (@stop_race_terminates net session_manager 0 (sample_client true)
    (sample_server (str "10.0.0.2")) PeerClosed); reflexivity.
Defined.
