(* ===== verification/ReceiverThreads.v ===== *)
(** * The receivers' threads against [stop]

    [MulticastReceiver::stop] is called while the receiving threads run.  As for
    the client, each loop is cut into the points at which it uses what is
    shared (the flags, the socket, the answer of [recvfrom]) and [stop] into
    its steps (the exchange of the flag; for each subscription in turn the
    clearing of its flag, [join], the closing of its socket; the clearing of
    the list, which frees the subscriptions the threads point to), and all of
    them interleave.  [loop_steps] ties the steps of a thread to
    [receive_pass], [halt_steps] those of the stopping thread to [stop]. *)

From S2P Require Import Prelude MulticastReceiver.

(** ** Definitions *)

(** Where a receiving thread is in [receive_loop]. *)
Inductive recv_point : Type :=
| AtEntry                          (** before the check of the socket *)
| AtFlags                          (** before the condition of the loop *)
| AtRecvfrom                       (** before [recvfrom] *)
| AtResult (a : recvfrom_result)   (** after [recvfrom] *)
| Ended.

(** Where the thread that calls [stop] is. *)
Inductive halt_point : Type :=
| ToSignal
| ToFlag (i : nat)
| ToJoin (i : nat)
| ToClose (i : nat)
| ToClear
| Halted.

Inductive mover : Type := Receiving (i : nat) | Halting.

(** [loops] has one point per subscription; a subscription without a thread is
    [Ended]. *)
Record receiver_system : Type := mkReceiverSystem {
  receiver : MulticastReceiver;
  loops : list recv_point;
  halt : halt_point;
}.

#[export] Instance errno_eq_dec : EqDecision errno.
Proof. solve_decision. Defined.
#[export] Instance recvfrom_result_eq_dec : EqDecision recvfrom_result.
Proof. solve_decision. Defined.
#[export] Instance recv_point_eq_dec : EqDecision recv_point.
Proof. solve_decision. Defined.

#[export] Instance halt_point_eq_dec : EqDecision halt_point.
Proof. solve_decision. Defined.
#[export] Instance mover_eq_dec : EqDecision mover.
Proof. solve_decision. Defined.

Section Steps.
Context `{env : McastEnv}.

(** The next step of the loop of subscription [i]; the subscription is read
    through the pointer the thread was given. *)
Definition loop_step (i : nat) (p : recv_point) : method MulticastReceiver recv_point :=
  r ← get;
  if bool_decide (p = Ended) then mret Ended
  else
    match subscriptions_ r !! i with
    | None => lift Undefined
    | Some sub =>
        match p with
        | AtEntry => mret (if socket_fd sub <? 0 then Ended else AtFlags)
        | AtFlags => mret (if running_ r && thread_running_flag sub then AtRecvfrom else Ended)
        | AtRecvfrom => answer ← mc_ask mc_recvfrom; mret (AtResult answer)
        | AtResult (RecvFailed EAGAIN) => mret AtFlags
        | AtResult (RecvFailed e) =>
            mret (if negb (running_ r && thread_running_flag sub)
                     && match e with EINTR | EBADF => true | _ => false end
                  then Ended else AtFlags)
        | AtResult (Datagram data) =>
            let data := take BUFFER_SIZE data in
            (if (0 <? length data)%nat && data_callback_ r then
               modify (λ r, record_event r (Delivered data (group_ip (config sub)) (port (config sub))))
             else mret tt);;
            mret AtFlags
        | Ended => mret Ended
        end
    end.

Fixpoint loop_run (i n : nat) (p : recv_point) : method MulticastReceiver recv_point :=
  match n with O => mret p | S n => p' ← loop_step i p; loop_run i n p' end.

End Steps.

(** The next step of [stop]. *)
Definition halt_step (s : receiver_system) : receiver_system :=
  let r := receiver s in
  let at_sub i f (h : halt_point) :=
    mkReceiverSystem (set_subs r (alter f i (subscriptions_ r))) (loops s) h in
  match halt s with
  | ToSignal =>
      if running_ r then mkReceiverSystem (set_run r false) (loops s) (ToFlag 0)
      else mkReceiverSystem r (loops s) Halted
  | ToFlag i =>
      if (i <? length (subscriptions_ r))%nat then at_sub i (set_flag false) (ToJoin i)
      else mkReceiverSystem r (loops s) ToClear
  | ToJoin i =>
      match subscriptions_ r !! i with
      | Some sub =>
          if receiver_thread sub then
            if bool_decide (loops s !! i = Some Ended) then at_sub i (set_thread false) (ToClose i) else s
          else mkReceiverSystem r (loops s) (ToClose i)
      | None => s
      end
  | ToClose i =>
      match subscriptions_ r !! i with
      | Some sub =>
          if 0 <=? socket_fd sub then
            mkReceiverSystem
              (set_subs (record_event r (Closed (socket_fd sub))) (alter (set_fd (-1)) i (subscriptions_ r)))
              (loops s) (ToFlag (S i))
          else mkReceiverSystem r (loops s) (ToFlag (S i))
      | None => s
      end
  | ToClear => mkReceiverSystem (set_subs r []) (loops s) Halted
  | Halted => s
  end.

Section System.
Context `{env : McastEnv}.

Definition move (a : mover) : method receiver_system unit :=
  λ s,
    match a with
    | Receiving i =>
        match loops s !! i with
        | Some p =>
            match loop_step i p (receiver s) with
            | (r, Ok p') => (mkReceiverSystem r (<[i := p']> (loops s)) (halt s), Ok tt)
            | (r, Throw e) => (mkReceiverSystem r (loops s) (halt s), Throw e)
            | (r, Undefined) => (mkReceiverSystem r (loops s) (halt s), Undefined)
            end
        | None => (s, Ok tt)
        end
    | Halting => (halt_step s, Ok tt)
    end.

Fixpoint run_moves (movers : list mover) : method receiver_system unit :=
  match movers with
  | [] => mret tt
  | a :: movers => move a;; run_moves movers
  end.

End System.

(** A thread outside [Ended] has its subscription, with an open socket. *)
Definition sockets_held (s : receiver_system) : Prop :=
  ∀ i p, loops s !! i = Some p → p ≠ Ended →
    ∃ sub, subscriptions_ (receiver s) !! i = Some sub ∧ 0 ≤ socket_fd sub ∧ receiver_thread sub = true.

(** The steps left once the flag is cleared. *)
Definition loop_left (p : recv_point) : nat :=
  match p with Ended => 0 | AtFlags => 1 | AtResult _ | AtEntry => 2 | AtRecvfrom => 3 end.
Definition halt_left (n : nat) (h : halt_point) : nat :=
  match h with
  | ToSignal => 3 * n + 3
  | ToFlag i => 3 * (n - i) + 2
  | ToJoin i => 3 * (n - i) + 1
  | ToClose i => 3 * (n - i)
  | ToClear => 1
  | Halted => 0
  end.
Definition left_to_do (s : receiver_system) : nat :=
  sum_list_with loop_left (loops s) + halt_left (length (loops s)) (halt s).

(** ** Lemmas *)

(** *** The steps are those of a pass *)

Section LoopSteps.
Context `{env : McastEnv}.

Lemma loop_run_S i n p r r1 p1 res :
  loop_step i p r = (r1, Ok p1) → loop_run i n p1 r1 = res → loop_run i (S n) p r = res.
Proof. intros E <-. cbn [loop_run]. by rewrite (method_bind_Ok _ _ _ _ _ E). Qed.

(** Between two evaluations of the loop condition the thread makes the pass of
    [receive_pass]. *)
Lemma loop_steps i r sub :
  subscriptions_ r !! i = Some sub → 0 ≤ socket_fd sub →
  ∃ n r' go, receive_pass i r = (r', Ok go) ∧ (1 ≤ n ≤ 3)%nat
    ∧ loop_run i n AtFlags r = (r', Ok (if go then AtFlags else Ended)).
Proof.
  intros Hi Hfd. rewrite /receive_pass /mc_ask. run_method. rewrite Hi (proj2 (Z.ltb_ge _ _)) //.
  destruct (running_ r && thread_running_flag sub) eqn:Ef; cbn [negb]; last first.
  { exists 1%nat, r, false. split; [done|]. split; [lia|]. eapply loop_run_S; [|done].
    rewrite /loop_step. run_method. by rewrite bool_decide_false // Hi Ef. }
  have E2 : ∀ n res, loop_run i n (AtResult (mc_recvfrom (mc_ticks r))) (mc_tick r) = res →
    loop_run i (S (S n)) AtFlags r = res.
  { intros n res E. eapply loop_run_S; [by rewrite /loop_step; run_method; rewrite bool_decide_false // Hi Ef|].
    eapply loop_run_S; [|exact E]. rewrite /loop_step /mc_ask. run_method. by rewrite bool_decide_false // Hi. }
  destruct (mc_recvfrom (mc_ticks r)) as [data|e] eqn:Er.
  - destruct ((0 <? length (take BUFFER_SIZE data))%nat && data_callback_ r) eqn:Ed;
      eexists 3%nat, _, true; (split; [done|]); (split; [lia|]); apply E2; (eapply loop_run_S; [|done]);
      rewrite /loop_step; run_method; rewrite bool_decide_false //;
      change (subscriptions_ (mc_tick r)) with (subscriptions_ r); rewrite Hi;
      change (data_callback_ (mc_tick r)) with (data_callback_ r); by rewrite Ed.
  - exists 3%nat, (mc_tick r), true. split; [by destruct e|]. split; [lia|]. apply E2.
    eapply loop_run_S; [|done]. rewrite /loop_step. run_method. rewrite bool_decide_false //.
    change (subscriptions_ (mc_tick r)) with (subscriptions_ r). rewrite Hi.
    change (running_ (mc_tick r)) with (running_ r). rewrite Ef. by destruct e.
Qed.

End LoopSteps.

(** *** The steps of [stop] are those of the whole call *)

Lemma alter_middle {A} (f : A → A) (pre : list A) x post :
  alter f (length pre) (pre ++ x :: post) = pre ++ f x :: post.
Proof.
  rewrite (list_alter_insert _ _ _ x); [by rewrite list_lookup_middle|].
  by rewrite insert_app_r_alt // Nat.sub_diag.
Qed.

(** The receiver with other subscriptions and more events. *)
Definition with_subs (r : MulticastReceiver) (subs : list ActiveSubscription) (evs : list mc_event)
    : MulticastReceiver :=
  mkReceiver (data_callback_ r) subs (running_ r) (mc_trace r ++ evs) (mc_ticks r).

(** One subscription, when its thread has ended. *)
Lemma halt_three r ls pre sub post :
  subscriptions_ r = pre ++ sub :: post → ls !! length pre = Some Ended →
  Nat.iter 3 halt_step (mkReceiverSystem r ls (ToFlag (length pre)))
  = mkReceiverSystem (with_subs r (pre ++ (stop_subscription sub).1 :: post) (stop_subscription sub).2)
      ls (ToFlag (S (length pre))).
Proof.
  intros Hs He. cbn [Nat.iter nat_rect]. rewrite {3}/halt_step. cbn [halt receiver loops]. rewrite Hs.
  rewrite (proj2 (Nat.ltb_lt _ _)); [rewrite length_app; cbn [length]; lia|]. rewrite alter_middle.
  rewrite {2}/halt_step. cbn [halt receiver loops set_subs subscriptions_].
  rewrite list_lookup_middle //. rewrite /stop_subscription /with_subs. cbn [receiver_thread set_flag].
  destruct (receiver_thread sub) eqn:Et; [rewrite bool_decide_true //|]; rewrite ?alter_middle /halt_step;
    cbn [halt receiver loops set_subs subscriptions_]; rewrite list_lookup_middle //;
    cbn [socket_fd set_flag set_thread receiver_thread]; rewrite ?Et; cbn [socket_fd set_flag set_thread];
    destruct (0 <=? socket_fd sub); rewrite ?alter_middle ?app_nil_r; done.
Qed.

Lemma halt_all post : ∀ r ls pre,
  subscriptions_ r = pre ++ post → (∀ i, (i < length (pre ++ post))%nat → ls !! i = Some Ended) →
  Nat.iter (3 * length post) halt_step (mkReceiverSystem r ls (ToFlag (length pre)))
  = mkReceiverSystem (with_subs r (pre ++ (stop_loop post).1) (stop_loop post).2)
      ls (ToFlag (length (pre ++ post))).
Proof.
  induction post as [|sub post IH]; intros r ls pre Hs He.
  { cbn. rewrite /with_subs !app_nil_r. rewrite app_nil_r in Hs. rewrite -Hs. by destruct r. }
  have -> : (3 * length (sub :: post) = 3 * length post + 3)%nat by cbn [length]; lia.
  rewrite Nat.iter_add (halt_three r ls pre sub post) //; [apply He; rewrite length_app; cbn [length]; lia|].
  cbn [stop_loop]. destruct (stop_subscription sub) as [sub' ev]. cbn [fst snd].
  set r1 := with_subs r _ _. have Hs1 : subscriptions_ r1 = (pre ++ [sub']) ++ post by rewrite -app_assoc.
  have Hl : S (length pre) = length (pre ++ [sub']) by rewrite length_app; cbn [length]; lia.
  rewrite Hl (IH r1 ls (pre ++ [sub'])) //.
  { intros i Hi. apply He. rewrite !length_app in Hi |- *. cbn [length] in *. lia. }
  destruct (stop_loop post) as [subs evs]. cbn [fst snd].
  rewrite /with_subs /r1 /= -!app_assoc. f_equal. rewrite !length_app. cbn [length]. by f_equal.
Qed.

(** [stop] uninterrupted, once all threads have ended. *)
Lemma halt_steps r ls :
  running_ r = true → (∀ i, (i < length (subscriptions_ r))%nat → ls !! i = Some Ended) →
  Nat.iter (2 + 3 * length (subscriptions_ r) + 1) halt_step (mkReceiverSystem r ls ToSignal)
  = mkReceiverSystem (stop r).1 ls Halted ∧ (stop r).2 = Ok tt.
Proof.
  intros Hr He. rewrite /stop. run_method. rewrite Hr. cbn [negb set_run subscriptions_]. split; [|by destruct (stop_loop _)].
  rewrite Nat.iter_add Nat.iter_add. change (Nat.iter 1 halt_step ?s) with (halt_step s).
  have -> : halt_step (mkReceiverSystem r ls ToSignal) = mkReceiverSystem (set_run r false) ls (ToFlag 0).
  { rewrite /halt_step. cbn [halt receiver]. by rewrite Hr. }
  rewrite (halt_all (subscriptions_ r) (set_run r false) ls [] eq_refl He).
  destruct (stop_loop (subscriptions_ r)) as [subs evs] eqn:E. rewrite foldl_record. cbn [Nat.iter nat_rect fst snd app].
  have Hl : length subs = length (subscriptions_ r).
  { have -> : subs = (stop_loop (subscriptions_ r)).1 by rewrite E. clear. induction (subscriptions_ r) as [|x l IH]; [done|].
    cbn [stop_loop]. destruct (stop_subscription x), (stop_loop l). cbn in *. lia. }
  rewrite {2}/halt_step. cbn [halt receiver loops with_subs subscriptions_]. by rewrite Hl Nat.ltb_irrefl.
Qed.

(** *** The invariant *)

(** The first [k] subscriptions have been dealt with. *)
Definition emptied (k : nat) (subs : list ActiveSubscription) : Prop :=
  Forall (λ sub, receiver_thread sub = false ∧ socket_fd sub < 0) (take k subs).

(** What [stop] has achieved at each of its points. *)
Definition progress (s : receiver_system) : Prop :=
  let subs := subscriptions_ (receiver s) in
  match halt s with
  | ToSignal => running_ (receiver s) = true ∧ length subs = length (loops s)
  | ToFlag k | ToJoin k =>
      running_ (receiver s) = false ∧ length subs = length (loops s) ∧ emptied k subs
  | ToClose k =>
      running_ (receiver s) = false ∧ length subs = length (loops s) ∧ emptied k subs
      ∧ (∀ sub, subs !! k = Some sub → receiver_thread sub = false)
  | ToClear => running_ (receiver s) = false ∧ emptied (length subs) subs
  | Halted => running_ (receiver s) = false ∧ subs = []
  end
  ∧ match halt s with ToJoin k | ToClose k => (k < length subs)%nat | _ => True end.

Definition threads_inv (s : receiver_system) : Prop :=
  ledger (receiver s) ∧ sockets_held s ∧ progress s.

Lemma ledger_insert r i sub sub' evs :
  ledger r → subscriptions_ r !! i = Some sub → opened evs = [] →
  live sub ≡ₚ closed_fds evs ++ live sub' →
  ledger (mkReceiver (data_callback_ r) (<[i := sub']> (subscriptions_ r)) (running_ r) (mc_trace r ++ evs) (mc_ticks r)).
Proof.
  intros Hl Hi Ho Hc. rewrite /ledger in Hl |- *. cbn [mc_trace subscriptions_].
  destruct (list_elem_of_split_length _ _ _ Hi) as (l1 & l2 & El & ->). rewrite El in Hl |- *.
  rewrite opened_app closed_fds_app Ho app_nil_r Hl insert_app_r_alt // Nat.sub_diag. cbn [insert list_insert].
  rewrite !fmap_app !fmap_cons !concat_app /= Hc -!app_assoc. f_equiv.
  by rewrite (Permutation_app_swap_app (closed_fds evs) (concat (live <$> l1))).
Qed.

Lemma held_insert s i sub sub' h r' :
  sockets_held s → subscriptions_ (receiver s) !! i = Some sub →
  subscriptions_ r' = <[i := sub']> (subscriptions_ (receiver s)) →
  (loops s !! i = Some Ended ∨ receiver_thread sub = false
   ∨ socket_fd sub' = socket_fd sub ∧ receiver_thread sub' = receiver_thread sub) →
  sockets_held (mkReceiverSystem r' (loops s) h).
Proof.
  intros Hh Hi Hs' Hcase j p Hj Hp. cbn [receiver loops] in *. rewrite Hs'.
  destruct (Hh j p Hj Hp) as (subj & Hsj & Hfd & Ht). destruct (decide (i = j)) as [<-|Hne].
  - rewrite Hi in Hsj. injection Hsj as <-. exists sub'.
    rewrite list_lookup_insert_eq; [by eapply lookup_lt_Some|]. destruct Hcase as [He|[Hf|[-> ->]]]; [congruence..|done].
  - exists subj. by rewrite list_lookup_insert_ne.
Qed.

Lemma emptied_insert k i subs sub' : (k ≤ i)%nat → emptied k subs → emptied k (<[i := sub']> subs).
Proof. intros Hk He. by rewrite /emptied take_insert_ge. Qed.

Lemma emptied_S k subs sub :
  emptied k subs → subs !! k = Some sub → receiver_thread sub = false → socket_fd sub < 0 → emptied (S k) subs.
Proof. intros He Hk Ht Hf. rewrite /emptied (take_S_r _ _ sub) //. apply Forall_app. by split; [|constructor]. Qed.

(** A step of [stop] that changes one subscription. *)
Lemma halt_flag_inv s k :
  threads_inv s → halt s = ToFlag k → threads_inv (halt_step s).
Proof.
  intros (Hl & Hh & Hp & _) E. rewrite E in Hp. destruct Hp as (Hr & Hlen & He).
  rewrite /halt_step E. cbv zeta. destruct (k <? _)%nat eqn:Ek; bool_to_prop.
  - destruct (lookup_lt_is_Some_2 _ _ Ek) as [sub Hk].
    rewrite (list_alter_insert _ _ _ _ Hk). split; [|split].
    + pose proof (ledger_insert _ k sub (set_flag false sub) [] Hl Hk eq_refl) as H.
      rewrite app_nil_r in H. by apply H.
    + eapply held_insert; [done|exact Hk|done|]. by right; right.
    + split; cbn [halt receiver loops set_subs subscriptions_ running_]; rewrite length_insert //.
      split; [done|]. split; [done|]. by apply emptied_insert.
  - split; [done|]. split; [done|]. split; [|done]. cbn [halt receiver]. split; [done|].
    rewrite /emptied take_ge // in He |- *. by rewrite take_ge.
Qed.

Lemma halt_join_inv s k :
  threads_inv s → halt s = ToJoin k → threads_inv (halt_step s).
Proof.
  intros Hinv E. have [Hl [Hh [Hp Hk]]] := Hinv. rewrite E in Hp, Hk. destruct Hp as (Hr & Hlen & He).
  rewrite /halt_step E. cbv zeta. destruct (lookup_lt_is_Some_2 _ _ Hk) as [sub Hs]. rewrite Hs.
  destruct (receiver_thread sub) eqn:Et; [case_bool_decide as Hend; [|done]|].
  - rewrite (list_alter_insert _ _ _ _ Hs). split; [|split].
    + pose proof (ledger_insert _ k sub (set_thread false sub) [] Hl Hs eq_refl) as H.
      rewrite app_nil_r in H. by apply H.
    + eapply held_insert; [done|exact Hs|done|]. by left.
    + split; cbn [halt receiver loops set_subs subscriptions_ running_]; rewrite length_insert //.
      split; [done|]. split; [done|]. split; [by apply emptied_insert|].
      intros sub'. rewrite list_lookup_insert_eq //. by intros [= <-].
  - split; [done|]. split; [done|]. split; [|done]. cbn [halt receiver loops].
    split; [done|]. split; [done|]. split; [done|]. rewrite Hs. by intros sub' [= <-].
Qed.

Lemma halt_close_inv s k :
  threads_inv s → halt s = ToClose k → threads_inv (halt_step s).
Proof.
  intros (Hl & Hh & Hp & Hk) E. rewrite E in Hp, Hk. destruct Hp as (Hr & Hlen & He & Ht).
  rewrite /halt_step E. cbv zeta. destruct (lookup_lt_is_Some_2 _ _ Hk) as [sub Hs]. rewrite Hs.
  specialize (Ht sub Hs). destruct (0 <=? socket_fd sub) eqn:Efd; bool_to_prop.
  - rewrite (list_alter_insert _ _ _ _ Hs). split; [|split].
    + apply (ledger_insert _ k sub (set_fd (-1) sub) [Closed (socket_fd sub)] Hl Hs); [done|].
      by rewrite /live (proj2 (Z.leb_le _ _)).
    + eapply held_insert; [done|exact Hs|done|]. by right; left.
    + split; [|done]. cbn [halt receiver loops set_subs record_event subscriptions_ running_]. rewrite length_insert.
      split; [done|]. split; [done|]. eapply emptied_S; [by apply emptied_insert|by rewrite list_lookup_insert_eq|done|done].
  - split; [done|]. split; [done|]. split; [|done]. cbn [halt receiver loops].
    split; [done|]. split; [done|]. eapply emptied_S; [done|exact Hs|done|lia].
Qed.

Lemma halt_clear_inv s : threads_inv s → halt s = ToClear → threads_inv (halt_step s).
Proof.
  intros (Hl & Hh & Hp & _) E. rewrite E in Hp. destruct Hp as (Hr & He).
  rewrite /halt_step E. rewrite /emptied take_ge // Forall_forall in He. split; [|split].
  - rewrite /ledger in Hl |- *. cbn [receiver set_subs mc_trace subscriptions_ fmap list_fmap concat]. rewrite Hl.
    have -> : concat (live <$> subscriptions_ (receiver s)) = []; [|done].
    clear -He. revert He. induction (subscriptions_ (receiver s)) as [|sub subs IH]; intros He; [done|].
    cbn. rewrite live_idle; [by destruct (He sub); [left|]|]. apply IH. intros x Hx. apply He. by right.
  - intros j p Hj Hne. destruct (Hh j p Hj Hne) as (sub & Hs & _ & Ht).
    apply list_elem_of_lookup_2 in Hs. destruct (He sub Hs). congruence.
  - by split.
Qed.

Lemma halt_step_inv s : threads_inv s → threads_inv (halt_step s).
Proof.
  intros Hinv. destruct (halt s) as [|k|k|k| |] eqn:E.
  - have [Hl [Hh [Hp _]]] := Hinv. rewrite E in Hp. destruct Hp as [Hr Hlen].
    rewrite /halt_step E Hr. split; [done|]. split; [done|]. split; [|done].
    split; [done|]. split; [done|]. constructor.
  - by eapply halt_flag_inv.
  - by eapply halt_join_inv.
  - by eapply halt_close_inv.
  - by apply halt_clear_inv.
  - by rewrite /halt_step E.
Qed.

(** *** Steps of the threads *)

(** The packet a thread may still deliver after the flag was cleared. *)
Definition in_flight (p : recv_point) : nat :=
  match p with AtRecvfrom | AtResult _ => 1 | _ => 0 end.

Definition deliveries_only (ev : list mc_event) : Prop :=
  Forall (λ e, match e with Delivered _ _ _ => True | _ => False end) ev.

Section Moves.
Context `{env : McastEnv}.

(** What a step of a thread does. *)
Definition loop_effect (p : recv_point) (r : MulticastReceiver) (p' : recv_point) (r' : MulticastReceiver) : Prop :=
  ∃ ev k, r' = mkReceiver (data_callback_ r) (subscriptions_ r) (running_ r) (mc_trace r ++ ev) (mc_ticks r + k)
    ∧ deliveries_only ev ∧ (length ev ≤ 1)%nat
    ∧ (running_ r = false →
       (loop_left p' ≤ pred (loop_left p))%nat ∧ (length ev + in_flight p' ≤ in_flight p)%nat).

Lemma loop_effect_quiet p r p' k :
  (running_ r = false → (loop_left p' ≤ pred (loop_left p))%nat ∧ (in_flight p' ≤ in_flight p)%nat) →
  loop_effect p r p'
    (mkReceiver (data_callback_ r) (subscriptions_ r) (running_ r) (mc_trace r) (mc_ticks r + k)).
Proof. intros H. exists [], k. rewrite app_nil_r. split; [done|]. split; [constructor|]. split; [cbn; lia|done]. Qed.

Lemma loop_effect_same p r p' :
  (running_ r = false → (loop_left p' ≤ pred (loop_left p))%nat ∧ (in_flight p' ≤ in_flight p)%nat) →
  loop_effect p r p' r.
Proof. intros H. pose proof (loop_effect_quiet p r p' 0 H) as Hq. rewrite Nat.add_0_r in Hq. by destruct r. Qed.

Lemma loop_step_spec i p r sub :
  subscriptions_ r !! i = Some sub →
  ∃ r' p', loop_step i p r = (r', Ok p') ∧ loop_effect p r p' r'.
Proof.
  intros Hi. rewrite /loop_step /mc_ask. destruct (decide (p = Ended)) as [->|Hne].
  { exists r, Ended. split; [done|]. apply loop_effect_same. cbn. lia. }
  destruct p as [| | |[data|e]|]; run_method; rewrite ?bool_decide_false // ?Hi.
  - eexists _, _. split; [done|]. apply loop_effect_same. intros _. by destruct (socket_fd sub <? 0); cbn; lia.
  - eexists _, _. split; [done|]. apply loop_effect_same. intros ->. cbn. lia.
  - eexists _, _. split; [done|]. pose proof (loop_effect_quiet AtRecvfrom r (AtResult (mc_recvfrom (mc_ticks r))) 1) as H.
    rewrite Nat.add_1_r in H. apply H. intros _. cbn. lia.
  - destruct (_ && _); eexists _, _; (split; [done|]); [|by apply loop_effect_same; cbn; lia].
    eexists [_], 0%nat. rewrite Nat.add_0_r. split; [done|]. split; [by repeat constructor|]. cbn. lia.
  - destruct e; (eexists _, _; split; [done|]); apply loop_effect_same; intros Hr; rewrite ?Hr; cbn; lia.
Qed.

Lemma loop_effect_ledger p r p' r' : loop_effect p r p' r' → ledger r → ledger r'.
Proof.
  intros (ev & k & -> & Hev & _) Hl. rewrite /ledger in Hl |- *. cbn [mc_trace subscriptions_].
  rewrite opened_app closed_fds_app. have [-> ->] : opened ev = [] ∧ closed_fds ev = [].
  { induction Hev as [|e ev He _ [IH1 IH2]]; [done|]. by destruct e. }
  by rewrite !app_nil_r.
Qed.

(** A step of a thread in the system. *)
Lemma receiving_step s i p :
  threads_inv s → loops s !! i = Some p →
  ∃ r' p', move (Receiving i) s = (mkReceiverSystem r' (<[i := p']> (loops s)) (halt s), Ok tt)
    ∧ threads_inv (mkReceiverSystem r' (<[i := p']> (loops s)) (halt s)) ∧ loop_effect p (receiver s) p' r'.
Proof.
  intros (Hl & Hh & Hp) Hi. cbn [move]. rewrite Hi. destruct (decide (p = Ended)) as [->|Hne].
  - exists (receiver s), Ended. change (loop_step i Ended (receiver s)) with (receiver s, @Ok recv_point Ended).
    split; [done|]. rewrite list_insert_id //. split; [by destruct s|]. apply loop_effect_same. cbn. lia.
  - destruct (Hh i p Hi Hne) as (sub & Hs & Hfd & Ht).
    destruct (loop_step_spec i p (receiver s) sub Hs) as (r' & p' & E & He).
    exists r', p'. rewrite E. split; [done|]. split; [|done].
    have Hl' := loop_effect_ledger _ _ _ _ He Hl. destruct He as (ev & k & -> & _).
    split; [done|]. split.
    + intros j q Hj Hq. cbn [loops receiver subscriptions_] in *. destruct (decide (i = j)) as [<-|Hij]; [by exists sub|].
      rewrite list_lookup_insert_ne // in Hj. by eapply Hh.
    + rewrite /progress in Hp |- *. cbn [halt loops receiver subscriptions_ running_]. by rewrite length_insert.
Qed.

Lemma move_inv a s :
  threads_inv s → ∃ s', move a s = (s', Ok tt) ∧ threads_inv s' ∧ length (loops s') = length (loops s).
Proof.
  intros Hinv. destruct a as [i|].
  - destruct (loops s !! i) as [p|] eqn:Hi; [|exists s; cbn [move]; by rewrite Hi].
    destruct (receiving_step s i p Hinv Hi) as (r' & p' & E & Hinv' & _). eexists. split; [exact E|].
    split; [done|]. by rewrite /= length_insert.
  - exists (halt_step s). split; [done|]. split; [by apply halt_step_inv|].
    rewrite /halt_step. destruct (halt s) as [|k|k|k| |]; repeat case_match; done.
Qed.

Lemma run_moves_inv movers s :
  threads_inv s → ∃ s', run_moves movers s = (s', Ok tt) ∧ threads_inv s' ∧ length (loops s') = length (loops s).
Proof.
  revert s. induction movers as [|a movers IH]; intros s Hinv; [by exists s|].
  destruct (move_inv a s Hinv) as (s1 & E & H1 & El). destruct (IH s1 H1) as (s' & E' & H' & El').
  exists s'. cbn [run_moves]. rewrite (method_bind_Ok _ _ _ _ _ E). split; [done|]. split; [done|congruence].
Qed.

End Moves.

(** *** The end of [stop] *)

(** A step of [stop] that is not blocked in [join] brings its end closer. *)
Lemma halt_step_closer s :
  threads_inv s → halt s ≠ Halted → (halt s = ToSignal ∨ Forall (.= Ended) (loops s)) →
  (left_to_do (halt_step s) < left_to_do s)%nat.
Proof.
  intros (_ & _ & Hp & Hk) Hne Hfree. rewrite /left_to_do.
  have El : loops (halt_step s) = loops s.
  { rewrite /halt_step. destruct (halt s) as [|k|k|k| |]; repeat case_match; done. }
  rewrite El. apply Nat.add_lt_mono_l. rewrite /halt_step.
  destruct (halt s) as [|k|k|k| |] eqn:E; cbn [halt_left] in *.
  - rewrite (proj1 Hp). cbn [halt halt_left]. lia.
  - destruct Hp as (_ & Hlen & _). destruct (k <? _)%nat eqn:Ek; bool_to_prop; cbn [halt halt_left]; lia.
  - destruct Hp as (_ & Hlen & _). destruct (lookup_lt_is_Some_2 _ _ Hk) as [sub Hs]. rewrite Hs.
    have He : loops s !! k = Some Ended.
    { destruct Hfree as [|Hall]; [done|]. destruct (lookup_lt_is_Some_2 (loops s) k) as [p Hpk]; [lia|].
      rewrite Hpk. by rewrite (Forall_lookup_1 _ _ _ _ Hall Hpk). }
    destruct (receiver_thread sub); [rewrite bool_decide_true //|]; cbn [halt halt_left]; lia.
  - destruct Hp as (_ & Hlen & _). destruct (lookup_lt_is_Some_2 _ _ Hk) as [sub Hs]. rewrite Hs.
    destruct (0 <=? socket_fd sub); cbn [halt halt_left]; lia.
  - cbn. lia.
  - done.
Qed.

(** The sockets are released and the threads gone. *)
Definition all_released (s : receiver_system) : Prop :=
  halt s = Halted ∧ Forall (.= Ended) (loops s) ∧ subscriptions_ (receiver s) = []
  ∧ running_ (receiver s) = false
  ∧ opened (mc_trace (receiver s)) ≡ₚ closed_fds (mc_trace (receiver s)).

Lemma halted_released s : threads_inv s → halt s = Halted → all_released s.
Proof.
  intros (Hl & Hh & Hp & _) E. rewrite E in Hp. destruct Hp as [Hr Hs]. split; [done|]. split; [|split; [done|]].
  - apply Forall_lookup. intros i p Hi. destruct (decide (p = Ended)) as [|Hne]; [done|].
    destruct (Hh i p Hi Hne) as (sub & Hsub & _). by rewrite Hs in Hsub.
  - split; [done|]. rewrite /ledger Hs in Hl. by rewrite app_nil_r in Hl.
Qed.

Section Finishing.
Context `{env : McastEnv}.

Lemma signalled_running s : threads_inv s → halt s ≠ ToSignal → running_ (receiver s) = false.
Proof. intros (_ & _ & Hp & _) Hne. destruct (halt s); [done|apply Hp..]. Qed.

(** Someone can always move. *)
Lemma some_move s :
  threads_inv s → halt s ≠ Halted →
  ∃ a s', move a s = (s', Ok tt) ∧ threads_inv s' ∧ (left_to_do s' < left_to_do s)%nat.
Proof.
  intros Hinv Hne. destruct (decide (Forall (.= Ended) (loops s))) as [Hall|Hnot].
  { exists Halting, (halt_step s). split; [done|]. split; [by apply halt_step_inv|]. apply halt_step_closer; auto. }
  destruct (decide (halt s = ToSignal)) as [E|E].
  { exists Halting, (halt_step s). split; [done|]. split; [by apply halt_step_inv|]. apply halt_step_closer; auto. }
  apply not_Forall_Exists in Hnot; [|intros x; apply _].
  apply Exists_exists in Hnot as (p & Hp & Hpe). apply list_elem_of_lookup in Hp as [i Hi].
  destruct (receiving_step s i p Hinv Hi) as (r' & p' & Em & Hinv' & (ev & k & _ & _ & _ & Hleft)).
  exists (Receiving i). eexists. split; [exact Em|]. split; [done|].
  destruct (Hleft (signalled_running s Hinv E)) as [Hlt _]. rewrite /left_to_do. cbn [loops halt]. rewrite length_insert.
  pose proof (sum_insert loop_left (loops s) i p' p Hi). have : (0 < loop_left p)%nat by destruct p; [cbn; lia..|by destruct Hpe].
  lia.
Qed.

Lemma stop_finishes s :
  threads_inv s →
  ∃ rest s', (length rest ≤ left_to_do s)%nat ∧ run_moves rest s = (s', Ok tt) ∧ all_released s'.
Proof.
  remember (left_to_do s) as n eqn:En. revert s En. induction n as [n IH] using lt_wf_ind. intros s -> Hinv.
  destruct (decide (halt s = Halted)) as [E|E]; [by exists [], s; split; [cbn; lia|]; split; [|apply halted_released]|].
  destruct (some_move s Hinv E) as (a & s1 & Em & H1 & Hlt).
  destruct (IH _ Hlt s1 eq_refl H1) as (rest & s' & Hle & Er & Hrel).
  exists (a :: rest), s'. split; [cbn; lia|]. split; [|done]. cbn [run_moves].
  by rewrite (method_bind_Ok _ _ _ _ _ Em).
Qed.

End Finishing.

(** *** What is still delivered *)

Definition delivered (t : list mc_event) : nat :=
  sum_list_with (λ e, match e with Delivered _ _ _ => 1 | _ => 0 end)%nat t.
(** Packets delivered, and packets the threads may still deliver. *)
Definition delivered_at_most (s : receiver_system) : nat :=
  delivered (mc_trace (receiver s)) + sum_list_with in_flight (loops s).

Lemma delivered_app t1 t2 : delivered (t1 ++ t2) = (delivered t1 + delivered t2)%nat.
Proof. apply sum_list_with_app. Qed.

Lemma deliveries_only_count ev : deliveries_only ev → delivered ev = length ev.
Proof. induction 1 as [|e ev He _ IH]; [done|]. destruct e; [done..|]. cbn. by rewrite -IH. Qed.

Lemma halt_step_delivered s :
  halt s ≠ ToSignal → halt (halt_step s) ≠ ToSignal ∧ delivered_at_most (halt_step s) = delivered_at_most s.
Proof.
  intros Hne. rewrite /halt_step /delivered_at_most.
  destruct (halt s) as [|k|k|k| |] eqn:E; [done|..]; repeat case_match; rewrite ?E; try done.
  cbn [receiver loops halt set_subs record_event mc_trace]. by rewrite delivered_app Nat.add_0_r.
Qed.

Section Delivered.
Context `{env : McastEnv}.

Lemma move_delivered a s s' :
  threads_inv s → halt s ≠ ToSignal → move a s = (s', Ok tt) →
  halt s' ≠ ToSignal ∧ (delivered_at_most s' ≤ delivered_at_most s)%nat.
Proof.
  intros Hinv Hne E. destruct a as [i|].
  - destruct (loops s !! i) as [p|] eqn:Hi; [|by rewrite /move Hi in E; injection E as <-].
    destruct (receiving_step s i p Hinv Hi) as (r' & p' & Em & _ & (ev & k & -> & Hev & _ & Hf)).
    rewrite Em in E. injection E as <-. split; [done|]. destruct (Hf (signalled_running s Hinv Hne)) as [_ Hle].
    rewrite /delivered_at_most. cbn [receiver loops mc_trace]. rewrite delivered_app (deliveries_only_count ev Hev).
    pose proof (sum_insert in_flight (loops s) i p' p Hi). lia.
  - injection E as <-. destruct (halt_step_delivered s Hne) as [? ->]. done.
Qed.

Lemma run_moves_delivered movers s s' :
  threads_inv s → halt s ≠ ToSignal → run_moves movers s = (s', Ok tt) →
  (delivered_at_most s' ≤ delivered_at_most s)%nat.
Proof.
  revert s. induction movers as [|a movers IH]; intros s Hinv Hne E; [by injection E as <-|].
  destruct (move_inv a s Hinv) as (s1 & E1 & H1 & _). cbn [run_moves] in E.
  rewrite (method_bind_Ok _ _ _ _ _ E1) in E. destruct (move_delivered a s s1 Hinv Hne E1) as [Hne1 Hle].
  specialize (IH s1 H1 Hne1 E). lia.
Qed.

(** The packets that the steps of thread [i] deliver in a run. *)
Fixpoint delivered_by (i : nat) (movers : list mover) (s : receiver_system) : nat :=
  match movers with
  | [] => 0%nat
  | a :: movers =>
      let s' := (move a s).1 in
      ((if bool_decide (a = Receiving i)
        then delivered (mc_trace (receiver s')) - delivered (mc_trace (receiver s)) else 0)
       + delivered_by i movers s')%nat
  end.

(** What thread [i] may still deliver. *)
Definition flight_of (i : nat) (s : receiver_system) : nat := from_option in_flight 0%nat (loops s !! i).

Lemma move_flight a i s s' :
  threads_inv s → halt s ≠ ToSignal → move a s = (s', Ok tt) →
  ((if bool_decide (a = Receiving i)
    then delivered (mc_trace (receiver s')) - delivered (mc_trace (receiver s)) else 0)
   + flight_of i s' ≤ flight_of i s)%nat.
Proof.
  intros Hinv Hne E. rewrite /flight_of. destruct a as [j|]; last first.
  { injection E as <-. rewrite bool_decide_false //.
    have -> : loops (halt_step s) = loops s; [|done].
    rewrite /halt_step. destruct (halt s) as [|k|k|k| |]; repeat case_match; done. }
  destruct (loops s !! j) as [p|] eqn:Hj; last first.
  { rewrite /move Hj in E. injection E as <-. rewrite Nat.sub_diag. by case_bool_decide. }
  destruct (receiving_step s j p Hinv Hj) as (r' & p' & Em & _ & (ev & k & -> & Hev & _ & Hf)).
  rewrite Em in E. injection E as <-. cbn [receiver loops mc_trace].
  destruct (Hf (signalled_running s Hinv Hne)) as [_ Hle]. case_bool_decide as Ea.
  - injection Ea as ->. rewrite Hj list_lookup_insert_eq; [by eapply lookup_lt_Some|].
    rewrite delivered_app (deliveries_only_count ev Hev). cbn [from_option]. lia.
  - rewrite list_lookup_insert_ne //. congruence.
Qed.

Lemma delivered_by_flight i movers s :
  threads_inv s → halt s ≠ ToSignal → (delivered_by i movers s ≤ flight_of i s)%nat.
Proof.
  revert s. induction movers as [|a movers IH]; intros s Hinv Hne; [cbn; lia|]. cbn [delivered_by].
  destruct (move_inv a s Hinv) as (s1 & E1 & H1 & _). rewrite E1. cbn [fst].
  destruct (move_delivered a s s1 Hinv Hne E1) as [Hne1 _].
  pose proof (move_flight a i s s1 Hinv Hne E1). specialize (IH s1 H1 Hne1). lia.
Qed.

Lemma flight_of_bound i s : (flight_of i s ≤ 1)%nat.
Proof. rewrite /flight_of. destruct (loops s !! i) as [[]|]; cbn; lia. Qed.

End Delivered.

Lemma sum_bounded (f : recv_point → nat) b l : (∀ p, f p ≤ b)%nat → (sum_list_with f l ≤ b * length l)%nat.
Proof. intros Hf. induction l as [|p l IH]; cbn; [lia|]. specialize (Hf p). lia. Qed.

Lemma left_to_do_bound s : threads_inv s → (left_to_do s ≤ 6 * length (loops s) + 3)%nat.
Proof.
  intros _. rewrite /left_to_do.
  have H3 : (sum_list_with loop_left (loops s) ≤ 3 * length (loops s))%nat.
  { apply sum_bounded. intros []; cbn; lia. }
  destruct (halt s); cbn [halt_left]; lia.
Qed.

Lemma receiver_threads_start r ls :
  receiver_inv r → running_ r = true → length ls = length (subscriptions_ r) →
  (∀ i sub, subscriptions_ r !! i = Some sub → receiver_thread sub = false → ls !! i = Some Ended) →
  threads_inv (mkReceiverSystem r ls ToSignal).
Proof.
  intros (Hl & Hok & _) Hr Hlen Hls. split; [done|]. split; [|by split].
  intros i p Hi Hne. cbn [loops receiver] in *.
  destruct (lookup_lt_is_Some_2 (subscriptions_ r) i) as [sub Hs]; [rewrite -Hlen; by eapply lookup_lt_Some|].
  exists sub. destruct (receiver_thread sub) eqn:Et; [|by rewrite (Hls i sub Hs Et) in Hi; injection Hi as <-].
  destruct (Forall_lookup_1 _ _ _ _ Hok Hs Et). done.
Qed.

(** ** Properties *)

(** C14: stopping a receiver races with nothing: from every reachable running
    receiver, with its threads anywhere in their loops, the steps of the threads
    and of [stop] may interleave in any order; no step is undefined, a thread
    that has not ended still has its subscription, unfreed, with an open socket
    (the socket is closed and the subscription freed only after [join]), once
    the flag is cleared the steps of each thread deliver at most one more packet
    (so in total no more than there are threads), and [stop] can always
    complete, within six steps per subscription and three more, with all threads
    ended and every socket that was opened closed. *)
Theorem receiver_stop_race_free `{env : McastEnv} r ls movers (Hr : mc_reach r) (Hrun : running_ r = true)
    (Hlen : length ls = length (subscriptions_ r))
    (Hls : ∀ i sub, subscriptions_ r !! i = Some sub → receiver_thread sub = false → ls !! i = Some Ended) :
  ∃ s, run_moves movers (mkReceiverSystem r ls ToSignal) = (s, Ok tt) ∧ sockets_held s
    ∧ (∀ more s', halt s ≠ ToSignal → run_moves more s = (s', Ok tt) →
         (delivered (mc_trace (receiver s')) ≤ delivered (mc_trace (receiver s)) + length ls)%nat
         ∧ ∀ i, (delivered_by i more s ≤ 1)%nat)
    ∧ ∃ rest s', (length rest ≤ 6 * length ls + 3)%nat ∧ run_moves rest s = (s', Ok tt) ∧ all_released s'.
Proof.
  have H0 := receiver_threads_start r ls (mc_reach_inv r Hr) Hrun Hlen Hls.
  destruct (run_moves_inv movers _ H0) as (s & E & Hinv & El). cbn [loops] in El.
  exists s. split; [done|]. split; [apply Hinv|]. split.
  - intros more s' Hne E'. split; last first.
    { intros i. etrans; [by apply delivered_by_flight|apply flight_of_bound]. }
    pose proof (run_moves_delivered more s s' Hinv Hne E') as Hle.
    rewrite /delivered_at_most in Hle. have Hf : (sum_list_with in_flight (loops s) ≤ 1 * length (loops s))%nat.
    { apply sum_bounded. intros []; cbn; lia. }
    rewrite El in Hf. lia.
  - destruct (stop_finishes s Hinv) as (rest & s' & Hle & E' & Hrel). exists rest, s'.
    split; [|done]. pose proof (left_to_do_bound s Hinv). rewrite El in H. lia.
Qed.

(** *** Sample data *)

Lemma receiver_stop_race_free_witness :
  let env : McastEnv := sample_mcast_env in
  let r := (mc_exec McStart sample_receiver).1 in
  let ls := [Ended; AtRecvfrom] in
  ∃ s, run_moves [Halting; Receiving 1; Halting; Receiving 1] (mkReceiverSystem r ls ToSignal) = (s, Ok tt)
    ∧ sockets_held s
    ∧ (∀ more s', halt s ≠ ToSignal → run_moves more s = (s', Ok tt) →
         (delivered (mc_trace (receiver s')) ≤ delivered (mc_trace (receiver s)) + length ls)%nat
         ∧ ∀ i, (delivered_by i more s ≤ 1)%nat)
    ∧ ∃ rest s', (length rest ≤ 6 * length ls + 3)%nat ∧ run_moves rest s = (s', Ok tt) ∧ all_released s'.
Proof.
  intros env r ls. apply (receiver_stop_race_free (env := env) r ls); [|reflexivity|reflexivity|].
  - apply (mc_reach_step (env := env)), sample_receiver_reach.
  - intros [|[|i]] sub; vm_compute; [by intros [= <-]|by intros [= <-]|done].
Defined.
