(* ===== verification/LoggerThreads.v ===== *)
(** * The logger under several threads

    The receivers', the client's and the application's threads log through the
    same two streams.  A statement [LOG_X << a << b;] reads the minimum level
    without a lock, collects its text in a stream of its own, and prints it in
    [logMessage] under [log_mutex], one [<<] after the other; [setLogLevel]
    takes the same mutex.  Here these are the steps of a thread, and threads
    interleave between any two of them.  The specification is the sequential
    logger of Logger.v: whole calls of [logMessage] and [setLogLevel], in the
    order in which the mutex was taken.

    Each access is atomic: the unlocked read of the level in
    [getCurrentLogLevel] is formally a data race with [setLogLevel]. *)

From S2P Require Import Prelude CppStd Logger.

(** ** Definitions *)

(** What a thread does: log statements and changes of the level. *)
Inductive log_op : Type :=
| Statement (level : LogLevel) (file : list Z) (line : Z) (texts : list (list Z))
| SetLevel (level : LogLevel).

(** The calls that take the mutex. *)
Inductive log_call : Type :=
| CallLog (level : LogLevel) (message file : list Z) (line : Z)
| CallSet (level : LogLevel).

(** Where a thread is: between two operations, with a composer and the texts
    still to be appended, before [lock], after it, and in [logMessage] with the
    operands of [<<] still to be written (none: about to unlock). *)
Inductive log_thread : Type :=
| Ready (ops : list log_op)
| Composing (c : LogMessageStreamComposer) (texts : list (list Z)) (ops : list log_op)
| Locking (call : log_call) (ops : list log_op)
| Locked (call : log_call) (ops : list log_op)
| Writing (to_cerr : bool) (operands : list (list Z)) (ops : list log_op).

(** [log_mutex]: the thread that holds it.  [history] lists the calls in the
    order in which they took the mutex. *)
Record log_system : Type := mkLogSystem {
  logger : Logger;
  log_mutex : option nat;
  log_threads : list log_thread;
  history : list (nat * log_call);
}.

(** The composer's constructor, for a logger [g]. *)
Definition composer_of (g : Logger) (level : LogLevel) (file : list Z) (line : Z)
    : LogMessageStreamComposer :=
  mkComposer [] level file line (level_value (current_min_log_level g) <=? level_value level).

(** [output_stream << text]. *)
Definition write_to (to_cerr : bool) (text : list Z) (g : Logger) : Logger :=
  if to_cerr then mkLogger (current_min_log_level g) (cout g) (cerr g ++ text) (log_ticks g)
  else mkLogger (current_min_log_level g) (cout g ++ text) (cerr g) (log_ticks g).
Definition log_tick (g : Logger) : Logger :=
  mkLogger (current_min_log_level g) (cout g) (cerr g) (S (log_ticks g)).
Definition is_to_cerr (level : LogLevel) : bool :=
  bool_decide (level = ERROR) || bool_decide (level = WARNING).

Section Steps.
Context `{env : LogEnv}.

(** The operands of [<<] in [logMessage], in order. *)
Definition log_operands (now : Z) (level : LogLevel) (message file : list Z) (line : Z)
    : list (list Z) :=
  [str "["; log_localtime (Z.quot now 1000000000);
   str "."; setw 3 48 (to_string (Z.rem (Z.quot now 1000000) 1000)); str "] ";
   level_tag level;
   str "["; base_file_name file; str ":"; to_string line; str "] ";
   message; [10]].

(** The next step of thread [i]; a thread that has finished, or waits for the
    mutex, stays where it is. *)
Definition logger_step (i : nat) (s : log_system) : log_system :=
  let '(mkLogSystem g mutex ts h) := s in
  let move t := mkLogSystem g mutex (<[i := t]> ts) h in
  match ts !! i with
  | None | Some (Ready []) => s
  | Some (Ready (Statement level file line texts :: ops)) =>
      move (Composing (composer_of g level file line) texts ops)
  | Some (Ready (SetLevel level :: ops)) => move (Locking (CallSet level) ops)
  | Some (Composing c (text :: texts) ops) => move (Composing (getStream_write text c) texts ops)
  | Some (Composing c [] ops) =>
      if _is_active c && negb (length (_stream c) =? 0)%nat
      then move (Locking (CallLog (_level c) (_stream c) (_file c) (_line c)) ops)
      else move (Ready ops)
  | Some (Locking call ops) =>
      match mutex with
      | Some _ => s
      | None => mkLogSystem g (Some i) (<[i := Locked call ops]> ts) (h ++ [(i, call)])
      end
  | Some (Locked (CallSet level) ops) =>
      mkLogSystem (mkLogger level (cout g) (cerr g) (log_ticks g)) mutex
        (<[i := Writing false [] ops]> ts) h
  | Some (Locked (CallLog level message file line) ops) =>
      if level_value level <? level_value (current_min_log_level g)
      then move (Writing false [] ops)
      else
        mkLogSystem (log_tick g) mutex
          (<[i := Writing (is_to_cerr level)
                    (log_operands (log_clock (log_ticks g)) level message file line) ops]> ts) h
  | Some (Writing to_cerr (operand :: operands) ops) =>
      mkLogSystem (write_to to_cerr operand g) mutex (<[i := Writing to_cerr operands ops]> ts) h
  | Some (Writing to_cerr [] ops) => mkLogSystem g None (<[i := Ready ops]> ts) h
  end.

(** The threads make their steps in the order of [schedule]. *)
Definition log_run (schedule : list nat) (s : log_system) : log_system :=
  foldl (λ s i, logger_step i s) s schedule.

(** *** Specification: whole calls, one after the other *)

Definition call_method (call : log_call) : method Logger unit :=
  match call with
  | CallLog level message file line => logMessage level message file line
  | CallSet level => setLogLevel level
  end.
Definition run_call (g : Logger) (call : log_call) : Logger := (call_method call g).1.
Definition run_calls (g : Logger) (calls : list log_call) : Logger := foldl run_call g calls.

End Steps.

Definition log_start (g : Logger) (programs : list (list log_op)) : log_system :=
  mkLogSystem g None (Ready <$> programs) [].

(** The call an operation makes if it prints. *)
Definition call_of (op : log_op) : log_call :=
  match op with
  | Statement level file line texts => CallLog level (concat texts) file line
  | SetLevel level => CallSet level
  end.

(** The calls of thread [i] so far. *)
Definition calls_by (i : nat) (s : log_system) : list log_call :=
  (filter (λ e, e.1 = i) (history s)).*2.

(** A statement that prints at the level [m], and one that is no change of
    level. *)
Definition prints (m : LogLevel) (call : log_call) : bool :=
  match call with
  | CallLog level message _ _ =>
      (level_value m <=? level_value level) && negb (length message =? 0)%nat
  | CallSet _ => true
  end.
Definition is_statement (op : log_op) : Prop :=
  match op with Statement _ _ _ _ => True | SetLevel _ => False end.

Definition holding (t : log_thread) : bool :=
  match t with Locked _ _ | Writing _ _ _ => true | _ => false end.
Definition finished (t : log_thread) : Prop := t = Ready [].

(** The steps a thread has left, at most. *)
Definition op_work (op : log_op) : nat :=
  match op with Statement _ _ _ texts => 18 + length texts | SetLevel _ => 18 end.
Definition log_thread_work (t : log_thread) : nat :=
  match t with
  | Ready ops => sum_list_with op_work ops
  | Composing _ texts ops => 17 + length texts + sum_list_with op_work ops
  | Locking _ ops => 16 + sum_list_with op_work ops
  | Locked _ ops => 15 + sum_list_with op_work ops
  | Writing _ operands ops => 1 + length operands + sum_list_with op_work ops
  end.
Definition log_work (s : log_system) : nat := sum_list_with log_thread_work (log_threads s).

(** ** Lemmas *)

Section Basics.
Context `{env : LogEnv}.

Lemma composer_of_eq level file line g :
  LogMessageStreamComposer_new level file line g = (g, Ok (composer_of g level file line)).
Proof. rewrite /LogMessageStreamComposer_new /getCurrentLogLevel. by run_method. Qed.

Lemma log_operands_line now level message file line :
  concat (log_operands now level message file line) = log_line now level message file line.
Proof. done. Qed.

Lemma write_to_app e t1 t2 g : write_to e (t1 ++ t2) g = write_to e t2 (write_to e t1 g).
Proof. destruct e; by rewrite /write_to /= app_assoc. Qed.

Lemma write_to_nil e g : write_to e [] g = g.
Proof. destruct e, g; by rewrite /write_to /= app_nil_r. Qed.

Lemma run_call_log g level message file line :
  run_call g (CallLog level message file line) =
  if level_value level <? level_value (current_min_log_level g) then g
  else write_to (is_to_cerr level)
         (concat (log_operands (log_clock (log_ticks g)) level message file line)) (log_tick g).
Proof.
  rewrite log_operands_line /run_call /= /logMessage. run_method.
  destruct (_ <? _); [done|]. rewrite /is_to_cerr. by destruct (_ || _).
Qed.

Lemma run_calls_app g l1 l2 : run_calls g (l1 ++ l2) = run_calls (run_calls g l1) l2.
Proof. apply foldl_app. Qed.

Lemma run_call_prefix g call :
  cout g `prefix_of` cout (run_call g call) ∧ cerr g `prefix_of` cerr (run_call g call).
Proof.
  destruct call as [level message file line|level]; [|by rewrite /run_call /= /setLogLevel; run_method].
  rewrite run_call_log. destruct (_ <? _); [done|]. rewrite /write_to.
  destruct (is_to_cerr level); cbn; split; try done; by eexists.
Qed.

End Basics.

(** *** One thread moves *)

(** What the logger becomes when the holder [t] of the mutex has finished. *)
Definition outcome_of `{LogEnv} (t : log_thread) (g : Logger) : Logger :=
  match t with
  | Locked call _ => run_call g call
  | Writing to_cerr operands _ => write_to to_cerr (concat operands) g
  | _ => g
  end.

(** The calls a thread can still make. *)
Definition remaining (t : log_thread) : list log_call :=
  match t with
  | Ready ops | Locked _ ops | Writing _ _ ops => call_of <$> ops
  | Composing c texts ops =>
      (if _is_active c
       then [CallLog (_level c) (_stream c ++ concat texts) (_file c) (_line c)] else [])
      ++ (call_of <$> ops)
  | Locking call ops => call :: (call_of <$> ops)
  end.

Record log_inv `{LogEnv} (g0 : Logger) (programs : list (list log_op)) (s : log_system) : Prop := {
  li_mutex : ∀ i t, log_threads s !! i = Some t → holding t = true ↔ log_mutex s = Some i;
  li_state : match log_mutex s with
             | None => logger s = run_calls g0 (history s).*2
             | Some i => ∃ t, log_threads s !! i = Some t
                           ∧ outcome_of t (logger s) = run_calls g0 (history s).*2
             end;
  li_calls : ∀ i t p, log_threads s !! i = Some t → programs !! i = Some p →
             (calls_by i s ++ remaining t) `sublist_of` (call_of <$> p);
}.

Section Invariant.
Context `{env : LogEnv} (g0 : Logger) (programs : list (list log_op)).

Lemma calls_by_enter i j call s ts m g :
  calls_by i (mkLogSystem g m ts (history s ++ [(j, call)]))
  = calls_by i s ++ (if decide (j = i) then [call] else []).
Proof.
  rewrite /calls_by /= filter_app fmap_app filter_cons filter_nil /=. by destruct (decide (j = i)).
Qed.

(** A step outside the mutex. *)
Lemma inv_outside i t t' s :
  log_inv g0 programs s → log_threads s !! i = Some t →
  holding t = false → holding t' = false → remaining t' `sublist_of` remaining t →
  log_inv g0 programs (mkLogSystem (logger s) (log_mutex s) (<[i := t']> (log_threads s)) (history s)).
Proof.
  intros [Hm Hs Hc] Hi Ht Ht' Hr. split; cbn.
  - intros j u [(<- & <- & _)|[Hne Hu]]%list_lookup_insert_Some; [|by apply Hm].
    by rewrite Ht' -(Hm i t Hi) Ht.
  - destruct (log_mutex s) as [k|] eqn:Ek; [|done]. destruct Hs as (u & Hu & Hs). exists u. split; [|done].
    rewrite list_lookup_insert_ne //. intros ->.
    have [_ H] := Hm k t Hi. by rewrite H in Ht.
  - intros j u p [(<- & <- & _)|[Hne Hu]]%list_lookup_insert_Some Hp; [|by eapply Hc].
    etrans; [|by eapply (Hc i t p)]. rewrite -/(calls_by i s). by apply sublist_app.
Qed.

(** A step of the holder. *)
Lemma inv_inside i t t' s g' :
  log_inv g0 programs s → log_threads s !! i = Some t →
  holding t = true → holding t' = true → remaining t' = remaining t →
  outcome_of t' g' = outcome_of t (logger s) →
  log_inv g0 programs (mkLogSystem g' (log_mutex s) (<[i := t']> (log_threads s)) (history s)).
Proof.
  intros [Hm Hs Hc] Hi Ht Ht' Hr Ho. have Hown := proj1 (Hm i t Hi) Ht. split; cbn.
  - intros j u [(<- & <- & _)|[Hne Hu]]%list_lookup_insert_Some; [by rewrite Ht' Hown|by apply Hm].
  - rewrite Hown in Hs |- *. destruct Hs as (u & Hu & Hs). rewrite Hi in Hu. injection Hu as <-.
    exists t'. rewrite list_lookup_insert_eq ?Ho; [|done]. by eapply lookup_lt_Some.
  - intros j u p [(<- & <- & _)|[Hne Hu]]%list_lookup_insert_Some Hp; [|by eapply Hc].
    rewrite Hr. by eapply (Hc i t p).
Qed.

(** The free mutex is taken. *)
Lemma inv_take_mutex i call ops s :
  log_inv g0 programs s → log_threads s !! i = Some (Locking call ops) → log_mutex s = None →
  log_inv g0 programs (mkLogSystem (logger s) (Some i) (<[i := Locked call ops]> (log_threads s))
                         (history s ++ [(i, call)])).
Proof.
  intros [Hm Hs Hc] Hi Hfree. rewrite Hfree in Hs. split; cbn [log_mutex log_threads logger history].
  - intros j u [(<- & <- & _)|[Hne Hu]]%list_lookup_insert_Some; [done|].
    rewrite (Hm j u Hu) Hfree. naive_solver.
  - exists (Locked call ops). split; [by apply list_lookup_insert_eq; eapply lookup_lt_Some|].
    by rewrite fmap_app run_calls_app -Hs.
  - intros j u p [(<- & <- & _)|[Hne Hu]]%list_lookup_insert_Some Hp; rewrite calls_by_enter.
    + rewrite decide_True // -app_assoc. by eapply (Hc i (Locking call ops) p).
    + rewrite decide_False // app_nil_r. by eapply Hc.
Qed.

(** The holder unlocks the mutex. *)
Lemma inv_release_mutex i e ops s :
  log_inv g0 programs s → log_threads s !! i = Some (Writing e [] ops) →
  log_inv g0 programs (mkLogSystem (logger s) None (<[i := Ready ops]> (log_threads s)) (history s)).
Proof.
  intros [Hm Hs Hc] Hi. have Hown := proj1 (Hm i _ Hi) eq_refl. rewrite Hown in Hs.
  split; cbn [log_mutex log_threads logger history].
  - intros j u [(<- & <- & _)|[Hne Hu]]%list_lookup_insert_Some; [done|].
    rewrite (Hm j u Hu) Hown. naive_solver.
  - destruct Hs as (t & Ht & Hs). rewrite Hi in Ht. injection Ht as <-.
    cbn [outcome_of concat] in Hs. by rewrite write_to_nil in Hs.
  - intros j u p [(<- & <- & _)|[Hne Hu]]%list_lookup_insert_Some Hp; [|by eapply Hc].
    by eapply (Hc i (Writing e [] ops) p).
Qed.

Lemma remaining_write c text texts ops :
  remaining (Composing (getStream_write text c) texts ops) = remaining (Composing c (text :: texts) ops).
Proof.
  cbn [remaining]. rewrite /getStream_write. destruct (_is_active c) eqn:Ea; [|by rewrite Ea].
  by rewrite /= -app_assoc.
Qed.

(** Every step keeps the invariant. *)
Lemma logger_step_inv i s : log_inv g0 programs s → log_inv g0 programs (logger_step i s).
Proof.
  intros Hinv. destruct s as [g m ts h]. cbn [logger_step]. pose proof Hinv as Hs.
  destruct (ts !! i) as [[[|[level file line texts|level] ops]|c [|text texts] ops|call ops|[level message file line|level] ops
    |e [|operand operands] ops]|] eqn:Hi; [done| | | | | | | | | |done].
  - apply (inv_outside i _ _ _ Hinv Hi); [done..|]. cbn. destruct (_ <=? _); [done|]. by constructor.
  - by apply (inv_outside i _ _ _ Hinv Hi).
  - destruct (_is_active c) eqn:Ea; cbn [andb];
      [destruct (length (_stream c) =? 0)%nat; cbn [negb]|];
      apply (inv_outside i _ _ _ Hinv Hi); try done; cbn; rewrite Ea /= ?app_nil_r; try done.
    by constructor.
  - apply (inv_outside i _ _ _ Hinv Hi); [done..|]. by rewrite remaining_write.
  - destruct m; [done|]. by apply (inv_take_mutex i call ops _ Hinv Hi).
  - destruct (_ <? _) eqn:Ec; apply (inv_inside i _ _ _ _ Hinv Hi); try done;
      cbn [outcome_of logger concat]; rewrite run_call_log Ec; [by rewrite write_to_nil|done].
  - apply (inv_inside i _ _ _ _ Hinv Hi); try done. cbn [outcome_of concat]. by rewrite write_to_nil.
  - by apply (inv_release_mutex i e ops _ Hinv Hi).
  - apply (inv_inside i _ _ _ _ Hinv Hi); try done. cbn [outcome_of concat logger]. by rewrite write_to_app.
Qed.

Lemma log_run_inv schedule s : log_inv g0 programs s → log_inv g0 programs (log_run schedule s).
Proof.
  revert s. induction schedule as [|i schedule IH]; intros s Hs; [done|]. by apply IH, logger_step_inv.
Qed.

Lemma log_start_inv : log_inv g0 programs (log_start g0 programs).
Proof.
  split; cbn.
  - intros i t (p & -> & _)%list_lookup_fmap_Some_1. done.
  - done.
  - intros i t p (q & -> & Hq)%list_lookup_fmap_Some_1 Hp. rewrite Hp in Hq. by injection Hq as ->.
Qed.

(** At any time the streams hold a prefix of what the calls print. *)
Lemma inv_prefix s :
  log_inv g0 programs s →
  cout (logger s) `prefix_of` cout (run_calls g0 (history s).*2)
  ∧ cerr (logger s) `prefix_of` cerr (run_calls g0 (history s).*2).
Proof.
  intros [_ Hs _]. destruct (log_mutex s) as [i|]; [|by rewrite Hs]. destruct Hs as (t & _ & <-).
  destruct t as [| | |call ops|e operands ops]; cbn [outcome_of]; try done; [apply run_call_prefix|].
  destruct e; cbn; split; try done; by eexists.
Qed.

End Invariant.

(** *** Progress *)

Section Progress.
Context `{env : LogEnv}.

Lemma logger_step_threads i s : length (log_threads (logger_step i s)) = length (log_threads s).
Proof.
  destruct s as [g m ts h]. rewrite /logger_step. repeat case_match; cbn; by rewrite ?length_insert.
Qed.

Lemma log_run_threads schedule s : length (log_threads (log_run schedule s)) = length (log_threads s).
Proof.
  revert s. induction schedule as [|i schedule IH]; intros s; [done|].
  by rewrite -(logger_step_threads i s) -(IH (logger_step i s)).
Qed.

(** A thread that is not finished makes a step, unless it waits for a mutex that
    is held. *)
Lemma logger_step_work i t s :
  log_threads s !! i = Some t → ¬ finished t → holding t = true ∨ log_mutex s = None →
  (log_work (logger_step i s) < log_work s)%nat.
Proof.
  intros Hi Hf Hfree. destruct s as [g m ts h]. cbn [log_threads] in Hi. cbn [log_mutex] in Hfree.
  have Hsum := λ t', sum_insert log_thread_work ts i t' t Hi. rewrite /log_work /logger_step Hi.
  destruct t as [[|[level file line texts|level] ops]|c [|text texts] ops|call ops
    |[level message file line|level] ops|e [|operand operands] ops]; try done.
  all: try (destruct (_ && _)); try (destruct (_ <? _)).
  all: try (destruct Hfree as [[=]| ->]).
  all: match goal with H : ∀ _, _ |- context [<[_ := ?t']> _] => specialize (H t') end.
  all: cbn [log_threads]; cbn in Hsum |- *; lia.
Qed.

(** Some thread can always move. *)
Lemma no_deadlock g0 programs s :
  log_inv g0 programs s →
  Forall finished (log_threads s)
  ∨ ∃ i t, log_threads s !! i = Some t ∧ ¬ finished t ∧ (holding t = true ∨ log_mutex s = None).
Proof.
  intros [Hm Hs _]. destruct (log_mutex s) as [i|] eqn:Em.
  - right. destruct Hs as (t & Hi & _). have Hh := proj2 (Hm i t Hi) eq_refl.
    exists i, t. split_and!; [done| |by left]. by intros ->.
  - destruct (decide (Exists (λ t, holding t = true ∨ ¬ (log_thread_work t = 0)%nat) (log_threads s))) as [Hex|Hno].
    + right. apply Exists_exists in Hex as (t & (i & Hi)%list_elem_of_lookup & Hw).
      exists i, t. split_and!; [done| |by right]. intros ->. by destruct Hw as [[=]|[]].
    + left. apply Forall_forall. intros t Ht. destruct t as [[|[] ops]| | | |]; [done|..];
        exfalso; apply Hno, Exists_exists; eexists; (split; [exact Ht|]); right; cbn; lia.
Qed.

Lemma log_finishes g0 programs s :
  log_inv g0 programs s →
  ∃ rest, (length rest ≤ log_work s)%nat ∧ Forall finished (log_threads (log_run rest s)).
Proof.
  remember (log_work s) as n eqn:En. revert s En. induction n as [n IH] using lt_wf_ind. intros s -> Hinv.
  destruct (no_deadlock _ _ _ Hinv) as [Hf|(i & t & Hi & Hf & Hfree)]; [exists []; split; [cbn; lia|done]|].
  have Hlt := logger_step_work i t s Hi Hf Hfree.
  destruct (IH _ Hlt _ eq_refl (logger_step_inv _ _ i s Hinv)) as (rest & Hl & Hd).
  exists (i :: rest). split; [cbn; lia|done].
Qed.

End Progress.

(** *** Nothing is lost while the level stays *)

Definition printed_calls (m : LogLevel) (ops : list log_op) : list log_call :=
  filter (λ c, prints m c = true) (call_of <$> ops).

(** The calls a thread will make. *)
Definition kept (m : LogLevel) (t : log_thread) : list log_call :=
  match t with
  | Ready ops | Locked _ ops | Writing _ _ ops => printed_calls m ops
  | Composing c texts ops =>
      filter (λ c, prints m c = true) [CallLog (_level c) (_stream c ++ concat texts) (_file c) (_line c)]
      ++ printed_calls m ops
  | Locking call ops => call :: printed_calls m ops
  end.

(** A thread that does not change the level, and whose composer has seen [m]. *)
Definition quiet (m : LogLevel) (t : log_thread) : Prop :=
  match t with
  | Ready ops | Writing _ _ ops => Forall is_statement ops
  | Composing c _ ops =>
      _is_active c = (level_value m <=? level_value (_level c)) ∧ Forall is_statement ops
  | Locking call ops | Locked call ops =>
      match call with CallLog _ _ _ _ => True | CallSet _ => False end ∧ Forall is_statement ops
  end.

Record loss_inv (m : LogLevel) (programs : list (list log_op)) (s : log_system) : Prop := {
  ni_level : current_min_log_level (logger s) = m;
  ni_quiet : ∀ i t, log_threads s !! i = Some t → quiet m t;
  ni_calls : ∀ i t p, log_threads s !! i = Some t → programs !! i = Some p →
             calls_by i s ++ kept m t = printed_calls m p;
}.

Section NoLoss.
Context `{env : LogEnv} (m : LogLevel) (programs : list (list log_op)).

(** A step of thread [i] that makes the calls [new]. *)
Lemma loss_move i t t' s g' mutex' new :
  loss_inv m programs s → log_threads s !! i = Some t →
  current_min_log_level g' = m → quiet m t' → new ++ kept m t' = kept m t → (length new ≤ 1)%nat →
  loss_inv m programs
    (mkLogSystem g' mutex' (<[i := t']> (log_threads s)) (history s ++ (pair i <$> new))).
Proof.
  intros [Hl Hq Hc] Hi Hl' Hq' Hk Hn. split; cbn [logger log_threads]; [done| |].
  - intros j u [(<- & <- & _)|[Hne Hu]]%list_lookup_insert_Some; [done|by eapply Hq].
  - intros j u p Hu Hp. have Hby : calls_by j (mkLogSystem g' mutex' (<[i := t']> (log_threads s))
      (history s ++ (pair i <$> new))) = calls_by j s ++ (if decide (i = j) then new else []).
    { destruct new as [|call [|? ?]]; cbn [fmap list_fmap]; [|apply calls_by_enter|cbn in Hn; lia].
      rewrite /calls_by /= app_nil_r. destruct (decide (i = j)); by rewrite app_nil_r. }
    rewrite Hby. apply list_lookup_insert_Some in Hu as [(<- & <- & _)|[Hne Hu]].
    + rewrite decide_True // -app_assoc Hk. by eapply Hc.
    + rewrite decide_False // app_nil_r. by eapply Hc.
Qed.

(** A step that makes no call. *)
Lemma loss_keep i t t' s g' mutex' :
  loss_inv m programs s → log_threads s !! i = Some t →
  current_min_log_level g' = m → quiet m t' → kept m t' = kept m t →
  loss_inv m programs (mkLogSystem g' mutex' (<[i := t']> (log_threads s)) (history s)).
Proof.
  intros Hs Hi Hl Hq Hk. rewrite -(app_nil_r (history s)). apply (loss_move i t t' s g' mutex' []); [done..|cbn; lia].
Qed.

Lemma kept_write c text texts ops :
  quiet m (Composing c (text :: texts) ops) →
  kept m (Composing (getStream_write text c) texts ops) = kept m (Composing c (text :: texts) ops).
Proof.
  intros [Ha _]. cbn [kept]. rewrite /getStream_write. destruct (_is_active c).
  - cbn [_level _stream _file _line concat]. by rewrite -app_assoc.
  - rewrite !filter_cons !filter_nil. cbn [prints]. by rewrite -Ha.
Qed.

(** The composer's destructor. *)
Lemma kept_destroy c ops :
  quiet m (Composing c [] ops) →
  kept m (if _is_active c && negb (length (_stream c) =? 0)%nat
          then Locking (CallLog (_level c) (_stream c) (_file c) (_line c)) ops else Ready ops)
  = kept m (Composing c [] ops).
Proof.
  intros [Ha _]. cbn [kept concat]. rewrite app_nil_r filter_cons filter_nil /= Ha.
  by destruct (_ && _).
Qed.

Lemma logger_step_loss i s : loss_inv m programs s → loss_inv m programs (logger_step i s).
Proof.
  intros Hinv. destruct s as [g mutex ts h]. cbn [logger_step]. have Hl := ni_level _ _ _ Hinv. cbn in Hl.
  destruct (ts !! i) as [t|] eqn:Hi; [|done]. have Hq := ni_quiet _ _ _ Hinv i t Hi.
  have Hkeep := λ t' g' mutex', loss_keep i t t' _ g' mutex' Hinv Hi. cbn [log_threads history] in Hkeep.
  destruct t as [[|[level file line texts|level] ops]|c [|text texts] ops|call ops
    |[level message file line|level] ops|e [|operand operands] ops]; [done|..].
  - apply Forall_cons in Hq as [_ Hq]. apply Hkeep; [done| |].
    + split; [|done]. by rewrite /= Hl.
    + symmetry. exact (filter_app _ [call_of (Statement level file line texts)] (call_of <$> ops)).
  - by apply Forall_cons in Hq as [[] _].
  - have Hk := kept_destroy c ops Hq. destruct (_ && _); apply Hkeep; try done; by destruct Hq.
  - apply Hkeep; [done| |by apply kept_write]. 
    destruct Hq as [Ha Hops]. split; [|done]. rewrite /getStream_write.
    destruct (_is_active c) eqn:Ea; cbn; by rewrite ?Ea.
  - destruct mutex; [done|]. apply (loss_move i _ _ _ g (Some i) [call] Hinv Hi); [done..|cbn; lia].
  - destruct (_ <? _); apply Hkeep; try done; by destruct Hq.
  - by destruct Hq.
  - by apply Hkeep.
  - apply Hkeep; try done. by destruct e.
Qed.

Lemma log_run_loss schedule s : loss_inv m programs s → loss_inv m programs (log_run schedule s).
Proof.
  revert s. induction schedule as [|i schedule IH]; intros s Hs; [done|]. by apply IH, logger_step_loss.
Qed.

Lemma log_start_loss g :
  current_min_log_level g = m → Forall (Forall is_statement) programs →
  loss_inv m programs (log_start g programs).
Proof.
  intros Hl Hst. split; cbn; [done| |].
  - intros i t (p & -> & Hp)%list_lookup_fmap_Some_1. exact (Forall_lookup_1 _ _ _ _ Hst Hp).
  - intros i t p (q & -> & Hq)%list_lookup_fmap_Some_1 Hp. rewrite Hp in Hq. by injection Hq as ->.
Qed.

End NoLoss.

(** ** Properties *)

Section Properties.
Context `{env : LogEnv}.

(** C21: the logger is linearizable: threads that log and change the level may
    interleave in any way, step by step; what has been written is always a
    prefix of what the calls of [logMessage] and [setLogLevel] print when they
    run whole, one after the other, in the order in which they took the mutex,
    and with the mutex free the logger is in exactly that state, so lines are
    never mixed.  The mutex has at most one holder, the calls of a thread are
    those of its statements in order, each at most once, there is no deadlock
    and the threads can always finish; and if no thread changes the level, those
    that have finished have printed every statement of sufficient level with
    a text, and no other. *)
Theorem logger_linearizable g programs schedule :
  let s := log_run schedule (log_start g programs) in
  let sequential := run_calls g (history s).*2 in
  (cout (logger s) `prefix_of` cout sequential ∧ cerr (logger s) `prefix_of` cerr sequential)
  ∧ (log_mutex s = None → logger s = sequential)
  ∧ (∀ i t, log_threads s !! i = Some t → holding t = true ↔ log_mutex s = Some i)
  ∧ (∀ i p, programs !! i = Some p → calls_by i s `sublist_of` (call_of <$> p))
  ∧ (∃ rest, (length rest ≤ log_work s)%nat ∧ Forall finished (log_threads (log_run rest s)))
  ∧ (Forall (Forall is_statement) programs →
     ∀ i p, programs !! i = Some p → log_threads s !! i = Some (Ready []) →
       calls_by i s = printed_calls (current_min_log_level g) p).
Proof.
  intros s sequential.
  have Hinv : log_inv g programs s by apply log_run_inv, log_start_inv.
  split_and!; try by apply (inv_prefix _ _ _ Hinv).
  - intros Hfree. pose proof (li_state _ _ _ Hinv) as H. by rewrite Hfree in H.
  - apply (li_mutex _ _ _ Hinv).
  - intros i p Hp. have [t Ht] : is_Some (log_threads s !! i).
    { apply lookup_lt_is_Some. rewrite log_run_threads length_fmap. by eapply lookup_lt_Some. }
    etrans; [|exact (li_calls _ _ _ Hinv i t p Ht Hp)]. by apply sublist_inserts_r.
  - by apply (log_finishes g programs).
  - intros Hst i p Hp Hi. pose proof (log_run_loss _ _ schedule _ (log_start_loss _ _ g eq_refl Hst)) as Hloss.
    by rewrite -(ni_calls _ _ _ Hloss i _ p Hi Hp) app_nil_r.
Qed.

End Properties.

(** *** Sample data *)

(** Two threads that log in lockstep, the second one below the level once. *)
Definition sample_programs : list (list log_op) :=
  [[Statement INFO (str "a.cpp") 1 [str "one "; str "two"]];
   [Statement DEBUG (str "b.cpp") 2 [str "quiet"]; Statement INFO (str "b.cpp") 3 [str "three"]]].
Definition lockstep : list nat := concat (repeat [0; 1]%nat 40).

Lemma logger_linearizable_witness :
  let env : LogEnv := sample_log_env in
  let s := log_run lockstep (log_start Logger_initial sample_programs) in
  log_threads s = [Ready []; Ready []]
  ∧ cout (logger s) = str "[2023-11-14 22:13:20.042] [INFO]    [a.cpp:1] one two" ++ [10]
                      ++ str "[2023-11-14 22:13:20.042] [INFO]    [b.cpp:3] three" ++ [10]
  ∧ logger s = run_calls Logger_initial (history s).*2
  ∧ calls_by 1 s = [CallLog INFO (str "three") (str "b.cpp") 3].
Proof.
  intros env s.
  destruct (logger_linearizable (env := env) Logger_initial sample_programs lockstep)
    as (_ & Hfree & _ & _ & _ & Hall).
  split_and!; [vm_compute; reflexivity|vm_compute; reflexivity|apply Hfree; vm_compute; reflexivity|].
  refine (Hall _ 1%nat _ eq_refl _); [by repeat constructor|vm_compute; reflexivity].
Defined.
