(* ===== verification/RepoTests.v ===== *)
(** * The repository's tests, run on the model

    The test programs (main_*_test.cpp and tests/) as executable scenarios: a
    test is the conjunction of its assertions, on the values the modelled
    operations return, and an exception or undefined behaviour fails it.
    [repo_suite_outcome] evaluates them: the model reproduces every assertion
    except those of the tests it names, and the theorems after it say what the
    code does instead.  The tests are not built by CMakeLists.txt, and several
    call functions that do not exist ([MessageIdentifier::messageTypeToByte],
    [CoreUtils::calculate_checksum], [TaifexSdk::get_product_info] and
    [get_order_book], which are declared and nowhere defined): the message kind
    is a parameter here, and the getters are lookups in the maps they document. *)

From S2P Require Import Prelude CppStd PackBcd StringUtils Checksum CommonHeader MessageIdentifier.
From S2P Require Import MessageFields MessageI010 MessageI081 MessageI083 OrderBook TaifexSdk SdkStream.
From S2P Require Import EndianUtils RetransmissionProtocol FileStream LogFilePacketSimulator.
From S2P Require Import MulticastReceiver RetransmissionClient NetworkManager DualFeed.

(** ** Definitions *)

(** Every assertion of a test holds. *)
Definition all_of (assertions : list bool) : bool := forallb (λ b, b) assertions.

Definition same (a b : list Z) : bool := bool_decide (a = b).
Definition gives (r : result (list Z)) (v : list Z) : bool :=
  match r with Ok a => same a v | _ => false end.
Definition gives_number (r : result Z) (v : Z) : bool :=
  match r with Ok a => a =? v | _ => false end.
(** The assertion [f] on a returned value. *)
Definition returns {A} (r : result A) (f : A → bool) : bool :=
  match r with Ok a => f a | _ => false end.
(** [catch (const c&)] was reached. *)
Definition caught {A} (r : result A) (c : exn) : bool :=
  match r with Throw e => is_a e c | _ => false end.

(** A test that calls methods of an object. *)
Definition runs {S} (m : method S bool) (s : S) : bool := returns (m s).2 (λ b, b).

(** *** main_pack_bcd_test.cpp, main_string_utils_test.cpp, main_checksum_test.cpp *)

Definition main_pack_bcd_test : bool := all_of [
  gives (asciiToPackBcd (str "12345")) [0x01; 0x23; 0x45];
  gives (asciiToPackBcd (str "0123")) [0x01; 0x23];
  gives (asciiToPackBcd (str "9")) [0x09];
  gives (asciiToPackBcd (str "000123450")) [0x00; 0x00; 0x12; 0x34; 0x50];
  gives (asciiToPackBcd (str "0")) [0x00];
  gives (asciiToPackBcd []) [];
  caught (asciiToPackBcd (str "12a3")) std_runtime_error;
  gives (packBcdToAscii_all [0x01; 0x23; 0x45]) (str "012345");
  gives (packBcdToAscii_all [0x01; 0x23]) (str "0123");
  gives (packBcdToAscii_all [0x09]) (str "09");
  gives (packBcdToAscii_all [0x00; 0x00; 0x12; 0x34; 0x50]) (str "0000123450");
  gives (packBcdToAscii_all []) [];
  caught (packBcdToAscii_all [0x1A]) std_runtime_error;
  gives (packBcdToAscii [0x01; 0x23; 0x45] 5) (str "12345");
  gives (packBcdToAscii [0x01; 0x23; 0x45] 6) (str "012345");
  gives (packBcdToAscii [0x01; 0x23; 0x45] 3) (str "345");
  gives (packBcdToAscii [0x00; 0x00; 0x12; 0x34; 0x50] 9) (str "000123450");
  gives (packBcdToAscii [0x00; 0x00; 0x12; 0x34; 0x50] 10) (str "0000123450");
  gives (packBcdToAscii [0x00; 0x00; 0x12; 0x34; 0x50] 5) (str "23450");
  gives (packBcdToAscii [0x01] 1) (str "1");
  gives (packBcdToAscii [0x01] 2) (str "01");
  gives (packBcdToAscii [0x01] 3) (str "001");
  gives (packBcdToAscii [0x01] 0) (str "01");
  gives (packBcdToAscii [] 0) []].

Definition main_string_utils_test : bool :=
  let data1 := str "he" ++ [0] ++ str "llo" in
  let hex_data1 := [0xDE; 0xAD; 0xBE; 0xEF] in
  all_of [
    returns (bytesToString (Some data1) (length data1)) (λ str1,
      (length str1 =? length data1)%nat && bool_decide (str1 !! 0%nat = Some 104)
      && bool_decide (str1 !! 2%nat = Some 0) && bool_decide (str1 !! 5%nat = Some 111));
    gives (bytesToString None 5) [];
    gives (bytesToString (Some (str "abc")) 0) [];
    gives (bytesToString (Some [0x41; 0x42; 0x00; 0x43]) 4) (str "AB" ++ [0] ++ str "C");
    gives (bytesToHexString (Some hex_data1) (length hex_data1)) (str "DEADBEEF");
    gives (bytesToHexString (Some [0x00; 0x01; 0x02; 0xFF]) 4) (str "000102FF");
    gives (bytesToHexString_vec [0xCA; 0xFE; 0xBA; 0xBE]) (str "CAFEBABE");
    gives (bytesToHexString None 5) [];
    gives (bytesToHexString (Some hex_data1) 0) [];
    gives (bytesToHexString_vec []) []].

Definition doc_example_data : list Z :=
  [0x35; 0x34] ++ [0x09; 0x01; 0x00; 0x58; 0x00; 0x00] ++ [0x00; 0x09]
  ++ [0x00; 0x00; 0x00; 0x00; 0x02] ++ [0x01] ++ [0x00; 0x28]
  ++ [0x54; 0x58; 0x4F; 0x4F; 0x37; 0x39; 0x30; 0x30; 0x46; 0x39]
  ++ [0x00; 0x00; 0x00; 0x00; 0x00; 0x00] ++ [0x00; 0x01].

(** The program's exit code is that of [tests_passed == tests_total], which
    includes the document's example. *)
Definition main_checksum_test : bool :=
  let data1 := [0x35; 0x34; 0x09; 0x01; 0x00; 0x58; 0x00; 0x00] in
  all_of [
    calculateXorChecksum_vec data1 =? 0x51;
    verifyXorChecksum_vec data1 0x51;
    negb (verifyXorChecksum_vec data1 0x00);
    calculateXorChecksum_vec [] =? 0x00;
    verifyXorChecksum_vec [] 0x00;
    calculateXorChecksum_vec [0xFF] =? 0xFF;
    (length doc_example_data =? 36)%nat;
    calculateXorChecksum_vec doc_example_data =? 0x70].

(** *** main_common_header_parser_test.cpp, main_message_identifier_test.cpp *)

Definition make_bcd_byte (d1 d2 : Z) : Z :=
  u8 (Z.lor (Z.shiftl (Z.land d1 0x0F) 4) (Z.land d2 0x0F)).

Definition raw_header_data : list Z :=
  [0x1B; 0x31; 0x41;
   make_bcd_byte 0 9; make_bcd_byte 3 0; make_bcd_byte 5 5;
   make_bcd_byte 1 2; make_bcd_byte 3 4; make_bcd_byte 5 6;
   make_bcd_byte 0 0; make_bcd_byte 1 2;
   make_bcd_byte 1 2; make_bcd_byte 3 4; make_bcd_byte 5 6; make_bcd_byte 7 8; make_bcd_byte 9 0;
   make_bcd_byte 0 1;
   make_bcd_byte 0 2; make_bcd_byte 5 6].

Definition parse_ok {A} (r : result (bool * A)) : bool := returns r fst.
Definition parse_refused {A} (r : result (bool * A)) : bool := returns r (λ p, negb p.1).

Definition main_common_header_parser_test : bool :=
  let parsed := CommonHeader_parse (Some raw_header_data) (length raw_header_data) CommonHeader_default in
  all_of [
    (length raw_header_data =? HEADER_SIZE)%nat;
    parse_ok parsed;
    returns parsed (λ p,
      let header := p.2 in
      all_of [
        esc_code header =? 0x1B;
        transmission_code header =? 0x31;
        message_kind header =? 0x41;
        gives (getInformationTimeString header) (str "093055123456");
        gives_number (getChannelId header) 12;
        gives_number (getChannelSeq header) 1234567890;
        gives_number (getVersionNo header) 1;
        gives_number (getBodyLength header) 256;
        (* channel_id_bcd[0] = make_bcd_byte(0, 0x0A) *)
        caught (getChannelId (mkCommonHeader (esc_code header) (transmission_code header)
                  (message_kind header) (information_time_bcd header)
                  (<[0%nat := make_bcd_byte 0 0x0A]> (channel_id_bcd header)) (channel_seq_bcd header)
                  (version_no_bcd header) (body_length_bcd header))) ParsingError]);
    parse_refused (CommonHeader_parse (Some raw_header_data) 5 CommonHeader_default);
    parse_refused (CommonHeader_parse None (length raw_header_data) CommonHeader_default)].

(** [test_identification(tc, mk, expected_id)]. *)
Definition test_identification (tc mk expected_id : list Z) : bool :=
  match tc, mk with
  | [t], [k] =>
      same (identifyMessageId (mkCommonHeader 0 t k (repeat 0 6) (repeat 0 2) (repeat 0 5) 0 (repeat 0 2)))
        expected_id
  | _, _ => false
  end.

Definition main_message_identifier_test : bool := all_of [
  test_identification (str "0") (str "1") (str "M1001");
  test_identification (str "0") (str "2") (str "M1002");
  test_identification (str "1") (str "1") (str "I010");
  test_identification (str "1") (str "2") (str "I030");
  test_identification (str "1") (str "3") (str "I011");
  test_identification (str "1") (str "4") (str "I050");
  test_identification (str "1") (str "5") (str "I060");
  test_identification (str "1") (str "6") (str "I120");
  test_identification (str "1") (str "7") (str "I130");
  test_identification (str "1") (str "8") (str "I064");
  test_identification (str "1") (str "A") (str "I012");
  test_identification (str "2") (str "1") (str "I070");
  test_identification (str "2") (str "2") (str "I071");
  test_identification (str "2") (str "3") (str "I072");
  test_identification (str "2") (str "4") (str "I100");
  test_identification (str "2") (str "A") (str "I081");
  test_identification (str "2") (str "B") (str "I083");
  test_identification (str "2") (str "C") (str "I084");
  test_identification (str "2") (str "D") (str "I024");
  test_identification (str "2") (str "E") (str "I025");
  test_identification (str "3") (str "1") (str "I070");
  test_identification (str "3") (str "3") (str "I140");
  test_identification (str "3") (str "4") (str "I073");
  test_identification (str "4") (str "1") (str "I010");
  test_identification (str "4") (str "6") (str "I120");
  test_identification (str "4") (str "A") (str "I012");
  test_identification (str "5") (str "1") (str "I070");
  test_identification (str "5") (str "3") (str "I072");
  test_identification (str "5") (str "D") (str "I024");
  test_identification (str "5") (str "E") (str "I025");
  test_identification (str "X") (str "Y") [];
  test_identification (str "1") (str "Z") []].

(** *** tests/test_message_i001.cpp to tests/test_message_i083.cpp *)

Definition test_message_i001 : bool := all_of [
  parse_i001_body None 0;
  parse_i001_body (Some [0xDA; 0xDB; 0xDC]) 3;
  negb (parse_i001_body (Some [0xDA]) 1);
  negb (parse_i001_body (Some [0xDA; 0xDB; 0xDC; 0xDD]) 4)].

Definition test_message_i002 : bool := all_of [
  parse_i002_body None 0;
  parse_i002_body (Some [0xAB; 0xCD; 0xEF]) 3;
  negb (parse_i002_body (Some [0xAB]) 1);
  negb (parse_i002_body (Some [0xAB; 0xCD; 0xEF; 0x00]) 4)].

Definition test_parse_i010_valid_message : bool :=
  let body_data :=
    str "PROD123456" ++ [0x01; 0x23; 0x45; 0x67; 0x89] ++ str "S" ++ [0x02] ++ [0x00]
    ++ [0x20; 0x23; 0x01; 0x15] ++ [0x20; 0x24; 0x12; 0x31] ++ [0x05]
    ++ [0x20; 0x25; 0x03; 0x20] ++ str "Y" in
  returns (parse_i010_body (Some body_data) (length body_data) MessageI010_uninit) (λ p,
    let msg_i010 := p.2 in
    all_of [
      p.1;
      same (prod_id_s msg_i010) (str "PROD123456");
      reference_price msg_i010 =? 123456789;
      same [prod_kind msg_i010] (str "S");
      decimal_locator msg_i010 =? 2;
      strike_price_decimal_locator msg_i010 =? 0;
      same (begin_date msg_i010) (str "20230115");
      same (end_date msg_i010) (str "20241231");
      flow_group msg_i010 =? 5;
      same (delivery_date msg_i010) (str "20250320");
      same [dynamic_banding msg_i010] (str "Y")]).

Definition test_parse_i010_invalid_length : bool :=
  parse_refused (parse_i010_body (Some (str "PROD")) 4 MessageI010_uninit).

(** The fields of an entry, with the characters as text. *)
Definition i081_entry_is (e : option MdEntryI081) (action ty sign : list Z) (px size level : Z) : bool :=
  match e with
  | Some e =>
      all_of [same [i081_md_update_action e] action; same [i081_md_entry_type e] ty;
              same [i081_sign e] sign; i081_md_entry_px e =? px; i081_md_entry_size e =? size;
              i081_md_price_level e =? level]
  | None => false
  end.
Definition i083_entry_is (e : option MdEntryI083) (ty sign : list Z) (px size level : Z) : bool :=
  match e with
  | Some e =>
      all_of [same [i083_md_entry_type e] ty; same [i083_sign e] sign; i083_md_entry_px e =? px;
              i083_md_entry_size e =? size; i083_md_price_level e =? level]
  | None => false
  end.

Definition test_parse_i081_valid_multiple_entries : bool :=
  let body_data :=
    str "UPDATEPROD0123456789" ++ [0x00; 0x00; 0x05; 0x43; 0x21] ++ [0x02]
    ++ str "000" ++ [0x00; 0x00; 0x02; 0x50; 0x00] ++ [0x00; 0x00; 0x00; 0x75] ++ [0x01]
    ++ str "110" ++ [0x00; 0x00; 0x02; 0x52; 0x00] ++ [0x00; 0x00; 0x00; 0x25] ++ [0x01] in
  returns (parse_i081_body (Some body_data) (length body_data) MessageI081_uninit) (λ p,
    let msg_i081 := p.2 in
    all_of [
      p.1;
      same (i081_prod_id msg_i081) (str "UPDATEPROD0123456789");
      i081_prod_msg_seq msg_i081 =? 54321;
      i081_no_md_entries msg_i081 =? 2;
      (length (i081_md_entries msg_i081) =? 2)%nat;
      i081_entry_is (i081_md_entries msg_i081 !! 0%nat) (str "0") (str "0") (str "0") 25000 75 1;
      i081_entry_is (i081_md_entries msg_i081 !! 1%nat) (str "1") (str "1") (str "0") 25200 25 1]).

Definition test_parse_i081_valid_no_entries : bool :=
  let body_data := str "EMPTYPROD00000000000" ++ [0x00; 0x00; 0x00; 0x00; 0x10] ++ [0x00] in
  returns (parse_i081_body (Some body_data) (length body_data) MessageI081_uninit) (λ p,
    let msg_i081 := p.2 in
    all_of [
      p.1;
      same (i081_prod_id msg_i081) (str "EMPTYPROD00000000000");
      i081_prod_msg_seq msg_i081 =? 10;
      i081_no_md_entries msg_i081 =? 0;
      (length (i081_md_entries msg_i081) =? 0)%nat]).

Definition test_parse_i081_invalid_lengths : bool :=
  let body_data :=
    str "LENGTHERRPROD0123456" ++ [0x00; 0x00; 0x00; 0x00; 0x03] ++ [0x02]
    ++ str "000" ++ [0x00; 0x00; 0x01; 0x50; 0x00] ++ [0x00; 0x00; 0x01; 0x00] ++ [0x01] in
  all_of [
    parse_refused (parse_i081_body (Some body_data) (length body_data) MessageI081_uninit);
    parse_refused (parse_i081_body (Some (str "TOOSHORT")) 8 MessageI081_uninit)].

Definition test_parse_i083_valid_multiple_entries : bool :=
  let body_data :=
    str "TESTPROD012345678901" ++ [0x00; 0x00; 0x01; 0x23; 0x45] ++ str "0" ++ [0x02]
    ++ str "00" ++ [0x00; 0x00; 0x01; 0x50; 0x00] ++ [0x00; 0x00; 0x01; 0x00] ++ [0x01]
    ++ str "10" ++ [0x00; 0x00; 0x01; 0x52; 0x00] ++ [0x00; 0x00; 0x00; 0x50] ++ [0x01] in
  returns (parse_i083_body (Some body_data) (length body_data) MessageI083_uninit) (λ p,
    let msg_i083 := p.2 in
    all_of [
      p.1;
      same (i083_prod_id msg_i083) (str "TESTPROD012345678901");
      i083_prod_msg_seq msg_i083 =? 12345;
      same [i083_calculated_flag msg_i083] (str "0");
      i083_no_md_entries msg_i083 =? 2;
      (length (i083_md_entries msg_i083) =? 2)%nat;
      i083_entry_is (i083_md_entries msg_i083 !! 0%nat) (str "0") (str "0") 15000 100 1;
      i083_entry_is (i083_md_entries msg_i083 !! 1%nat) (str "1") (str "0") 15200 50 1]).

Definition test_parse_i083_valid_no_entries : bool :=
  let body_data := str "NOPROD00000000000000" ++ [0x00; 0x00; 0x00; 0x00; 0x01] ++ str "1" ++ [0x00] in
  returns (parse_i083_body (Some body_data) (length body_data) MessageI083_uninit) (λ p,
    let msg_i083 := p.2 in
    all_of [
      p.1;
      same (i083_prod_id msg_i083) (str "NOPROD00000000000000");
      i083_prod_msg_seq msg_i083 =? 1;
      same [i083_calculated_flag msg_i083] (str "1");
      i083_no_md_entries msg_i083 =? 0;
      (length (i083_md_entries msg_i083) =? 0)%nat]).

Definition test_parse_i083_invalid_lengths : bool :=
  let body_data :=
    str "SHORTPROD01234567890" ++ [0x00; 0x00; 0x00; 0x00; 0x02] ++ str "0" ++ [0x02]
    ++ str "00" ++ [0x00; 0x00; 0x01; 0x50; 0x00] ++ [0x00; 0x00; 0x01; 0x00] ++ [0x01] in
  all_of [
    parse_refused (parse_i083_body (Some body_data) (length body_data) MessageI083_uninit);
    parse_refused (parse_i083_body (Some (str "SHORT")) 5 MessageI083_uninit)].

(** *** tests/test_order_book.cpp *)

Definition level_is (l : option PriceQuantityLevel) (p q : Z) : bool := bool_decide (l = Some (mkLevel p q)).
Definition no_levels (l : list PriceQuantityLevel) : bool := (length l =? 0)%nat.
Definition no_quote (q : option PriceQuantityLevel) : bool := bool_decide (q = None).
Definition is_empty_book (ob : OrderBook) : bool :=
  all_of [no_levels (get_top_bids ob 5); no_levels (get_top_asks ob 5);
          no_quote (get_derived_bid ob); no_quote (get_derived_ask ob)].

(** The initializers of the entries; the characters are given by their codes. *)
Definition snapshot (prod_id : list Z) (seq flag : Z) (entries : list MdEntryI083) : MessageI083 :=
  mkMessageI083 prod_id seq flag (Z.of_nat (length entries)) entries.
Definition update (prod_id : list Z) (seq : Z) (entries : list MdEntryI081) : MessageI081 :=
  mkMessageI081 prod_id seq (Z.of_nat (length entries)) entries.

Definition test_constructor_and_reset : bool :=
  let prod_id := str "TESTPROD" in
  let ob := OrderBook_new prod_id 2 in
  let ob1 := apply_snapshot ob (snapshot prod_id 1 48
               [mkMdEntryI083 48 48 10000 10 1; mkMdEntryI083 49 48 10100 5 1]) in
  let ob2 := reset ob1 in
  all_of [
    same (get_product_id ob) prod_id; get_last_prod_msg_seq ob =? 0; is_empty_book ob;
    get_last_prod_msg_seq ob1 =? 1; negb (no_levels (get_top_bids ob1 1));
    same (get_product_id ob2) prod_id; get_last_prod_msg_seq ob2 =? 0; is_empty_book ob2].

Definition test_apply_snapshot_empty : bool :=
  let ob := apply_snapshot (OrderBook_new (str "EMPTYPROD") 2) (snapshot (str "EMPTYPROD") 10 48 []) in
  all_of [get_last_prod_msg_seq ob =? 10; is_empty_book ob].

Definition test_apply_snapshot_typical : bool :=
  let ob := apply_snapshot (OrderBook_new (str "TYPICAL") 2) (snapshot (str "TYPICAL") 100 48
              [mkMdEntryI083 48 48 10025 10 1; mkMdEntryI083 48 48 10000 5 2;
               mkMdEntryI083 49 48 10050 12 1; mkMdEntryI083 49 48 10075 8 2]) in
  all_of [
    get_last_prod_msg_seq ob =? 100;
    bool_decide (get_top_bids ob 2 = [mkLevel 10025 10; mkLevel 10000 5]);
    bool_decide (get_top_asks ob 2 = [mkLevel 10050 12; mkLevel 10075 8]);
    no_quote (get_derived_bid ob); no_quote (get_derived_ask ob)].

(** 69 and 70 are the types E and F of the derived quotes. *)
Definition test_apply_snapshot_with_derived : bool :=
  let ob := apply_snapshot (OrderBook_new (str "DERIVEDPROD") 2) (snapshot (str "DERIVEDPROD") 200 48
              [mkMdEntryI083 48 48 9900 20 1; mkMdEntryI083 49 48 9950 15 1;
               mkMdEntryI083 69 48 9890 5 1; mkMdEntryI083 70 48 9960 8 1]) in
  all_of [
    get_last_prod_msg_seq ob =? 200;
    bool_decide (price <$> get_top_bids ob 1 !! 0%nat = Some 9900);
    bool_decide (price <$> get_top_asks ob 1 !! 0%nat = Some 9950);
    level_is (get_derived_bid ob) 9890 5; level_is (get_derived_ask ob) 9960 8].

(** 45 is the sign '-'. *)
Definition test_apply_snapshot_calculated_flag : bool :=
  let ob := apply_snapshot (OrderBook_new (str "CALCPROD") 0) (snapshot (str "CALCPROD") 300 49
              [mkMdEntryI083 48 48 999999999 10 1; mkMdEntryI083 49 45 999999999 5 1]) in
  all_of [
    get_last_prod_msg_seq ob =? 300;
    bool_decide (get_top_bids ob 1 = [mkLevel 999999999 10]);
    bool_decide (get_top_asks ob 1 = [mkLevel (-999999999) 5]);
    no_quote (get_derived_bid ob); no_quote (get_derived_ask ob)].

Definition test_apply_update_new : bool :=
  let ob := apply_update (OrderBook_new (str "NEWPROD") 2) (update (str "NEWPROD") 1
              [mkMdEntryI081 48 48 48 10025 10 1; mkMdEntryI081 48 49 48 10050 5 1]) in
  all_of [
    get_last_prod_msg_seq ob =? 1;
    bool_decide (get_top_bids ob 1 = [mkLevel 10025 10]);
    bool_decide (get_top_asks ob 1 = [mkLevel 10050 5])].

Definition test_apply_update_change : bool :=
  let id := str "CHANGEPROD" in
  let ob0 := apply_snapshot (OrderBook_new id 2) (snapshot id 1 48
               [mkMdEntryI083 48 48 10000 10 1; mkMdEntryI083 49 48 10100 20 1]) in
  let ob := apply_update ob0 (update id 2
              [mkMdEntryI081 49 48 48 10000 15 1; mkMdEntryI081 49 49 48 10100 0 1;
               mkMdEntryI081 49 48 48 9900 5 2]) in
  all_of [
    get_last_prod_msg_seq ob =? 2;
    bool_decide (get_top_bids ob 2 = [mkLevel 10000 15; mkLevel 9900 5]);
    no_levels (get_top_asks ob 1)].

Definition test_apply_update_delete : bool :=
  let id := str "DELETEPROD" in
  let ob0 := apply_snapshot (OrderBook_new id 2) (snapshot id 1 48
               [mkMdEntryI083 48 48 10000 10 1; mkMdEntryI083 49 48 10100 20 1]) in
  let ob := apply_update ob0 (update id 2
              [mkMdEntryI081 50 48 48 10000 0 1; mkMdEntryI081 50 49 48 10200 0 2]) in
  all_of [
    get_last_prod_msg_seq ob =? 2;
    no_levels (get_top_bids ob 1);
    bool_decide (price <$> get_top_asks ob 1 = [10100])].

(** 53 is the action '5', Overlay. *)
Definition test_apply_update_overlay_derived : bool :=
  let id := str "OVERLAYPROD" in
  let ob0 := apply_snapshot (OrderBook_new id 2) (snapshot id 1 48
               [mkMdEntryI083 69 48 9900 5 1; mkMdEntryI083 70 48 9950 8 1]) in
  let ob := apply_update ob0 (update id 2
              [mkMdEntryI081 53 69 48 9910 10 1; mkMdEntryI081 53 70 48 0 0 1]) in
  all_of [
    bool_decide (price <$> get_derived_bid ob0 = Some 9900);
    get_last_prod_msg_seq ob =? 2;
    level_is (get_derived_bid ob) 9910 10;
    no_quote (get_derived_ask ob)].

Definition test_apply_update_sequential : bool :=
  let ob := apply_update (OrderBook_new (str "SEQPROD") 2) (update (str "SEQPROD") 1
              [mkMdEntryI081 48 48 48 10000 10 1; mkMdEntryI081 48 49 48 10100 5 1;
               mkMdEntryI081 49 48 48 10000 12 1]) in
  all_of [
    get_last_prod_msg_seq ob =? 1;
    bool_decide (get_top_bids ob 1 = [mkLevel 10000 12]);
    bool_decide (get_top_asks ob 1 = [mkLevel 10100 5])].

Definition msg_old : MessageI081 := update (str "SEQNUMPROD") 9 [mkMdEntryI081 48 49 48 10100 5 1].

Definition test_apply_update_sequence_number : bool :=
  let id := str "SEQNUMPROD" in
  let ob1 := apply_update (OrderBook_new id 2) (update id 10 [mkMdEntryI081 48 48 48 10000 10 1]) in
  let ob2 := apply_update ob1 msg_old in
  let ob3 := apply_update ob2 (update id 11 [mkMdEntryI081 48 49 48 10200 8 1]) in
  all_of [
    get_last_prod_msg_seq ob1 =? 10;
    get_last_prod_msg_seq ob2 =? 10;
    no_levels (get_top_asks ob2 1);
    get_last_prod_msg_seq ob3 =? 11;
    bool_decide (price <$> get_top_asks ob3 1 = [10200])].

(** *** tests/test_retransmission_protocol.cpp *)

Definition test_calculate_login_check_code : bool := all_of [
  gives_number (calculate_check_code 168 (str "1234")) 73;
  gives_number (calculate_check_code 10 (str "1")) 0;
  gives_number (calculate_check_code 100 (str "100")) 0;
  gives_number (calculate_check_code 50 (str "123")) 61].

Section ProtocolTests.
Context `{host : Host}.

(** The template: the bytes [serialize] writes are accepted with the type and
    the sequence number of the message (and [same_data]), and refused with a
    changed checksum byte, or with another type and the checksum recomputed. *)
Definition test_message_serialization_deserialization {M} (serialized : result (list Z))
    (deserialize : pointer → nat → result (bool * M)) (message_type : Z) (header_of : M → RetransmissionMsgHeader)
    (seq_num : Z) (same_data : M → bool) : bool :=
  returns serialized (λ buffer,
    let footer := (length buffer - FOOTER_SIZE)%nat in
    let bad_checksum_buffer := <[footer := Z.lxor (nth footer buffer 0) 0xFF]> buffer in
    let bad_type_val := if message_type =? 10 then 11 else message_type + 1 in
    let bad_type := take 2 buffer ++ host_bytes 2 (host_to_network_short bad_type_val) ++ drop 4 buffer in
    let len_for_checksum := (2 + Z.to_nat (network_to_host_short (host_val (take 2 bad_type))))%nat in
    let bad_type_buffer :=
      if (len_for_checksum <? length bad_type)%nat
      then <[len_for_checksum := calculate_retransmission_checksum (take len_for_checksum bad_type)]> bad_type
      else bad_type in
    all_of [
      returns (deserialize (Some buffer) (length buffer)) (λ p,
        all_of [p.1; msg_type (header_of p.2) =? message_type; msg_seq_num (header_of p.2) =? seq_num;
                same_data p.2]);
      parse_refused (deserialize (Some bad_checksum_buffer) (length bad_checksum_buffer));
      parse_refused (deserialize (Some bad_type_buffer) (length bad_type_buffer))]).

Definition hdr (seq_num : Z) : RetransmissionMsgHeader := mkHeader 0 0 seq_num (mkTime 0 0).
Definition ftr : RetransmissionMsgFooter := mkFooter 0.
Definition any {A} (_ : A) : bool := true.

Definition test_login_request_020 : bool :=
  returns (calculate_check_code 168 (str "1234")) (λ check_code,
    let msg := mk020 (hdr 1) 168 check_code 12345 ftr in
    test_message_serialization_deserialization (LoginRequest020_serialize [] (str "1234") msg)
      (λ data len, LoginRequest020_deserialize data len (str "1234") (mk020 (hdr 0) 0 0 0 ftr))
      20 m020_header 1 any).
Definition test_login_response_030 : bool :=
  test_message_serialization_deserialization (LoginResponse030_serialize [] (mk030 (hdr 2) 1 ftr))
    (λ data len, LoginResponse030_deserialize data len (mk030 (hdr 0) 0 ftr)) 30 m030_header 2 any.
Definition test_retrans_start_050 : bool :=
  test_message_serialization_deserialization (RetransmissionStart050_serialize [] (mk050 (hdr 3) ftr))
    (λ data len, RetransmissionStart050_deserialize data len (mk050 (hdr 0) ftr)) 50 m050_header 3 any.
Definition test_heartbeat_server_104 : bool :=
  test_message_serialization_deserialization (HeartbeatServer104_serialize [] (mk104 (hdr 10) ftr))
    (λ data len, HeartbeatServer104_deserialize data len (mk104 (hdr 0) ftr)) 104 m104_header 10 any.
Definition test_heartbeat_client_105 : bool :=
  test_message_serialization_deserialization (HeartbeatClient105_serialize [] (mk105 (hdr 11) ftr))
    (λ data len, HeartbeatClient105_deserialize data len (mk105 (hdr 0) ftr)) 105 m105_header 11 any.
Definition test_data_request_101 : bool :=
  test_message_serialization_deserialization (DataRequest101_serialize [] (mk101 (hdr 20) 2 1000 50 ftr))
    (λ data len, DataRequest101_deserialize data len (mk101 (hdr 0) 0 0 0 ftr)) 101 m101_header 20 any.
Definition test_data_response_102 : bool :=
  let sample_retrans_data := [0x01; 0x02; 0x03; 0x04] in
  test_message_serialization_deserialization
    (DataResponse102_serialize [] sample_retrans_data (mk102 (hdr 21) 2 0 1000 0 ftr))
    (λ data len, DataResponse102_deserialize data len (mk102 (hdr 0) 0 0 0 0 ftr))
    102 (λ p, m102_header p.1) 21 (λ p, same p.2 sample_retrans_data).
Definition test_error_notification_010 : bool :=
  test_message_serialization_deserialization (ErrorNotification010_serialize [] (mk010 (hdr 5) 8 ftr))
    (λ data len, ErrorNotification010_deserialize data len (mk010 (hdr 0) 0 ftr)) 10 m010_header 5 any.

(** *** tests/test_log_file_packet_simulator.cpp *)

Definition create_pcap_packet_header (captured_length : Z) : list Z :=
  repeat 0 8 ++ host_bytes 4 captured_length ++ host_bytes 4 captured_length.
Definition create_test_log_content (file_header_size : nat) (packet_records : list (list Z * list Z)) : list Z :=
  repeat 0 file_header_size ++ concat ((λ r, r.1 ++ r.2) <$> packet_records).

(** [write_temp_log_file], then a test on a simulator for the file. *)
Definition with_log_file (content : list Z)
    (test : ∀ fs : FileSystem, method LogFilePacketSimulator bool) : bool :=
  let path := str "test.pcaplike" in
  runs (test (λ p, if bool_decide (p = path) then Some content else None))
    (LogFilePacketSimulator_new path DEFAULT_GLOBAL_HEADER_SIZE DEFAULT_PACKET_HEADER_SIZE).

Definition record_of (data : list Z) : list Z * list Z :=
  (create_pcap_packet_header (Z.of_nat (length data)), data).

Definition test_read_single_valid_packet : bool :=
  let taifex_msg1 := [0x1B; 0x02; 0xA1; 0x00; 0x05; 0x0D; 0x0A] in
  with_log_file (create_test_log_content 24 [record_of taifex_msg1]) (λ fs,
    opened ← open;
    simulator ← get;
    more ← has_next_packet;
    packet ← get_next_taifex_packet;
    rest ← has_next_packet;
    close;;
    mret (all_of [opened; is_open simulator; more; same packet taifex_msg1; negb rest])).

Definition test_read_multiple_packets : bool :=
  let taifex_msg1 := [0x1B] ++ str "ABC" in
  let taifex_msg2 := [0x1B] ++ str "XYZ0" in
  with_log_file (create_test_log_content 24 [record_of taifex_msg1; record_of taifex_msg2]) (λ fs,
    opened ← open;
    more1 ← has_next_packet;
    p1 ← get_next_taifex_packet;
    more2 ← has_next_packet;
    p2 ← get_next_taifex_packet;
    rest ← has_next_packet;
    close;;
    mret (all_of [opened; more1; same p1 taifex_msg1; more2; same p2 taifex_msg2; negb rest])).

(** [test_packet_without_esc_code] and [test_zero_length_capture]. *)
Definition reads_empty_packet (content : list Z) : bool :=
  with_log_file content (λ fs,
    opened ← open;
    more ← has_next_packet;
    packet ← get_next_taifex_packet;
    rest ← has_next_packet;
    close;;
    mret (all_of [opened; more; same packet []; negb rest])).
Definition test_packet_without_esc_code : bool :=
  reads_empty_packet (create_test_log_content 24 [record_of (str "NOTAPKT")]).
Definition test_zero_length_capture : bool :=
  reads_empty_packet (create_test_log_content 24 [record_of []]).

(** [test_eof_in_pcap_header] and [test_eof_in_pcap_data]. *)
Definition reads_nothing (content : list Z) : bool :=
  with_log_file content (λ fs,
    opened ← open;
    packet ← get_next_taifex_packet;
    close;;
    mret (all_of [opened; same packet []])).
Definition test_eof_in_pcap_header : bool := reads_nothing (repeat 0 24 ++ repeat 0 8).
Definition test_eof_in_pcap_data : bool :=
  reads_nothing (repeat 0 24 ++ create_pcap_packet_header 100 ++ [0x1B] ++ str "AB").

End ProtocolTests.

(** *** tests/test_taifex_sdk.cpp *)

(** A sequence number in the helpers' encoding, two decimal digits per byte. *)
Definition seq_bcd (seq : Z) : list Z :=
  (λ i, Z.lor (Z.shiftl ((seq / 10 ^ (2 * i + 1)) `mod` 10) 4) ((seq / 10 ^ (2 * i)) `mod` 10))
    <$> [4; 3; 2; 1; 0].
(** A number split into two bytes. *)
Definition two_bytes (n : Z) : list Z := [Z.land (Z.shiftr n 8) 0xFF; Z.land n 0xFF].

Definition raw_message (kind : Z) (channel_id seq body_length : list Z) (body : list Z) : list Z :=
  let checked := [0x02; kind] ++ repeat 0 6 ++ channel_id ++ seq ++ [0] ++ body_length ++ body in
  [0x1B] ++ checked ++ [calculateXorChecksum checked; 0x0D; 0x0A].

Definition create_raw_i010_message (kind channel_seq : Z) (i010 : MessageI010) : list Z :=
  raw_message kind [0; 0] (seq_bcd channel_seq) [0x00; 0x32]
    (prod_id_s i010 ++ [0x01; 0x23; 0x45; 0x67; 0x89] ++ [prod_kind i010] ++ [decimal_locator i010]
     ++ [strike_price_decimal_locator i010] ++ [0x20; 0x23; 0x01; 0x15] ++ [0x20; 0x24; 0x12; 0x31]
     ++ [flow_group i010] ++ [0x20; 0x25; 0x03; 0x20] ++ [dynamic_banding i010]).
Definition create_raw_empty_body_message (kind channel_seq channel_id : Z) : list Z :=
  raw_message kind (two_bytes channel_id) (seq_bcd channel_seq) [0x00; 0x00] [].

(** The members a test leaves unset are uninitialized; here they are zero. *)
Definition test_i010 (id kind_text banding : list Z) (locator group : Z) : MessageI010 :=
  mkMessageI010 id 0 (nth 0 kind_text 0) locator 0 [] [] group [] (nth 0 banding 0).

Definition has_product (id : list Z) (s : TaifexSdk) : bool :=
  bool_decide (is_Some (product_info_cache_ s !! id)).

Definition test_sdk_initialization : bool :=
  runs (s0 ← get; init_ok ← initialize; s1 ← get;
        mret (all_of [negb (has_product (str "ANYPROD") s0); init_ok;
                      negb (has_product (str "ANYPROD") s1)])) TaifexSdk_new.

Definition send (msg : list Z) (length_argument : nat) : method TaifexSdk unit :=
  process_message (Some msg) length_argument.

Definition test_process_message_invalid_checksum (kind : Z) : bool :=
  let raw_msg := create_raw_i010_message kind 2 (test_i010 (str "CHKPROD   ") (str " ") (str "N") 0 0) in
  let raw_msg := <[(HEADER_SIZE + 32)%nat := Z.lxor (nth (HEADER_SIZE + 32) raw_msg 0) 0xFF]> raw_msg in
  runs (initialize;; send raw_msg (length raw_msg);; s ← get;
        mret (negb (has_product (str "CHKPROD") s))) TaifexSdk_new.

Definition test_process_message_length_mismatch (kind : Z) : bool :=
  let raw_msg := create_raw_i010_message kind 3 (test_i010 (str "LENPROD   ") (str " ") (str "N") 0 0) in
  runs (initialize;; send raw_msg (length raw_msg - 1);; s ← get;
        mret (negb (has_product (str "LENPROD") s))) TaifexSdk_new.

(** Messages with an empty body and the given numbers on one channel: they are
    processed, and the last number of the channel is [last_seq]. *)
Definition heartbeats (kind channel_id stored_channel : Z) (seqs : list Z) (last_seq : Z) : bool :=
  let msgs := (λ n, create_raw_empty_body_message kind n channel_id) <$> seqs in
  runs (initialize;; process_messages msgs;; s ← get;
        mret (bool_decide (channel_sequences_ s !! stored_channel = Some last_seq))) TaifexSdk_new.

(** The channel numbers are written as plain bytes, 20 = 0x14 and 25 = 0x19,
    and read as BCD. *)
Definition test_process_i001_heartbeat (kind : Z) : bool := heartbeats kind 20 14 [50; 51] 51.
Definition test_channel_sequence_logic (kind : Z) : bool := heartbeats kind 25 19 [10; 11; 11; 13; 14] 14.

Definition test_process_i010_message (kind : Z) : bool :=
  let raw_msg := create_raw_i010_message kind 1 (test_i010 (str "TXF       ") (str "F") (str "Y") 2 5) in
  runs (initialize;; send raw_msg (length raw_msg);; s ← get;
        mret (has_product (str "TXF") s)) TaifexSdk_new.

(** *** tests/test_network_manager.cpp *)

Definition create_dummy_market_data (kind channel_id_val channel_seq_val : Z) (unique_payload_byte : list Z)
    : list Z :=
  raw_message kind (two_bytes channel_id_val) (seq_bcd channel_seq_val) (two_bytes 1) unique_payload_byte.

Definition dedup_config : NetworkManagerConfig :=
  mkConfig [mkFeed (str "GROUP_A_IP") 1234 [] true; mkFeed (str "GROUP_B_IP") 1234 [] false] None None true 100.

Section ManagerTest.
Context `{net : NetEnv}.

(** The number of calls of [process_message] and what the last one was given. *)
Definition calls_are (n : nat) (m : NetworkManager) : bool := (length (forwarded m) =? n)%nat.
Definition last_payload (payload : list Z) (m : NetworkManager) : bool :=
  match last (forwarded m) with
  | Some data => same (take 1 (drop HEADER_SIZE data)) payload
  | None => false
  end.

Definition receive_primary (data : list Z) : method NetworkManager unit :=
  on_primary_multicast_data (Some data) (length data).

Fixpoint fill_window (kind channel first : Z) (n : nat) : method NetworkManager unit :=
  match n with
  | O => mret tt
  | S n =>
      receive_primary (create_dummy_market_data kind channel first (str "D"));;
      fill_window kind channel (first + 1) n
  end.

(** The assertions of [test_network_manager_deduplication], in order;
    [reset_mock] sets the call count back, so later counts are relative to
    the two packets before it. *)
Definition test_network_manager_deduplication (kind : Z) : method NetworkManager (list bool) :=
  configure_and_start dedup_config;;
  let packet1 := create_dummy_market_data kind 1 100 (str "A") in
  let packet2_dup := create_dummy_market_data kind 1 100 (str "B") in
  let packet3_new := create_dummy_market_data kind 1 101 (str "C") in
  receive_primary packet1;;
  m1 ← get;
  on_secondary_multicast_data (Some packet2_dup) (length packet2_dup);;
  m2 ← get;
  receive_primary packet3_new;;
  m3 ← get;
  fill_window kind 1 200 DEDUPLICATION_WINDOW_SIZE;;
  m4 ← get;
  receive_primary packet1;;
  m5 ← get;
  mret [calls_are 1 m1 && last_payload (str "A") m1; calls_are 1 m2;
        calls_are 2 m3 && last_payload (str "C") m3;
        calls_are (2 + DEDUPLICATION_WINDOW_SIZE) m4;
        calls_are (2 + (DEDUPLICATION_WINDOW_SIZE + 1)) m5].

End ManagerTest.

(** An environment in which every system call succeeds but joining a group,
    which returns [joined]. *)
Definition test_net (joined : Z) : NetEnv :=
  Build_NetEnv (λ _, Build_McastEnv (λ n, Z.of_nat (n + 3)) (λ _, 0) (λ _ _, 0) (λ _ _ _, joined)
                       (λ _, 0) (λ _, true) (λ _, Datagram []))
    (λ _, RetransmissionClient.working_env) Z.of_nat.

(** *** The suite *)

Definition repo_suite `{Host} : list (string * bool) := [
  ("main_pack_bcd_test", main_pack_bcd_test);
  ("main_string_utils_test", main_string_utils_test);
  ("main_checksum_test", main_checksum_test);
  ("main_common_header_parser_test", main_common_header_parser_test);
  ("main_message_identifier_test", main_message_identifier_test);
  ("test_message_i001", test_message_i001);
  ("test_message_i002", test_message_i002);
  ("test_parse_i010_valid_message", test_parse_i010_valid_message);
  ("test_parse_i010_invalid_length", test_parse_i010_invalid_length);
  ("test_parse_i081_valid_multiple_entries", test_parse_i081_valid_multiple_entries);
  ("test_parse_i081_valid_no_entries", test_parse_i081_valid_no_entries);
  ("test_parse_i081_invalid_lengths", test_parse_i081_invalid_lengths);
  ("test_parse_i083_valid_multiple_entries", test_parse_i083_valid_multiple_entries);
  ("test_parse_i083_valid_no_entries", test_parse_i083_valid_no_entries);
  ("test_parse_i083_invalid_lengths", test_parse_i083_invalid_lengths);
  ("test_constructor_and_reset", test_constructor_and_reset);
  ("test_apply_snapshot_empty", test_apply_snapshot_empty);
  ("test_apply_snapshot_typical", test_apply_snapshot_typical);
  ("test_apply_snapshot_with_derived", test_apply_snapshot_with_derived);
  ("test_apply_snapshot_calculated_flag", test_apply_snapshot_calculated_flag);
  ("test_apply_update_new", test_apply_update_new);
  ("test_apply_update_change", test_apply_update_change);
  ("test_apply_update_delete", test_apply_update_delete);
  ("test_apply_update_overlay_derived", test_apply_update_overlay_derived);
  ("test_apply_update_sequential", test_apply_update_sequential);
  ("test_apply_update_sequence_number", test_apply_update_sequence_number);
  ("test_calculate_login_check_code", test_calculate_login_check_code);
  ("test_login_request_020", test_login_request_020);
  ("test_login_response_030", test_login_response_030);
  ("test_retrans_start_050", test_retrans_start_050);
  ("test_heartbeat_server_104", test_heartbeat_server_104);
  ("test_heartbeat_client_105", test_heartbeat_client_105);
  ("test_data_request_101", test_data_request_101);
  ("test_data_response_102", test_data_response_102);
  ("test_error_notification_010", test_error_notification_010);
  ("test_read_single_valid_packet", test_read_single_valid_packet);
  ("test_read_multiple_packets", test_read_multiple_packets);
  ("test_packet_without_esc_code", test_packet_without_esc_code);
  ("test_eof_in_pcap_header", test_eof_in_pcap_header);
  ("test_eof_in_pcap_data", test_eof_in_pcap_data);
  ("test_zero_length_capture", test_zero_length_capture);
  ("test_sdk_initialization", test_sdk_initialization)]%string.

(** The tests that depend on the message kind. *)
Definition kind_suite (kind : Z) : list (string * bool) := [
  ("test_process_i010_message", test_process_i010_message kind);
  ("test_process_message_invalid_checksum", test_process_message_invalid_checksum kind);
  ("test_process_message_length_mismatch", test_process_message_length_mismatch kind);
  ("test_process_i001_heartbeat", test_process_i001_heartbeat kind);
  ("test_channel_sequence_logic", test_channel_sequence_logic kind)]%string.

Definition failing (suite : list (string * bool)) : list string :=
  (filter (λ t, t.2 = false) suite).*1.

Definition all_bytes : list Z := Z.of_nat <$> seq 0 256.

(** ** Properties *)

(** A property of the tests that is decided by running them for every byte. *)
Lemma for_all_bytes {A} `{EqDecision A} (f : Z → A) (v : A) :
  forallb (λ kind, bool_decide (f kind = v)) all_bytes = true → Forall (λ kind, f kind = v) all_bytes.
Proof.
  intros H. apply Forall_forall. intros kind Hk. rewrite forallb_forall in H.
  apply (bool_decide_eq_true_1 _ (H kind (proj1 (list_elem_of_In _ _) Hk))).
Qed.

(** The suite on the model, for little- and big-endian hosts and every byte the
    missing [messageTypeToByte] might have returned: all tests pass but three. *)
Theorem repo_suite_outcome (host : Host) :
  failing repo_suite = ["main_checksum_test"; "test_apply_update_sequence_number"]%string
  ∧ Forall (λ kind, failing (kind_suite kind) = ["test_process_i010_message"]%string) all_bytes.
Proof. split; [|apply for_all_bytes]; destruct host; vm_compute; reflexivity. Qed.

(** The document's checksum example: the bytes of the test give 0x0F, also with
    the first two fields read as numbers, and not the 0x70 the test expects. *)
Theorem checksum_example :
  calculateXorChecksum_vec doc_example_data = 0x0F
  ∧ calculateXorChecksum_vec ([0x05; 0x04] ++ drop 2 doc_example_data) = 0x0F.
Proof. split; vm_compute; reflexivity. Qed.

(** The update with the old number, which the test expects to be ignored, is
    applied: its ask is in the book. *)
Theorem old_update_in_book :
  let id := str "SEQNUMPROD" in
  let ob1 := apply_update (OrderBook_new id 2) (update id 10 [mkMdEntryI081 48 48 48 10000 10 1]) in
  get_top_asks (apply_update ob1 msg_old) 1 = [mkLevel 10100 5].
Proof. vm_compute; reflexivity. Qed.

(** No message makes a product or a book appear: [test_process_i010_message],
    [test_process_i083_message], [test_process_i081_message] and
    [test_process_i002_sequence_reset] look for one after a few calls of
    [process_message], and fail whatever the bytes of their messages are. *)
Theorem messages_leave_no_trace (msgs : list (list Z)) :
  let '(s, r) := (initialize;; process_messages msgs) TaifexSdk_new in
  product_info_cache_ s = ∅ ∧ order_books_ s = ∅ ∧ (r = Ok tt ∨ r = Throw ParsingError).
Proof.
  have Hok : sdk_ok sdk0 by split_and!; apply map_Forall_empty.
  pose proof (process_messages_keeps msgs sdk0 Hok) as H.
  have -> : (initialize;; process_messages msgs) TaifexSdk_new = process_messages msgs sdk0 by done.
  destruct (process_messages msgs sdk0) as [s r]. by destruct H as (Hr & _ & _ & -> & ->).
Qed.

(** [test_process_i002_sequence_reset] sends its I002 on channel 15, written as
    the byte 0x0F, which is no BCD: [process_message] throws. *)
Theorem i002_test_throws :
  Forall (λ kind, (process_messages [create_raw_empty_body_message kind 102 15] sdk0).2 = Throw ParsingError)
    all_bytes.
Proof.
  apply (Forall_impl (λ kind, caught (process_messages [create_raw_empty_body_message kind 102 15] sdk0).2
                                ParsingError = true)).
  - apply for_all_bytes. vm_compute; reflexivity.
  - intros kind. by destruct (process_messages _ _).2 as [|[]|].
Qed.

(** [test_network_manager_deduplication]: where the groups can be joined, the
    first four groups of assertions hold and the last does not: with two feeds
    the window has 200 entries, so after 100 more packets packet 100 is still
    known.  Where the groups cannot be joined (their addresses are no
    addresses), the manager does not run and forwards nothing. *)
Theorem dedup_test_outcome :
  Forall (λ kind,
    (returns (test_network_manager_deduplication (net := test_net 0) kind (NetworkManager_new (Some sdk0))).2 (λ l,
       bool_decide (l = [true; true; true; true; false])),
     returns (test_network_manager_deduplication (net := test_net (-1)) kind (NetworkManager_new (Some sdk0))).2 (λ l,
       bool_decide (l = [false; false; false; false; false]))) = (true, true)) [0; 65; 255].
Proof. repeat constructor; vm_compute; reflexivity. Qed.
